(* ===== verification/_CoqProject ===== *)
-Q . S2P
Prelude.v
GoInt.v
Bytes.v
GoStr.v
Paths.v
Address.v
GoIO.v
Iface.v
Toy.v
Backend.v
Files.v
H2H.v
H2HLock.v
Producer.v
ProducerLaws.v
ProducerSeal.v
ProducerReorg.v
Threads.v
System.v
HeaderFiles.v
LifeCycle.v
CFilterFiles.v
Verify.v
VerifyLaws.v
PrevOuts.v
ToyNet.v
PrevOutsLaws.v
SealSeq.v
SPTweaks.v
SPTweaksLaws.v
CustomFilters.v
CustomFiltersLaws.v
HttpServer.v
HttpLaws.v
Handlers.v
ToyServer.v
HandlersLaws.v
HandlersContent.v
HandlersImport.v
Server.v
ServerLaws.v
Shutdown.v
Serving.v
Flags.v
Main.v
