(* ===== verification/Prelude.v ===== *)
(** * block-dn: a verification library

    block-dn serves the block headers, filter headers and compact filters of a
    Bitcoin chain as static files over HTTP. It follows the chain of a backend
    node, keeps the newest blocks in memory, and writes ranges of blocks deep
    enough to be safe from reorganizations to files that never change again.

    ** The program, and where it is modelled

    - The cache from heights to hashes that every other part shares
      ([height-to-hash-cache.go]): [H2H]; its locking, as interleaved threads,
      is [H2HLock].
    - The producers. One life cycle ([file-producer.go]: resume, catch-up,
      seal, poll, roll back) is [Producer]; its four instances are
      [HeaderFiles] ([header-files.go]), [CFilterFiles] ([cfilter-files.go]),
      [SPTweaks] ([silent-payments-files.go]) and [CustomFilters]
      ([custom-filter-files.go]). An instance is a record of hooks, as in the
      source. How a producer finds the height to resume from
      ([listFiles], [lastFile] of [cfilter-files.go]) is [Files].
    - Blocks with the scripts they spend, for the last two producers
      ([block-prevouts.go]: REST, RPC, the parser of the undo data, the
      prefetcher): [PrevOuts].
    - The request handlers ([handlers.go], [models.go]): [Handlers], on the
      response writer, the file server and the routes of [HttpServer].
    - The verify command ([verify.go]): [Verify].
    - The server ([server.go]) and the choice of the network ([main.go]):
      [Server]. A producer as a thread of its own is [Threads]; all producers
      and requests interleaved are [System]. [Serving] puts the handlers on
      top of the running system, [Shutdown] is about its end.
    - The flags, the fields of the program they are bound to and what a command
      line makes of them ([main.go]): [Flags].
    - The two commands, from their flags to the point where the server or the
      verification takes over ([main.go], [runVerify] of [verify.go]): [Main].
      The address of the server the verify command asks ([serverBaseURL]), on
      the parsers of package [net]: [Address].

    The other files are the language and its library ([GoInt]: machine
    integers and loops; [Bytes]: little-endian integers and hexadecimal;
    [GoStr]: formatting, file names, regular expressions; [Paths]: what
    [filepath.Join] does; [GoIO]: writers and the file system), the interfaces
    to packages outside the repository ([Iface], [Backend]), laws
    ([ProducerLaws], [ProducerSeal], [ProducerReorg], [LifeCycle], [SealSeq],
    and every file whose name ends in [Laws]; [HandlersContent] and
    [HandlersImport] for the bodies of the answers), and concrete instances of
    the interfaces for the examples ([Toy], [ToyNet], [ToyServer]).

    ** Conventions

    A Go function with the receiver state [S] and results [(A, error)] is a
    function [M S A := S -> result A * S], which keeps the state an error
    leaves behind. An error keeps its format string and the error it wraps,
    which is what [errors.Is] looks at; the arguments of the format are
    dropped. Integers are [Z]; what can leave an [int32] or [uint32] is wrapped
    ([i32], [u32]) where the code does. [Env W] is what the producers share:
    the world [W] of the backend, the file system and the cache.

    The file system of [GoIO] maps paths to contents and holds an oracle that
    may fail every operation: a write may stop after any prefix, and the file
    is left with it. The backend is a family of operations on [W] without any
    law but the bound on heights: two calls need not agree, so reorganizations
    between any two calls are included. The laws the theorems use are classes
    of their own, with the toy instances as the example that they can hold:
    [WireLaws] and [WireCanonical] (what the decoders of the btcd packages
    read back), [BoundedChain] (heights stay below ten million, the range of
    the seven digits of the file names), [HookLaws] (what a producer promises
    to the life cycle; an instance for each of the four), [Apart] (what two
    producers promise each other). Theorems on hashes and filters state
    injectivity "up to a collision": the conclusion has the colliding inputs
    as an alternative.

    ** Loops and fuel

    Counted loops are [forM] over a list of heights, justified against the
    wrapping increment in [GoInt]. The loops whose number of rounds depends on
    data have fuel, and it is enough: the sealing loop has as many rounds as
    there are heights up to the safe tip ([sealReadyFiles_schedule]: it is the
    computed list of whole files, and [sealReadyFiles_fuel]); the loaders of
    files have the length of the file and one round
    ([loadFromHeaders_terminates], [readEntries_fuel]); the header chains are
    rebuilt with one round for each height ([rebuildLoop_fuel]), and so is an
    import answered ([safe_importLoop]); the walks of the verify command have
    their number of rounds as an argument, and one for each file and one more
    is enough ([runVerify_terminates]). The poll loop does not end by itself:
    its number of polls is an argument, and the theorems hold for every number.

    ** What the theorems show

    - Sealed files. The sealing loop writes exactly the whole files below the
      safe tip ([sealReadyFiles_schedule], [sealReadyFiles_complete]); however
      a run of a producer ends, files sealed before are left as they were
      ([updateFiles_keeps_sealed]), and so in every interleaving of all
      producers and requests ([producers_keep_sealed_files], with
      [updateFiles_is_its_thread] relating the two models). Files that serve as
      the mark of progress are written last ([sp_seal_resume_last],
      [cu_seal_resume_last]), which the header producer gets wrong
      ([failed_seal_resumes_after]).
    - Reorganizations. What a rollback drops and when it refuses
      ([handleReorg_outcomes]), and that memory is on the chain of the backend
      afterwards ([handleReorg_on_chain]).
    - Commitment. Headers and filters that pass verification are the only
      ones that could ([verifyHeaders_commits], [verifyFilters_commits],
      [verifyHeaderFiles_sound], [checkFilterFile_commits]); what is sealed is
      what was stored and passes the verify command
      ([hf_writeSealedFile_spec], [sealed_headers_verify],
      [filters_seal_then_read]); a repair is all or nothing
      ([verifyOneHeaderFile_repairs]) and needs [--fix]
      ([verifyCommand_only_reads]).
    - Restart. The cache read from the files is the sealed chain
      ([seal_then_load], [start_checks_the_headers]),
      and the filter header chains rebuilt from disk are those of a run without
      interruption ([resume_rebuilds_chain]).
    - Formats. Undo data and tweak files are parsed exactly
      ([parseSpentTxOuts_exact], [sp_file_roundtrip],
      [sp_operations_keep_wf]).
    - Previous outputs. A fetched block has the script of every input
      ([fetchBlockREST_aligned]) and the prefetcher is transparent under every
      schedule of its fetches ([prefetch_transparent]).
    - Requests. Every request is answered, but for the routes that take the
      lock of the cache ([every_request_is_answered],
      [status_recursive_lock_deadlock], [stale_hash_after_invalidate]); what
      the answers contain ([memory_headers_complete], [import_is_the_chain];
      [sealed_ranges_are_final], on top of the running system: a sealed range
      is answered with the same bytes for ever) and where they
      are wrong ([import_error_in_the_body], [huge_start_height_accepted],
      [unfinished_file_is_served], [light_mode_has_no_status]).
    - The end. Once [stop] closes the [quit] channel every producer ends
      ([shutdown_ends_producers]).
    - The commands. A flag has the value the command line gives it last or its
      default, and no two share a field ([parseFlags_exact]). Whatever the
      flags, a server that runs fits its producers
      ([runServer_fits_producers]), and the verify command asks the server at
      an address that can be dialed ([serverBaseURL_reaches]).

    ** Interleaving

    A thread of [System] makes one step for each call of a hook, so two
    producers interleave between blocks and between files; an event of the
    rest of the program may change the backend and the cache arbitrarily
    between two steps. A handler is interleaved more finely: before every
    access to something shared the oracle [tick] changes the whole state. The
    race of two lookups of the cache inside one hook is in [H2HLock], where
    every lock operation is a step. Nothing is assumed about fairness.

    ** Not modelled

    Logging, printing and statistics for the log, which compute nothing the
    rest depends on, and the reading of the texts of the arguments by cobra and
    pflag. Packages outside the repository are
    parameters: the decoders of the btcd packages, the RPC client, JSON, the
    construction of filters, the tweak computation. Of [net/http] the answers
    to requests without conditions and with a single range are modelled; not
    multiple ranges, conditional requests, [Last-Modified] and [HEAD]. The
    sockets, the queue of errors between the goroutines and the process, and
    the end of the process on a signal are the libraries'. *)

From stdpp Require Import base numbers list gmap strings.
From Stdlib Require Import ZArith Lia.

Open Scope Z_scope.
#[export] Set Warnings "-clear-no-such-hyp".

Declare Scope go_scope.
Delimit Scope go_scope with go.

(** ** Go error values *)

(** An [error] value keeps the format string it was built from and the error
    it wraps; formatted arguments (heights, hashes, names) are dropped. *)
Inductive error : Type :=
  | Errorf (format : string)
  | Wrapf (format : string) (inner : error)
  | Sentinel (name : string)
  | External (what : string)
  | OutOfFuel.

#[export] Instance error_eq_dec : EqDecision error.
Proof. solve_decision. Defined.

(** [errors.Is]: follow the chain of wrapped errors. *)
Fixpoint errors_Is (e target : error) : bool :=
  bool_decide (e = target) ||
  match e with
  | Wrapf _ e' => errors_Is e' target
  | _ => false
  end.

(** [io.EOF] and [io.ErrUnexpectedEOF]. *)
Definition io_EOF : error := Sentinel "EOF".
Definition io_ErrUnexpectedEOF : error := Sentinel "unexpected EOF".

Inductive result (A : Type) : Type :=
  | Ok (a : A)
  | Err (e : error).
Arguments Ok {A} a.
Arguments Err {A} e.

Definition is_Ok {A} (r : result A) : bool :=
  match r with Ok _ => true | Err _ => false end.

#[export] Instance result_eq_dec `{EqDecision A} : EqDecision (result A).
Proof. solve_decision. Defined.

Definition res_bind {A B} (r : result A) (k : A -> result B) : result B :=
  match r with Ok a => k a | Err e => Err e end.

(** [if err != nil { return fmt.Errorf("...%w", err) }] *)
Definition res_wrap {A} (f : string) (r : result A) : result A :=
  match r with Ok a => Ok a | Err e => Err (Wrapf f e) end.

(** ** The state and error monad

    A Go function with receiver state [S] and results [(A, error)] becomes a
    function [M S A].  An error keeps the state reached so far: Go does not
    roll anything back. *)
Definition M (S A : Type) : Type := S -> result A * S.

Definition ret {S A} (a : A) : M S A := fun s => (Ok a, s).
Definition fail {S A} (e : error) : M S A := fun s => (Err e, s).
Definition bind {S A B} (m : M S A) (k : A -> M S B) : M S B :=
  fun s => match m s with
           | (Ok a, s') => k a s'
           | (Err e, s') => (Err e, s')
           end.
Definition get {S} : M S S := fun s => (Ok s, s).
Definition gets {S A} (f : S -> A) : M S A := fun s => (Ok (f s), s).
Definition modify {S} (f : S -> S) : M S unit := fun s => (Ok tt, f s).
Definition liftR {S A} (r : result A) : M S A := fun s => (r, s).
Definition wrapE {S A} (f : string) (m : M S A) : M S A :=
  fun s => let '(r, s') := m s in (res_wrap f r, s').
(** Run [m] and hand its result, error or not, to the continuation. *)
Definition catch {S A} (m : M S A) : M S (result A) :=
  fun s => let '(r, s') := m s in (Ok r, s').

(** [defer f()]: run [f] whatever the outcome of [m]. *)
Definition finally {S A} (m : M S A) (f : S -> S) : M S A :=
  fun s => let '(r, s') := m s in (r, f s').

Notation "'let!' x := m 'in' k" := (bind m (fun x => k))
  (at level 10, x pattern, m at level 200, k at level 200,
   format "'[v' 'let!'  x  :=  m  'in' '/' k ']'") : go_scope.
Notation "m ;;; k" := (bind m (fun _ => k))
  (at level 100, k at level 200, right associativity) : go_scope.
Open Scope go_scope.

Create HintDb go discriminated.
Create Rewrite HintDb go.

(** Run an operation of a component of the state. *)
Definition zoom {S T A} (view : S -> T) (upd : T -> S -> S) (m : M T A) : M S A :=
  fun s => let '(r, t) := m (view s) in (r, upd t s).

Fixpoint forM {S A} (l : list A) (body : A -> M S unit) : M S unit :=
  match l with
  | [] => ret tt
  | x :: l' => body x ;;; forM l' body
  end.

(** A loop with local variables [acc] that only reads the state. *)
Fixpoint res_fold {A B} (f : B -> A -> result B) (acc : B) (l : list A) : result B :=
  match l with
  | [] => Ok acc
  | x :: l' => res_bind (f acc x) (fun acc' => res_fold f acc' l')
  end.

Lemma res_fold_app {A B} (f : B -> A -> result B) acc l1 l2 :
  res_fold f acc (l1 ++ l2) = res_bind (res_fold f acc l1) (fun acc' => res_fold f acc' l2).
Proof.
  revert acc. induction l1 as [|x l1 IH]; intros acc; cbn; [done|].
  by destruct (f acc x); cbn; [apply IH|].
Qed.

(** ** Hoare rules

    [hoare P m Q]: started in a state of [P], [m] ends with a result and a
    state related by [Q].  Errors are results, so [Q] speaks about them too. *)
Definition hoare {S A} (P : S -> Prop) (m : M S A)
    (Q : result A -> S -> Prop) : Prop :=
  forall s, P s -> let '(r, s') := m s in Q r s'.

(** A postcondition that only constrains success. *)
Definition on_ok {S A} (Q : A -> S -> Prop) (r : result A) (s : S) : Prop :=
  match r with Ok a => Q a s | Err _ => True end.

(** Same constraint on success and failure. *)
Definition always {S A} (Q : S -> Prop) (_ : result A) (s : S) : Prop := Q s.

Section HoareRules.
Context {S A B : Type}.
Implicit Types (P : S -> Prop) (s : S).

Lemma hoare_run P (m : M S A) Q s r s' :
  hoare P m Q -> P s -> m s = (r, s') -> Q r s'.
Proof. intros H HP E. specialize (H s HP). by rewrite E in H. Qed.

Lemma hoare_pre P P' (m : M S A) Q :
  hoare P m Q -> (forall s, P' s -> P s) -> hoare P' m Q.
Proof. intros H HP s Hs. by apply H, HP. Qed.

Lemma hoare_post P (m : M S A) (Q Q' : result A -> S -> Prop) :
  hoare P m Q -> (forall r s, Q r s -> Q' r s) -> hoare P m Q'.
Proof.
  intros H HQ s Hs. specialize (H s Hs). destruct (m s). by apply HQ.
Qed.

Lemma hoare_ret P (a : A) Q :
  (forall s, P s -> Q (Ok a) s) -> hoare P (ret a) Q.
Proof. intros H s Hs. by apply H. Qed.

Lemma hoare_fail P e (Q : result A -> S -> Prop) :
  (forall s, P s -> Q (Err e) s) -> hoare P (fail e) Q.
Proof. intros H s Hs. by apply H. Qed.

Lemma hoare_bind P (m : M S A) (k : A -> M S B) R Q :
  hoare P m (fun r s => match r with
                        | Ok a => R a s
                        | Err e => Q (Err e) s
                        end) ->
  (forall a, hoare (R a) (k a) Q) ->
  hoare P (bind m k) Q.
Proof.
  intros Hm Hk s Hs. unfold bind. specialize (Hm s Hs).
  destruct (m s) as [[a|e] s']; [by apply Hk | done].
Qed.

Lemma hoare_gets P (f : S -> A) Q :
  (forall s, P s -> Q (Ok (f s)) s) -> hoare P (gets f) Q.
Proof. intros H s Hs. by apply H. Qed.

Lemma hoare_modify P (f : S -> S) Q :
  (forall s, P s -> Q (Ok tt) (f s)) -> hoare P (modify f) Q.
Proof. intros H s Hs. by apply H. Qed.

Lemma hoare_wrapE P f (m : M S A) Q :
  hoare P m (fun r s => Q (res_wrap f r) s) -> hoare P (wrapE f m) Q.
Proof.
  intros H s Hs. unfold wrapE. specialize (H s Hs). by destruct (m s).
Qed.

End HoareRules.

Section LoopRules.
Context {S A : Type}.

(** The rule of a counted loop over [l]: the invariant is indexed by the
    part of the list already processed. *)
Lemma hoare_forM (l : list A) (body : A -> M S unit)
    (I : list A -> S -> Prop) Q :
  (forall done x rest, l = done ++ x :: rest ->
     hoare (I done) (body x)
       (fun r s => match r with
                   | Ok _ => I (done ++ [x]) s
                   | Err e => Q (Err e) s
                   end)) ->
  (forall s, I l s -> Q (Ok tt) s) ->
  hoare (I []) (forM l body) Q.
Proof.
  intros Hstep Hend.
  enough (G : forall rest done, l = done ++ rest ->
            hoare (I done) (forM rest body) Q) by (by apply (G l [])).
  induction rest as [|x rest IH]; intros done E; cbn.
  - rewrite app_nil_r in E; subst. by apply hoare_ret.
  - eapply hoare_bind; [by apply (Hstep done x rest)|].
    intros []. apply IH. by rewrite <- app_assoc.
Qed.
End LoopRules.

(** Inversion of a successful bind, and of each primitive. *)
Lemma bind_Ok_inv {S A B} (m : M S A) (k : A -> M S B) s b s' :
  bind m k s = (Ok b, s') ->
  exists a s1, m s = (Ok a, s1) /\ k a s1 = (Ok b, s').
Proof. unfold bind. destruct (m s) as [[a|e] s1]; naive_solver. Qed.

Lemma bind_Ok {S A B} (m : M S A) (k : A -> M S B) s a s1 :
  m s = (Ok a, s1) -> bind m k s = k a s1.
Proof. unfold bind. by intros ->. Qed.

Lemma bind_Err {S A B} (m : M S A) (k : A -> M S B) s e s1 :
  m s = (Err e, s1) -> bind m k s = (Err e, s1).
Proof. unfold bind. by intros ->. Qed.

Lemma wrapE_Ok_inv {S A} f (m : M S A) s a s' :
  wrapE f m s = (Ok a, s') -> m s = (Ok a, s').
Proof. unfold wrapE. destruct (m s) as [[?|?] ?]; naive_solver. Qed.

Lemma wrapE_Ok {S A} f (m : M S A) s a s' :
  m s = (Ok a, s') -> wrapE f m s = (Ok a, s').
Proof. unfold wrapE. by intros ->. Qed.

Lemma forM_app {S A} (l1 l2 : list A) (body : A -> M S unit) s :
  forM (l1 ++ l2) body s = (forM l1 body ;;; forM l2 body) s.
Proof.
  revert s. induction l1 as [|x l1 IH]; intros s; cbn; [done|].
  unfold bind in *. destruct (body x s) as [[?|?] s1]; [|done]. apply IH.
Qed.

Lemma forM_ext {S A} (l : list A) (f g : A -> M S unit) s :
  (forall x s, x ∈ l -> f x s = g x s) -> forM l f s = forM l g s.
Proof.
  revert s. induction l as [|x l IH]; intros s H; cbn; [done|].
  unfold bind. rewrite H by set_solver.
  destruct (g x s) as [[?|?] s1]; [|done]. apply IH. set_solver.
Qed.

Lemma run_Ok {S A} (m : M S A) s a : (m s).1 = Ok a -> m s = (Ok a, (m s).2).
Proof. destruct (m s). cbn. by intros ->. Qed.

(** ** Collecting options *)

Lemma mapM_cons_Some {A B} (f : A -> option B) x l ys :
  mapM f (x :: l) = Some ys <->
  exists y t, f x = Some y /\ mapM f l = Some t /\ ys = y :: t.
Proof.
  rewrite mapM_Some. split.
  - intros H. inversion H as [|? y ? t Hy Ht]; subst. exists y, t.
    by rewrite mapM_Some.
  - intros (y & t & Hy & Ht & ->). constructor; [done|]. by apply mapM_Some.
Qed.

Lemma mapM_nil_Some {A B} (f : A -> option B) ys : mapM f [] = Some ys <-> ys = [].
Proof. split; [by intros [= <-]|by intros ->]. Qed.

Lemma mapM_fmap_Some {A B C} (f : A -> option B) (g : B -> C) l ys :
  mapM (fun x => g <$> f x) l = Some ys <-> exists xs, mapM f l = Some xs /\ ys = map g xs.
Proof.
  revert ys. induction l as [|x l IH]; intros ys.
  - setoid_rewrite mapM_nil_Some. split; [intros ->; by exists []|by intros (? & -> & ->)].
  - setoid_rewrite mapM_cons_Some. setoid_rewrite IH. split.
    + intros (y & t & (b & Hb & ->)%fmap_Some & (xs & Hxs & ->) & ->).
      exists (b :: xs). split; [by exists b, xs|done].
    + intros (xs & (b & t & Hb & Ht & ->) & ->). exists (g b), (map g t).
      split_and!; [by rewrite Hb|by exists t|done].
Qed.

Lemma Forall2_impl_in {A B} (P Q : A -> B -> Prop) l k :
  Forall2 P l k -> (forall x y, x ∈ l -> P x y -> Q x y) -> Forall2 Q l k.
Proof. induction 1; intros HPQ; constructor; [apply HPQ; set_solver|]. set_solver. Qed.

(** ** Frames

    [keeps R m]: whatever the outcome, [m] moves the state along the preorder
    [R]. *)
Definition keeps {S A} (R : relation S) (m : M S A) : Prop :=
  forall s r s', m s = (r, s') -> R s s'.

Section Keeps.
Context {S : Type} (R : relation S) `{!PreOrder R}.

Lemma keeps_ret {A} (a : A) : keeps R (ret a).
Proof. intros s r s' [= _ <-]. reflexivity. Qed.
Lemma keeps_fail {A} e : keeps R (@fail S A e).
Proof. intros s r s' [= _ <-]. reflexivity. Qed.
Lemma keeps_gets {A} (f : S -> A) : keeps R (gets f).
Proof. intros s r s' [= _ <-]. reflexivity. Qed.
Lemma keeps_get : keeps R get.
Proof. intros s r s' [= _ <-]. reflexivity. Qed.
Lemma keeps_liftR {A} (r : result A) : keeps R (liftR r).
Proof. intros s r' s' [= _ <-]. reflexivity. Qed.
Lemma keeps_wrapE {A} f (m : M S A) : keeps R m -> keeps R (wrapE f m).
Proof.
  intros H s r s'. unfold wrapE. destruct (m s) as [r1 s1] eqn:E.
  intros [= _ <-]. by eapply H.
Qed.
Lemma keeps_catch {A} (m : M S A) : keeps R m -> keeps R (catch m).
Proof.
  intros H s r s'. unfold catch. destruct (m s) as [r1 s1] eqn:E.
  intros [= _ <-]. by eapply H.
Qed.
Lemma keeps_bind {A B} (m : M S A) (k : A -> M S B) :
  keeps R m -> (forall a, keeps R (k a)) -> keeps R (bind m k).
Proof.
  intros Hm Hk s r s'. unfold bind. destruct (m s) as [[a|e] s1] eqn:E.
  - intros E'. etransitivity; [by eapply Hm|by eapply Hk].
  - intros [= _ <-]. by eapply Hm.
Qed.
Lemma keeps_forM_in {A} (l : list A) (body : A -> M S unit) :
  (forall x, x ∈ l -> keeps R (body x)) -> keeps R (forM l body).
Proof.
  induction l as [|x l IH]; intros Hb; cbn; [apply keeps_ret|].
  apply keeps_bind; [apply Hb; left|]. intros _. apply IH. intros y Hy. apply Hb. by right.
Qed.

Lemma keeps_forM {A} (l : list A) (body : A -> M S unit) :
  (forall x, keeps R (body x)) -> keeps R (forM l body).
Proof.
  intros Hb. induction l as [|x l IH]; cbn; [apply keeps_ret|by apply keeps_bind].
Qed.
End Keeps.

#[export] Hint Resolve keeps_ret keeps_fail keeps_gets keeps_get keeps_liftR keeps_wrapE
  keeps_catch keeps_bind keeps_forM : go.

(** A finer preorder keeps more. *)
Lemma keeps_sub {S A} (R R' : relation S) (m : M S A) :
  (forall s s', R s s' -> R' s s') -> keeps R m -> keeps R' m.
Proof. intros HR Hm s r s' E. by eapply HR, Hm. Qed.

(** ** Computations that do not run out of fuel *)
Definition ends {S A} (m : M S A) : Prop := forall s, (m s).1 <> Err OutOfFuel.

Lemma ends_ret {S A} (a : A) : ends (@ret S A a).
Proof. done. Qed.
Lemma ends_gets {S A} (f : S -> A) : ends (gets f).
Proof. done. Qed.
Lemma ends_modify {S} (f : S -> S) : ends (modify f).
Proof. done. Qed.
Lemma ends_fail {S A} f : ends (@fail S A (Errorf f)).
Proof. done. Qed.
Lemma ends_wrapE {S A} f (m : M S A) : ends (wrapE f m).
Proof. intros s. unfold wrapE. by destruct (m s) as [[?|?] ?]. Qed.
Lemma ends_catch {S A} (m : M S A) : ends (catch m).
Proof. intros s. unfold catch. by destruct (m s). Qed.
Lemma ends_bind {S A B} (m : M S A) (k : A -> M S B) :
  ends m -> (forall a, ends (k a)) -> ends (bind m k).
Proof.
  intros Hm Hk s. unfold bind. specialize (Hm s).
  destruct (m s) as [[a|e] s1]; [apply Hk|]. cbn in *. intros [= ->]. done.
Qed.

#[export] Hint Resolve ends_ret ends_gets ends_modify ends_fail ends_wrapE ends_catch ends_bind : go.

(** ** Computations that never fail *)
Definition total {S A} (m : M S A) : Prop := forall s, is_Ok (m s).1 = true.

Lemma total_ret {S A} (a : A) : total (@ret S A a).
Proof. done. Qed.
Lemma total_gets {S A} (f : S -> A) : total (gets f).
Proof. done. Qed.
Lemma total_modify {S} (f : S -> S) : total (modify f).
Proof. done. Qed.
Lemma total_catch {S A} (m : M S A) : total (catch m).
Proof. intros s. unfold catch. by destruct (m s). Qed.
Lemma total_bind {S A B} (m : M S A) (k : A -> M S B) :
  total m -> (forall a, total (k a)) -> total (bind m k).
Proof.
  intros Hm Hk s. unfold bind. specialize (Hm s). destruct (m s) as [[a|e] s1]; [apply Hk|done].
Qed.
Lemma total_forM {S A} (l : list A) (body : A -> M S unit) :
  (forall x, total (body x)) -> total (forM l body).
Proof. intros Hb. induction l as [|x l IH]; cbn; [done|by apply total_bind]. Qed.
Lemma total_run {S A} (m : M S A) s r s' : total m -> m s = (r, s') -> exists a, r = Ok a.
Proof. intros Hm E. specialize (Hm s). rewrite E in Hm. destruct r; [by eexists|done]. Qed.

#[export] Hint Resolve total_ret total_gets total_modify total_catch total_bind total_forM : go.

(** [mrun H]: decompose hypotheses [bind ... s = (Ok _, _)]. *)
Ltac mrun1 :=
  match goal with
  | H : bind ?m ?k ?s = (Ok ?b, ?s') |- _ =>
      let a := fresh "v" in let s1 := fresh "s" in
      let E := fresh "Em" in
      apply bind_Ok_inv in H as (a & s1 & E & H)
  | H : wrapE _ _ _ = (Ok _, _) |- _ => apply wrapE_Ok_inv in H
  | H : ret _ _ = (_, _) |- _ => unfold ret in H
  | H : fail _ _ = (_, _) |- _ => unfold fail in H
  | H : get _ = (_, _) |- _ => unfold get in H
  | H : gets _ _ = (_, _) |- _ => unfold gets in H
  | H : modify _ _ = (_, _) |- _ => unfold modify in H
  | H : liftR _ _ = (_, _) |- _ => unfold liftR in H
  | H : (_, _) = (_, _) |- _ => simplify_eq H
  end.
Ltac mrun := repeat (mrun1; simplify_eq/=).

(** [ran]: introduce the equation of a finished computation and use it. *)
Ltac ran :=
  let H := fresh "H" in
  intros H; cbv beta iota delta [ret fail get gets modify liftR res_wrap] in H; simplify_eq H; intros; simplify_eq.
