(* ===== verification/GoInt.v ===== *)
(** * Go integers and counted loops

    Machine integers are [Z] values; every arithmetic operation of the code
    whose result can leave the type goes through the wrapping function of its
    width.  A loop [for j := a; j <= b; j++] over [int32] is [forM (range a b)];
    [go_for_range] justifies that reading against the loop with its wrapping
    increment. *)

From stdpp Require Import base numbers list gmap.
From Stdlib Require Import ZArith Lia.
From S2P Require Import Prelude.

Definition max_int32 : Z := 2147483647.
Definition min_int32 : Z := -2147483648.
Definition max_int64 : Z := 9223372036854775807.

(** Conversions to [int32], [uint32], [int64] and [uint64]. *)
Definition i32 (z : Z) : Z := (z + 2147483648) mod 4294967296 - 2147483648.
Definition u32 (z : Z) : Z := z mod 4294967296.
Definition i64 (z : Z) : Z :=
  (z + 9223372036854775808) mod 18446744073709551616 - 9223372036854775808.
Definition u64 (z : Z) : Z := z mod 18446744073709551616.

Definition int32 (z : Z) : Prop := min_int32 <= z <= max_int32.
Definition uint64 (z : Z) : Prop := 0 <= z < 18446744073709551616.

#[export] Instance int32_dec z : Decision (int32 z).
Proof. unfold int32. apply _. Defined.

Lemma i32_id z : int32 z -> i32 z = z.
Proof. unfold i32, int32, min_int32, max_int32. intros. rewrite Z.mod_small; lia. Qed.

Lemma i32_range z : int32 (i32 z).
Proof.
  unfold i32, int32, min_int32, max_int32.
  pose proof (Z.mod_pos_bound (z + 2147483648) 4294967296). lia.
Qed.

Lemma i32_idemp z : i32 (i32 z) = i32 z.
Proof. apply i32_id, i32_range. Qed.

Lemma i64_id z : - 9223372036854775808 <= z <= max_int64 -> i64 z = z.
Proof. unfold i64, max_int64. intros. rewrite Z.mod_small; lia. Qed.

Lemma u32_id z : 0 <= z < 4294967296 -> u32 z = z.
Proof. unfold u32. intros. by rewrite Z.mod_small. Qed.

Lemma u64_id z : uint64 z -> u64 z = z.
Proof. unfold u64, uint64. intros. by rewrite Z.mod_small. Qed.

(** [i32norm]: drop the conversions whose argument is in range. *)
Ltac i32norm :=
  repeat match goal with
  | |- context [i32 ?z] =>
      rewrite (i32_id z) by (unfold int32, min_int32, max_int32 in *; lia)
  | H : context [i32 ?z] |- _ =>
      rewrite (i32_id z) in H by (unfold int32, min_int32, max_int32 in *; lia)
  end.

(** ** Ranges *)

(** The values of [j] in [for j := a; j <= b; j++]. *)
Definition range (a b : Z) : list Z := seqZ a (b - a + 1).

Lemma elem_of_range a b x : x ∈ range a b <-> a <= x <= b.
Proof. unfold range. rewrite elem_of_seqZ. lia. Qed.

Lemma length_range a b : length (range a b) = Z.to_nat (b - a + 1).
Proof. unfold range. by rewrite length_seqZ. Qed.

Lemma range_nil a b : b < a -> range a b = [].
Proof. intros. unfold range. apply seqZ_nil. lia. Qed.

Lemma range_cons a b : a <= b -> range a b = a :: range (a + 1) b.
Proof.
  intros. unfold range. rewrite seqZ_cons by lia.
  do 2 f_equal; lia.
Qed.

Lemma range_app a m b : a <= m + 1 -> m <= b -> range a b = range a m ++ range (m + 1) b.
Proof.
  intros. unfold range.
  replace (b - a + 1) with ((m - a + 1) + (b - m)) by lia.
  rewrite seqZ_app by lia. do 2 f_equal; lia.
Qed.

Lemma range_snoc a b : a <= b -> range a b = range a (b - 1) ++ [b].
Proof.
  intros. rewrite (range_app a (b - 1) b) by lia. f_equal.
  rewrite range_cons by lia. rewrite range_nil by lia. f_equal. lia.
Qed.

Lemma range_split_inv a b done x rest :
  range a b = done ++ x :: rest ->
  a <= x <= b /\ done = range a (x - 1) /\ rest = range (x + 1) b.
Proof.
  revert a. induction done as [|d done IH]; intros a E.
  - destruct (decide (a <= b)) as [H|H].
    + rewrite range_cons in E by done. simplify_eq/=.
      split_and!; try lia; [by rewrite range_nil by lia|done].
    + rewrite range_nil in E by lia. done.
  - destruct (decide (a <= b)) as [H|H]; [|rewrite range_nil in E by lia; done].
    rewrite range_cons in E by done. cbn in E. simplify_eq.
    destruct (IH (d + 1)) as (? & -> & ->); [done|].
    split_and!; try lia; [|done]. rewrite (range_cons d) by lia. done.
Qed.

Lemma NoDup_range a b : NoDup (range a b).
Proof. apply NoDup_seqZ. Qed.

(** The loop rule over a range, with the loop variable as the index of the
    invariant. *)
Lemma hoare_range {S} (a b : Z) (body : Z -> M S unit)
    (I : Z -> S -> Prop) (Q : result unit -> S -> Prop) :
  a <= b + 1 ->
  (forall i, a <= i <= b ->
     hoare (I i) (body i) (fun r s => match r with
                                      | Ok _ => I (i + 1) s
                                      | Err e => Q (Err e) s
                                      end)) ->
  (forall s, I (b + 1) s -> Q (Ok tt) s) ->
  hoare (I a) (forM (range a b) body) Q.
Proof.
  intros Hab Hstep Hend.
  eapply (hoare_pre (fun s => I (a + Z.of_nat (length (@nil Z))) s));
    [|intros s; by rewrite Z.add_0_r].
  apply (hoare_forM _ _ (fun done s => I (a + Z.of_nat (length done)) s)).
  - intros done x rest E. apply range_split_inv in E as (Hx & -> & ->).
    rewrite length_app, length_range. cbn.
    replace (a + Z.of_nat (Z.to_nat (x - 1 - a + 1))) with x by lia.
    replace (a + Z.of_nat (Z.to_nat (x - 1 - a + 1) + 1)) with (x + 1) by lia.
    by apply Hstep.
  - intros s. rewrite length_range.
    replace (a + Z.of_nat (Z.to_nat (b - a + 1))) with (b + 1) by lia. apply Hend.
Qed.

(** ** The loop with its wrapping increment *)

Fixpoint go_for {S} (fuel : nat) (i b : Z) (body : Z -> M S unit) : M S unit :=
  match fuel with
  | O => fail OutOfFuel
  | Datatypes.S fuel' =>
      if i <=? b then body i ;;; go_for fuel' (i32 (i + 1)) b body else ret tt
  end.

(** Below the largest [int32] the wrapping loop is the loop over the range. *)
Lemma go_for_range {S} fuel a b (body : Z -> M S unit) s :
  int32 a -> int32 b -> b < max_int32 ->
  (Z.to_nat (b - a + 1) < fuel)%nat ->
  go_for fuel a b body s = forM (range a b) body s.
Proof.
  revert a s. induction fuel as [|fuel IH]; intros a s Ha Hb Hmax Hf; [lia|].
  cbn. destruct (Z.leb_spec a b) as [H|H].
  - rewrite range_cons by done. cbn. unfold bind.
    destruct (body a s) as [[?|?] s1]; [|done].
    unfold int32, min_int32, max_int32 in *.
    rewrite i32_id by (unfold int32, min_int32, max_int32; lia).
    apply IH; lia.
  - by rewrite range_nil.
Qed.

(** At the largest [int32] the comparison never fails: the loop only ends with
    an error of its body. *)
Lemma go_for_max_int32 {S} fuel a (body : Z -> M S unit) s :
  int32 a -> (forall i s, is_Ok (body i s).1 = true) ->
  (go_for fuel a max_int32 body s).1 = Err OutOfFuel.
Proof.
  intros Ha Hok. revert a s Ha. induction fuel as [|fuel IH]; intros a s Ha; [done|].
  cbn. destruct (Z.leb_spec a max_int32) as [H|H]; [|unfold int32 in Ha; lia].
  unfold bind. specialize (Hok a s). destruct (body a s) as [[?|?] s1]; [|done].
  apply IH, i32_range.
Qed.

(** ** Searching loops

    [searchM l body]: run [body] on the elements of [l] in order until it
    returns [Some]. *)
Fixpoint searchM {S A B} (l : list A) (body : A -> M S (option B)) : M S (option B) :=
  match l with
  | [] => ret None
  | x :: l' =>
      let! r := body x in
      match r with
      | Some b => ret (Some b)
      | None => searchM l' body
      end
  end.

Lemma hoare_searchM {S A B} (l : list A) (body : A -> M S (option B)) (I : S -> Prop) Q :
  (forall x, x ∈ l -> hoare I (body x) (fun r s => match r with
                                          | Ok None => I s
                                          | _ => Q r s
                                          end)) ->
  (forall s, I s -> Q (Ok None) s) -> hoare I (searchM l body) Q.
Proof.
  intros Hb Hend. induction l as [|x l IH]; cbn [searchM]; [by apply hoare_ret|].
  eapply hoare_bind with (R := fun r s => match r with None => I s | Some b => Q (Ok (Some b)) s end).
  - eapply hoare_post; [apply Hb; set_solver|]. by intros [[b|]|e] s.
  - intros [b|]; [by apply hoare_ret|]. apply IH. intros. apply Hb. set_solver.
Qed.

(** The values of [h] in [for h := a; h > b; h--]. *)
Definition range_down (a b : Z) : list Z := rev (range (b + 1) a).

Lemma elem_of_range_down a b x : x ∈ range_down a b <-> b < x <= a.
Proof.
  unfold range_down. rewrite list_elem_of_In, <- in_rev, <- list_elem_of_In.
  rewrite elem_of_range. lia.
Qed.

Lemma range_down_cons a b : b < a -> range_down a b = a :: range_down (a - 1) b.
Proof. intros. unfold range_down. rewrite range_snoc by lia. by rewrite rev_app_distr. Qed.

Lemma range_down_nil a b : a <= b -> range_down a b = [].
Proof. intros. unfold range_down. by rewrite range_nil by lia. Qed.

(** ** Deleting a range of keys *)

(** [for j := a; j <= b; j++ { delete(m, j) }] *)
Definition delete_range {A} (a b : Z) (m : gmap Z A) : gmap Z A :=
  foldl (fun m j => delete j m) m (range a b).

Lemma lookup_delete_range {A} a b (m : gmap Z A) h :
  delete_range a b m !! h = if decide (a <= h <= b) then None else m !! h.
Proof.
  unfold delete_range.
  assert (G : forall l (m : gmap Z A), foldl (fun m j => delete j m) m l !! h
              = if decide (h ∈ l) then None else m !! h).
  { induction l as [|x l IH]; intros m'; cbn; [by rewrite decide_False by set_solver|].
    rewrite IH. destruct (decide (h = x)) as [->|Hne].
    - rewrite lookup_delete_eq. rewrite (decide_True (P := x ∈ x :: l)) by set_solver.
      by case_decide.
    - rewrite lookup_delete_ne by done. apply decide_ext. set_solver. }
  rewrite G. repeat case_decide; try done; rewrite elem_of_range in *; lia.
Qed.


#[export] Hint Rewrite @lookup_delete_range @elem_of_range @length_range : go.
#[export] Hint Resolve i32_range NoDup_range : go.
