(* ===== verification/Bytes.v ===== *)
(** * Bytes, little-endian integers, hexadecimal

    [binary.LittleEndian], [encoding/hex] and the fixed-size arrays of the
    code ([chainhash.Hash] is a [[32]byte]). *)

From Stdlib Require Import ZArith Lia Strings.Byte Ascii String.
From stdpp Require Import base numbers list strings.
From S2P Require Import Prelude GoInt.

#[export] Instance byte_eq_dec : EqDecision byte := Byte.byte_eq_dec.

Abbreviation bytes := (list byte).

(** [byte(z)]: the low eight bits. *)
Definition byte_of_Z (z : Z) : byte :=
  match Byte.of_N (Z.to_N (z mod 256)) with
  | Some b => b
  | None => x00
  end.
Definition Z_of_byte (b : byte) : Z := Z.of_N (Byte.to_N b).

Lemma Z_of_byte_bound b : 0 <= Z_of_byte b < 256.
Proof. unfold Z_of_byte. pose proof (Byte.to_N_bounded b). lia. Qed.

Lemma Z_of_byte_of_Z z : Z_of_byte (byte_of_Z z) = z mod 256.
Proof.
  unfold byte_of_Z, Z_of_byte.
  pose proof (Z.mod_pos_bound z 256 ltac:(lia)) as Hb.
  destruct (Byte.of_N (Z.to_N (z mod 256))) as [b|] eqn:E.
  - apply Byte.to_of_N in E. rewrite E. lia.
  - apply Byte.of_N_None_iff in E. lia.
Qed.

Lemma byte_of_Z_of_byte b : byte_of_Z (Z_of_byte b) = b.
Proof.
  unfold byte_of_Z. pose proof (Z_of_byte_bound b).
  rewrite Z.mod_small by done. unfold Z_of_byte.
  by rewrite N2Z.id, Byte.of_to_N.
Qed.

(** ** Little-endian integers *)

(** [binary.LittleEndian.PutUint32] (n = 4) and [PutUint64] (n = 8). *)
Fixpoint put_le (n : nat) (z : Z) : bytes :=
  match n with
  | O => []
  | S n' => byte_of_Z z :: put_le n' (z / 256)
  end.

(** [binary.LittleEndian.Uint32] and [Uint64]. *)
Fixpoint get_le (bs : bytes) : Z :=
  match bs with
  | [] => 0
  | b :: bs' => Z_of_byte b + 256 * get_le bs'
  end.

Lemma length_put_le n z : length (put_le n z) = n.
Proof. revert z. induction n; intros; cbn; auto. Qed.

Lemma get_put_le n z : get_le (put_le n z) = z mod 256 ^ Z.of_nat n.
Proof.
  revert z. induction n as [|n IH]; intros z; cbn [put_le get_le].
  - by rewrite Z.mod_1_r.
  - rewrite IH, Z_of_byte_of_Z, Nat2Z.inj_succ, Z.pow_succ_r by lia.
    pose proof (Z.pow_pos_nonneg 256 (Z.of_nat n)).
    rewrite Z.rem_mul_r by lia. lia.
Qed.

Lemma get_put_le_id n z : 0 <= z < 256 ^ Z.of_nat n -> get_le (put_le n z) = z.
Proof. intros. rewrite get_put_le. by apply Z.mod_small. Qed.

Lemma get_le_bound bs : 0 <= get_le bs < 256 ^ Z.of_nat (length bs).
Proof.
  induction bs as [|b bs IH]; cbn [get_le Datatypes.length]; [lia|].
  rewrite Nat2Z.inj_succ, Z.pow_succ_r by lia.
  pose proof (Z_of_byte_bound b). lia.
Qed.

Lemma put_get_le bs : put_le (length bs) (get_le bs) = bs.
Proof.
  induction bs as [|b bs IH]; cbn [get_le put_le Datatypes.length]; [done|].
  pose proof (Z_of_byte_bound b).
  replace ((Z_of_byte b + 256 * get_le bs) / 256) with (get_le bs)
    by (rewrite Z.mul_comm, Z.div_add, Z.div_small; lia).
  rewrite IH. f_equal.
  rewrite <- (byte_of_Z_of_byte b) at 2. unfold byte_of_Z.
  do 3 f_equal. rewrite Z.mul_comm, Z.mod_add by lia. done.
Qed.

(** ** Hashes *)

(** [chainhash.HashSize]; [wire.MaxBlockHeaderPayload] is in [Iface]. *)
Definition HashSize : Z := 32.

(** A [chainhash.Hash] is an array of 32 bytes; the zero value. *)
Abbreviation Hash := (list byte).
Definition zero_hash : Hash := replicate 32 x00.
Definition is_hash (h : Hash) : Prop := length h = 32%nat.

(** ** Hexadecimal *)

Definition hex_digit (c : ascii) : option Z :=
  let n := Z.of_nat (nat_of_ascii c) in
  if (48 <=? n) && (n <=? 57) then Some (n - 48)
  else if (97 <=? n) && (n <=? 102) then Some (n - 87)
  else if (65 <=? n) && (n <=? 70) then Some (n - 55)
  else None.

(** [hex.DecodeString]; the code drops the bytes decoded before an error. *)
Fixpoint hex_DecodeString (s : string) : result bytes :=
  match s with
  | EmptyString => Ok []
  | String a EmptyString => Err (Sentinel "encoding/hex: odd length hex string")
  | String a (String b s') =>
      match hex_digit a, hex_digit b with
      | Some x, Some y =>
          res_bind (hex_DecodeString s') (fun bs => Ok (byte_of_Z (16 * x + y) :: bs))
      | _, _ => Err (Sentinel "encoding/hex: invalid byte")
      end
  end.

Definition hex_char (z : Z) : ascii :=
  ascii_of_nat (Z.to_nat (if z <? 10 then 48 + z else 87 + z)).

(** [hex.EncodeToString]. *)
Fixpoint hex_EncodeToString (bs : bytes) : string :=
  match bs with
  | [] => EmptyString
  | b :: bs' =>
      String (hex_char (Z_of_byte b / 16))
        (String (hex_char (Z_of_byte b mod 16)) (hex_EncodeToString bs'))
  end.

Lemma hex_digit_char z : 0 <= z < 16 -> hex_digit (hex_char z) = Some z.
Proof.
  intros Hz.
  assert (z ∈ seqZ 0 16) as Hin by (apply elem_of_seqZ; lia).
  revert Hin. generalize z. apply Forall_forall. vm_compute.
  repeat (constructor; [reflexivity|]). constructor.
Qed.

Lemma hex_Decode_Encode bs : hex_DecodeString (hex_EncodeToString bs) = Ok bs.
Proof.
  induction bs as [|b bs IH]; cbn; [done|].
  pose proof (Z_of_byte_bound b).
  pose proof (Z.div_mod (Z_of_byte b) 16 ltac:(lia)).
  pose proof (Z.mod_pos_bound (Z_of_byte b) 16 ltac:(lia)).
  rewrite !hex_digit_char by lia. rewrite IH. cbn.
  by rewrite <- H0, byte_of_Z_of_byte.
Qed.

(** ** Slices of byte lists *)

(** [data[off : off+n]] for an in-range slice. *)
Definition slice (off n : nat) (bs : bytes) : bytes := take n (drop off bs).

Lemma length_slice off n bs :
  (off + n <= length bs)%nat -> length (slice off n bs) = n.
Proof. intros. unfold slice. rewrite length_take, length_drop. lia. Qed.

Lemma slice_app_r n bs1 bs2 :
  slice (length bs1) n (bs1 ++ bs2) = take n bs2.
Proof. unfold slice. by rewrite drop_app_length. Qed.

(** A list is the concatenation of its chunks of [n] bytes. *)
Lemma slices_concat n k bs :
  length bs = (k * n)%nat -> bs = concat (map (fun i => slice (i * n) n bs) (seq 0 k)).
Proof.
  revert bs. induction k as [|k IH]; intros bs HL.
  - by apply nil_length_inv in HL.
  - cbn [seq map concat]. unfold slice at 1. cbn [Nat.mul drop].
    rewrite <- (take_drop n bs) at 1. f_equal.
    rewrite (IH (drop n bs)) by (rewrite length_drop; lia).
    rewrite <- seq_shift, map_map. f_equal. apply map_ext. intros i.
    unfold slice. rewrite drop_drop. do 2 f_equal.
Qed.

Lemma slice_concat n (ls : list bytes) k x :
  Forall (fun l => length l = n) ls -> ls !! k = Some x -> slice (k * n) n (concat ls) = x.
Proof.
  intros Hl. revert k. induction Hl as [|l ls Hl Hls IH]; intros k Hk; [done|].
  destruct k as [|k]; cbn in Hk |- *.
  - injection Hk as ->. unfold slice. rewrite drop_0. by rewrite take_app_length'.
  - unfold slice in *. rewrite <- (IH k Hk). f_equal.
    rewrite drop_app_ge by lia. f_equal. lia.
Qed.

(** Total length of a list of chunks. *)
Definition total_length (l : list bytes) : Z := Z.of_nat (length (concat l)).

Lemma length_concat_const {A} (l : list (list A)) n :
  Forall (fun x => length x = n) l -> length (concat l) = (length l * n)%nat.
Proof.
  induction 1 as [|x l Hx _ IH]; cbn; [done|]. rewrite length_app, IH. lia.
Qed.

#[export] Hint Rewrite length_put_le : go.
#[export] Hint Resolve Z_of_byte_bound : go.
