(* ===== verification/GoStr.v ===== *)
(** * Strings: decimal formatting, paths, file names

    [fmt]'s [%d] and [%07d], [strconv.ParseInt], [filepath.Join], the block
    file names of the code and the regular expressions that take them apart. *)

From Stdlib Require Import ZArith Lia Ascii String.
From stdpp Require Import base numbers list strings.
From S2P Require Import Prelude GoInt.

Local Open Scope string_scope.
Local Open Scope Z_scope.
Abbreviation str := String.string.
#[local] Arguments String.append !s1 s2 /.

(** ** Decimal numbers *)

Definition digit_char (z : Z) : ascii := ascii_of_nat (Z.to_nat (48 + z)).

Definition digit_value (c : ascii) : option Z :=
  let n := Z.of_nat (nat_of_ascii c) in
  if (48 <=? n) && (n <=? 57) then Some (n - 48) else None.

Definition is_digit (c : ascii) : bool :=
  match digit_value c with Some _ => true | None => false end.

(** Decimal digits of [z], at most [fuel] of them. *)
Fixpoint dec_digits (fuel : nat) (z : Z) : str :=
  match fuel with
  | O => ""
  | S f => (if z <? 10 then "" else dec_digits f (z / 10)) ++ String (digit_char (z mod 10)) ""
  end.

(** [%d]: a 64-bit integer has at most 20 digits. *)
Definition fmt_d (z : Z) : str :=
  if z <? 0 then "-" ++ dec_digits 20 (- z) else dec_digits 20 z.

Fixpoint zeros (n : nat) : str :=
  match n with O => "" | S n' => String "0" (zeros n') end.

(** [%07d]: zero padding to width 7, the sign included. *)
Definition fmt_07d (z : Z) : str :=
  if z <? 0 then
    let d := dec_digits 20 (- z) in "-" ++ zeros (6 - String.length d) ++ d
  else
    let d := dec_digits 20 z in zeros (7 - String.length d) ++ d.

(** [strconv.ParseInt(s, 10, bits)]. *)
Fixpoint parse_digits (acc : Z) (s : str) : option Z :=
  match s with
  | EmptyString => Some acc
  | String c s' =>
      match digit_value c with
      | Some d => parse_digits (10 * acc + d) s'
      | None => None
      end
  end.

Definition parse_uint (s : str) : option Z :=
  match s with EmptyString => None | _ => parse_digits 0 s end.

Definition err_syntax : error := Sentinel "invalid syntax".
Definition err_range : error := Sentinel "value out of range".

Definition ParseInt (bits : Z) (s : str) : result Z :=
  let '(neg, digits) :=
    match s with
    | String c s' =>
        if Ascii.eqb c "-" then (true, s')
        else if Ascii.eqb c "+" then (false, s') else (false, s)
    | EmptyString => (false, s)
    end in
  match parse_uint digits with
  | None => Err err_syntax
  | Some n =>
      let z := if neg : bool then - n else n in
      if (- 2 ^ (bits - 1) <=? z) && (z <? 2 ^ (bits - 1))
      then Ok z else Err err_range
  end.

(** ** Paths *)

Fixpoint split_slash (s : str) : list str :=
  match s with
  | EmptyString => [""]
  | String c s' =>
      if Ascii.eqb c "/" then "" :: split_slash s'
      else match split_slash s' with
           | h :: t => String c h :: t
           | [] => [String c ""]
           end
  end.

Fixpoint join_slash (l : list str) : str :=
  match l with
  | [] => ""
  | [x] => x
  | x :: l' => x ++ "/" ++ join_slash l'
  end.

(** One component of [filepath.Clean], on the stack of components kept. *)
Definition clean_step (rooted : bool) (stack : list str) (c : str) : list str :=
  if (c =? "")%string || (c =? ".")%string then stack
  else if (c =? "..")%string then
    match stack with
    | [] => if rooted then [] else [".."]
    | t :: st => if (t =? "..")%string then ".." :: stack else st
    end
  else c :: stack.

Definition filepath_Clean (p : str) : str :=
  let rooted := match p with String c _ => Ascii.eqb c "/" | _ => false end in
  let out := join_slash (rev (foldl (clean_step rooted) [] (split_slash p))) in
  if rooted then "/" ++ out else if (out =? "")%string then "." else out.

(** [filepath.Join] of two elements. *)
Definition filepath_Join (a b : str) : str :=
  if (a =? "")%string then (if (b =? "")%string then "" else filepath_Clean b)
  else filepath_Clean (a ++ "/" ++ b).

Fixpoint strip_prefix (p s : str) : option str :=
  match p, s with
  | EmptyString, _ => Some s
  | String a p', String b s' => if Ascii.eqb a b then strip_prefix p' s' else None
  | String _ _, EmptyString => None
  end.

Fixpoint ends_with (suf s : str) : bool :=
  (s =? suf)%string ||
  match s with EmptyString => false | String _ s' => ends_with suf s' end.

Fixpoint no_slash (s : str) : bool :=
  match s with
  | EmptyString => true
  | String c s' => negb (Ascii.eqb c "/") && no_slash s'
  end.

(** ** Block file names *)

(** [HeaderFileNamePattern], [FilterFileNamePattern] and the others: the
    pattern ["%s/block-%07d-%07d" ++ suffix] applied to its arguments. *)
Definition block_file (suffix dir : str) (first last : Z) : str :=
  dir ++ "/block-" ++ fmt_07d first ++ "-" ++ fmt_07d last ++ suffix.

(** Seven digits at the front: the digits and the rest. *)
Fixpoint take_digits (n : nat) (s : str) : option (str * str) :=
  match n, s with
  | O, _ => Some ("", s)
  | S n', String c s' =>
      if is_digit c then
        match take_digits n' s' with
        | Some (d, r) => Some (String c d, r)
        | None => None
        end
      else None
  | S _, EmptyString => None
  end.

(** A match of [block-[0-9]{7}-([0-9]{7})suffix] at the start of [s]: the
    submatch. *)
Definition match_here (suffix s : str) : option str :=
  match strip_prefix "block-" s with
  | None => None
  | Some s1 =>
      match take_digits 7 s1 with
      | None => None
      | Some (_, s2) =>
          match strip_prefix "-" s2 with
          | None => None
          | Some s3 =>
              match take_digits 7 s3 with
              | None => None
              | Some (g, s4) =>
                  match strip_prefix suffix s4 with
                  | Some _ => Some g
                  | None => None
                  end
              end
          end
      end
  end.

(** [FindStringSubmatch(s)[1]] of that pattern: the leftmost match. *)
Fixpoint find_submatch (suffix s : str) : option str :=
  match match_here suffix s with
  | Some g => Some g
  | None => match s with
            | EmptyString => None
            | String _ s' => find_submatch suffix s'
            end
  end.

(** ** Fixed-width decimals *)

(** [k] decimal digits of [z], most significant first. *)
Fixpoint fixed (k : nat) (z : Z) : str :=
  match k with
  | O => ""
  | S k' => fixed k' (z / 10) ++ String (digit_char (z mod 10)) ""
  end.

Lemma str_app_assoc (a b c : str) : (a ++ b) ++ c = a ++ b ++ c.
Proof. induction a; cbn; congruence. Qed.

Lemma str_length_app (a b : str) :
  String.length (a ++ b) = (String.length a + String.length b)%nat.
Proof. induction a; cbn; congruence. Qed.

Lemma str_app_nil_r (a : str) : a ++ "" = a.
Proof. induction a; cbn; congruence. Qed.

Lemma str_app_inj_l (a b c : str) : a ++ b = a ++ c -> b = c.
Proof. induction a; cbn; intros; [done|]. simplify_eq. auto. Qed.

Lemma length_fixed k z : String.length (fixed k z) = k.
Proof.
  revert z. induction k as [|k IH]; intros z; cbn; [done|].
  rewrite str_length_app, IH. cbn. lia.
Qed.

Lemma digit_value_char d : 0 <= d < 10 -> digit_value (digit_char d) = Some d.
Proof.
  intros Hd. assert (d ∈ seqZ 0 10) as Hin by (apply elem_of_seqZ; lia).
  revert Hin. generalize d. apply Forall_forall. vm_compute.
  repeat (constructor; [reflexivity|]). constructor.
Qed.

Lemma zeros_snoc n : zeros (S n) = zeros n ++ "0".
Proof. induction n; cbn in *; congruence. Qed.

Lemma fixed_0 k : fixed k 0 = zeros k.
Proof.
  induction k as [|k IH]; [done|]. rewrite zeros_snoc, <- IH. done.
Qed.

Lemma length_dec_digits fuel k z :
  0 <= z < 10 ^ Z.of_nat k -> (0 < k)%nat -> (String.length (dec_digits fuel z) <= k)%nat.
Proof.
  revert fuel z. induction k as [|k IH]; intros fuel z Hz Hk; [lia|].
  destruct fuel as [|f]; cbn; [lia|]. rewrite str_length_app. cbn.
  destruct (Z.ltb_spec z 10); cbn; [lia|].
  rewrite Nat2Z.inj_succ, Z.pow_succ_r in Hz by lia.
  destruct k as [|k]; [cbn in Hz; lia|].
  specialize (IH f (z / 10) ltac:(split; [apply Z.div_pos|apply Z.div_lt_upper_bound]; lia) ltac:(lia)).
  lia.
Qed.

(** Zero padding to [k] digits. *)
Lemma pad_dec_digits k fuel z :
  0 <= z < 10 ^ Z.of_nat k -> (0 < k <= fuel)%nat ->
  zeros (k - String.length (dec_digits fuel z)) ++ dec_digits fuel z = fixed k z.
Proof.
  revert fuel z. induction k as [|k IH]; intros fuel z Hz Hk; [lia|].
  destruct fuel as [|f]; [lia|]. cbn [dec_digits fixed].
  destruct (Z.ltb_spec z 10) as [H10|H10].
  - cbn. rewrite (Z.div_small z 10) by lia. rewrite fixed_0.
    by replace (k - 0)%nat with k by lia.
  - rewrite Nat2Z.inj_succ, Z.pow_succ_r in Hz by lia.
    destruct k as [|k]; [cbn in Hz; lia|].
    rewrite str_length_app. cbn [String.length].
    rewrite <- (IH f (z / 10)); [|split; [apply Z.div_pos|apply Z.div_lt_upper_bound]; lia|lia].
    rewrite str_app_assoc. do 2 f_equal. lia.
Qed.

Lemma fmt_07d_fixed z : 0 <= z < 10000000 -> fmt_07d z = fixed 7 z.
Proof.
  intros Hz. unfold fmt_07d. rewrite (proj2 (Z.ltb_ge z 0)) by lia.
  apply pad_dec_digits; cbn; lia.
Qed.

Lemma parse_digits_app acc x y :
  parse_digits acc (x ++ y)
  = match parse_digits acc x with Some a => parse_digits a y | None => None end.
Proof.
  revert acc. induction x as [|c x IH]; intros acc; cbn; [done|].
  destruct (digit_value c); [apply IH|done].
Qed.

Lemma parse_digits_fixed acc k z :
  0 <= z < 10 ^ Z.of_nat k ->
  parse_digits acc (fixed k z) = Some (acc * 10 ^ Z.of_nat k + z).
Proof.
  revert z. induction k as [|k IH]; intros z Hz; cbn [fixed].
  - cbn in *. f_equal. lia.
  - rewrite Nat2Z.inj_succ, Z.pow_succ_r in * by lia.
    rewrite parse_digits_app, IH
      by (split; [apply Z.div_pos|apply Z.div_lt_upper_bound]; lia).
    pose proof (Z.mod_pos_bound z 10 ltac:(lia)).
    pose proof (Z.div_mod z 10 ltac:(lia)).
    cbn. rewrite digit_value_char by done. f_equal. lia.
Qed.

Lemma take_digits_app n m x y d r :
  take_digits n x = Some (d, "") -> take_digits m y = r ->
  take_digits (n + m) (x ++ y)
  = match r with Some (d', r') => Some (d ++ d', r') | None => None end.
Proof.
  revert x d. induction n as [|n IH]; intros [|c x] d Hx Hy; cbn in *; simplify_eq.
  - by destruct (take_digits m y) as [[]|].
  - destruct (is_digit c); [|done].
    destruct (take_digits n x) as [[d0 r0]|] eqn:E; [|done]. simplify_eq.
    rewrite (IH x d0) by done. by destruct (take_digits m y) as [[]|].
Qed.

Lemma take_digits_fixed k z : 0 <= z -> take_digits k (fixed k z) = Some (fixed k z, "").
Proof.
  revert z. induction k as [|k IH]; intros z Hz; [done|].
  cbn [fixed]. rewrite <- Nat.add_1_r.
  erewrite take_digits_app; [|by apply IH, Z.div_pos; lia|reflexivity].
  cbn. unfold is_digit.
  rewrite digit_value_char by (apply Z.mod_pos_bound; lia). done.
Qed.

Lemma take_digits_fixed_app k z r :
  0 <= z -> take_digits k (fixed k z ++ r) = Some (fixed k z, r).
Proof.
  intros Hz. rewrite <- (Nat.add_0_r k) at 1.
  erewrite take_digits_app; [|by apply take_digits_fixed|reflexivity].
  cbn. by rewrite str_app_nil_r.
Qed.

Lemma strip_prefix_app p s : strip_prefix p (p ++ s) = Some s.
Proof. induction p; cbn; [done|]. by rewrite Ascii.eqb_refl. Qed.

Lemma strip_prefix_Some p s r : strip_prefix p s = Some r -> s = p ++ r.
Proof.
  revert s. induction p as [|a p IH]; intros [|b s] H; cbn in *; try congruence.
  destruct (Ascii.eqb_spec a b); [|done]. subst. by rewrite (IH s).
Qed.

(** ** Taking a block file name apart *)

Lemma strip_prefix_slash p x r :
  no_slash p = true ->
  strip_prefix p (x ++ "/" ++ r)
  = match strip_prefix p x with Some y => Some (y ++ "/" ++ r) | None => None end.
Proof.
  revert x. induction p as [|a p IH]; intros [|b x] Hp; cbn in *; try done.
  - apply andb_true_iff in Hp as [Ha _]. by destruct (Ascii.eqb a "/").
  - apply andb_true_iff in Hp as [_ Hp].
    destruct (Ascii.eqb a b); [by apply IH|done].
Qed.

Lemma take_digits_slash n x r :
  take_digits n (x ++ "/" ++ r)
  = match take_digits n x with Some (d, y) => Some (d, y ++ "/" ++ r) | None => None end.
Proof.
  revert x. induction n as [|n IH]; intros [|b x]; cbn; try done.
  destruct (is_digit b); [|done].
  specialize (IH x). cbn in IH. rewrite IH. by destruct (take_digits n x) as [[]|].
Qed.

Lemma match_here_slash suffix x r :
  no_slash suffix = true -> match_here suffix x = None ->
  match_here suffix (x ++ "/" ++ r) = None.
Proof.
  intros Hs. unfold match_here. rewrite strip_prefix_slash by done.
  destruct (strip_prefix "block-" x) as [x1|]; [|done].
  rewrite take_digits_slash. destruct (take_digits 7 x1) as [[d x2]|]; [|done].
  rewrite strip_prefix_slash by done.
  destruct (strip_prefix "-" x2) as [x3|]; [|done].
  rewrite take_digits_slash. destruct (take_digits 7 x3) as [[g x4]|]; [|done].
  rewrite strip_prefix_slash by done. by destruct (strip_prefix suffix x4).
Qed.

Lemma find_submatch_dir suffix dir r :
  no_slash suffix = true -> find_submatch suffix dir = None ->
  find_submatch suffix (dir ++ "/" ++ r) = find_submatch suffix ("/" ++ r).
Proof.
  intros Hs. induction dir as [|c dir IH]; intros Hd; [done|].
  assert (match_here suffix (String c dir) = None) as Hm
    by (cbn in Hd; by destruct (match_here suffix (String c dir))).
  assert (find_submatch suffix dir = None) as Hd'
    by (cbn in Hd; by rewrite Hm in Hd).
  change (String c dir ++ "/" ++ r) with (String c (dir ++ "/" ++ r)).
  cbn [find_submatch]. rewrite (match_here_slash suffix (String c dir) r Hs Hm : match_here suffix (String c (dir ++ "/" ++ r)) = None).
  by apply IH.
Qed.

Lemma match_here_block suffix a b :
  0 <= a < 10000000 -> 0 <= b < 10000000 ->
  match_here suffix ("block-" ++ fmt_07d a ++ "-" ++ fmt_07d b ++ suffix)
  = Some (fixed 7 b).
Proof.
  intros Ha Hb. rewrite !fmt_07d_fixed by done. unfold match_here.
  rewrite strip_prefix_app, take_digits_fixed_app by lia.
  rewrite strip_prefix_app, take_digits_fixed_app by lia.
  by rewrite <- (str_app_nil_r suffix) at 2; rewrite strip_prefix_app.
Qed.

(** The submatch of a block file name is its second number. *)
Lemma find_submatch_block suffix dir a b :
  no_slash suffix = true -> find_submatch suffix dir = None ->
  0 <= a < 10000000 -> 0 <= b < 10000000 ->
  find_submatch suffix (block_file suffix dir a b) = Some (fixed 7 b).
Proof.
  intros Hs Hd Ha Hb. unfold block_file.
  change ("/block-" ++ fmt_07d a ++ "-" ++ fmt_07d b ++ suffix)
    with ("/" ++ "block-" ++ fmt_07d a ++ "-" ++ fmt_07d b ++ suffix).
  rewrite find_submatch_dir by done. cbn [String.append find_submatch].
  change (match_here suffix (String "/" _)) with (@None str).
  pose proof (match_here_block suffix a b Ha Hb) as H. cbn [String.append] in H.
  by rewrite H.
Qed.

Lemma ParseInt_fixed k z bits :
  0 < bits -> (0 < k)%nat -> 0 <= z < 10 ^ Z.of_nat k -> z < 2 ^ (bits - 1) ->
  ParseInt bits (fixed k z) = Ok z.
Proof.
  intros Hbits Hk Hz Hr.
  assert (exists d s, 0 <= d < 10 /\ fixed k z = String (digit_char d) s) as (d & s & Hd & E).
  { destruct k as [|k]; [lia|]. clear Hz Hr Hk. revert z. induction k as [|k IH]; intros z.
    - exists (z mod 10), "". split; [apply Z.mod_pos_bound; lia|done].
    - destruct (IH (z / 10)) as (d & s & Hd & E). exists d, (s ++ String (digit_char (z mod 10)) "").
      split; [done|]. cbn [fixed] in *. by rewrite E. }
  pose proof (parse_digits_fixed 0 k z Hz) as Hp. rewrite E in Hp.
  unfold ParseInt. rewrite E.
  assert (Hsign : Ascii.eqb (digit_char d) "-" = false /\ Ascii.eqb (digit_char d) "+" = false).
  { pose proof (digit_value_char d Hd) as V.
    split; apply Ascii.eqb_neq; intros X;
      rewrite X in V; vm_compute in V; discriminate. }
  destruct Hsign as [-> ->]. unfold parse_uint. rewrite Hp.
  pose proof (Z.pow_pos_nonneg 2 (bits - 1)).
  rewrite Z.mul_0_l, Z.add_0_l.
  rewrite (proj2 (Z.leb_le _ z)) by lia. by rewrite (proj2 (Z.ltb_lt z _)).
Qed.

(** [%d] of a number that is not negative has just the digits it needs. *)
Lemma dec_digits_fixed fuel z :
  0 <= z < 10 ^ Z.of_nat fuel -> (0 < fuel)%nat ->
  exists k, (0 < k)%nat /\ z < 10 ^ Z.of_nat k /\ dec_digits fuel z = fixed k z.
Proof.
  revert z. induction fuel as [|f IH]; intros z Hz Hf; [lia|]. cbn [dec_digits].
  destruct (Z.ltb_spec z 10) as [H10|H10]; [exists 1%nat; split; [lia|done]|].
  rewrite Nat2Z.inj_succ, Z.pow_succ_r in Hz by lia.
  destruct f as [|f]; [cbn in Hz; lia|].
  destruct (IH (z / 10)) as (k & Hk & Hlt & E);
    [split; [apply Z.div_pos|apply Z.div_lt_upper_bound]; lia|lia|].
  exists (S k). split; [lia|]. split; [|by rewrite E].
  rewrite Nat2Z.inj_succ, Z.pow_succ_r by lia. pose proof (Z.div_mod z 10). pose proof (Z.mod_pos_bound z 10). lia.
Qed.

Lemma ParseInt_fmt_d z : 0 <= z < 2 ^ 63 -> ParseInt 64 (fmt_d z) = Ok z.
Proof.
  intros Hz. unfold fmt_d. rewrite (proj2 (Z.ltb_ge z 0)) by lia.
  destruct (dec_digits_fixed 20 z) as (k & Hk & Hlt & ->); [lia|lia|].
  apply ParseInt_fixed; [lia|done|lia|apply Hz].
Qed.

(** ** Injectivity and order of block file names *)

Lemma fixed_inj k a b :
  0 <= a < 10 ^ Z.of_nat k -> 0 <= b < 10 ^ Z.of_nat k -> fixed k a = fixed k b -> a = b.
Proof.
  intros Ha Hb E. pose proof (parse_digits_fixed 0 k a Ha) as H1.
  rewrite E, parse_digits_fixed in H1 by done. simplify_eq. lia.
Qed.

Lemma str_app_inj_length (a b c d : str) :
  String.length a = String.length b -> a ++ c = b ++ d -> a = b /\ c = d.
Proof.
  revert b. induction a as [|x a IH]; intros [|y b] HL HE; cbn in *; try done.
  simplify_eq. destruct (IH b) as [-> ->]; [lia|done|done].
Qed.

Lemma block_file_inj suffix dir a b a' b' :
  0 <= a < 10000000 -> 0 <= b < 10000000 ->
  0 <= a' < 10000000 -> 0 <= b' < 10000000 ->
  block_file suffix dir a b = block_file suffix dir a' b' -> a = a' /\ b = b'.
Proof.
  intros Ha Hb Ha' Hb' E. unfold block_file in E.
  do 2 apply str_app_inj_l in E.
  rewrite !fmt_07d_fixed in E by done.
  apply str_app_inj_length in E as [E1 E]; [|by rewrite !length_fixed].
  apply str_app_inj_l, str_app_inj_length in E as [E2 _]; [|by rewrite !length_fixed].
  split; eapply (fixed_inj 7); cbn; eauto; lia.
Qed.

Lemma block_file_suffix_inj s s' dir a b a' b' :
  0 <= a < 10000000 -> 0 <= b < 10000000 ->
  0 <= a' < 10000000 -> 0 <= b' < 10000000 ->
  block_file s dir a b = block_file s' dir a' b' -> s = s'.
Proof.
  intros Ha Hb Ha' Hb' E. unfold block_file in E.
  do 2 apply str_app_inj_l in E.
  rewrite !fmt_07d_fixed in E by done.
  apply str_app_inj_length in E as [E1 E]; [|by rewrite !length_fixed].
  by apply str_app_inj_l, str_app_inj_length in E as [E2 E]; [|by rewrite !length_fixed].
Qed.

Lemma str_compare_app_eq (x y u v : str) :
  String.length x = String.length y ->
  String.compare (x ++ u) (y ++ v)
  = match String.compare x y with Eq => String.compare u v | c => c end.
Proof.
  revert y. induction x as [|a x IH]; intros [|b y] HL; cbn in *; try done.
  destruct (Ascii.compare a b); try done. apply IH. lia.
Qed.

Lemma str_compare_refl (x : str) : String.compare x x = Eq.
Proof. induction x; cbn; [done|]. unfold Ascii.compare. by rewrite N.compare_refl. Qed.

Lemma digit_char_compare d e :
  0 <= d < 10 -> 0 <= e < 10 -> Ascii.compare (digit_char d) (digit_char e) = Z.compare d e.
Proof.
  intros Hd He.
  assert (forall p, p ∈ list_prod (seqZ 0 10) (seqZ 0 10) ->
            Ascii.compare (digit_char p.1) (digit_char p.2) = Z.compare p.1 p.2) as G.
  { apply Forall_forall. vm_compute. repeat (constructor; [reflexivity|]). constructor. }
  apply (G (d, e)). rewrite list_elem_of_In. apply in_prod; rewrite <- list_elem_of_In;
    apply elem_of_seqZ; lia.
Qed.

(** Fixed-width decimals compare like the numbers. *)
Lemma fixed_compare k a b :
  0 <= a < 10 ^ Z.of_nat k -> 0 <= b < 10 ^ Z.of_nat k ->
  String.compare (fixed k a) (fixed k b) = Z.compare a b.
Proof.
  revert a b. induction k as [|k IH]; intros a b Ha Hb.
  - cbn in *. by replace a with b by lia; rewrite Z.compare_refl.
  - cbn [fixed]. rewrite str_compare_app_eq by (by rewrite !length_fixed).
    rewrite Nat2Z.inj_succ, Z.pow_succ_r in * by lia.
    rewrite IH by (split; [apply Z.div_pos|apply Z.div_lt_upper_bound]; lia).
    pose proof (Z.mod_pos_bound a 10 ltac:(lia)). pose proof (Z.mod_pos_bound b 10 ltac:(lia)).
    pose proof (Z.div_mod a 10 ltac:(lia)). pose proof (Z.div_mod b 10 ltac:(lia)).
    destruct (Z.compare_spec (a / 10) (b / 10)).
    + cbn. rewrite digit_char_compare by done. destruct (Z.compare_spec a b), (Z.compare_spec (a mod 10) (b mod 10)); try done; lia.
    + symmetry. apply Z.compare_lt_iff. lia.
    + symmetry. apply Z.compare_gt_iff. lia.
Qed.

(** The string order of block file names with 7-digit numbers is the order of
    their heights. *)
Lemma block_file_compare suffix dir a b a' b' :
  0 <= a < 10000000 -> 0 <= a' < 10000000 -> a <> a' ->
  String.compare (block_file suffix dir a b) (block_file suffix dir a' b')
  = Z.compare a a'.
Proof.
  intros Ha Ha' Hne. unfold block_file.
  rewrite str_compare_app_eq, str_compare_refl by done.
  rewrite str_compare_app_eq, str_compare_refl by done.
  rewrite (fmt_07d_fixed a), (fmt_07d_fixed a') by done.
  rewrite str_compare_app_eq by (by rewrite !length_fixed).
  rewrite (fixed_compare 7) by (cbn; lia).
  destruct (Z.compare_spec a a'); [lia|done|done].
Qed.

(** ** The last component of a path *)

Lemma app_slash_inj d d' n n' :
  no_slash n = true -> no_slash n' = true ->
  d ++ "/" ++ n = d' ++ "/" ++ n' -> d = d' /\ n = n'.
Proof.
  intros Hn Hn'.
  assert (G : forall x y z, no_slash z = true -> z <> x ++ "/" ++ y).
  { intros x y z Hz ->. induction x as [|c x IH]; cbn in Hz; [done|].
    apply andb_true_iff in Hz as [_ Hz]. by apply IH. }
  revert d'. induction d as [|c d IH]; intros [|c' d'] E; cbn in E; simplify_eq.
  - done.
  - exfalso. by apply (G d' n' _ Hn).
  - exfalso. by apply (G d n _ Hn').
  - destruct (IH d') as [-> ->]; done.
Qed.

Lemma no_slash_app a b : no_slash (a ++ b) = no_slash a && no_slash b.
Proof. induction a; cbn; [done|]. by rewrite IHa, andb_assoc. Qed.

Lemma no_slash_digit d : 0 <= d < 10 -> no_slash (String (digit_char d) "") = true.
Proof.
  intros Hd. assert (d ∈ seqZ 0 10) as Hin by (apply elem_of_seqZ; lia).
  revert Hin. generalize d. apply Forall_forall. vm_compute.
  repeat (constructor; [reflexivity|]). constructor.
Qed.

Lemma no_slash_fixed k z : no_slash (fixed k z) = true.
Proof.
  revert z. induction k as [|k IH]; intros z; [done|]. cbn [fixed].
  rewrite no_slash_app, IH. apply no_slash_digit, Z.mod_pos_bound. lia.
Qed.

(** Block files are equal only when directory, heights and suffix are. *)
Lemma block_file_inj_full s s' d d' a b a' b' :
  no_slash s = true -> no_slash s' = true ->
  0 <= a < 10000000 -> 0 <= b < 10000000 ->
  0 <= a' < 10000000 -> 0 <= b' < 10000000 ->
  block_file s d a b = block_file s' d' a' b' ->
  d = d' /\ a = a' /\ b = b' /\ s = s'.
Proof.
  intros Hs Hs' Ha Hb Ha' Hb' E. pose proof E as E'. unfold block_file in E.
  rewrite !fmt_07d_fixed in E by done.
  apply (app_slash_inj d d' ("block-" ++ fixed 7 a ++ "-" ++ fixed 7 b ++ s)
           ("block-" ++ fixed 7 a' ++ "-" ++ fixed 7 b' ++ s')) in E as [-> E].
  2,3: rewrite !no_slash_app, !no_slash_fixed; done.
  assert (s = s') as -> by (by eapply (block_file_suffix_inj s s' d' a b a' b')).
  destruct (block_file_inj s' d' a b a' b') as [-> ->]; done.
Qed.
