(* ===== verification/Paths.v ===== *)
(** * Joined paths

    What [filepath.Join] makes of a base directory, whatever its form, and a
    clean relative path. *)

From Stdlib Require Import ZArith Lia Ascii String.
From stdpp Require Import base numbers list strings.
From S2P Require Import Prelude GoInt Bytes GoStr.

Local Open Scope string_scope.
Local Open Scope Z_scope.
#[local] Arguments String.append !s1 s2 /.

(** A path without empty, [.] and [..] components. *)
Definition normal_seg (c : str) : bool :=
  negb ((c =? "") || (c =? ".") || (c =? ".."))%string.
Definition normal_path (p : str) : bool := forallb normal_seg (split_slash p).

Lemma split_slash_cons s : exists h t, split_slash s = h :: t.
Proof.
  destruct s as [|c s]; cbn; [by eexists _, _|]. destruct (Ascii.eqb c "/"); [by eexists _, _|].
  destruct (split_slash s); by eexists _, _.
Qed.

Lemma split_slash_app a b : split_slash (a ++ "/" ++ b) = (split_slash a ++ split_slash b)%list.
Proof.
  induction a as [|c a IH]; [done|]. cbn. cbn in IH. rewrite IH.
  destruct (Ascii.eqb c "/"); [done|]. by destruct (split_slash_cons a) as (h & t & ->).
Qed.

Lemma join_slash_cons x l : l <> [] -> join_slash (x :: l) = x ++ "/" ++ join_slash l.
Proof. by destruct l. Qed.

Lemma join_slash_app l1 l2 :
  l1 <> [] -> l2 <> [] -> join_slash (l1 ++ l2)%list = join_slash l1 ++ "/" ++ join_slash l2.
Proof.
  intros H1 H2. induction l1 as [|x l1 IH]; [done|]. destruct l1 as [|y l1].
  - change ([x] ++ l2)%list with (x :: l2). by rewrite join_slash_cons.
  - change ((x :: y :: l1) ++ l2)%list with (x :: (y :: l1) ++ l2)%list.
    rewrite (join_slash_cons x) by done. rewrite IH by done. rewrite (join_slash_cons x) by done.
    by rewrite !str_app_assoc.
Qed.

Lemma join_split s : join_slash (split_slash s) = s.
Proof.
  induction s as [|c s IH]; [done|]. cbn [split_slash].
  destruct (Ascii.eqb_spec c "/") as [->|_].
  - rewrite join_slash_cons by (by destruct (split_slash_cons s) as (h & t & ->)). by rewrite IH.
  - destruct (split_slash_cons s) as (h & t & E). rewrite E in *.
    destruct t as [|t0 t]; cbn in IH |- *; by rewrite IH.
Qed.

Lemma clean_normal rooted l stack :
  forallb normal_seg l = true -> foldl (clean_step rooted) stack l = (rev l ++ stack)%list.
Proof.
  revert stack. induction l as [|c l IH]; intros stack; [done|]. cbn.
  intros [Hc Hl]%andb_true_iff. rewrite IH by done. rewrite <- app_assoc. f_equal. cbn.
  unfold normal_seg in Hc. unfold clean_step.
  destruct (c =? "")%string, (c =? ".")%string, (c =? "..")%string; done.
Qed.

(** The directory in front of a joined path. *)
Definition join_prefix (a : str) : str :=
  if (a =? "")%string then ""
  else
    let rooted := match a with String c _ => Ascii.eqb c "/" | _ => false end in
    (if rooted then "/" else "") ++
    match foldl (clean_step rooted) [] (split_slash a) with
    | [] => ""
    | st => join_slash (rev st) ++ "/"
    end.

Lemma normal_nonempty b : normal_path b = true -> b <> "".
Proof. by intros H ->. Qed.

Lemma filepath_Join_normal a b : normal_path b = true -> filepath_Join a b = join_prefix a ++ b.
Proof.
  intros Hb. pose proof (normal_nonempty b Hb) as Hne. unfold filepath_Join, join_prefix.
  destruct (String.eqb_spec a "") as [->|Ha].
  - destruct (String.eqb_spec b ""); [done|]. cbn [String.append]. unfold filepath_Clean.
    rewrite clean_normal, app_nil_r, rev_involutive, join_split by done.
    destruct b as [|c b]; [done|]. unfold normal_path in Hb. cbn in Hb |- *.
    by destruct (Ascii.eqb c "/").
  - unfold filepath_Clean. destruct a as [|c a]; [done|].
    change (String c a ++ "/" ++ b) with (String c (a ++ "/" ++ b)) at 1. cbn iota.
    rewrite split_slash_app, foldl_app, clean_normal, rev_app_distr, rev_involutive by done.
    set (st := foldl _ _ (split_slash (String c a))). clearbody st.
    assert (join_slash (rev st ++ split_slash b)%list
            = match st with [] => "" | _ => join_slash (rev st) ++ "/" end ++ b) as ->.
    { destruct st as [|x st]; [cbn [rev app]; by rewrite join_split|].
      rewrite join_slash_app, join_split, str_app_assoc; [done| |by destruct (split_slash_cons b) as (h & t & ->)].
      cbn. by destruct (rev st). }
    destruct (Ascii.eqb c "/"), st as [|x st]; cbn [String.append]; try done.
    + destruct (String.eqb_spec b ""); done.
    + destruct (join_slash (rev (x :: st))); done.
Qed.

(** Different clean paths stay different below every base directory. *)
Lemma filepath_Join_inj a x y :
  normal_path x = true -> normal_path y = true -> filepath_Join a x = filepath_Join a y -> x = y.
Proof. intros Hx Hy. rewrite !filepath_Join_normal by done. apply str_app_inj_l. Qed.
