(* ===== verification/Address.v ===== *)
(** * Network addresses

    [net.SplitHostPort], [net.JoinHostPort] and [net.ParseIP], and the address
    [verify.go] reaches the running server at. *)

From Stdlib Require Import ZArith Lia Ascii String.
From stdpp Require Import base numbers list strings.
From S2P Require Import Prelude GoInt Bytes GoStr.

Local Open Scope string_scope.
Local Open Scope Z_scope.
#[local] Arguments String.append !s1 s2 /.

(** ** Finding a byte *)

(** [bytealg.IndexByteString(s, c) >= 0] *)
Fixpoint has (c : ascii) (s : str) : bool :=
  match s with
  | "" => false
  | String a s' => Ascii.eqb a c || has c s'
  end.

(** What is before and after the first and the last [c]. *)
Fixpoint split_first (c : ascii) (s : str) : option (str * str) :=
  match s with
  | "" => None
  | String a s' =>
      if Ascii.eqb a c then Some ("", s')
      else (fun bf => (String a bf.1, bf.2)) <$> split_first c s'
  end.

Fixpoint split_last (c : ascii) (s : str) : option (str * str) :=
  match s with
  | "" => None
  | String a s' =>
      match split_last c s' with
      | Some (before, after) => Some (String a before, after)
      | None => if Ascii.eqb a c then Some ("", s') else None
      end
  end.

Definition starts (c : ascii) (s : str) : bool :=
  match s with String a _ => Ascii.eqb a c | "" => false end.
Definition drop1 (s : str) : str := match s with String _ s' => s' | "" => "" end.

(** ** Hosts and ports *)

Definition missingPort : error := Errorf "missing port in address".
Definition tooManyColons : error := Errorf "too many colons in address".

(** [net.SplitHostPort] *)
Definition SplitHostPort (hostport : str) : result (str * str) :=
  match split_last ":" hostport with
  | None => Err missingPort
  | Some (before, port) =>
      (* the host, where brackets are looked for, and the port *)
      let parts :=
        if starts "[" hostport then
          match split_first "]" hostport with
          | None => Err (Errorf "missing ']' in address")
          | Some (bracketed, after) =>
              if negb (starts ":" after) then Err missingPort
              else if has ":" (drop1 after) then Err tooManyColons
              else Ok (drop1 bracketed, drop1 hostport, after)
          end
        else if has ":" before then Err tooManyColons
        else Ok (before, hostport, hostport) in
      res_bind parts (fun '(host, open, close) =>
        if has "[" open then Err (Errorf "unexpected '[' in address")
        else if has "]" close then Err (Errorf "unexpected ']' in address")
        else Ok (host, port))
  end.

(** [net.JoinHostPort] *)
Definition JoinHostPort (host port : str) : str :=
  if has ":" host then "[" ++ host ++ "]:" ++ port else host ++ ":" ++ port.

(** ** IP addresses: sixteen bytes *)

(** [parseIPv4Fields]; [start] holds at the beginning and after a dot. *)
Fixpoint parseIPv4Fields (start : bool) (val digLen : Z) (fields : list Z) (s : str) : option (list Z) :=
  match s with
  | "" => if Z.of_nat (length fields) <? 3 then None else Some (fields ++ [val])%list
  | String c s' =>
      match digit_value c with
      | Some d =>
          if (digLen =? 1) && (val =? 0) then None
          else if 255 <? 10 * val + d then None
          else parseIPv4Fields false (10 * val + d) (digLen + 1) fields s'
      | None =>
          if Ascii.eqb c "." then
            if start || (s' =? "")%string then None
            else if Z.of_nat (length fields) =? 3 then None
            else parseIPv4Fields true 0 0 (fields ++ [val])%list s'
          else None
      end
  end.

(** An IPv4 address in sixteen bytes. *)
Definition mapped (fields : list Z) : list Z := (replicate 10 0 ++ [255; 255] ++ fields)%list.
Definition parseIPv4 (s : str) : option (list Z) := mapped <$> parseIPv4Fields true 0 0 [] s.

(** A group of at most four hexadecimal digits: their number, its value, and
    the text after it. *)
Fixpoint hexGroup (off acc : Z) (s : str) : option (Z * Z * str) :=
  match s with
  | "" => Some (off, acc, "")
  | String c s' =>
      match hex_digit c with
      | Some d => if 3 <? off then None else hexGroup (off + 1) (16 * acc + d) s'
      | None => Some (off, acc, s)
      end
  end.

(** The loop of [parseIPv6] over the groups: the bytes, where the ellipsis is
    in them, and the text that is left. *)
Fixpoint parseGroups (fuel : nat) (s : str) (ip : list Z) (ellipsis : option nat)
  : option (list Z * option nat * str) :=
  match fuel with
  | O => Some (ip, ellipsis, s)
  | S fuel' =>
      let i := length ip in
      match hexGroup 0 0 s with
      | None => None
      | Some (off, acc, rest) =>
          if off =? 0 then None
          else if starts "." rest then
            if bool_decide (ellipsis = None) && negb (i =? 12)%nat then None
            else if (12 <? i)%nat then None
            else (fun fields => ((ip ++ fields)%list, ellipsis, "")) <$> parseIPv4Fields true 0 0 [] s
          else
            let ip := (ip ++ [Z.shiftr acc 8; Z.land acc 255])%list in
            if (rest =? "")%string then Some (ip, ellipsis, "")
            else if negb (starts ":" rest) then None
            else
              let rest := drop1 rest in
              if (rest =? "")%string then None
              else if starts ":" rest then
                if bool_decide (ellipsis = None) then
                  if (drop1 rest =? "")%string then Some (ip, Some (length ip), "")
                  else parseGroups fuel' (drop1 rest) ip (Some (length ip))
                else None
              else parseGroups fuel' rest ip ellipsis
      end
  end.

(** [parseIPv6] for addresses without a zone: eight groups at most. *)
Definition parseIPv6 (s : str) : option (list Z) :=
  let leading := starts ":" s && starts ":" (drop1 s) in
  let s := if leading then drop1 (drop1 s) else s in
  if leading && (s =? "")%string then Some (replicate 16 0)
  else
    match parseGroups 8 s [] (if leading then Some O else None) with
    | None => None
    | Some (ip, ellipsis, rest) =>
        if negb (rest =? "")%string then None
        else if (length ip <? 16)%nat then
          match ellipsis with
          | None => None
          | Some k => Some (take k ip ++ replicate (16 - length ip) 0 ++ drop k ip)%list
          end
        else if bool_decide (ellipsis = None) then Some ip else None
    end.

(** [net.ParseIP]: what the first of [.:%] says it is; an address with a zone
    is none. *)
Fixpoint parseAddr (s addr : str) : option (list Z) :=
  match s with
  | "" => None
  | String c s' =>
      if Ascii.eqb c "." then parseIPv4 addr
      else if Ascii.eqb c ":" then (if has "%" addr then None else parseIPv6 addr)
      else if Ascii.eqb c "%" then None
      else parseAddr s' addr
  end.
Definition ParseIP (s : str) : option (list Z) := parseAddr s s.

(** [IP.IsUnspecified]: [0.0.0.0] or [::]. *)
Definition IsUnspecified (ip : list Z) : bool :=
  bool_decide (ip = mapped (replicate 4 0)) || bool_decide (ip = replicate 16 0).

(** ** The address of the running server *)

(** No host, or one that stands for every address. *)
Definition wildcard (host : str) : bool :=
  (host =? "")%string || match ParseIP host with Some ip => IsUnspecified ip | None => false end.

(** [serverBaseURL] *)
Definition serverBaseURL (listenAddr : str) : result str :=
  match SplitHostPort listenAddr with
  | Err err => Err (Wrapf "invalid --listen-addr %s: %w" err)
  | Ok (host, port) =>
      Ok ("http://" ++ JoinHostPort (if wildcard host then "localhost" else host) port)
  end.

(** ** Splitting what was joined *)

Lemma has_app c a b : has c (a ++ b) = has c a || has c b.
Proof. induction a as [|x a IH]; cbn; [done|]. by rewrite IH, orb_assoc. Qed.

Lemma split_last_None c s : split_last c s = None <-> has c s = false.
Proof.
  induction s as [|a s IH]; cbn; [done|]. destruct (split_last c s) as [[b f]|].
  - split; [done|]. intros [_ H]%orb_false_iff. by apply IH in H.
  - rewrite (proj1 IH eq_refl), orb_false_r. by destruct (Ascii.eqb a c).
Qed.

Lemma split_last_Some c s before after :
  split_last c s = Some (before, after) -> s = before ++ String c after /\ has c after = false.
Proof.
  revert before. induction s as [|a s IH]; intros before; cbn; [done|].
  destruct (split_last c s) as [[b f]|] eqn:E.
  - intros [= <- <-]. by destruct (IH b eq_refl) as [-> ?].
  - apply split_last_None in E. destruct (Ascii.eqb_spec a c) as [->|_]; [|done]. by intros [= <- <-].
Qed.

Lemma split_last_app c before after :
  has c after = false -> split_last c (before ++ String c after) = Some (before, after).
Proof.
  intros H. induction before as [|a before IH]; cbn; [|by rewrite IH].
  apply split_last_None in H as ->. by rewrite Ascii.eqb_refl.
Qed.

Lemma split_first_Some c s before after :
  split_first c s = Some (before, after) -> s = before ++ String c after /\ has c before = false.
Proof.
  revert before. induction s as [|a s IH]; intros before; cbn; [done|].
  destruct (Ascii.eqb a c) eqn:Ea; [apply Ascii.eqb_eq in Ea as ->; by intros [= <- <-]|].
  intros ([b f] & E & [= -> ->])%fmap_Some. destruct (IH b E) as [-> H]. cbn. by rewrite Ea, H.
Qed.

Lemma split_first_app c before after :
  has c before = false -> split_first c (before ++ String c after) = Some (before, after).
Proof.
  induction before as [|a before IH]; cbn; [by rewrite Ascii.eqb_refl|].
  intros [-> H]%orb_false_iff. by rewrite IH.
Qed.

(** What a host and a port may contain. *)
Definition plain (host port : str) : Prop :=
  has "[" host = false /\ has "]" host = false /\
  has ":" port = false /\ has "[" port = false /\ has "]" port = false.

Lemma starts_true c s : starts c s = true -> s = String c (drop1 s).
Proof. destruct s as [|a s]; cbn; [done|]. by intros ->%Ascii.eqb_eq. Qed.

Lemma SplitHostPort_plain hostport host port :
  SplitHostPort hostport = Ok (host, port) -> plain host port.
Proof.
  unfold SplitHostPort. destruct (split_last ":" hostport) as [[before p]|] eqn:El; [|done].
  pose proof (split_last_Some _ _ _ _ El) as [Hs Hp]. destruct (starts "[" hostport) eqn:Hb.
  - destruct (split_first "]" hostport) as [[bracketed after]|] eqn:Ef; [|done].
    apply split_first_Some in Ef as [Hf Hbr].
    destruct (starts ":" after) eqn:Ha; cbn [negb]; [|done]. apply starts_true in Ha.
    destruct (has ":" (drop1 after)) eqn:Hd; [done|]. cbn [res_bind].
    destruct (has "[" _) eqn:Ho; [done|]. destruct (has "]" after) eqn:Hc; [done|]. intros [= <- <-].
    destruct bracketed as [|b bracketed]; [by rewrite Hf in Hb|]. cbn in Hbr. apply orb_false_iff in Hbr as [_ Hbr].
    rewrite Hf in Ho. cbn in Ho. rewrite has_app in Ho. apply orb_false_iff in Ho as [Ho1 Ho2].
    assert (drop1 after = p) as <-.
    { clear Ho1 Ho2 Hb. rewrite Hf, Ha in El. change (String "]" (String ":" ?x)) with ("]" ++ String ":" x) in El.
      rewrite <- str_app_assoc, split_last_app in El by done. congruence. }
    rewrite Ha in Hc. cbn in Hc. rewrite Ha in Ho2. cbn in Ho2. by split_and!.
  - destruct (has ":" before) eqn:Hcol; [done|]. cbn [res_bind].
    destruct (has "[" hostport) eqn:Ho; [done|]. destruct (has "]" hostport) eqn:Hc; [done|]. intros [= <- <-].
    rewrite Hs, has_app in Ho, Hc. apply orb_false_iff in Ho as [? ?], Hc as [? ?]. by split_and!.
Qed.

Lemma SplitHostPort_join host port :
  plain host port -> SplitHostPort (JoinHostPort host port) = Ok (host, port).
Proof.
  intros (H1 & H2 & H3 & H4 & H5). unfold JoinHostPort. destruct (has ":" host) eqn:Hc; unfold SplitHostPort.
  - set (hp := "[" ++ host ++ "]:" ++ port).
    assert (split_last ":" hp = Some ("[" ++ host ++ "]", port)) as ->.
    { rewrite <- (split_last_app ":") by done. f_equal. unfold hp. by rewrite !str_app_assoc. }
    assert (split_first "]" hp = Some ("[" ++ host, String ":" port)) as -> by (by rewrite <- (split_first_app "]")).
    change (starts "[" hp) with true. cbn. rewrite H3. cbn. by rewrite has_app, H1; cbn; rewrite H4, H5.
  - change (host ++ ":" ++ port) with (host ++ String ":" port). rewrite split_last_app by done.
    destruct (starts "[" (host ++ String ":" port)) eqn:Hb.
    + destruct host as [|a host]; cbn in Hb; [done|]. apply Ascii.eqb_eq in Hb as ->. done.
    + rewrite Hc. cbn [res_bind]. rewrite !has_app, H1, H2. cbn. by rewrite H4, H5.
Qed.


