(* ===== verification/GoIO.v ===== *)
(** * Writers and files

    [io.Writer] with partial writes, and the part of package [os] the code
    uses, on a file system whose failures are given by an oracle. *)

From Stdlib Require Import ZArith Lia.
From stdpp Require Import base numbers list strings gmap.
From S2P Require Import Prelude GoInt Bytes GoStr.

Local Open Scope Z_scope.

(** ** io.Writer

    A writer accepts [w_cap] bytes (all of them for [None]); the write that
    exceeds the capacity stores the bytes that still fit and fails.  The code
    never writes again after a failed write. *)
Record Writer := mkWriter { w_buf : bytes; w_cap : option nat }.

Definition err_write : error := External "write".

Definition new_writer (cap : option nat) : Writer := mkWriter [] cap.

Definition room (w : Writer) (n : nat) : bool :=
  match w_cap w with
  | None => true
  | Some c => bool_decide (length (w_buf w) + n <= c)%nat
  end.

(** [w.Write(chunk)] *)
Definition w_Write (chunk : bytes) : M Writer unit := fun w =>
  if room w (length chunk) then (Ok tt, mkWriter (w_buf w ++ chunk) (w_cap w))
  else
    let left := match w_cap w with None => O | Some c => (c - length (w_buf w))%nat end in
    (Err err_write, mkWriter (w_buf w ++ take left chunk) (w_cap w)).

(** ** What a serializer writes

    [writes m out e]: on a writer with room for [out], [m] appends [out] and
    ends with the error [e], if any; on any other writer it appends a strict
    prefix of [out] and fails. *)
Definition end_of (e : option error) : result unit :=
  match e with None => Ok tt | Some e => Err e end.

Definition writer_ok (w : Writer) : Prop := room w 0 = true.

Definition writes (m : M Writer unit) (out : bytes) (e : option error) : Prop :=
  forall w, writer_ok w ->
    (room w (length out) = true ->
       m w = (end_of e, mkWriter (w_buf w ++ out) (w_cap w))) /\
    (room w (length out) = false ->
       exists err k, (k < length out)%nat /\
         m w = (Err err, mkWriter (w_buf w ++ take k out) (w_cap w))).

Lemma room_true w n :
  room w n = true <-> (forall c, w_cap w = Some c -> length (w_buf w) + n <= c)%nat.
Proof.
  unfold room. destruct (w_cap w) as [c|]; [|naive_solver].
  rewrite bool_decide_eq_true.
  split; [intros ? ? [= ->]; done|auto].
Qed.

Lemma room_false w n :
  room w n = false <-> (exists c, w_cap w = Some c /\ c < length (w_buf w) + n)%nat.
Proof.
  unfold room. destruct (w_cap w) as [c|]; [|naive_solver].
  rewrite bool_decide_eq_false. split; [intros Hn; exists c; split; [done|lia]|].
  intros (? & ? & ?). simplify_eq. lia.
Qed.

Lemma writes_ret : writes (ret tt) [] None.
Proof.
  intros w Hw. split; [intros _; unfold ret; cbn; rewrite app_nil_r; by destruct w|].
  intros Hr. unfold writer_ok in Hw. cbn in Hr. congruence.
Qed.

Lemma writes_fail e : writes (fail e) [] (Some e).
Proof.
  intros w Hw. split; [intros _; unfold fail; cbn; rewrite app_nil_r; by destruct w|].
  intros Hr. unfold writer_ok in Hw. cbn in Hr. congruence.
Qed.

Lemma writes_Write bs : writes (w_Write bs) bs None.
Proof.
  intros w Hw. unfold w_Write. split; intros Hr; rewrite Hr; [done|].
  apply room_false in Hr as (c & Hc & Hlt). unfold writer_ok in Hw.
  rewrite room_true in Hw. specialize (Hw c Hc). rewrite Hc.
  exists err_write, (c - length (w_buf w))%nat. split; [lia|done].
Qed.

Lemma writes_wrapE f m out e :
  writes m out e -> writes (wrapE f m) out (Wrapf f <$> e).
Proof.
  intros H w Hw. destruct (H w Hw) as [H1 H2]. unfold wrapE. split; intros Hr.
  - rewrite H1 by done. by destruct e.
  - destruct (H2 Hr) as (err & k & Hk & E). rewrite E. by exists (Wrapf f err), k.
Qed.

Lemma writes_bind m1 m2 o1 o2 e :
  writes m1 o1 None -> writes m2 o2 e -> writes (m1 ;;; m2) (o1 ++ o2) e.
Proof.
  intros H1 H2 w Hw. destruct (H1 w Hw) as [A1 B1]. rewrite length_app.
  destruct (room w (length o1)) eqn:R1.
  - set (w' := mkWriter (w_buf w ++ o1) (w_cap w)).
    assert (Hw' : writer_ok w').
    { unfold writer_ok. rewrite room_true in *. cbn. intros c Hc.
      rewrite length_app. specialize (R1 c Hc). lia. }
    assert (HR : room w (length o1 + length o2) = room w' (length o2)).
    { unfold room. cbn. destruct (w_cap w); [|done].
      rewrite length_app. apply bool_decide_ext. lia. }
    destruct (H2 w' Hw') as [A2 B2].
    rewrite (bind_Ok m1 _ w tt w') by (by apply A1). rewrite HR. split; intros Hr.
    + rewrite A2 by done. cbn. by rewrite app_assoc.
    + destruct (B2 Hr) as (err & k & Hk & E). rewrite E. cbn.
      exists err, (length o1 + k)%nat. split; [lia|].
      by rewrite take_app_add, app_assoc.
  - split; intros Hr.
    + rewrite room_true in Hr. apply room_false in R1 as (c & Hc & ?).
      specialize (Hr c Hc). lia.
    + destruct (B1 eq_refl) as (err & k & Hk & E).
      exists err, k. split; [lia|]. rewrite (bind_Err _ _ _ _ _ E).
      by rewrite take_app_le by lia.
Qed.

Lemma writes_bind_err m1 m2 o1 e :
  writes m1 o1 (Some e) -> writes (m1 ;;; m2) o1 (Some e).
Proof.
  intros H w Hw. destruct (H w Hw) as [A B]. split; intros Hr.
  - by rewrite (bind_Err _ _ _ _ _ (A Hr)).
  - destruct (B Hr) as (err & k & Hk & E). exists err, k. split; [done|].
    by rewrite (bind_Err _ _ _ _ _ E).
Qed.

(** ** Serializing a range of entries

    The output of the loops [for j := start; j <= end; j++] that look an entry
    up and write its encoding: the encodings up to the first missing entry. *)
Fixpoint collect (f : Z -> option bytes) (l : list Z) : bytes * bool :=
  match l with
  | [] => ([], true)
  | j :: l' =>
      match f j with
      | None => ([], false)
      | Some bs => let '(out, ok) := collect f l' in (bs ++ out, ok)
      end
  end.

(** The whole output, [None] when an entry is missing. *)
Definition collect_all (f : Z -> option bytes) (l : list Z) : option bytes :=
  let '(out, ok) := collect f l in if ok : bool then Some out else None.

Lemma writes_range f l (body : Z -> M Writer unit) miss :
  (forall j bs, f j = Some bs -> writes (body j) bs None) ->
  (forall j, f j = None -> writes (body j) [] (Some (miss j))) ->
  exists e, writes (forM l body) (collect f l).1 e /\
            (e = None <-> (collect f l).2 = true).
Proof.
  intros Hs Hn. induction l as [|j l (e & IH & He)]; cbn.
  - exists None. split; [apply writes_ret|done].
  - destruct (f j) as [bs|] eqn:E; cbn.
    + destruct (collect f l) as [out ok] eqn:C. cbn in *.
      exists e. split; [|done]. apply writes_bind; [by apply Hs|done].
    + exists (Some (miss j)). split; [|done].
      by apply writes_bind_err, Hn.
Qed.

Lemma collect_end f l (e : option error) :
  (e = None <-> (collect f l).2 = true) -> e = None -> collect_all f l = Some (collect f l).1.
Proof. unfold collect_all. destruct (collect f l) as [o []]; naive_solver. Qed.

Lemma collect_all_cons f j l :
  collect_all f (j :: l)
  = match f j, collect_all f l with
    | Some bs, Some out => Some (bs ++ out)
    | _, _ => None
    end.
Proof.
  unfold collect_all. cbn. destruct (f j); [|done].
  by destruct (collect f l) as [out []].
Qed.

Lemma collect_all_app f l1 l2 :
  collect_all f (l1 ++ l2)
  = match collect_all f l1, collect_all f l2 with
    | Some a, Some b => Some (a ++ b)
    | _, _ => None
    end.
Proof.
  induction l1 as [|j l1 IH].
  - cbn [app]. change (collect_all f []) with (Some ([] : bytes)).
    by destruct (collect_all f l2).
  - cbn [app]. rewrite !collect_all_cons, IH.
    destruct (f j), (collect_all f l1), (collect_all f l2); try done.
    by rewrite app_assoc.
Qed.

Lemma collect_all_ext f g l :
  (forall j, j ∈ l -> f j = g j) -> collect_all f l = collect_all g l.
Proof.
  induction l as [|j l IH]; intros H; [done|].
  rewrite !collect_all_cons, H, IH by set_solver. done.
Qed.

Lemma collect_all_Some f l out :
  collect_all f l = Some out <->
  exists chunks, mapM f l = Some chunks /\ out = concat chunks.
Proof.
  assert (collect_all f l = @concat _ <$> mapM f l) as ->.
  { induction l as [|j l IH]; [done|].
    rewrite collect_all_cons, IH. cbn.
    destruct (f j); cbn; [|done]. by destruct (mapM f l). }
  destruct (mapM f l) as [ch|]; cbn; [|naive_solver].
  split; [intros [= <-]; eauto|intros (ch' & [= <-] & ->); done].
Qed.

Lemma collect_all_is_Some f l :
  is_Some (collect_all f l) <-> forall j, j ∈ l -> is_Some (f j).
Proof.
  induction l as [|j l IH].
  - split; [set_solver|]. by eexists.
  - rewrite collect_all_cons. split.
    + intros [o Ho] i Hi. destruct (f j) eqn:E; [|done].
      destruct (collect_all f l) eqn:C; [|done].
      apply elem_of_cons in Hi as [->|Hi]; [by rewrite E|].
      by apply IH.
    + intros H. destruct (H j) as [bs ->]; [set_solver|].
      destruct (proj2 IH) as [o ->]; [intros; apply H; set_solver|]. by eexists.
Qed.

(** Fixed-size entries: the length of the output. *)
Lemma length_collect_all f l n out :
  (forall j bs, f j = Some bs -> length bs = n) ->
  collect_all f l = Some out -> length out = (length l * n)%nat.
Proof.
  intros Hn. revert out. induction l as [|j l IH]; intros out.
  - unfold collect_all. cbn. intros. by simplify_eq.
  - rewrite collect_all_cons. destruct (f j) eqn:E; [|done].
    destruct (collect_all f l); [|done]. intros. simplify_eq.
    rewrite length_app, (Hn _ _ E), (IH _ eq_refl). cbn. lia.
Qed.

(** Fixed-size entries: an output of full length is complete. *)
Lemma collect_fixed f l n :
  (0 < n)%nat -> (forall j bs, f j = Some bs -> length bs = n) ->
  (length (collect f l).1 <= length l * n)%nat /\
  (length (collect f l).1 = length l * n -> (collect f l).2 = true)%nat.
Proof.
  intros Hn Hf. induction l as [|j l [IH1 IH2]]; cbn; [done|].
  destruct (f j) as [bs|] eqn:E; cbn; [|lia].
  destruct (collect f l) as [out ok]. cbn in *. rewrite length_app, (Hf _ _ E).
  split; [lia|]. intros. apply IH2. lia.
Qed.

(** The output of a loop over entries that succeeded on an unlimited writer. *)
Lemma writes_unlimited f l m e w :
  writes m (collect f l).1 e -> (e = None <-> (collect f l).2 = true) ->
  m (new_writer None) = (Ok tt, w) -> collect_all f l = Some (w_buf w).
Proof.
  intros Hw He E. destruct (Hw (new_writer None)) as [A _]; [done|].
  rewrite A in E by done. injection E as E <-. cbn.
  apply (collect_end f l e He). by destruct e.
Qed.

(** ** Files

    The oracle says which operations fail: [fault_quota] bounds what can be
    written to a file before the device refuses, [fault_read] what can be read
    from it. *)
Record Faults := {
  fault_mkdir : str -> bool;
  fault_create : str -> bool;
  fault_quota : str -> option nat;
  fault_close : str -> bool;
  fault_open : str -> bool;
  fault_read : str -> option nat;
  fault_stat : str -> bool;
  fault_rename : str -> bool
}.

Record FS := mkFS {
  fs_files : gmap str bytes;
  fs_dirs : gset str;
  fs_faults : Faults
}.

Definition no_faults : Faults := {|
  fault_mkdir := fun _ => false;
  fault_create := fun _ => false;
  fault_quota := fun _ => None;
  fault_close := fun _ => false;
  fault_open := fun _ => false;
  fault_read := fun _ => None;
  fault_stat := fun _ => false;
  fault_rename := fun _ => false
|}.

Definition set_file (p : str) (bs : bytes) (fs : FS) : FS :=
  mkFS (<[p := bs]> (fs_files fs)) (fs_dirs fs) (fs_faults fs).

Definition err_not_exist : error := Sentinel "file does not exist".

(** [os.MkdirAll] *)
Definition os_MkdirAll (p : str) : M FS unit := fun fs =>
  if fault_mkdir (fs_faults fs) p then (Err (External "mkdir"), fs)
  else (Ok tt, mkFS (fs_files fs) ({[p]} ∪ fs_dirs fs) (fs_faults fs)).

(** [os.Create]: an existing file is truncated. *)
Definition os_Create (p : str) : M FS unit := fun fs =>
  if fault_create (fs_faults fs) p then (Err (External "create"), fs)
  else (Ok tt, set_file p [] fs).

Definition os_Close (p : str) : M FS unit := fun fs =>
  if fault_close (fs_faults fs) p then (Err (External "close"), fs)
  else (Ok tt, fs).

(** Run a serializer on the file [p], just created. *)
Definition write_file (p : str) (write : M Writer unit) : M FS unit := fun fs =>
  let '(r, w) := write (new_writer (fault_quota (fs_faults fs) p)) in
  (r, set_file p (w_buf w) fs).

(** The bytes a reader of file [p] gets, and whether it ends with [io.EOF]. *)
Definition readable (fs : FS) (p : str) : result (bytes * bool) :=
  match fs_files fs !! p with
  | None => Err err_not_exist
  | Some bs =>
      if fault_open (fs_faults fs) p then Err (External "open")
      else match fault_read (fs_faults fs) p with
           | Some n => if bool_decide (n < length bs)%nat then Ok (take n bs, false)
                       else Ok (bs, true)
           | None => Ok (bs, true)
           end
  end.

(** [os.ReadFile] *)
Definition os_ReadFile (fs : FS) (p : str) : result bytes :=
  match readable fs p with
  | Ok (bs, true) => Ok bs
  | Ok (_, false) => Err (External "read")
  | Err e => Err e
  end.

(** [os.Stat], [os.Rename], and [os.Remove] of a file that exists. *)
Definition os_Stat (fs : FS) (p : str) : result unit :=
  if fault_stat (fs_faults fs) p then Err (External "stat")
  else if bool_decide (is_Some (fs_files fs !! p) \/ p ∈ fs_dirs fs) then Ok tt
  else Err err_not_exist.

Definition os_Rename (old new : str) : M FS unit := fun fs =>
  if fault_rename (fs_faults fs) new then (Err (External "rename"), fs)
  else match fs_files fs !! old with
       | None => (Err err_not_exist, fs)
       | Some bs => (Ok tt, mkFS (<[new := bs]> (delete old (fs_files fs))) (fs_dirs fs) (fs_faults fs))
       end.

Definition os_Remove (p : str) (fs : FS) : FS :=
  mkFS (delete p (fs_files fs)) (fs_dirs fs) (fs_faults fs).

(** The idiom of every file writer of the code:
<<
    file, err := os.Create(fileName)
    if err != nil { return fmt.Errorf(f1, fileName, err) }
    err = write(file)
    if err != nil { _ = file.Close(); return fmt.Errorf(f2, fileName, err) }
    err = file.Close()
    if err != nil { return fmt.Errorf(f3, fileName, err) }
    return nil
>> *)
Definition create_write_close (f1 f2 f3 : str) (p : str) (write : M Writer unit)
  : M FS unit :=
  wrapE f1 (os_Create p) ;;;
  wrapE f2 (write_file p write) ;;;
  wrapE f3 (os_Close p).

(** Only the file [p] changes, whatever the outcome. *)
Lemma create_write_close_frame f1 f2 f3 p write fs r fs' q :
  create_write_close f1 f2 f3 p write fs = (r, fs') ->
  q <> p -> fs_files fs' !! q = fs_files fs !! q.
Proof.
  unfold create_write_close, bind, wrapE, os_Create, write_file, os_Close.
  intros E Hne. destruct (fault_create _ p); cbn in E; [by simplify_eq|].
  destruct (write _) as [[?|?] w]; cbn in E.
  - destruct (fault_close _ p); cbn in E; simplify_eq; cbn;
      by rewrite !lookup_insert_ne by done.
  - simplify_eq; cbn. by rewrite !lookup_insert_ne by done.
Qed.

Lemma create_write_close_env f1 f2 f3 p write fs r fs' :
  create_write_close f1 f2 f3 p write fs = (r, fs') ->
  fs_dirs fs' = fs_dirs fs /\ fs_faults fs' = fs_faults fs.
Proof.
  unfold create_write_close, bind, wrapE, os_Create, write_file, os_Close.
  destruct (fault_create _ p); cbn; [naive_solver|].
  destruct (write _) as [[?|?] w]; cbn; [|naive_solver].
  destruct (fault_close _ p); naive_solver.
Qed.

(** A successful write leaves exactly the serializer's output in the file. *)
Lemma create_write_close_Ok f1 f2 f3 p write out e fs fs' :
  writes write out e ->
  create_write_close f1 f2 f3 p write fs = (Ok tt, fs') ->
  e = None /\ fs_files fs' = <[p := out]> (fs_files fs).
Proof.
  unfold create_write_close, bind, wrapE, os_Create, write_file, os_Close.
  intros W E. destruct (fault_create _ p); cbn in E; [done|].
  set (w0 := new_writer _) in E.
  assert (writer_ok w0) as Hw0.
  { unfold writer_ok. apply room_true. intros c Hc. cbn. lia. }
  destruct (W w0 Hw0) as [A B].
  destruct (room w0 (length out)).
  - rewrite A in E by done. destruct e; cbn in E; [done|].
    destruct (fault_close _ p); cbn in E; simplify_eq. cbn.
    by rewrite insert_insert_eq.
  - destruct (B eq_refl) as (err & k & _ & E'). rewrite E' in E. done.
Qed.

(** Without faults it succeeds when the serializer does. *)
Lemma create_write_close_no_faults f1 f2 f3 p write out fs :
  writes write out None -> fs_faults fs = no_faults ->
  exists fs', create_write_close f1 f2 f3 p write fs = (Ok tt, fs') /\
    fs_files fs' = <[p := out]> (fs_files fs).
Proof.
  destruct fs as [files dirs faults]. intros W Hf. cbn in Hf. subst faults.
  destruct (W (new_writer None)) as [A _]; [done|]. specialize (A eq_refl).
  unfold create_write_close, bind, wrapE, os_Create, write_file, os_Close, new_writer in *.
  cbn in *. rewrite A. cbn. eexists. split; [done|].
  cbn. by rewrite insert_insert_eq.
Qed.

#[export] Hint Resolve writes_ret writes_fail writes_Write writes_wrapE : go.
