(* ===== verification/Iface.v ===== *)
(** * Interfaces to code outside the repository

    The btcd packages [wire], [chainhash] and [rpcclient] are parameters: the
    operations the code calls are the fields of [Wire] and [Chain], and the
    documented facts the theorems rely on are the fields of [WireLaws].
    [Toy] instantiates all of them. *)

From Stdlib Require Import ZArith Lia.
From stdpp Require Import base numbers list strings gmap.
From S2P Require Import Prelude GoInt Bytes GoStr GoIO.

(** ** wire and chainhash

    A reader is the list of bytes left to read; a decoder returns the value
    and the bytes after it. *)
Class Wire := {
  (** [wire.BlockHeader] with its [PrevBlock] field, [BlockHash], [Serialize]
      and [Deserialize] *)
  BlockHeader : Type;
  PrevBlock : BlockHeader -> Hash;
  BlockHash : BlockHeader -> Hash;
  hdr_Serialize : BlockHeader -> bytes;
  hdr_Deserialize : bytes -> result (BlockHeader * bytes);
  (** [chainhash.DoubleHashH] and [DoubleHashB] *)
  DoubleHash : bytes -> Hash;
  (** [chainhash.NewHashFromStr] and [Hash.String] *)
  NewHashFromStr : str -> result Hash;
  Hash_String : Hash -> str;
  (** [wire.WriteVarInt], [VarIntSerializeSize], [ReadVarInt] *)
  WriteVarInt : Z -> bytes;
  VarIntSerializeSize : Z -> Z;
  ReadVarInt : bytes -> result (Z * bytes);
  (** [wire.MaxBlockPayload], [wire.MaxMessagePayload] *)
  MaxBlockPayload : Z;
  MaxMessagePayload : Z;
  (** [wire.WriteVarBytes], [ReadVarBytes] with its [maxAllowed] *)
  WriteVarBytes : bytes -> bytes;
  ReadVarBytes : Z -> bytes -> result (bytes * bytes)
}.

(** [wire.MaxBlockHeaderPayload]: a block header is 80 bytes. *)
Definition MaxBlockHeaderPayload : Z := 80.

Class WireLaws `{Wi : Wire} := {
  length_DoubleHash bs : length (DoubleHash bs) = 32%nat;
  length_hdr_Serialize h : length (hdr_Serialize h) = 80%nat;
  length_PrevBlock h : length (PrevBlock h) = 32%nat;
  BlockHash_Serialize h : BlockHash h = DoubleHash (hdr_Serialize h);
  PrevBlock_Serialize h : slice 4 32 (hdr_Serialize h) = PrevBlock h;
  hdr_Deserialize_Serialize h rest :
    hdr_Deserialize (hdr_Serialize h ++ rest) = Ok (h, rest);
  hdr_Deserialize_nil : hdr_Deserialize [] = Err io_EOF;
  hdr_Deserialize_shrinks bs h rest :
    hdr_Deserialize bs = Ok (h, rest) -> (length rest < length bs)%nat;
  VarIntSerializeSize_length n :
    uint64 n -> VarIntSerializeSize n = Z.of_nat (length (WriteVarInt n));
  WriteVarInt_nonempty n : uint64 n -> (0 < length (WriteVarInt n))%nat;
  ReadVarInt_WriteVarInt n rest :
    uint64 n -> ReadVarInt (WriteVarInt n ++ rest) = Ok (n, rest);
  ReadVarInt_nil : ReadVarInt [] = Err io_EOF;
  ReadVarInt_shrinks bs n rest :
    ReadVarInt bs = Ok (n, rest) -> (length rest < length bs)%nat /\ uint64 n;
  MaxPayload_bound :
    0 <= MaxBlockPayload < 18446744073709551616 /\
    0 <= MaxMessagePayload < 18446744073709551616;
  WriteVarBytes_eq bs :
    WriteVarBytes bs = WriteVarInt (Z.of_nat (length bs)) ++ bs;
  ReadVarBytes_WriteVarBytes max bs rest :
    Z.of_nat (length bs) <= max -> max < 18446744073709551616 ->
    ReadVarBytes max (WriteVarBytes bs ++ rest) = Ok (bs, rest);
  ReadVarBytes_nil max : ReadVarBytes max [] = Err io_EOF;
  ReadVarBytes_shrinks max bs v rest :
    ReadVarBytes max bs = Ok (v, rest) -> (length rest < length bs)%nat
}.

(** ** The backend

    [GetBlockFilter]'s result has the hexadecimal filter and filter header.
    Every call may change the world: between two calls the backend can
    accept blocks or reorganize.  [quitClosed] is the state of the [quit]
    channel seen by a [select]. *)
Record FilterResult := { fr_Filter : str; fr_Header : str }.

Class Chain `{Wi : Wire} (W : Type) := {
  GetBlockHash : Z -> M W Hash;
  GetBlockHeader : Hash -> M W BlockHeader;
  GetBlockFilter : Hash -> M W FilterResult;
  GetBlockCount : M W Z;
  quitClosed : W -> bool * W
}.

(** ** Hash chains

    The BIP157 step [dsha(dsha(filter) || prev)], used in three places of the
    code. *)
Definition filter_step `{Wire} (prev : Hash) (filter : bytes) : Hash :=
  DoubleHash (DoubleHash filter ++ prev).

Lemma length_filter_step `{WireLaws} prev f : length (filter_step prev f) = 32%nat.
Proof. apply length_DoubleHash. Qed.

(** A collision of [DoubleHash]: the alternative in every soundness theorem
    about commitments. *)
Definition collision `{Wire} : Prop :=
  exists x y, x <> y /\ DoubleHash x = DoubleHash y.

Lemma DoubleHash_inj_or `{Wire} x y : DoubleHash x = DoubleHash y -> x = y \/ collision.
Proof.
  intros E. destruct (decide (x = y)) as [|Hne]; [by left|right].
  by exists x, y.
Qed.

Lemma filter_step_inj `{WireLaws} p1 f1 p2 f2 :
  filter_step p1 f1 = filter_step p2 f2 -> (p1 = p2 /\ f1 = f2) \/ collision.
Proof.
  intros E. unfold filter_step in E.
  apply DoubleHash_inj_or in E as [E|]; [|by right].
  apply app_inj_1 in E as [E ->]; [|by rewrite !length_DoubleHash].
  apply DoubleHash_inj_or in E as [->|]; [by left|by right].
Qed.

(** Two commitment chains of the same length with the same end agree
    everywhere. *)
Lemma filter_chain_inj `{WireLaws} fs1 fs2 p1 p2 :
  length fs1 = length fs2 ->
  foldl filter_step p1 fs1 = foldl filter_step p2 fs2 ->
  (p1 = p2 /\ fs1 = fs2) \/ collision.
Proof.
  revert p1 p2 fs2. induction fs1 as [|f1 fs1 IH]; intros p1 p2 [|f2 fs2] HL E;
    cbn in *; try done; [by left|].
  destruct (IH (filter_step p1 f1) (filter_step p2 f2) fs2) as [[E1 ->]|]; [lia|done| |by right].
  destruct (filter_step_inj _ _ _ _ E1) as [[-> ->]|]; [by left|by right].
Qed.
