(* ===== verification/Toy.v ===== *)
(** * A concrete instance of the interfaces

    Used by the witnesses only: the CompactSize integers of Bitcoin, 80-byte
    headers, a 256-bit checksum as the hash, and a backend holding a list of
    blocks.  Nothing here models code of the repository. *)

From Stdlib Require Import ZArith Lia Strings.Byte.
From stdpp Require Import base numbers list strings gmap.
From S2P Require Import Prelude GoInt Bytes GoStr GoIO Iface.

(** ** CompactSize *)

Definition compact (n : Z) : bytes :=
  if n <? 253 then put_le 1 n
  else if n <=? 65535 then xfd :: put_le 2 n
  else if n <=? 4294967295 then xfe :: put_le 4 n
  else xff :: put_le 8 n.

Definition compact_size (n : Z) : Z :=
  if n <? 253 then 1 else if n <=? 65535 then 3 else if n <=? 4294967295 then 5 else 9.

Definition read_le (n : nat) (min : Z) (bs : bytes) : result (Z * bytes) :=
  if bool_decide (length bs < n)%nat then Err io_ErrUnexpectedEOF
  else let v := get_le (take n bs) in
       if v <? min then Err (External "non-canonical varint")
       else Ok (v, drop n bs).

Definition uncompact (bs : bytes) : result (Z * bytes) :=
  match bs with
  | [] => Err io_EOF
  | b :: r =>
      if bool_decide (b = xfd) then read_le 2 253 r
      else if bool_decide (b = xfe) then read_le 4 65536 r
      else if bool_decide (b = xff) then read_le 8 4294967296 r
      else Ok (Z_of_byte b, r)
  end.

Definition write_var_bytes (bs : bytes) : bytes := compact (Z.of_nat (length bs)) ++ bs.

Definition read_var_bytes (max : Z) (bs : bytes) : result (bytes * bytes) :=
  res_bind (uncompact bs) (fun '(n, r) =>
    if max <? n then Err (External "too large")
    else if bool_decide (length r < Z.to_nat n)%nat then Err io_ErrUnexpectedEOF
    else Ok (take (Z.to_nat n) r, drop (Z.to_nat n) r)).

Lemma read_le_put_le n min v rest :
  min <= v -> 0 <= v < 256 ^ Z.of_nat n -> read_le n min (put_le n v ++ rest) = Ok (v, rest).
Proof.
  intros Hmin Hv. unfold read_le.
  rewrite bool_decide_eq_false_2 by (rewrite length_app, length_put_le; lia).
  rewrite take_app_length' by (by rewrite length_put_le).
  rewrite drop_app_length' by (by rewrite length_put_le).
  rewrite get_put_le_id by done. by rewrite (proj2 (Z.ltb_ge _ _)) by lia.
Qed.

Lemma read_le_bound n min bs v rest :
  read_le n min bs = Ok (v, rest) -> (length rest <= length bs)%nat /\ 0 <= v < 256 ^ Z.of_nat n.
Proof.
  unfold read_le. case_bool_decide; [done|]. destruct (_ <? min); [done|].
  intros ?. simplify_eq. rewrite length_drop.
  pose proof (get_le_bound (take n bs)) as Hb. rewrite length_take, Nat.min_l in Hb by lia.
  split; [lia|done].
Qed.

Lemma Z_of_byte_of_Z_small z : 0 <= z < 256 -> Z_of_byte (byte_of_Z z) = z.
Proof. intros. rewrite Z_of_byte_of_Z. by apply Z.mod_small. Qed.

Lemma uncompact_compact n rest : uint64 n -> uncompact (compact n ++ rest) = Ok (n, rest).
Proof.
  unfold uint64. intros Hn. unfold compact.
  destruct (Z.ltb_spec n 253).
  - cbn. rewrite !bool_decide_eq_false_2; [by rewrite Z_of_byte_of_Z_small by lia|..];
      intros E; apply (f_equal Z_of_byte) in E; rewrite Z_of_byte_of_Z_small in E by lia;
      subst n; vm_compute in H; done.
  - destruct (Z.leb_spec n 65535); [|destruct (Z.leb_spec n 4294967295)];
      cbn [app uncompact]; apply read_le_put_le; cbn; lia.
Qed.

Lemma length_compact n : uint64 n -> compact_size n = Z.of_nat (length (compact n)).
Proof.
  intros _. unfold compact, compact_size.
  by destruct (n <? 253), (n <=? 65535), (n <=? 4294967295).
Qed.

Lemma compact_nonempty n : (0 < length (compact n))%nat.
Proof. unfold compact. destruct (n <? 253), (n <=? 65535), (n <=? 4294967295); cbn; lia. Qed.

Lemma uncompact_shrinks bs n rest :
  uncompact bs = Ok (n, rest) -> (length rest < length bs)%nat /\ uint64 n.
Proof.
  unfold uncompact, uint64. destruct bs as [|b r]; [done|].
  repeat case_bool_decide; intros E.
  1-3: apply read_le_bound in E as [? ?]; cbn in *; lia.
  simplify_eq. pose proof (Z_of_byte_bound b). cbn. lia.
Qed.

(** ** Headers and hashes *)

Definition toy_header : Type := { bs : bytes | bool_decide (length bs = 80%nat) = true }.

Definition toy_hash (bs : bytes) : Hash :=
  put_le 32 (foldl (fun acc b => (acc * 257 + Z_of_byte b + 1) mod 18446744073709551557) 7 bs).

Definition toy_read_header (bs : bytes) : result (toy_header * bytes) :=
  match bs with
  | [] => Err io_EOF
  | _ =>
      match decide (bool_decide (length (take 80 bs) = 80%nat) = true) with
      | left H => Ok (exist _ (take 80 bs) H, drop 80 bs)
      | right _ => Err io_ErrUnexpectedEOF
      end
  end.

Definition toy_hash_of_str (s : str) : result Hash :=
  res_bind (hex_DecodeString s) (fun bs => Ok (rev bs)).
Definition toy_str_of_hash (h : Hash) : str := hex_EncodeToString (rev h).

#[export] Instance toy_wire : Wire := {|
  BlockHeader := toy_header;
  PrevBlock h := slice 4 32 (proj1_sig h);
  BlockHash h := toy_hash (proj1_sig h);
  hdr_Serialize h := proj1_sig h;
  hdr_Deserialize := toy_read_header;
  DoubleHash := toy_hash;
  NewHashFromStr := toy_hash_of_str;
  Hash_String := toy_str_of_hash;
  WriteVarInt := compact;
  VarIntSerializeSize := compact_size;
  ReadVarInt := uncompact;
  MaxBlockPayload := 4000000;
  MaxMessagePayload := 33554432;
  WriteVarBytes := write_var_bytes;
  ReadVarBytes := read_var_bytes
|}.

Lemma toy_header_length (h : toy_header) : length (proj1_sig h) = 80%nat.
Proof. destruct h as [bs H]. cbn. by apply bool_decide_eq_true in H. Qed.

Lemma toy_header_eq (h1 h2 : toy_header) : proj1_sig h1 = proj1_sig h2 -> h1 = h2.
Proof.
  destruct h1 as [a Ha], h2 as [b Hb]. cbn. intros ->.
  f_equal. apply (proof_irrel (A := _ = _)).
Qed.

Lemma toy_read_header_app (h : toy_header) rest :
  toy_read_header (proj1_sig h ++ rest) = Ok (h, rest).
Proof.
  pose proof (toy_header_length h) as HL. unfold toy_read_header.
  destruct (proj1_sig h ++ rest) as [|b r] eqn:E.
  { apply (f_equal length) in E. rewrite length_app, HL in E. done. }
  rewrite <- E. clear E. case_decide as Hd.
  - do 2 f_equal; [|by rewrite drop_app_length' by done].
    apply toy_header_eq. cbn. by rewrite take_app_length' by done.
  - destruct Hd. apply bool_decide_eq_true. rewrite take_app_length' by done. done.
Qed.

Lemma toy_read_header_shrinks bs h rest :
  toy_read_header bs = Ok (h, rest) -> (length rest < length bs)%nat.
Proof.
  unfold toy_read_header. destruct bs as [|b bs]; [done|].
  case_decide; [|done]. intros E. simplify_eq. rewrite length_drop. cbn [length]. lia.
Qed.

Lemma read_var_bytes_write max bs rest :
  Z.of_nat (length bs) <= max -> max < 18446744073709551616 ->
  read_var_bytes max (write_var_bytes bs ++ rest) = Ok (bs, rest).
Proof.
  intros H1 H2. unfold read_var_bytes, write_var_bytes.
  rewrite <- app_assoc, uncompact_compact by (unfold uint64; lia). cbn.
  rewrite (proj2 (Z.ltb_ge _ _)) by lia. rewrite Nat2Z.id.
  rewrite bool_decide_eq_false_2 by (rewrite length_app; lia).
  by rewrite take_app_length, drop_app_length.
Qed.

Lemma read_var_bytes_shrinks max bs v rest :
  read_var_bytes max bs = Ok (v, rest) -> (length rest < length bs)%nat.
Proof.
  unfold read_var_bytes. destruct (uncompact bs) as [[n r]|] eqn:E; cbn; [|done].
  apply uncompact_shrinks in E as [E _].
  destruct (max <? n); [done|]. case_bool_decide; [done|].
  intros. simplify_eq. rewrite length_drop. lia.
Qed.

#[export] Instance toy_wire_laws : WireLaws (Wi := toy_wire).
Proof.
  split; cbn -[slice toy_hash]; intros.
  - apply length_put_le.
  - apply toy_header_length.
  - apply length_slice. rewrite toy_header_length. lia.
  - done.
  - done.
  - apply toy_read_header_app.
  - done.
  - by eapply toy_read_header_shrinks.
  - by apply length_compact.
  - apply compact_nonempty.
  - by apply uncompact_compact.
  - done.
  - by apply uncompact_shrinks.
  - lia.
  - done.
  - by apply read_var_bytes_write.
  - done.
  - by eapply read_var_bytes_shrinks.
Qed.

(** ** Backend *)

Record toy_block := { tb_header : toy_header; tb_filter : bytes }.

(** The chain the backend reports, the chains it will report after the next
    [GetBlockCount] calls, and after how many [select]s the server quits
    ([None]: never). *)
Record toy_world := mkToy {
  tw_now : list toy_block;
  tw_later : list (list toy_block);
  tw_quit : option nat
}.

Definition toy_filter_header (blocks : list toy_block) (n : nat) : Hash :=
  foldl filter_step zero_hash (map tb_filter (take (S n) blocks)).

Definition toy_find (w : toy_world) (h : Hash) : option (nat * toy_block) :=
  list_find (fun b => BlockHash (tb_header b) = h) (tw_now w).

Definition toy_GetBlockHash (n : Z) : M toy_world Hash := fun w =>
  (if n <? 0 then Err (External "Block height out of range")
   else match tw_now w !! Z.to_nat n with
        | Some b => Ok (BlockHash (tb_header b))
        | None => Err (External "Block height out of range")
        end, w).

#[export] Instance toy_chain : Chain toy_world := {|
  GetBlockHash := toy_GetBlockHash;
  GetBlockHeader h := fun w =>
    (match toy_find w h with
     | Some (_, b) => Ok (tb_header b)
     | None => Err (External "Block not found")
     end, w);
  GetBlockFilter h := fun w =>
    (match toy_find w h with
     | Some (n, b) =>
         Ok {| fr_Filter := hex_EncodeToString (tb_filter b);
               fr_Header := toy_str_of_hash (toy_filter_header (tw_now w) n) |}
     | None => Err (External "Block not found")
     end, w);
  GetBlockCount := fun w =>
    let w' := match tw_later w with
              | [] => w
              | c :: l => mkToy c l (tw_quit w)
              end in
    let n := Z.of_nat (length (tw_now w')) - 1 in
    ((if (0 <=? n) && (n <? 10000000) then Ok n else Err (External "no blocks")), w');
  quitClosed w :=
    match tw_quit w with
    | None => (false, w)
    | Some O => (true, w)
    | Some (S n) => (false, mkToy (tw_now w) (tw_later w) (Some n))
    end
|}.

(** Blocks for the examples: the header commits to the previous hash and a
    nonce. *)
Definition toy_raw_header (prev : Hash) (nonce : Z) : bytes :=
  put_le 4 1 ++ take 32 (prev ++ zero_hash) ++ put_le 44 nonce.

Lemma toy_raw_header_length prev nonce :
  bool_decide (length (toy_raw_header prev nonce) = 80%nat) = true.
Proof.
  apply bool_decide_eq_true. unfold toy_raw_header.
  rewrite !length_app, !length_put_le, length_take, length_app.
  unfold zero_hash. rewrite length_replicate. lia.
Qed.

Definition toy_mk (prev : Hash) (nonce : Z) : toy_block := {|
  tb_header := exist _ (toy_raw_header prev nonce) (toy_raw_header_length prev nonce);
  tb_filter := put_le 2 nonce
|}.

(** [n] blocks on top of [prev], with nonces from [base]. *)
Fixpoint toy_blocks (n : nat) (prev : Hash) (base : Z) : list toy_block :=
  match n with
  | O => []
  | S n' => let b := toy_mk prev base in
            b :: toy_blocks n' (BlockHash (tb_header b)) (base + 1)
  end.

Definition toy_env (n : nat) : toy_world :=
  mkToy (toy_blocks n zero_hash 0) [] None.
