(* ===== verification/Backend.v ===== *)
(** * Interfaces to the network and to transactions

    The HTTP client, the raw RPC call and the parts of the btcd packages
    [wire], [blockchain] and [txscript] that deal with transactions: parameters
    of the components that index previous outputs or talk to a server. *)

From Stdlib Require Import ZArith Lia Strings.Byte Ascii.
From stdpp Require Import base numbers list strings gmap.
From S2P Require Import Prelude GoInt Bytes GoStr GoIO Iface Toy.

Local Open Scope Z_scope.

(** ** HTTP and RPC *)

(** An HTTP response: the status code, and what reading the body gives. *)
Record Response := mkResponse { StatusCode : Z; Body : result bytes }.

(** [http.Client.Get]; [rpcclient.Client.RawRequest] with a method and its JSON
    parameters. *)
Class Http (W : Type) := http_Get : str -> M W Response.
Class Rpc (W : Type) := RawRequest : str -> list str -> M W bytes.

(** ** Readers

    An [io.Reader] over data that is all there: the bytes, and the error after
    them. *)
Record Reader := mkReader { rd_data : bytes; rd_end : error }.

(** [bytes.NewReader] *)
Definition bytes_NewReader (bs : bytes) : Reader := mkReader bs io_EOF.

(** [hex.NewDecoder] over a string: the bytes before the first bad pair. *)
Fixpoint hex_stream (s : str) : bytes * error :=
  match s with
  | EmptyString => ([], io_EOF)
  | String a EmptyString =>
      ([], match hex_digit a with
           | Some _ => io_ErrUnexpectedEOF
           | None => Sentinel "encoding/hex: invalid byte"
           end)
  | String a (String b s') =>
      match hex_digit a, hex_digit b with
      | Some x, Some y => let '(bs, e) := hex_stream s' in (byte_of_Z (16 * x + y) :: bs, e)
      | _, _ => ([], Sentinel "encoding/hex: invalid byte")
      end
  end.
Definition hex_NewDecoder (s : str) : Reader := let '(bs, e) := hex_stream s in mkReader bs e.

Lemma hex_stream_Encode bs : hex_stream (hex_EncodeToString bs) = (bs, io_EOF).
Proof.
  induction bs as [|b bs IH]; cbn [hex_EncodeToString hex_stream]; [done|].
  pose proof (Z_of_byte_bound b).
  pose proof (Z.div_mod (Z_of_byte b) 16 ltac:(lia)).
  pose proof (Z.mod_pos_bound (Z_of_byte b) 16 ltac:(lia)).
  rewrite !hex_digit_char by lia. rewrite IH. by rewrite <- H0, byte_of_Z_of_byte.
Qed.

(** ** Transactions

    [wire.TxOut]; [TxIn tx] lists the [PreviousOutPoint]s of [tx.TxIn]. *)
Record TxOut := mkTxOut { Value : Z; PkScript : bytes }.

Class Tx := {
  OutPoint : Type;
  OutPoint_eq_dec :: EqDecision OutPoint;
  OutPoint_countable :: Countable OutPoint;
  MsgTx : Type;
  TxIn : MsgTx -> list OutPoint;
  TxOuts : MsgTx -> list TxOut;
  (** [blockchain.IsCoinBaseTx] *)
  IsCoinBaseTx : MsgTx -> bool;
  (** [wire.MsgTx.Deserialize], and [wire.MsgBlock.Deserialize] with the
      block's transactions *)
  tx_Deserialize : Reader -> result MsgTx;
  block_Deserialize : Reader -> result (list MsgTx);
  (** [txscript.IsPayToTaproot] and the other two script classes *)
  IsPayToTaproot : bytes -> bool;
  IsPayToWitnessPubKeyHash : bytes -> bool;
  IsPayToWitnessScriptHash : bytes -> bool
}.

(** ** Canonical encodings

    [wire.ReadVarInt] and [wire.ReadVarBytes] accept only the encodings the
    writers produce. *)
Class WireCanonical `{Wi : Wire} := {
  ReadVarInt_canonical bs n rest : ReadVarInt bs = Ok (n, rest) -> bs = WriteVarInt n ++ rest;
  ReadVarBytes_canonical max bs v rest :
    ReadVarBytes max bs = Ok (v, rest) ->
    bs = WriteVarBytes v ++ rest /\ Z.of_nat (length v) <= max
}.

Lemma read_le_canonical n min bs v rest :
  read_le n min bs = Ok (v, rest) -> bs = put_le n v ++ rest /\ min <= v < 256 ^ Z.of_nat n.
Proof.
  intros E. apply read_le_bound in E as E'. destruct E' as [_ Hv]. revert E. unfold read_le.
  case_bool_decide; [done|]. destruct (Z.ltb_spec (get_le (take n bs)) min); [done|].
  intros [= <- <-]. split; [|lia]. rewrite <- (take_drop n bs) at 1. f_equal.
  rewrite <- (put_get_le (take n bs)) at 1. f_equal. rewrite length_take. lia.
Qed.

Lemma uncompact_canonical bs n rest : uncompact bs = Ok (n, rest) -> bs = compact n ++ rest.
Proof.
  unfold uncompact. destruct bs as [|b r]; [done|].
  repeat case_bool_decide; subst; intros E.
  1-3: apply read_le_canonical in E as [-> Hn]; unfold compact; change (256 ^ Z.of_nat 2) with 65536 in *; change (256 ^ Z.of_nat 4) with 4294967296 in *; change (256 ^ Z.of_nat 8) with 18446744073709551616 in *;
    rewrite (proj2 (Z.ltb_ge _ _)) by lia.
  - by rewrite (proj2 (Z.leb_le _ _)) by lia.
  - by rewrite (proj2 (Z.leb_gt _ 65535)), (proj2 (Z.leb_le _ _)) by lia.
  - by rewrite (proj2 (Z.leb_gt _ 65535)), (proj2 (Z.leb_gt _ 4294967295)) by lia.
  - injection E as <- <-. pose proof (Z_of_byte_bound b). unfold compact.
    destruct (Z.ltb_spec (Z_of_byte b) 253) as [|Hge]; [cbn; by rewrite byte_of_Z_of_byte|].
    exfalso. assert (Hb : b = byte_of_Z 253 \/ b = byte_of_Z 254 \/ b = byte_of_Z 255).
    { rewrite <- (byte_of_Z_of_byte b).
      assert (Z_of_byte b = 253 \/ Z_of_byte b = 254 \/ Z_of_byte b = 255) as [-> | [-> | ->]] by lia; auto. }
    by destruct Hb as [-> | [-> | ->]].
Qed.

#[export] Instance toy_wire_canonical : WireCanonical (Wi := toy_wire).
Proof.
  split; cbn; [apply uncompact_canonical|].
  intros max bs v rest. unfold read_var_bytes, write_var_bytes.
  destruct (uncompact bs) as [[n r]|] eqn:E; cbn; [|done].
  apply uncompact_shrinks in E as E'. destruct E' as [_ Hn]. unfold uint64 in Hn.
  apply uncompact_canonical in E as ->. destruct (Z.ltb_spec max n); [done|].
  case_bool_decide; [done|]. intros [= <- <-].
  assert (HL : Z.of_nat (length (take (Z.to_nat n) r)) = n) by (rewrite length_take; lia).
  rewrite HL. split; [|lia]. by rewrite <- app_assoc, take_drop.
Qed.
