(* ===== verification/Files.v ===== *)
(** * Listing the sealed files

    [listFiles] and [lastFile] of [cfilter-files.go]: how a producer finds the
    height it resumes from. *)

From Stdlib Require Import ZArith Lia Ascii String.
From stdpp Require Import base numbers list strings gmap sorting.
From S2P Require Import Prelude GoInt Bytes GoStr GoIO.

Local Open Scope string_scope.
Local Open Scope Z_scope.
#[local] Arguments String.append !s1 s2 /.

(** The order of [sort.Strings]. *)
Definition str_le (x y : str) : Prop := String.compare x y <> Gt.
#[export] Instance str_le_dec x y : Decision (str_le x y).
Proof. unfold str_le. apply _. Defined.

Lemma ascii_compare_antisym a b : Ascii.compare a b = CompOpp (Ascii.compare b a).
Proof. unfold Ascii.compare. apply N.compare_antisym. Qed.

Lemma str_compare_antisym x y : String.compare x y = CompOpp (String.compare y x).
Proof.
  revert y. induction x as [|a x IH]; intros [|b y]; cbn; try done.
  rewrite (ascii_compare_antisym a b). destruct (Ascii.compare b a); cbn; auto.
Qed.

#[export] Instance str_le_total : Total str_le.
Proof.
  intros x y. unfold str_le. rewrite (str_compare_antisym y x).
  destruct (String.compare x y); cbn; [left|left|right]; done.
Qed.

#[export] Instance str_le_trans : Transitive str_le.
Proof.
  unfold str_le. intros x. induction x as [|a x IH]; intros [|b y] [|c z]; cbn; try done.
  unfold Ascii.compare.
  destruct (N.compare_spec (N_of_ascii a) (N_of_ascii b)) as [E1|E1|E1]; try done;
  destruct (N.compare_spec (N_of_ascii b) (N_of_ascii c)) as [E2|E2|E2]; try done.
  - rewrite E1, E2, N.compare_refl. apply IH.
  - intros _ _. rewrite E1. rewrite (proj2 (N.compare_lt_iff _ _)) by done. done.
  - intros _ _. rewrite <- E2. rewrite (proj2 (N.compare_lt_iff _ _)) by done. done.
  - intros _ _. rewrite (proj2 (N.compare_lt_iff _ _)) by lia. done.
Qed.

(** The entries [filepath.Glob("dir/*suffix")] matches: the files directly in
    [dir] whose name ends with [suffix] ([dir] has no wildcard). *)
Definition is_entry (dir suffix p : str) : bool :=
  match strip_prefix (dir ++ "/") p with
  | Some name => no_slash name && ends_with suffix name
  | None => false
  end.

Definition listFiles (fs : FS) (fileDir searchPattern : str) : list str :=
  merge_sort str_le
    (filter (fun p => is_entry fileDir searchPattern p = true) (elements (dom (fs_files fs)))).

Definition lastFile (fs : FS) (fileDir searchPattern : str) : result Z :=
  let files := listFiles fs fileDir searchPattern in
  match last files with
  | None => Ok 0
  | Some l =>
      match find_submatch searchPattern l with
      | None => Err (Errorf "error extracting number from file %s")
      | Some digits =>
          match ParseInt 32 digits with
          | Err e => Err (Wrapf "error parsing number '%s': %w" e)
          | Ok num => Ok (i32 num)
          end
      end
  end.

(** [fileExists] of [handlers.go]: only a missing file does not exist. *)
Definition fileExists (fs : FS) (name : str) : bool :=
  match os_Stat fs name with
  | Ok _ => true
  | Err e => negb (bool_decide (e = err_not_exist))
  end.

(** ** What they return *)

(** Directories and faults do not matter. *)
Lemma lastFile_ext fs fs' dir suffix :
  fs_files fs' = fs_files fs -> lastFile fs' dir suffix = lastFile fs dir suffix.
Proof. unfold lastFile, listFiles. by intros ->. Qed.

Lemma elem_of_listFiles fs dir suffix p :
  p ∈ listFiles fs dir suffix <-> p ∈ dom (fs_files fs) /\ is_entry dir suffix p = true.
Proof.
  unfold listFiles. rewrite merge_sort_Permutation, list_elem_of_filter, elem_of_elements. naive_solver.
Qed.

Lemma sorted_last {A} (R : relation A) `{!Reflexive R} l x y :
  StronglySorted R l -> last l = Some y -> x ∈ l -> R x y.
Proof.
  induction 1 as [|z l Hl IH Hz]; intros HL Hx; [done|].
  rewrite last_cons in HL. destruct (last l) as [w|] eqn:E.
  - simplify_eq. apply elem_of_cons in Hx as [->|Hx]; [|by apply IH].
    rewrite Forall_forall in Hz. apply Hz. by apply last_Some_elem_of.
  - simplify_eq. apply last_None in E. subst.
    apply elem_of_cons in Hx as [->|Hx]; [done|]. by apply elem_of_nil in Hx.
Qed.

#[export] Instance str_le_refl : Reflexive str_le.
Proof. intros x. unfold str_le. by rewrite str_compare_refl. Qed.

(** The matching files of a directory are the given block files. *)
Definition dir_holds (fs : FS) (dir suffix : str) (segs : list (Z * Z)) : Prop :=
  forall p, p ∈ listFiles fs dir suffix <->
    exists a b, (a, b) ∈ segs /\ p = block_file suffix dir a b.

Lemma last_listFiles fs dir suffix segs a b :
  dir_holds fs dir suffix segs ->
  (forall x y, (x, y) ∈ segs -> 0 <= x < 10000000 /\ 0 <= y < 10000000) ->
  (a, b) ∈ segs ->
  (forall x y, (x, y) ∈ segs -> (x, y) = (a, b) \/ x < a) ->
  last (listFiles fs dir suffix) = Some (block_file suffix dir a b).
Proof.
  intros Hd Hr Hab Hmax.
  assert (block_file suffix dir a b ∈ listFiles fs dir suffix) as Hin by (apply Hd; eauto).
  destruct (last (listFiles fs dir suffix)) as [l|] eqn:E.
  2:{ apply last_None in E. rewrite E in Hin. by apply elem_of_nil in Hin. }
  assert (l ∈ listFiles fs dir suffix) as Hl by (by apply last_Some_elem_of).
  apply Hd in Hl as (x & y & Hxy & ->). f_equal.
  destruct (Hmax x y Hxy) as [?|Hlt]; [congruence|]. exfalso.
  assert (str_le (block_file suffix dir a b) (block_file suffix dir x y)) as Hle.
  { eapply sorted_last; [apply _| |exact E|exact Hin].
    unfold listFiles. apply StronglySorted_merge_sort; apply _. }
  unfold str_le in Hle. apply Hle.
  destruct (Hr a b Hab), (Hr x y Hxy).
  rewrite block_file_compare by lia. by apply Z.compare_gt_iff.
Qed.

#[export] Instance str_le_antisymm : AntiSymm (=) str_le.
Proof.
  intros x y. unfold str_le. rewrite (str_compare_antisym y x).
  destruct (String.compare x y) eqn:E; cbn; try done. intros _ _. by apply String.compare_eq_iff.
Qed.

(** A new file that sorts after the others is listed last. *)
Lemma listFiles_insert fs dir suffix p bs :
  p ∉ dom (fs_files fs) -> is_entry dir suffix p = true ->
  (forall q, q ∈ listFiles fs dir suffix -> str_le q p) ->
  listFiles (set_file p bs fs) dir suffix = (listFiles fs dir suffix ++ [p])%list.
Proof.
  intros Hp He Hle. apply (StronglySorted_unique str_le).
  - apply StronglySorted_merge_sort; apply _.
  - assert (Hs : StronglySorted str_le (listFiles fs dir suffix))
      by (apply StronglySorted_merge_sort; apply _).
    revert Hs Hle. generalize (listFiles fs dir suffix). clear. intros l.
    induction 1 as [|x l Hl IH Hx]; intros Hle; cbn; [by repeat constructor|].
    constructor; [apply IH; set_solver|]. apply Forall_app. split; [done|].
    repeat constructor. apply Hle. set_solver.
  - unfold listFiles, set_file. cbn. rewrite !merge_sort_Permutation.
    rewrite dom_insert_L, elements_union_singleton by done. rewrite filter_cons_True by done.
    by rewrite Permutation_cons_append.
Qed.

(** Only the entries of the directory matter. *)
Lemma listFiles_agree fs fs' dir suffix :
  (forall p, is_entry dir suffix p = true -> fs_files fs' !! p = fs_files fs !! p) ->
  listFiles fs' dir suffix = listFiles fs dir suffix.
Proof.
  intros H. apply (StronglySorted_unique str_le).
  1,2: apply StronglySorted_merge_sort; apply _.
  unfold listFiles. rewrite !merge_sort_Permutation. apply NoDup_Permutation.
  1,2: apply NoDup_filter, NoDup_elements.
  intros p. rewrite !list_elem_of_filter, !elem_of_elements, !elem_of_dom.
  split; intros [Hp ?]; (split; [done|]); by rewrite ?H, <- ?H in *.
Qed.

Lemma lastFile_agree fs fs' dir suffix :
  (forall p, is_entry dir suffix p = true -> fs_files fs' !! p = fs_files fs !! p) ->
  lastFile fs' dir suffix = lastFile fs dir suffix.
Proof. intros H. unfold lastFile. by rewrite (listFiles_agree fs fs') by done. Qed.

(** A file with another extension is not listed. *)
Lemma listFiles_other fs dir suffix p bs :
  is_entry dir suffix p = false ->
  listFiles (set_file p bs fs) dir suffix = listFiles fs dir suffix.
Proof.
  intros He. apply (StronglySorted_unique str_le).
  1: apply StronglySorted_merge_sort; apply _.
  1: apply StronglySorted_merge_sort; apply _.
  unfold listFiles, set_file. cbn. rewrite !merge_sort_Permutation, dom_insert_L.
  destruct (decide (p ∈ dom (fs_files fs))) as [Hp|Hp].
  - by replace ({[p]} ∪ dom (fs_files fs)) with (dom (fs_files fs)) by set_solver.
  - rewrite elements_union_singleton by done. by rewrite filter_cons_False by (by rewrite He).
Qed.

Lemma ends_with_iff suf s : ends_with suf s = true <-> exists x, s = x ++ suf.
Proof.
  induction s as [|c s IH]; cbn [ends_with]; rewrite orb_true_iff, String.eqb_eq.
  - split; [intros [<-|]; [by exists ""|done]|].
    intros ([|? x] & E); cbn in E; [by left|discriminate].
  - rewrite IH. split.
    + intros [<-|[x ->]]; [by exists ""|by exists (String c x)].
    + intros ([|d x] & E); cbn in E; [by left|]. injection E as -> ->. right. eauto.
Qed.

Lemma is_entry_block_file suffix s dir a b :
  no_slash s = true -> 0 <= a < 10000000 -> 0 <= b < 10000000 ->
  is_entry dir suffix (block_file s dir a b) = ends_with suffix ("block-" ++ fixed 7 a ++ "-" ++ fixed 7 b ++ s).
Proof.
  intros Hs Ha Hb. unfold is_entry, block_file. rewrite !fmt_07d_fixed by done.
  pose proof (strip_prefix_app (dir ++ "/") ("block-" ++ fixed 7 a ++ "-" ++ fixed 7 b ++ s)) as E.
  rewrite str_app_assoc in E.
  change ("/" ++ ("block-" ++ (fixed 7 a ++ ("-" ++ (fixed 7 b ++ s)))))%string
    with ("/block-" ++ (fixed 7 a ++ ("-" ++ (fixed 7 b ++ s))))%string in E. rewrite E. by rewrite !no_slash_app, !no_slash_fixed, Hs.
Qed.

Lemma is_entry_same s dir a b :
  no_slash s = true -> 0 <= a < 10000000 -> 0 <= b < 10000000 ->
  is_entry dir s (block_file s dir a b) = true.
Proof.
  intros. rewrite is_entry_block_file by done. apply ends_with_iff.
  exists ("block-" ++ fixed 7 a ++ "-" ++ fixed 7 b). by rewrite !str_app_assoc.
Qed.

(** The suffix [s] is [u ++ v] with [v] as long as [suffix] but different. *)
Lemma is_entry_different suffix u v dir a b :
  no_slash (u ++ v) = true -> 0 <= a < 10000000 -> 0 <= b < 10000000 ->
  String.length v = String.length suffix -> v <> suffix ->
  is_entry dir suffix (block_file (u ++ v) dir a b) = false.
Proof.
  intros Hs Ha Hb HL Hne. rewrite is_entry_block_file by done.
  apply not_true_iff_false. rewrite ends_with_iff. intros (x & E). apply Hne.
  rewrite <- !str_app_assoc in E.
  apply str_app_inj_length in E as [_ E]; [done|].
  apply (f_equal String.length) in E. rewrite !(str_length_app _ v), (str_length_app x) in E. lia.
Qed.

(** A block file after all the others. *)
Lemma dir_holds_fresh fs dir suffix segs a b :
  dir_holds fs dir suffix segs -> no_slash suffix = true ->
  0 <= a < 10000000 -> 0 <= b < 10000000 ->
  (forall x y, (x, y) ∈ segs -> 0 <= x < a /\ 0 <= y < 10000000) ->
  (block_file suffix dir a b ∉ dom (fs_files fs)) /\
  forall q, q ∈ listFiles fs dir suffix -> str_le q (block_file suffix dir a b).
Proof.
  intros Hd Hs Ha Hb Hseg. split.
  - intros Hp. assert (Hin : block_file suffix dir a b ∈ listFiles fs dir suffix).
    { apply elem_of_listFiles. split; [done|by apply is_entry_same]. }
    apply Hd in Hin as (x & y & Hxy & E). destruct (Hseg x y Hxy).
    apply block_file_inj in E as [-> _]; lia.
  - intros q (x & y & Hxy & ->)%Hd. destruct (Hseg x y Hxy). unfold str_le.
    rewrite block_file_compare by lia. rewrite (proj2 (Z.compare_lt_iff x a)) by lia. done.
Qed.

Lemma lastFile_of_last fs dir suffix a b :
  no_slash suffix = true -> find_submatch suffix dir = None ->
  0 <= a < 10000000 -> 0 <= b < 10000000 ->
  last (listFiles fs dir suffix) = Some (block_file suffix dir a b) ->
  lastFile fs dir suffix = Ok b.
Proof.
  intros Hs Hdir Ha Hb HL. unfold lastFile. rewrite HL, find_submatch_block by done.
  rewrite (ParseInt_fixed 7 b 32) by (cbn; lia).
  by rewrite i32_id by (unfold int32, min_int32, max_int32; lia).
Qed.

(** The directory after [m] files of [n] heights each. *)
Definition whole_files (n m : Z) : list (Z * Z) :=
  (fun k => (k * n, k * n + n - 1)) <$> seqZ 0 m.

Lemma elem_of_whole_files n m x y :
  (x, y) ∈ whole_files n m <-> exists k, 0 <= k < m /\ x = k * n /\ y = k * n + n - 1.
Proof.
  unfold whole_files. rewrite list_elem_of_fmap. split.
  - intros (k & [= -> ->] & Hk%elem_of_seqZ). exists k. lia.
  - intros (k & Hk & -> & ->). exists k. split; [done|]. apply elem_of_seqZ. lia.
Qed.

Lemma lastFile_whole_files fs dir suffix n m :
  no_slash suffix = true -> find_submatch suffix dir = None ->
  0 < n -> 0 < m -> m * n <= 10000000 ->
  dir_holds fs dir suffix (whole_files n m) -> lastFile fs dir suffix = Ok (m * n - 1).
Proof.
  intros Hs Hdir Hn Hm Hb Hd.
  apply (lastFile_of_last _ _ _ ((m - 1) * n)); [done|done|nia|nia|].
  apply (last_listFiles _ _ _ (whole_files n m)); [done| | |].
  - intros x y (k & Hk & -> & ->)%elem_of_whole_files. nia.
  - apply elem_of_whole_files. exists (m - 1). lia.
  - intros x y (k & Hk & -> & ->)%elem_of_whole_files.
    destruct (decide (k = m - 1)) as [->|]; [left; f_equal; lia|right; nia].
Qed.

(** [lastFile] on a directory of block files returns the end height of
    the file with the largest start height, whatever the order of the
    directory: string order is height order for seven digits. *)
Lemma lastFile_latest fs dir suffix segs a b :
  no_slash suffix = true -> find_submatch suffix dir = None ->
  dir_holds fs dir suffix segs ->
  (forall x y, (x, y) ∈ segs -> 0 <= x < 10000000 /\ 0 <= y < 10000000) ->
  (a, b) ∈ segs ->
  (forall x y, (x, y) ∈ segs -> (x, y) = (a, b) \/ x < a) ->
  lastFile fs dir suffix = Ok b.
Proof.
  intros Hs Hdir Hd Hr Hab Hmax. destruct (Hr a b Hab).
  apply (lastFile_of_last _ _ _ a); [done..|]. by apply (last_listFiles _ _ _ segs).
Qed.

Lemma lastFile_empty fs dir suffix :
  dir_holds fs dir suffix [] -> lastFile fs dir suffix = Ok 0.
Proof.
  intros Hd. unfold lastFile.
  destruct (last (listFiles fs dir suffix)) as [l|] eqn:E; [|done].
  apply last_Some_elem_of, Hd in E as (? & ? & H & _). by apply elem_of_nil in H.
Qed.

(** One more file completes the next range; nothing else in the directory that
    matches changes. *)
Lemma dir_holds_snoc fs fs' dir suffix n m :
  no_slash suffix = true -> 0 < n -> 0 <= m -> (m + 1) * n <= 10000000 ->
  dir_holds fs dir suffix (whole_files n m) ->
  is_Some (fs_files fs' !! block_file suffix dir (m * n) (m * n + n - 1)) ->
  (forall p, is_entry dir suffix p = true -> p <> block_file suffix dir (m * n) (m * n + n - 1) ->
     fs_files fs' !! p = fs_files fs !! p) ->
  dir_holds fs' dir suffix (whole_files n (m + 1)).
Proof.
  intros Hs Hn Hm Hb Hd Hnew Hold p. rewrite elem_of_listFiles, elem_of_dom.
  destruct (decide (p = block_file suffix dir (m * n) (m * n + n - 1))) as [->|Hne].
  - split; [|intros _; split; [done|apply is_entry_same; nia || done]]. intros _.
    eexists _, _. split; [|reflexivity]. apply elem_of_whole_files. exists m. lia.
  - split.
    + intros [Hp He]. rewrite Hold in Hp by done.
      destruct (proj1 (Hd p)) as (x & y & (k & Hk & E)%elem_of_whole_files & ->).
      { by rewrite elem_of_listFiles, elem_of_dom. }
      exists x, y. split; [|done]. apply elem_of_whole_files. exists k. split; [lia|done].
    + intros (x & y & (k & Hk & -> & ->)%elem_of_whole_files & ->).
      assert (Hkm : k < m) by (destruct (decide (k = m)) as [->|]; [done|lia]).
      assert (He : is_entry dir suffix (block_file suffix dir (k * n) (k * n + n - 1)) = true)
        by (apply is_entry_same; nia || done).
      split; [|done]. rewrite Hold by done.
      assert (Hin : block_file suffix dir (k * n) (k * n + n - 1) ∈ listFiles fs dir suffix).
      { apply Hd. eexists _, _. split; [|reflexivity]. apply elem_of_whole_files. exists k. lia. }
      by rewrite elem_of_listFiles, elem_of_dom in Hin; destruct Hin.
Qed.
