(* ===== verification/H2H.v ===== *)
(** * The height to hash cache

    [height-to-hash-cache.go], on the environment every component shares: the
    backend's world, the file system and the cache. *)

From Stdlib Require Import ZArith Lia.
From stdpp Require Import base numbers list strings gmap.
From S2P Require Import Prelude GoInt Bytes GoStr GoIO Iface Files Toy.

Record heightToHashCache := mkH2H {
  heightToHash : gmap Z Hash;
  bestHeight : Z
}.

(** [newH2HCache]: the atomic best height starts at zero. *)
Definition newH2HCache : heightToHashCache := mkH2H ∅ 0.

(** The environment shared by the components. *)
Record Env (W : Type) := mkEnv {
  e_world : W;
  e_fs : FS;
  e_h2h : heightToHashCache
}.
Arguments mkEnv {W} _ _ _.
Arguments e_world {W} _.
Arguments e_fs {W} _.
Arguments e_h2h {W} _.

Definition onWorld {W A} (m : M W A) : M (Env W) A :=
  zoom e_world (fun w e => mkEnv w (e_fs e) (e_h2h e)) m.
Definition onFS {W A} (m : M FS A) : M (Env W) A :=
  zoom e_fs (fun f e => mkEnv (e_world e) f (e_h2h e)) m.
Definition onH2H {W A} (m : M heightToHashCache A) : M (Env W) A :=
  zoom e_h2h (fun c e => mkEnv (e_world e) (e_fs e) c) m.

Section H2H.
Context `{Wi : Wire} {W : Type} `{!Chain W}.

(** [c.heightToHash[h] = hash] *)
Definition h2h_store (h : Z) (hash : Hash) (c : heightToHashCache) : heightToHashCache :=
  mkH2H (<[h := hash]> (heightToHash c)) (bestHeight c).

(** Cache a fetched hash and raise the best height to it. *)
Definition h2h_put (h : Z) (hash : Hash) (c : heightToHashCache) : heightToHashCache :=
  let c' := h2h_store h hash c in
  if bestHeight c' <? h then mkH2H (heightToHash c') h else c'.

(** The inner loop of [loadFromHeaders]: read headers from one file until
    [io.EOF]. Each header read shortens the rest, so one more step than there
    are bytes is enough fuel. *)
Fixpoint loadHeaders (fuel : nat) (rest : bytes) (eof : bool) (height : Z)
  (c : heightToHashCache) : result Z * heightToHashCache :=
  match fuel with
  | O => (Err OutOfFuel, c)
  | S fuel' =>
      match hdr_Deserialize rest with
      | Ok (header, rest') =>
          loadHeaders fuel' rest' eof (i32 (height + 1)) (h2h_store height (BlockHash header) c)
      | Err e =>
          if eof && bool_decide (e = io_EOF) then (Ok height, c)
          else (Err (Wrapf "unable to deserialize header at height %d from file %s: %w"
                       (if eof then e else External "read")), c)
      end
  end.

(** The loop over the files. *)
Fixpoint loadFiles (fs : FS) (fileNames : list str) (height : Z)
  (c : heightToHashCache) : result Z * heightToHashCache :=
  match fileNames with
  | [] => (Ok height, c)
  | fileName :: l =>
      match readable fs fileName with
      | Err e => (Err (Wrapf "unable to open header file %s: %w" e), c)
      | Ok (data, eof) =>
          match loadHeaders (S (length data)) data eof height c with
          | (Ok height', c') => loadFiles fs l height' c'
          | (Err e, c') => (Err e, c')
          end
      end
  end.

(** [loadFromHeaders]; [headerDir] has no wildcard, so [Glob] does not fail. *)
Definition loadFromHeaders (headerDir : str) : M (Env W) Z := fun e =>
  let '(r, c) :=
    loadFiles (e_fs e) (listFiles (e_fs e) headerDir ".header") 0 (e_h2h e) in
  match r with
  | Err err => (Err err, mkEnv (e_world e) (e_fs e) c)
  | Ok height =>
      let best := i32 (height - 1) in
      (Ok best, mkEnv (e_world e) (e_fs e) (mkH2H (heightToHash c) best))
  end.

(** [getBlockHash] *)
Definition getBlockHash (h : Z) : M (Env W) Hash := fun e =>
  match heightToHash (e_h2h e) !! h with
  | Some hash => (Ok hash, e)
  | None =>
      match onWorld (GetBlockHash h) e with
      | (Err err, e') =>
          (Err (Wrapf "error fetching block hash for height %d from backend: %w" err), e')
      | (Ok hash, e') =>
          (Ok hash, mkEnv (e_world e') (e_fs e') (h2h_put h hash (e_h2h e')))
      end
  end.

(** [invalidate] *)
Definition invalidate (fromHeight : Z) (c : heightToHashCache) : heightToHashCache :=
  mkH2H (delete_range fromHeight (bestHeight c) (heightToHash c)) (i32 (fromHeight - 1)).

Lemma lookup_h2h_put h hash c h' :
  heightToHash (h2h_put h hash c) !! h' = <[h := hash]> (heightToHash c) !! h'.
Proof. unfold h2h_put. cbn. by destruct (bestHeight c <? h). Qed.

(** ** The best height bounds the cache *)

(** Every cached height is at most [bestHeight]: that is why [invalidate]
    may stop its loop there. *)
Definition h2h_ok (c : heightToHashCache) : Prop :=
  forall h, is_Some (heightToHash c !! h) -> h <= bestHeight c.

Lemma newH2HCache_ok : h2h_ok newH2HCache.
Proof. intros h [x Hx]. cbn in Hx. by rewrite lookup_empty in Hx. Qed.

Lemma onWorld_frame {A} (m : M W A) e r e' :
  onWorld m e = (r, e') -> e_fs e' = e_fs e /\ e_h2h e' = e_h2h e.
Proof. unfold onWorld, zoom. destruct (m (e_world e)). naive_solver. Qed.

Lemma onFS_frame {A} (m : M FS A) (e : Env W) r e' :
  onFS m e = (r, e') -> e_world e' = e_world e /\ e_h2h e' = e_h2h e /\ m (e_fs e) = (r, e_fs e').
Proof. unfold onFS, zoom. destruct (m (e_fs e)). naive_solver. Qed.

Lemma getBlockHash_fs h e r e' : getBlockHash h e = (r, e') -> e_fs e' = e_fs e.
Proof.
  unfold getBlockHash. destruct (_ !! h); [naive_solver|].
  destruct (onWorld _ e) as [[?|?] e1] eqn:E; intros; simplify_eq/=;
    by apply onWorld_frame in E as [-> _].
Qed.

Lemma getBlockHash_hit h hash e :
  heightToHash (e_h2h e) !! h = Some hash -> getBlockHash h e = (Ok hash, e).
Proof. unfold getBlockHash. by intros ->. Qed.

Lemma h2h_put_ok h hash c : h2h_ok c -> h2h_ok (h2h_put h hash c).
Proof.
  intros Hok h' Hi. rewrite lookup_h2h_put, lookup_insert_is_Some in Hi.
  unfold h2h_put. cbn. destruct (Z.ltb_spec (bestHeight c) h); cbn;
    destruct Hi as [->|[_ Hi]]; try lia; apply Hok in Hi; lia.
Qed.

Lemma getBlockHash_ok h e r e' :
  h2h_ok (e_h2h e) -> getBlockHash h e = (r, e') -> h2h_ok (e_h2h e').
Proof.
  intros Hok. unfold getBlockHash. destruct (_ !! h); [naive_solver|].
  destruct (onWorld _ e) as [[hash|?] e1] eqn:E; intros; simplify_eq/=;
    apply onWorld_frame in E as [_ E]; rewrite ?E; [|done].
  by apply h2h_put_ok.
Qed.

(** A successful call leaves its answer in the cache. *)
Lemma getBlockHash_cached h e hash e' :
  getBlockHash h e = (Ok hash, e') -> heightToHash (e_h2h e') !! h = Some hash.
Proof.
  unfold getBlockHash. destruct (_ !! h) eqn:L; [naive_solver|].
  destruct (onWorld _ e) as [[x|?] e1] eqn:E; intros; simplify_eq/=.
  by rewrite lookup_h2h_put, lookup_insert_eq.
Qed.

(** Other entries stay. *)
Lemma getBlockHash_other h h' e r e' :
  h' <> h -> getBlockHash h e = (r, e') ->
  heightToHash (e_h2h e') !! h' = heightToHash (e_h2h e) !! h'.
Proof.
  intros Hne. unfold getBlockHash. destruct (_ !! h) eqn:L; [naive_solver|].
  destruct (onWorld _ e) as [[x|?] e1] eqn:E; intros; simplify_eq/=;
    apply onWorld_frame in E as [_ ->]; [|done].
  by rewrite lookup_h2h_put, lookup_insert_ne.
Qed.

Lemma invalidate_ok from c :
  int32 (from - 1) -> h2h_ok c -> h2h_ok (invalidate from c).
Proof.
  intros Hf Hok h [x Hx]. unfold invalidate in *. cbn in *.
  rewrite lookup_delete_range in Hx. i32norm.
  case_decide as Hd; [done|]. assert (h <= bestHeight c) by (apply Hok; eauto). lia.
Qed.

(** After [invalidate] no entry at or above [fromHeight] is left, and all
    the others are. *)
Lemma lookup_invalidate from c h :
  h2h_ok c ->
  heightToHash (invalidate from c) !! h
  = if decide (from <= h) then None else heightToHash c !! h.
Proof.
  intros Hok. unfold invalidate. cbn. rewrite lookup_delete_range.
  destruct (decide (from <= h)) as [Hf|Hf].
  - case_decide; [done|]. destruct (heightToHash c !! h) eqn:E; [|done].
    assert (h <= bestHeight c) by (apply Hok; eauto). lia.
  - by rewrite decide_False by lia.
Qed.

(** ** Loading the sealed header files *)

Fixpoint store_headers (height : Z) (hs : list BlockHeader) (c : heightToHashCache)
  : heightToHashCache :=
  match hs with
  | [] => c
  | h :: hs' => store_headers (height + 1) hs' (h2h_store height (BlockHash h) c)
  end.

Lemma lookup_store_headers height hs c j :
  heightToHash (store_headers height hs c) !! j
  = if decide (height <= j < height + Z.of_nat (length hs))
    then BlockHash <$> hs !! Z.to_nat (j - height)
    else heightToHash c !! j.
Proof.
  revert height c. induction hs as [|h hs IH]; intros height c; cbn [store_headers].
  - rewrite decide_False by (cbn; lia). done.
  - rewrite IH. cbn [length heightToHash h2h_store].
    destruct (decide (j = height)) as [->|Hne].
    + rewrite decide_False by lia. rewrite lookup_insert_eq.
      rewrite decide_True by lia. by rewrite Z.sub_diag.
    + rewrite lookup_insert_ne by done.
      destruct (decide (height + 1 <= j < height + 1 + Z.of_nat (length hs))) as [Hj|Hj].
      * rewrite decide_True by lia.
        by replace (Z.to_nat (j - height)) with (S (Z.to_nat (j - (height + 1)))) by lia.
      * by rewrite decide_False by lia.
Qed.

Lemma store_headers_app height hs1 hs2 c :
  store_headers height (hs1 ++ hs2) c
  = store_headers (height + Z.of_nat (length hs1)) hs2 (store_headers height hs1 c).
Proof.
  revert height c. induction hs1 as [|h hs1 IH]; intros height c; cbn [app store_headers length].
  - by rewrite Z.add_0_r.
  - rewrite IH. f_equal. lia.
Qed.

(** The encoding of a header file. *)
Definition headers_bytes (hs : list BlockHeader) : bytes := concat (map hdr_Serialize hs).

Context `{!WireLaws (Wi := Wi)}.

Lemma length_headers_bytes hs : length (headers_bytes hs) = (length hs * 80)%nat.
Proof.
  unfold headers_bytes. rewrite (length_concat_const _ 80); [by rewrite length_map|].
  apply Forall_map, Forall_true. intros. apply length_hdr_Serialize.
Qed.

Lemma loadHeaders_file fuel hs height c :
  (length hs < fuel)%nat -> 0 <= height -> height + Z.of_nat (length hs) <= max_int32 ->
  loadHeaders fuel (headers_bytes hs) true height c
  = (Ok (height + Z.of_nat (length hs)), store_headers height hs c).
Proof.
  revert fuel height c. induction hs as [|h hs IH]; intros fuel height c Hf H0 Hb;
    (destruct fuel as [|fuel]; [cbn in Hf; lia|]); cbn [loadHeaders].
  - unfold headers_bytes. cbn. rewrite hdr_Deserialize_nil. cbn.
    by rewrite Z.add_0_r.
  - unfold headers_bytes. cbn [map concat]. rewrite hdr_Deserialize_Serialize.
    cbn [length] in *. i32norm.
    change (concat (map hdr_Serialize hs)) with (headers_bytes hs).
    rewrite IH by lia. do 2 f_equal. lia.
Qed.

(** Each file holds the encoding of its headers. *)
Definition files_hold (fs : FS) (names : list str) (hss : list (list BlockHeader)) : Prop :=
  Forall2 (fun name hs => readable fs name = Ok (headers_bytes hs, true)) names hss.

Lemma loadFiles_spec fs names hss height c :
  files_hold fs names hss -> 0 <= height ->
  height + Z.of_nat (length (concat hss)) <= max_int32 ->
  loadFiles fs names height c
  = (Ok (height + Z.of_nat (length (concat hss))), store_headers height (concat hss) c).
Proof.
  intros H. revert height c. induction H as [|name hs names hss Hr _ IH];
    intros height c H0 Hb; cbn [loadFiles concat].
  - cbn. by rewrite Z.add_0_r.
  - rewrite Hr. cbn [concat] in Hb. rewrite length_app in Hb.
    rewrite loadHeaders_file; [|rewrite length_headers_bytes; lia|lia|lia].
    rewrite IH by lia. rewrite store_headers_app, length_app. do 2 f_equal. lia.
Qed.

Lemma loadHeaders_fuel fuel rest eof height c r c' :
  (length rest < fuel)%nat ->
  loadHeaders fuel rest eof height c = (r, c') -> r <> Err OutOfFuel.
Proof.
  revert rest height c. induction fuel as [|fuel IH]; intros rest height c Hf; [lia|].
  cbn. destruct (hdr_Deserialize rest) as [[h rest']|e] eqn:E.
  - apply hdr_Deserialize_shrinks in E. apply IH. lia.
  - destruct (eof && _); naive_solver.
Qed.

Lemma loadFiles_fuel fs names height c : (loadFiles fs names height c).1 <> Err OutOfFuel.
Proof.
  revert height c. induction names as [|name names IH]; intros height c; cbn [loadFiles]; [done|].
  destruct (readable fs name) as [[data eof]|e]; [|done].
  destruct (loadHeaders (S (length data)) data eof height c) as [[z|e] c'] eqn:E; [apply IH|].
  cbn. eapply loadHeaders_fuel; [|exact E]. lia.
Qed.
End H2H.

(** ** Properties *)

(** Loading the sealed header files at start-up fills the cache with the hash
    of every header in them, height by height, leaves the other entries alone,
    and returns (and records) the highest height loaded. *)
Lemma loadFromHeaders_loads `{WireLaws} {W : Type} (e : Env W) dir hss :
  files_hold (e_fs e) (listFiles (e_fs e) dir ".header") hss ->
  Z.of_nat (length (concat hss)) <= max_int32 ->
  exists e', loadFromHeaders dir e = (Ok (Z.of_nat (length (concat hss)) - 1), e') /\
    e_world e' = e_world e /\ e_fs e' = e_fs e /\
    bestHeight (e_h2h e') = Z.of_nat (length (concat hss)) - 1 /\
    forall j, heightToHash (e_h2h e') !! j
      = if decide (0 <= j < Z.of_nat (length (concat hss)))
        then BlockHash <$> concat hss !! Z.to_nat j
        else heightToHash (e_h2h e) !! j.
Proof.
  intros Hf Hb. unfold loadFromHeaders.
  rewrite (loadFiles_spec _ _ hss) by (done || lia). i32norm.
  rewrite Z.add_0_l. eexists. split; [done|]. cbn. split_and!; try done.
  intros j. rewrite lookup_store_headers, Z.add_0_l, Z.sub_0_r. done.
Qed.

(** The loading loops end on every file content, readable or corrupt: each
    successful [Deserialize] shortens the input. *)
Lemma loadFromHeaders_terminates `{WireLaws} {W : Type} (e : Env W) dir :
  (loadFromHeaders dir e).1 <> Err OutOfFuel.
Proof.
  unfold loadFromHeaders.
  pose proof (loadFiles_fuel (e_fs e) (listFiles (e_fs e) dir ".header") 0 (e_h2h e)) as F.
  by destruct (loadFiles _ _ _ _) as [[z|err] c].
Qed.

(** After [invalidate from], a lookup at or above [from] returns what the
    backend answers now, and a cached hash below [from] is still returned
    without asking the backend. *)
Lemma getBlockHash_after_invalidate `{Chain W} (e : Env W) from h :
  h2h_ok (e_h2h e) ->
  let e1 := mkEnv (e_world e) (e_fs e) (invalidate from (e_h2h e)) in
  (from <= h ->
     (getBlockHash h e1).1
     = res_wrap "error fetching block hash for height %d from backend: %w"
         (GetBlockHash h (e_world e)).1) /\
  (forall hash, h < from -> heightToHash (e_h2h e) !! h = Some hash ->
     getBlockHash h e1 = (Ok hash, e1)).
Proof.
  intros Hok e1. split.
  - intros Hh. unfold getBlockHash, e1. cbn [e_h2h e_world e_fs].
    rewrite lookup_invalidate by done. rewrite decide_True by done.
    unfold onWorld, zoom. cbn. by destruct (GetBlockHash h (e_world e)) as [[?|?] ?].
  - intros hash Hh Hl. apply getBlockHash_hit. cbn [e_h2h e1].
    rewrite lookup_invalidate by done. by rewrite decide_False by lia.
Qed.

(** The headers of the examples. *)
Definition toy_headers (n : nat) : list toy_header := map tb_header (toy_blocks n zero_hash 0).
