(* ===== verification/H2HLock.v ===== *)
(** * Locking of the height to hash cache

    [heightToHashCache] embeds a [sync.RWMutex]. This file runs the lock
    operations of [getBlockHash], [invalidate] and of the request handlers
    around them as interleaved threads. *)

From Stdlib Require Import ZArith Lia.
From stdpp Require Import base numbers list strings gmap relations.
From S2P Require Import Prelude GoInt Bytes GoStr GoIO Iface Files H2H.

(** ** Threads

    [Lock] is two actions: [Announce] blocks new readers, [Acquire] waits for
    the readers that are left (the documented behaviour of [sync.RWMutex]). *)
Inductive act :=
  | RLock | RUnlock | Announce | Acquire | Unlock
  | Store (h : Z) (hash : Hash)
  | Drop (from : Z).

(** Programs branch on a cache lookup and on the backend's answer. *)
Inductive prog :=
  | Done
  | Do (a : act) (k : prog)
  | Lookup (h : Z) (hit miss : prog)
  | Fetch (h : Z) (failed : prog) (got : Hash -> prog).

(** [c.Lock()] *)
Definition DoLock (k : prog) : prog := Do Announce (Do Acquire k).

(** [getBlockHash], with what its caller does afterwards: the deferred
    [RUnlock] runs on every path. *)
Definition getBlockHash_prog (h : Z) (k : prog) : prog :=
  Do RLock
    (Lookup h
       (Do RUnlock k)
       (Fetch h
          (Do RUnlock k)
          (fun hash =>
             Do RUnlock
               (DoLock (Do (Store h hash) (Do Unlock (Do RLock (Do RUnlock k)))))))).

(** [invalidate] *)
Definition invalidate_prog (from : Z) (k : prog) : prog :=
  DoLock (Do (Drop from) (Do Unlock k)).

(** The part of [statusRequestHandler] that locks: the cache's read lock is
    held around [currentStatus], which calls [getBlockHash]. *)
Definition status_prog (bestHeight : Z) : prog :=
  Do RLock (getBlockHash_prog bestHeight (Do RUnlock Done)).

(** The same for the memory path of [heightBasedRequestHandler]. *)
Definition heightBased_prog (startHeight : Z) : prog :=
  Do RLock (getBlockHash_prog startHeight (Do RUnlock Done)).

Record shared := mkShared {
  sh_readers : nat;
  sh_writer : bool;
  sh_waiting : nat;
  sh_cache : heightToHashCache;
  sh_backend : Z -> option Hash
}.

(** [held] counts the read locks the thread holds. *)
Record thread := mkThread { held : nat; code : prog }.

Inductive tstep : shared -> thread -> shared -> thread -> Prop :=
  | step_RLock n c b h k :
      tstep (mkShared n false 0 c b) (mkThread h (Do RLock k))
            (mkShared (S n) false 0 c b) (mkThread (S h) k)
  | step_RUnlock n wr w c b h k :
      tstep (mkShared (S n) wr w c b) (mkThread (S h) (Do RUnlock k))
            (mkShared n wr w c b) (mkThread h k)
  | step_Announce n wr w c b h k :
      tstep (mkShared n wr w c b) (mkThread h (Do Announce k))
            (mkShared n wr (S w) c b) (mkThread h k)
  | step_Acquire w c b h k :
      tstep (mkShared 0 false (S w) c b) (mkThread h (Do Acquire k))
            (mkShared 0 true w c b) (mkThread h k)
  | step_Unlock n w c b h k :
      tstep (mkShared n true w c b) (mkThread h (Do Unlock k))
            (mkShared n false w c b) (mkThread h k)
  | step_Store n wr w c b h k x hash :
      tstep (mkShared n wr w c b) (mkThread h (Do (Store x hash) k))
            (mkShared n wr w (h2h_put x hash c) b) (mkThread h k)
  | step_Drop n wr w c b h k from :
      tstep (mkShared n wr w c b) (mkThread h (Do (Drop from) k))
            (mkShared n wr w (invalidate from c) b) (mkThread h k)
  | step_Lookup s h x hit miss :
      tstep s (mkThread h (Lookup x hit miss)) s
        (mkThread h (match heightToHash (sh_cache s) !! x with Some _ => hit | None => miss end))
  | step_Fetch s h x failed got :
      tstep s (mkThread h (Fetch x failed got)) s
        (mkThread h (match sh_backend s x with Some hash => got hash | None => failed end)).

Record config := mkConfig { c_shared : shared; c_threads : list thread }.

(** One thread moves, or the backend's chain changes. *)
Inductive cstep : config -> config -> Prop :=
  | cstep_thread s ts i t s' t' :
      ts !! i = Some t -> tstep s t s' t' ->
      cstep (mkConfig s ts) (mkConfig s' (<[i := t']> ts))
  | cstep_backend n wr w c b b' ts :
      cstep (mkConfig (mkShared n wr w c b) ts) (mkConfig (mkShared n wr w c b') ts).

(** ** Read locks are accounted for *)

Definition total_held (ts : list thread) : nat := sum_list_with held ts.

Definition readers_ok (c : config) : Prop :=
  sh_readers (c_shared c) = total_held (c_threads c).

Lemma sum_insert {A} (f : A -> nat) (l : list A) i x y :
  l !! i = Some x ->
  (sum_list_with f (<[i := y]> l) + f x = sum_list_with f l + f y)%nat.
Proof.
  intros H. rewrite (insert_take_drop l i y) by (by eapply lookup_lt_Some).
  rewrite <- (take_drop_middle l i x H) at 3.
  rewrite !sum_list_with_app. cbn. lia.
Qed.

Lemma sum_lookup_le {A} (f : A -> nat) (l : list A) i x :
  l !! i = Some x -> (f x <= sum_list_with f l)%nat.
Proof.
  revert i. induction l as [|z l IH]; intros [|i] H; cbn in *; simplify_eq; [lia|].
  specialize (IH i H). lia.
Qed.

Lemma cstep_readers_ok c c' : cstep c c' -> readers_ok c -> readers_ok c'.
Proof.
  intros Hs Hok. destruct Hs as [s ts i t s' t' Hi Ht|]; [|done].
  pose proof (sum_insert held ts i t t' Hi) as HS. pose proof (sum_lookup_le held ts i t Hi).
  unfold readers_ok, total_held in *. cbn [c_shared c_threads] in *.
  destruct Ht; cbn [sh_readers held] in *; lia.
Qed.

(** ** A cache miss under the read lock never returns *)

(** The thread waits for the write lock while it holds a read lock. *)
Definition stuck_in_lock (t : thread) : Prop :=
  (0 < held t)%nat /\ exists k, code t = Do Acquire k.

Definition blocked_config (i : nat) (t : thread) (c : config) : Prop :=
  readers_ok c /\ c_threads c !! i = Some t /\ stuck_in_lock t /\
  (0 < sh_waiting (c_shared c))%nat.

Lemma blocked_readers i t c : blocked_config i t c -> (0 < sh_readers (c_shared c))%nat.
Proof.
  intros (Hr & Hi & [Hh _] & _). rewrite Hr.
  pose proof (sum_lookup_le held _ i t Hi). unfold total_held. lia.
Qed.

Lemma blocked_step i t c c' :
  blocked_config i t c -> cstep c c' ->
  blocked_config i t c' /\
  forall j tj, c_threads c !! j = Some tj ->
    (exists k, code tj = Do RLock k \/ code tj = Do Acquire k) ->
    c_threads c' !! j = Some tj.
Proof.
  intros Hb Hs. pose proof (blocked_readers i t c Hb) as Hpos.
  destruct Hb as (Hr & Hi & Hst & Hw). split.
  - split; [by eapply cstep_readers_ok|].
    destruct Hs as [s ts j tj s' tj' Hj Ht|]; [|done]. cbn in *.
    destruct Hst as [Hh [k Hk]]. destruct (decide (i = j)) as [<-|Hne].
    + simplify_eq. destruct Ht; cbn in *; simplify_eq. lia.
    + rewrite list_lookup_insert_ne by done. split_and!; [done|by split; [|exists k]|].
      destruct Ht; cbn in *; lia.
  - intros j tj Hj [k Hk]. destruct Hs as [s ts i' t' s' t'' Hi' Ht|]; [|done]. cbn in *.
    destruct (decide (j = i')) as [->|Hne]; [|by rewrite list_lookup_insert_ne].
    simplify_eq. destruct Hk as [Hk|Hk]; destruct Ht; cbn in *; simplify_eq; lia.
Qed.

Lemma blocked_forever i t c c' :
  blocked_config i t c -> rtc cstep c c' ->
  blocked_config i t c' /\
  forall j tj, c_threads c !! j = Some tj ->
    (exists k, code tj = Do RLock k \/ code tj = Do Acquire k) ->
    c_threads c' !! j = Some tj.
Proof.
  intros Hb Hs. induction Hs as [c|c c1 c' H1 H2 IH]; [done|].
  destruct (blocked_step i t c c1 Hb H1) as [Hb1 Hj1].
  destruct (IH Hb1) as [Hb2 Hj2]. split; [done|].
  intros j tj Hj Hc. apply Hj2; [by apply Hj1|done].
Qed.

(** ** Disciplined threads

    No thread takes the lock while it already holds it. *)
Inductive mode := Idle | Reading | Waiting | Writing.

Fixpoint disciplined (m : mode) (p : prog) : Prop :=
  match p with
  | Done => m = Idle
  | Do RLock k => m = Idle /\ disciplined Reading k
  | Do RUnlock k => m = Reading /\ disciplined Idle k
  | Do Announce k => m = Idle /\ disciplined Waiting k
  | Do Acquire k => m = Waiting /\ disciplined Writing k
  | Do Unlock k => m = Writing /\ disciplined Idle k
  | Do (Store _ _) k | Do (Drop _) k => m = Writing /\ disciplined Writing k
  | Lookup _ k1 k2 => m = Reading /\ disciplined Reading k1 /\ disciplined Reading k2
  | Fetch _ k1 k2 => m = Reading /\ disciplined Reading k1 /\ forall x, disciplined Reading (k2 x)
  end.

Definition reads (m : mode) : nat := match m with Reading => 1 | _ => 0 end.
Definition waits (m : mode) : nat := match m with Waiting => 1 | _ => 0 end.
Definition write_locks (m : mode) : nat := match m with Writing => 1 | _ => 0 end.

(** The lock's counters agree with the modes of the threads. *)
Definition lock_inv (ms : list mode) (c : config) : Prop :=
  Forall2 (fun m t => disciplined m (code t) /\ held t = reads m) ms (c_threads c) /\
  sh_readers (c_shared c) = sum_list_with reads ms /\
  sh_waiting (c_shared c) = sum_list_with waits ms /\
  (if sh_writer (c_shared c) then 1 else 0)%nat = sum_list_with write_locks ms.

Lemma lock_inv_step ms c c' :
  lock_inv ms c -> cstep c c' -> exists ms', lock_inv ms' c'.
Proof.
  intros (Hd & Hr & Hw & Hwr) Hs.
  destruct Hs as [s ts i t s' t' Hi Ht|]; [|exists ms; by split_and!].
  cbn in *.
  destruct (Forall2_lookup_r _ _ _ _ _ Hd Hi) as (m & Hm & Hdisc & Hheld).
  assert (exists m', disciplined m' (code t') /\ held t' = reads m' /\
    (sh_readers s' + reads m = sh_readers s + reads m')%nat /\
    (sh_waiting s' + waits m = sh_waiting s + waits m')%nat /\
    ((if sh_writer s' then 1 else 0) + write_locks m
     = (if sh_writer s then 1 else 0) + write_locks m')%nat) as (m' & D & H' & R' & W' & WR').
  { destruct Ht; cbn in *.
    - destruct Hdisc as [-> ?]. exists Reading. cbn in *. split_and!; try done; lia.
    - destruct Hdisc as [-> ?]. exists Idle. cbn in *. split_and!; try done; lia.
    - destruct Hdisc as [-> ?]. exists Waiting. cbn in *. split_and!; try done; lia.
    - destruct Hdisc as [-> ?]. exists Writing. cbn in *. split_and!; try done; lia.
    - destruct Hdisc as [-> ?]. exists Idle. cbn in *. split_and!; try done; lia.
    - destruct Hdisc as [-> ?]. exists Writing. by split_and!.
    - destruct Hdisc as [-> ?]. exists Writing. by split_and!.
    - destruct Hdisc as (-> & ? & ?). exists Reading. split_and!; try done. by destruct (heightToHash _ !! x).
    - destruct Hdisc as (-> & ? & ?). exists Reading. split_and!; try done. destruct (sh_backend s x); auto. }
  exists (<[i := m']> ms). split_and!; cbn.
  - by apply Forall2_insert.
  - pose proof (sum_insert reads ms i m m' Hm). lia.
  - pose proof (sum_insert waits ms i m m' Hm). lia.
  - pose proof (sum_insert write_locks ms i m m' Hm). lia.
Qed.

(** A thread in the given mode exists when the count is positive. *)
Lemma sum_pos_lookup {A} (f : A -> nat) (l : list A) :
  (0 < sum_list_with f l)%nat -> exists i x, l !! i = Some x /\ (0 < f x)%nat.
Proof.
  induction l as [|x l IH]; cbn; [lia|]. intros H.
  destruct (decide (0 < f x)%nat) as [|Hn]; [by exists 0%nat, x|].
  destruct IH as (i & y & ? & ?); [lia|]. by exists (S i), y.
Qed.

Lemma sum_zero_lookup {A} (f : A -> nat) (l : list A) i x :
  sum_list_with f l = 0%nat -> l !! i = Some x -> f x = 0%nat.
Proof. intros H Hi. pose proof (sum_lookup_le f l i x Hi). lia. Qed.

Definition can_step (c : config) : Prop :=
  exists i t s' t', c_threads c !! i = Some t /\ tstep (c_shared c) t s' t'.

Lemma disciplined_step_reading s t :
  disciplined Reading (code t) -> held t = 1%nat -> (0 < sh_readers s)%nat ->
  exists s' t', tstep s t s' t'.
Proof.
  destruct t as [h p], s as [n wr w c b]. cbn. intros Hd -> Hn.
  destruct p as [|a k|x k1 k2|x k1 k2]; cbn in Hd; [done| |eauto using tstep|eauto using tstep].
  destruct a; destruct Hd as [? ?]; try done.
  destruct n; [lia|]. eauto using tstep.
Qed.

Lemma disciplined_step_writing s t :
  disciplined Writing (code t) -> sh_writer s = true -> exists s' t', tstep s t s' t'.
Proof.
  destruct t as [h p], s as [n wr w c b]. cbn. intros Hd ->.
  destruct p as [|a k|x k1 k2|x k1 k2]; cbn in Hd;
    [done| |by destruct Hd|by destruct Hd].
  destruct a; destruct Hd as [? ?]; try done; eauto using tstep.
Qed.

Definition finished (t : thread) : Prop :=
  match code t with Done => True | _ => False end.

#[local] Instance finished_dec t : Decision (finished t).
Proof. destruct t as [h []]; apply _. Defined.

Lemma disciplined_step_idle s t :
  disciplined Idle (code t) -> ~ finished t ->
  sh_writer s = false -> sh_waiting s = 0%nat -> exists s' t', tstep s t s' t'.
Proof.
  destruct t as [h p], s as [n wr w c b]. cbn. intros Hd Hf -> ->.
  destruct p as [|a k|x k1 k2|x k1 k2]; cbn in Hd; [done| |by destruct Hd|by destruct Hd].
  destruct a; destruct Hd as [? ?]; try done; eauto using tstep.
Qed.

(** Some thread can move unless all are done. *)
Lemma lock_inv_progress ms c :
  lock_inv ms c -> can_step c \/ Forall (fun t => code t = Done) (c_threads c).
Proof.
  intros (Hd & Hr & Hw & Hwr). destruct c as [[n wr w cache b] ts]. cbn in *.
  assert (Hlk : forall i m, ms !! i = Some m -> exists t, ts !! i = Some t /\
            disciplined m (code t) /\ held t = reads m).
  { intros i m Hm. destruct (Forall2_lookup_l _ _ _ _ _ Hd Hm) as (t & ? & ? & ?). eauto. }
  destruct wr.
  { destruct (sum_pos_lookup write_locks ms) as (i & m & Hm & Hp); [lia|].
    destruct m; cbn in Hp; try lia. destruct (Hlk i _ Hm) as (t & Ht & D & _).
    destruct (disciplined_step_writing (mkShared n true w cache b) t D eq_refl) as (s' & t' & Hs).
    left. by exists i, t, s', t'. }
  destruct n as [|n].
  2:{ destruct (sum_pos_lookup reads ms) as (i & m & Hm & Hp); [lia|].
      destruct m; cbn in Hp; try lia. destruct (Hlk i _ Hm) as (t & Ht & D & Hh).
      destruct (disciplined_step_reading (mkShared (S n) false w cache b) t D Hh) as (s' & t' & Hs);
        [cbn; lia|].
      left. by exists i, t, s', t'. }
  destruct w as [|w].
  2:{ destruct (sum_pos_lookup waits ms) as (i & m & Hm & Hp); [lia|].
      destruct m; cbn in Hp; try lia. destruct (Hlk i _ Hm) as (t & Ht & D & _).
      destruct t as [h p]. destruct p as [|a k|x k1 k2|x k1 k2]; cbn in D;
        [done| |by destruct D|by destruct D].
      destruct a; destruct D as [? ?]; try done.
      left. eexists i, _, _, _. split; [exact Ht|]. apply step_Acquire. }
  assert (HI : forall i m, ms !! i = Some m -> m = Idle).
  { intros i m Hm.
    pose proof (sum_zero_lookup _ _ _ _ (eq_sym Hr) Hm).
    pose proof (sum_zero_lookup _ _ _ _ (eq_sym Hw) Hm).
    pose proof (sum_zero_lookup _ _ _ _ (eq_sym Hwr) Hm).
    by destruct m. }
  destruct (decide (Forall finished ts)) as [HD|HD].
  { right. eapply Forall_impl; [exact HD|]. by intros [h []]. }
  left. apply not_Forall_Exists in HD; [|apply _].
  apply Exists_exists in HD as (t & Hin & Hnd).
  apply list_elem_of_lookup in Hin as [i Hi].
  destruct (Forall2_lookup_r _ _ _ _ _ Hd Hi) as (m & Hm & D & _).
  rewrite (HI i m Hm) in D.
  destruct (disciplined_step_idle (mkShared 0 false 0 cache b) t D) as (s' & t' & Hs); [done..|].
  by exists i, t, s', t'.
Qed.

Lemma getBlockHash_prog_disciplined h k :
  disciplined Idle k -> disciplined Idle (getBlockHash_prog h k).
Proof. intros. cbn. by split_and!. Qed.

Lemma invalidate_prog_disciplined from k :
  disciplined Idle k -> disciplined Idle (invalidate_prog from k).
Proof. intros. cbn. by split_and!. Qed.

(** ** Properties *)

(** Calls the producers make on the cache. *)
Inductive call := CallGet (h : Z) | CallInvalidate (from : Z).

Fixpoint run_calls (l : list call) : prog :=
  match l with
  | [] => Done
  | CallGet h :: l' => getBlockHash_prog h (run_calls l')
  | CallInvalidate from :: l' => invalidate_prog from (run_calls l')
  end.

Definition initial (ps : list prog) (cache : heightToHashCache) (b : Z -> option Hash) : config :=
  mkConfig (mkShared 0 false 0 cache b) (map (mkThread 0) ps).

Lemma run_calls_disciplined l : disciplined Idle (run_calls l).
Proof.
  induction l as [|[h|from] l IH]; [done| |].
  - by apply getBlockHash_prog_disciplined.
  - by apply invalidate_prog_disciplined.
Qed.

Lemma initial_lock_inv ps cache b :
  Forall (disciplined Idle) ps -> lock_inv (map (fun _ => Idle) ps) (initial ps cache b).
Proof.
  intros H. unfold lock_inv, initial. cbn [c_threads c_shared sh_readers sh_waiting sh_writer].
  split; [|induction H; cbn; naive_solver].
  induction H; cbn; constructor; auto.
Qed.

Lemma rtc_lock_inv ms c c' : rtc cstep c c' -> lock_inv ms c -> exists ms', lock_inv ms' c'.
Proof.
  intros Hs. revert ms. induction Hs as [|c c1 c' H1 _ IH]; intros ms Hi; [eauto|].
  destruct (lock_inv_step ms c c1 Hi H1) as [ms' Hi']. eauto.
Qed.

(** Producers that call [getBlockHash] and [invalidate] in any number and
    order never deadlock on the cache's lock: in every reachable interleaving,
    with the backend changing at any time, some thread can move or all calls
    have returned. *)
Lemma cache_calls_never_deadlock pss cache b c :
  rtc cstep (initial (map run_calls pss) cache b) c ->
  can_step c \/ Forall (fun t => code t = Done) (c_threads c).
Proof.
  intros Hs. destruct (rtc_lock_inv (map (fun _ => Idle) (map run_calls pss)) _ _ Hs) as [ms Hi].
  - apply initial_lock_inv, Forall_map, Forall_true. intros. apply run_calls_disciplined.
  - by eapply lock_inv_progress.
Qed.

(** Thread 0 runs alone. *)
Lemma step_first s ts t s' t' c' :
  tstep s t s' t' -> rtc cstep (mkConfig s' (t' :: ts)) c' ->
  rtc cstep (mkConfig s (t :: ts)) c'.
Proof.
  intros Ht Hr. eapply rtc_l; [|exact Hr].
  by apply (cstep_thread s (t :: ts) 0 t s' t').
Qed.

(** Thread 1 of two runs. *)
Lemma step_second s t0 t s' t' c' :
  tstep s t s' t' -> rtc cstep (mkConfig s' [t0; t']) c' ->
  rtc cstep (mkConfig s [t0; t]) c'.
Proof.
  intros Ht Hr. eapply rtc_l; [|exact Hr].
  by apply (cstep_thread s [t0; t] 1 t s' t').
Qed.

Lemma total_held_initial ps : total_held (map (mkThread 0) ps) = 0%nat.
Proof. unfold total_held. induction ps; cbn; auto. Qed.

(** A request that holds the cache's read lock while it calls
    [getBlockHash], as [statusRequestHandler] does, never returns when the
    height is not cached and the backend knows it: the write lock it waits for
    needs its own read lock to be released. From then on every other thread
    that starts to read the cache waits forever as well. *)
Lemma status_cache_miss_deadlock best hash cache b ps :
  heightToHash cache !! best = None -> b best = Some hash ->
  exists c t, rtc cstep (initial (status_prog best :: ps) cache b) c /\
    c_threads c = t :: map (mkThread 0) ps /\ code t <> Done /\
    forall c', rtc cstep c c' ->
      c_threads c' !! 0%nat = Some t /\
      forall j p, ps !! j = Some (Do RLock p) ->
        c_threads c' !! S j = Some (mkThread 0 (Do RLock p)).
Proof.
  intros Hmiss Hb.
  set (k := Do RUnlock Done).
  set (t := mkThread 1 (Do Acquire (Do (Store best hash) (Do Unlock (Do RLock (Do RUnlock k)))))).
  set (c := mkConfig (mkShared 1 false 1 cache b) (t :: map (mkThread 0) ps)).
  assert (Hblk : blocked_config 0 t c).
  { split_and!; [|done|split; [cbn; lia|by eexists]|cbn; lia].
    unfold readers_ok, c. cbn [c_shared c_threads sh_readers].
    unfold total_held. cbn. f_equal. symmetry. apply total_held_initial. }
  exists c, t. split_and!; [|done|done|].
  - unfold initial, status_prog, getBlockHash_prog. cbn [map].
    eapply step_first; [apply step_RLock|].
    eapply step_first; [apply step_RLock|].
    eapply step_first; [apply step_Lookup|]. cbn [sh_cache]. rewrite Hmiss.
    eapply step_first; [apply step_Fetch|]. cbn [sh_backend]. rewrite Hb.
    eapply step_first; [apply step_RUnlock|].
    eapply step_first; [apply step_Announce|]. done.
  - intros c' Hc'. destruct (blocked_forever 0 t c c' Hblk Hc') as [(_ & Ht & _) Hj].
    split; [done|]. intros j p Hp. apply Hj; [|by exists p; left].
    change ((mkThread 0 <$> ps) !! j = Some (mkThread 0 (Do RLock p))).
    by rewrite list_lookup_fmap, Hp.
Qed.

(** C21: [invalidate] can be overtaken: a [getBlockHash] that asked the backend
    before a reorganization stores the old hash after another producer has
    invalidated the height, and the stale entry stays in the cache when both
    calls have returned. *)
Theorem stale_hash_after_invalidate from h old cache b b' :
  from <= h -> heightToHash cache !! h = None -> b h = Some old ->
  exists c, rtc cstep (initial [run_calls [CallGet h]; run_calls [CallInvalidate from]] cache b) c /\
    Forall (fun t => code t = Done) (c_threads c) /\
    sh_backend (c_shared c) = b' /\
    heightToHash (sh_cache (c_shared c)) !! h = Some old.
Proof.
  intros Hf Hmiss Hb.
  set (cache' := h2h_put h old (invalidate from cache)).
  exists (mkConfig (mkShared 0 false 0 cache' b') [mkThread 0 Done; mkThread 0 Done]).
  split_and!; [|by repeat constructor|done|].
  2:{ cbn. unfold cache'. by rewrite lookup_h2h_put, lookup_insert_eq. }
  unfold initial. cbn [map run_calls]. unfold getBlockHash_prog, invalidate_prog, DoLock.
  eapply step_first; [apply step_RLock|].
  eapply step_first; [apply step_Lookup|]. cbn [sh_cache]. rewrite Hmiss.
  eapply step_first; [apply step_Fetch|]. cbn [sh_backend]. rewrite Hb.
  eapply step_first; [apply step_RUnlock|].
  eapply rtc_l; [apply (cstep_backend _ _ _ _ _ b')|].
  eapply step_second; [apply step_Announce|]. eapply step_second; [apply step_Acquire|].
  eapply step_second; [apply step_Drop|]. eapply step_second; [apply step_Unlock|].
  eapply step_first; [apply step_Announce|]. eapply step_first; [apply step_Acquire|].
  eapply step_first; [apply step_Store|]. eapply step_first; [apply step_Unlock|].
  eapply step_first; [apply step_RLock|]. eapply step_first; [apply step_RUnlock|].
  done.
Qed.

(** C33: the read lock taken twice blocks whatever the cache holds for the
    height: when another goroutine that fetches a missing height asks for the
    write lock in between, the request waits for the writer and the writer for
    the request, and neither ever moves again. *)
Theorem status_recursive_lock_deadlock best h hash cache b :
  heightToHash cache !! h = None -> b h = Some hash ->
  exists c, rtc cstep (initial [status_prog best; run_calls [CallGet h]] cache b) c /\
    Forall (fun t => code t <> Done) (c_threads c) /\
    forall c', rtc cstep c c' -> c_threads c' = c_threads c.
Proof.
  intros Hmiss Hb.
  set (t0 := mkThread 1 (getBlockHash_prog best (Do RUnlock Done))).
  set (t1 := mkThread 0 (Do Acquire (Do (Store h hash) (Do Unlock (Do RLock (Do RUnlock Done)))))).
  exists (mkConfig (mkShared 1 false 1 cache b) [t0; t1]). split_and!.
  - unfold initial, status_prog. cbn [map run_calls]. unfold getBlockHash_prog at 2.
    eapply step_second; [apply step_RLock|].
    eapply step_second; [apply step_Lookup|]. cbn [sh_cache]. rewrite Hmiss.
    eapply step_second; [apply step_Fetch|]. cbn [sh_backend]. rewrite Hb.
    eapply step_second; [apply step_RUnlock|].
    eapply step_first; [apply step_RLock|].
    eapply step_second; [apply step_Announce|]. done.
  - by repeat constructor.
  - intros c' Hc'.
    enough (G : c_threads c' = [t0; t1] /\ exists b', c_shared c' = mkShared 1 false 1 cache b')
      by (by destruct G).
    revert Hc'. generalize b. clear Hb b.
    intros b Hs. remember (mkConfig _ _) as c0 eqn:E. revert b E.
    induction Hs as [c|c c1 c' H1 _ IH]; intros b ->; [by split; [|exists b]|].
    inversion H1 as [s ts i t s' t' Hi Ht|n wr w c2 b1 b' ts]; subst; [|by apply (IH b')].
    destruct i as [|[|i]]; cbn in Hi; simplify_eq; inversion Ht.
Qed.

(** *** Witnesses *)

Lemma stale_hash_after_invalidate_witness :
  exists c, rtc cstep (initial [run_calls [CallGet 7]; run_calls [CallInvalidate 5]]
      newH2HCache (fun _ => Some zero_hash)) c /\
    sh_backend (c_shared c) 7 = Some [] /\
    heightToHash (sh_cache (c_shared c)) !! 7 = Some zero_hash.
Proof.
  destruct (stale_hash_after_invalidate 5 7 zero_hash newH2HCache
    (fun _ => Some zero_hash) (fun _ => Some [])) as (c & H1 & _ & H2 & H3);
    [lia|reflexivity|reflexivity|].
  exists c. split; [exact H1|]. split; [rewrite H2; reflexivity|exact H3].
Defined.

(** The cache knows height 0; a producer fetches height 7. *)
Lemma status_recursive_lock_deadlock_witness :
  exists c, rtc cstep (initial [status_prog 0; run_calls [CallGet 7]]
      (h2h_put 0 zero_hash newH2HCache) (fun _ => Some zero_hash)) c /\
    forall c', rtc cstep c c' -> c_threads c' = c_threads c.
Proof.
  destruct (status_recursive_lock_deadlock 0 7 zero_hash
    (h2h_put 0 zero_hash newH2HCache) (fun _ => Some zero_hash)) as (c & H1 & _ & H2);
    [reflexivity|reflexivity|].
  exists c. split; [exact H1|exact H2].
Defined.
