(* ===== verification/Producer.v ===== *)
(** * The producer life cycle

    [file-producer.go]: the part every on-disk producer shares.  A concrete
    producer supplies the record of hooks; its file proves the laws of
    [HookLaws], and the theorems of this file then hold for it. *)

From Stdlib Require Import ZArith Lia.
From stdpp Require Import base numbers list strings gmap.
From S2P Require Import Prelude GoInt Bytes GoStr GoIO Iface Files H2H.

(** [errServerShutdown] and [errDeepReorg] *)
Definition errServerShutdown : error := Sentinel "server shutting down".
Definition errDeepReorg : error :=
  Sentinel "reorg deeper than --reorg-safe-depth; refusing to rewrite sealed files".

(** The constants of a [producerBase]. The extraction regular expression is
    the file name pattern with the producer's suffix. *)
Record producerCfg := mkCfg {
  p_name : str;
  baseDir : str;
  subDir : str;
  fileSuffix : str;
  entriesPerFile : Z;
  reOrgSafeDepth : Z
}.

(** [producerHooks] over the in-memory data [D] of a producer. *)
Record producerHooks (W D : Type) := mkHooks {
  ingest : Z -> M (Env W * D) unit;
  writeSealedFile : Z -> Z -> M (Env W * D) unit;
  pruneLocked : Z -> Z -> D -> D;
  cachedHash : Z -> D -> option Hash;
  afterCatchUp : option (Env W * D -> Env W * D)
}.
Arguments mkHooks {W D} _ _ _ _ _.
Arguments ingest {W D} _ _.
Arguments writeSealedFile {W D} _ _ _.
Arguments pruneLocked {W D} _ _ _ _.
Arguments cachedHash {W D} _ _ _.
Arguments afterCatchUp {W D} _.

(** A hook's access to the shared environment and to its own data. *)
Definition inEnv {W D A} (m : M (Env W) A) : M (Env W * D) A :=
  zoom fst (fun e s => (e, s.2)) m.
Definition inData {W D} (f : D -> D) : M (Env W * D) unit :=
  modify (fun s => (s.1, f s.2)).

(** The state of a producer and of what it shares with the others. *)
Record PState (W D : Type) := mkPS {
  ps_env : Env W;
  startupComplete : bool;
  currentHeight : Z;
  lastSealedHeight : Z;
  ps_data : D
}.
Arguments mkPS {W D} _ _ _ _ _.
Arguments ps_env {W D} _.
Arguments startupComplete {W D} _.
Arguments currentHeight {W D} _.
Arguments lastSealedHeight {W D} _.
Arguments ps_data {W D} _.

(** The part of a producer that is its own. *)
Record producerView (D : Type) := mkView {
  pv_startup : bool;
  pv_current : Z;
  pv_sealed : Z;
  pv_data : D
}.
Arguments mkView {D} _ _ _ _.
Arguments pv_startup {D} _.
Arguments pv_current {D} _.
Arguments pv_sealed {D} _.
Arguments pv_data {D} _.

Definition view_of {W D} (p : PState W D) : producerView D :=
  mkView (startupComplete p) (currentHeight p) (lastSealedHeight p) (ps_data p).
Definition of_view {W D} (e : Env W) (v : producerView D) : PState W D :=
  mkPS e (pv_startup v) (pv_current v) (pv_sealed v) (pv_data v).

Lemma of_view_of {W D} (p : PState W D) : of_view (ps_env p) (view_of p) = p.
Proof. by destruct p. Qed.

(** A fresh producer: the constructors store -1 as the last sealed height, the
    other atomics start at their zero value. *)
Definition newProducer {W D} (e : Env W) (d : D) : PState W D := mkPS e false 0 (-1) d.

Section Producer.
Context `{Wi : Wire} {W : Type} `{!Chain W} {D : Type}.
Context (hooks : producerHooks W D) (cfg : producerCfg).

Definition set_startup (b : bool) (s : PState W D) : PState W D :=
  mkPS (ps_env s) b (currentHeight s) (lastSealedHeight s) (ps_data s).
Definition set_current (h : Z) (s : PState W D) : PState W D :=
  mkPS (ps_env s) (startupComplete s) h (lastSealedHeight s) (ps_data s).
Definition set_sealed (h : Z) (s : PState W D) : PState W D :=
  mkPS (ps_env s) (startupComplete s) (currentHeight s) h (ps_data s).
Definition set_data (d : D) (s : PState W D) : PState W D :=
  mkPS (ps_env s) (startupComplete s) (currentHeight s) (lastSealedHeight s) d.
Definition set_env (e : Env W) (s : PState W D) : PState W D :=
  mkPS e (startupComplete s) (currentHeight s) (lastSealedHeight s) (ps_data s).

Definition onEnv {A} (m : M (Env W) A) : M (PState W D) A := zoom ps_env set_env m.
Definition onHook {A} (m : M (Env W * D) A) : M (PState W D) A :=
  zoom (fun s => (ps_env s, ps_data s)) (fun '(e, d) s => set_data d (set_env e s)) m.

(** [select { case <-p.quit: return errServerShutdown; ... }] *)
Definition checkQuit : M (PState W D) unit :=
  let! closed := onEnv (onWorld (fun w => let '(b, w') := quitClosed w in (Ok b, w'))) in
  if closed then fail errServerShutdown else ret tt.

(** *** [sealReadyFiles] *)

(** The end of the next file to seal. *)
Definition nextEnd (s : PState W D) : Z :=
  let lastSealed := lastSealedHeight s in
  if lastSealed <? 0 then i32 (entriesPerFile cfg - 1)
  else i32 (lastSealed + entriesPerFile cfg).

Definition safeTip (s : PState W D) : Z := i32 (currentHeight s - reOrgSafeDepth cfg).

(** Write one file, then prune and promote under the lock. *)
Definition sealFile (fileStart end_ : Z) : M (PState W D) unit :=
  wrapE "error sealing %s file: %w" (onHook (writeSealedFile hooks fileStart end_)) ;;;
  modify (fun s =>
    set_sealed end_ (set_data (pruneLocked hooks fileStart end_ (ps_data s)) s)).

(** The loop. Every round raises [lastSealedHeight], which stays at most the
    safe tip, so [safeTip + 2] rounds are enough ([sealReadyFiles_eq]). *)
Fixpoint sealLoop (fuel : nat) : M (PState W D) unit :=
  match fuel with
  | O => fail OutOfFuel
  | S fuel' =>
      let! s := get in
      if safeTip s <? nextEnd s then ret tt
      else
        sealFile (i32 (i32 (nextEnd s - entriesPerFile cfg) + 1)) (nextEnd s) ;;;
        sealLoop fuel'
  end.

Definition sealReadyFiles : M (PState W D) unit := fun s =>
  sealLoop (S (Z.to_nat (safeTip s + 1))) s.

(** *** [updateCacheAndFiles] *)

Definition ingestBlock (i : Z) : M (PState W D) unit :=
  checkQuit ;;;
  onHook (ingest hooks i) ;;;
  modify (set_current i) ;;;
  sealReadyFiles.

(** [ingestBlock] before it seals ([ingestBlock_step] in [ProducerSeal]). *)
Definition ingestStep (i : Z) : M (PState W D) unit :=
  checkQuit ;;;
  onHook (ingest hooks i) ;;;
  modify (set_current i).

Definition updateCacheAndFiles (startBlock endBlock : Z) : M (PState W D) unit :=
  forM (range startBlock endBlock) ingestBlock.

(** *** Reorganizations *)

(** [tipReorged] *)
Definition tipReorged : M (PState W D) bool :=
  let! s := get in
  let tip := currentHeight s in
  if tip <? 0 then ret false
  else match cachedHash hooks tip (ps_data s) with
       | None => ret false
       | Some ourHash =>
           let! r := catch (onEnv (onWorld (GetBlockHash tip))) in
           match r with
           | Err _ => ret false
           | Ok btcHash => ret (negb (bool_decide (ourHash = btcHash)))
           end
       end.

(** [findCommonAncestor]; the loop bound reads [lastSealedHeight], which no
    step of the loop changes. *)
Definition findCommonAncestor (tip : Z) : M (PState W D) Z :=
  let! s := get in
  let! found :=
    searchM (range_down tip (lastSealedHeight s)) (fun hgt =>
      match cachedHash hooks hgt (ps_data s) with
      | None => ret None
      | Some ourHash =>
          let! btcHash :=
            wrapE "error fetching backend hash at height %d: %w"
              (onEnv (onWorld (GetBlockHash hgt))) in
          ret (if bool_decide (ourHash = btcHash) then Some hgt else None)
      end) in
  match found with
  | Some hgt => ret hgt
  | None => gets lastSealedHeight
  end.

(** [rollback] *)
Definition rollback (toHeight : Z) (s : PState W D) : PState W D :=
  let s1 := set_data (pruneLocked hooks (i32 (toHeight + 1)) (currentHeight s) (ps_data s)) s in
  let s2 := set_current toHeight s1 in
  set_env (mkEnv (e_world (ps_env s2)) (e_fs (ps_env s2))
             (invalidate (i32 (toHeight + 1)) (e_h2h (ps_env s2)))) s2.

(** [handleReorg] *)
Definition handleReorg : M (PState W D) unit :=
  let! s := get in
  let tip := currentHeight s in
  if tip <? 0 then ret tt
  else match cachedHash hooks tip (ps_data s) with
       | None => ret tt
       | Some ourHash =>
           let! btcHash := wrapE "error getting tip block hash: %w"
                             (onEnv (onWorld (GetBlockHash tip))) in
           if bool_decide (ourHash = btcHash) then ret tt
           else
             let! commonHeight := wrapE "error finding common ancestor: %w"
                                    (findCommonAncestor tip) in
             let! last := gets lastSealedHeight in
             if commonHeight <=? last
             then fail (Wrapf "%s reorg back to height %d (last sealed %d): %w" errDeepReorg)
             else modify (rollback commonHeight)
       end.

(** *** [updateFiles] *)

(** One round of the poll loop. *)
Definition pollOnce : M (PState W D) unit :=
  checkQuit ;;;
  let! height := wrapE "error getting best block: %w" (onEnv (onWorld GetBlockCount)) in
  let! currentBlock := gets currentHeight in
  let! idle :=
    (if i32 height =? currentBlock
     then let! reorged := tipReorged in ret (negb reorged)
     else ret false) in
  if idle then ret tt
  else
    handleReorg ;;;
    let! currentBlock := gets currentHeight in
    if i32 height <=? currentBlock then ret tt
    else wrapE "error updating %s for blocks: %w"
           (updateCacheAndFiles (i32 (currentBlock + 1)) (i32 height)).

(** [pollOnce] up to the blocks it ingests, if there are any
    ([pollOnce_head] in [ProducerReorg]). *)
Definition pollHead : M (PState W D) (option (Z * Z)) :=
  checkQuit ;;;
  let! height := wrapE "error getting best block: %w" (onEnv (onWorld GetBlockCount)) in
  let! currentBlock := gets currentHeight in
  let! idle :=
    (if i32 height =? currentBlock
     then let! reorged := tipReorged in ret (negb reorged)
     else ret false) in
  if idle then ret None
  else
    handleReorg ;;;
    let! currentBlock := gets currentHeight in
    ret (if i32 height <=? currentBlock then None else Some (i32 (currentBlock + 1), i32 height)).

Fixpoint pollLoop (polls : nat) : M (PState W D) unit :=
  match polls with
  | O => ret tt
  | S n => pollOnce ;;; pollLoop n
  end.

Definition fileDir : str := filepath_Join (baseDir cfg) (subDir cfg).

(** Resume from the files on disk: the start of [updateFiles]. *)
Definition resumeHeights : M (PState W D) Z :=
  wrapE "error creating directory %s: %w" (onEnv (onFS (os_MkdirAll fileDir))) ;;;
  let! fs := gets (fun s => e_fs (ps_env s)) in
  let! lastBlock := wrapE "error getting last %s file: %w"
                      (liftR (lastFile fs fileDir (fileSuffix cfg))) in
  (if 0 <? lastBlock then modify (fun s => set_current lastBlock (set_sealed lastBlock s))
   else modify (set_sealed (-1))) ;;;
  gets (fun s => i32 (lastSealedHeight s + 1)).

(** [updateFiles] followed for [polls] rounds of its endless loop. *)
Definition updateFiles (polls : nat) (numBlocks : Z) : M (PState W D) unit :=
  let! startBlock := resumeHeights in
  wrapE "error updating %s blocks: %w" (updateCacheAndFiles startBlock numBlocks) ;;;
  modify (set_startup true) ;;;
  modify (fun s => match afterCatchUp hooks with
                   | None => s
                   | Some f => let '(e, d) := f (ps_env s, ps_data s) in set_data d (set_env e s)
                   end) ;;;
  pollLoop polls.
End Producer.
