(* ===== verification/ProducerLaws.v ===== *)
(** * What a producer promises to the life cycle

    [HookLaws] is the interface between [Producer] and the concrete
    producers; this file also has the invariant of a producer's heights and
    memory. *)

From Stdlib Require Import ZArith Lia.
From stdpp Require Import base numbers list strings gmap.
From S2P Require Import Prelude GoInt Bytes GoStr GoIO Iface Toy Files H2H Producer.

(** [sealPath e p]: [p] is a file written when the file ending at height [e] is
    sealed. *)
Class HookLaws {W D : Type} (hooks : producerHooks W D) := {
  sealPath : Z -> str -> Prop;
  sealPath_disjoint e e' p :
    0 <= e < 10000000 -> 0 <= e' < 10000000 ->
    sealPath e p -> sealPath e' p -> e = e';
  ingest_frame h s r s' :
    ingest hooks h s = (r, s') ->
    e_fs s'.1 = e_fs s.1 /\ (h2h_ok (e_h2h s.1) -> h2h_ok (e_h2h s'.1));
  ingest_cached h s s' :
    ingest hooks h s = (Ok tt, s') ->
    is_Some (cachedHash hooks h s'.2) /\
    forall h', h' <> h -> cachedHash hooks h' s'.2 = cachedHash hooks h' s.2;
  write_frame a b s r s' :
    0 <= a <= b -> b < 10000000 -> writeSealedFile hooks a b s = (r, s') ->
    (h2h_ok (e_h2h s.1) -> h2h_ok (e_h2h s'.1)) /\
    fs_faults (e_fs s'.1) = fs_faults (e_fs s.1) /\
    forall p, ~ sealPath b p -> fs_files (e_fs s'.1) !! p = fs_files (e_fs s.1) !! p;
  write_cached a b s r s' h :
    0 <= a <= b -> b < 10000000 -> writeSealedFile hooks a b s = (r, s') ->
    cachedHash hooks h s'.2 = cachedHash hooks h s.2;
  prune_cached a b d h :
    cachedHash hooks h (pruneLocked hooks a b d)
    = if decide (a <= h <= b) then None else cachedHash hooks h d;
  no_afterCatchUp : afterCatchUp hooks = None
}.

(** What the backend promises about its block count: seven digits. *)
Class BoundedChain `{Chain W} := {
  GetBlockCount_bound w h w' :
    GetBlockCount w = (Ok h, w') -> 0 <= h < 10000000
}.

#[export] Instance toy_bounded : BoundedChain (W := toy_world).
Proof.
  split. intros w h w'. cbn. destruct (Z.leb_spec 0 (Z.of_nat (length (tw_now
    match tw_later w with [] => w | c :: l => mkToy c l (tw_quit w) end)) - 1)); cbn; [|done].
  destruct (Z.ltb_spec (Z.of_nat (length (tw_now
    match tw_later w with [] => w | c :: l => mkToy c l (tw_quit w) end)) - 1) 10000000); [|done].
  intros [= <- _]. lia.
Qed.

(** A sane configuration: positive file size, and a safe depth that survives
    the conversion to [int32]. *)
Definition valid_cfg (cfg : producerCfg) : Prop :=
  0 < entriesPerFile cfg <= 10000000 /\ 0 <= reOrgSafeDepth cfg <= 10000000.

(** The heights the model covers: block files have 7-digit names. *)
Definition max_height : Z := 10000000.

(** [pinv nx s]: the producer has sealed whole files, its memory holds exactly
    the heights between the last sealed one and [nx], the next to ingest. *)
Record pinv {W D} (hooks : producerHooks W D) (cfg : producerCfg) (nx : Z) (s : PState W D)
  : Prop := {
  pinv_sealed : -1 <= lastSealedHeight s;
  pinv_aligned : (lastSealedHeight s + 1) mod entriesPerFile cfg = 0;
  pinv_below : lastSealedHeight s < nx;
  pinv_bound : nx <= max_height;
  pinv_mem h : is_Some (cachedHash hooks h (ps_data s)) <-> lastSealedHeight s < h < nx;
  pinv_h2h : h2h_ok (e_h2h (ps_env s))
}.

(** A producer at rest: the next height follows the current one. *)
Definition settled {W D} (hooks : producerHooks W D) (cfg : producerCfg) (s : PState W D) : Prop :=
  pinv hooks cfg (currentHeight s + 1) s.

(** ** Steps of the hooks

    Before a hook stores what it fetched it only asks the backend and the
    shared cache: its data, the files and the cache's invariant stay. *)
Record fetched {W D} (s0 s : Env W * D) : Prop := {
  fe_data : s.2 = s0.2;
  fe_fs : e_fs s.1 = e_fs s0.1;
  fe_h2h : h2h_ok (e_h2h s0.1) -> h2h_ok (e_h2h s.1)
}.

#[export] Instance fetched_preorder {W D} : PreOrder (@fetched W D).
Proof.
  split; [by split|]. intros s1 s2 s3 [] []. split; [congruence|congruence|auto].
Qed.

(** A hook that seals writes, besides, the files of [Q]. *)
Record wrote {W D} (Q : str -> Prop) (s0 s : Env W * D) : Prop := {
  wr_data : s.2 = s0.2;
  wr_h2h : h2h_ok (e_h2h s0.1) -> h2h_ok (e_h2h s.1);
  wr_faults : fs_faults (e_fs s.1) = fs_faults (e_fs s0.1);
  wr_files p : ~ Q p -> fs_files (e_fs s.1) !! p = fs_files (e_fs s0.1) !! p
}.

#[export] Instance wrote_preorder {W D} Q : PreOrder (@wrote W D Q).
Proof.
  split; [by split|]. intros s1 s2 s3 [A1 A2 A3 A4] [B1 B2 B3 B4].
  split; [congruence|auto|congruence|]. intros p Hp. rewrite B4, A4; done.
Qed.

Section Steps.
Context `{Wi : Wire} {W : Type} `{!Chain W} {D : Type}.
Implicit Types (s : Env W * D).

Lemma inEnv_inv {A} (m : M (Env W) A) s r s' :
  inEnv m s = (r, s') -> m s.1 = (r, s'.1) /\ s'.2 = s.2.
Proof.
  unfold inEnv, zoom. destruct (m s.1) as [r1 e1]. intros. by simplify_eq.
Qed.

Lemma inEnv_onFS_inv {A} (m : M FS A) s r s' :
  inEnv (onFS m) s = (r, s') ->
  m (e_fs s.1) = (r, e_fs s'.1) /\ e_world s'.1 = e_world s.1 /\
  e_h2h s'.1 = e_h2h s.1 /\ s'.2 = s.2.
Proof. by intros [(Ew & Eh & E)%onFS_frame E2]%inEnv_inv. Qed.

Lemma fetched_getBlockHash h : keeps (@fetched W D) (inEnv (getBlockHash h)).
Proof.
  intros s r s' [E E2]%inEnv_inv. split; [done| |].
  - by rewrite (getBlockHash_fs _ _ _ _ E).
  - intros Hok. by eapply getBlockHash_ok.
Qed.

Lemma fetched_onWorld {A} (m : M W A) : keeps (@fetched W D) (inEnv (onWorld m)).
Proof.
  intros s r s' [[E1 E2]%onWorld_frame E3]%inEnv_inv. split; [done|done|by rewrite E2].
Qed.

Lemma fetched_wrote Q s s' : fetched s s' -> @wrote W D Q s s'.
Proof. intros [A B C]. split; [done|done|by rewrite B|by rewrite B]. Qed.

Lemma wrote_create_write_close (Q : str -> Prop) f1 f2 f3 p write :
  Q p -> keeps (@wrote W D Q) (inEnv (onFS (create_write_close f1 f2 f3 p write))).
Proof.
  intros HQ s r s' [(Ew & Eh & E)%onFS_frame E2]%inEnv_inv.
  pose proof (create_write_close_env _ _ _ _ _ _ _ _ E) as [_ Hf].
  split; [done|by rewrite Eh|done|].
  intros q Hq. eapply create_write_close_frame; [exact E|]. by intros ->.
Qed.

Lemma wrote_MkdirAll Q p : keeps (@wrote W D Q) (inEnv (onFS (os_MkdirAll p))).
Proof.
  intros s r s' [(Ew & Eh & E)%onFS_frame E2]%inEnv_inv.
  assert (fs_files (e_fs s'.1) = fs_files (e_fs s.1) /\ fs_faults (e_fs s'.1) = fs_faults (e_fs s.1))
    as [Hf1 Hf2].
  { unfold os_MkdirAll in E. destruct (fault_mkdir _ _); injection E as _ <-; done. }
  split; [done|by rewrite Eh|done|]. intros q _. by rewrite Hf1.
Qed.
End Steps.

#[export] Hint Resolve fetched_getBlockHash fetched_onWorld wrote_create_write_close wrote_MkdirAll : go.
#[export] Hint Extern 1 (PreOrder _) => typeclasses eauto : go.

(** A hook that fetches, then stores. *)
Lemma fetch_then_store `{Chain W} {D A} (m : M (Env W * D) A) (f : A -> D -> D) s r s' :
  keeps fetched m -> (let! a := m in inData (f a)) s = (r, s') ->
  e_fs s'.1 = e_fs s.1 /\ (h2h_ok (e_h2h s.1) -> h2h_ok (e_h2h s'.1)) /\
  (r = Ok tt -> exists a, m s = (Ok a, (s'.1, s.2)) /\ s'.2 = f a s.2) /\
  (r <> Ok tt -> s'.2 = s.2).
Proof.
  intros Hm. unfold bind, inData, modify.
  destruct (m s) as [[a|e] s1] eqn:E; pose proof (Hm _ _ _ E) as [G1 G2 G3]; intros; simplify_eq; cbn;
    (split_and!; [done|done|..]); try done; try congruence.
  intros _. exists a. rewrite <- G1. by destruct s1.
Qed.

(** ** Resuming from the disk *)

(** Where a fresh producer resumes, from the height of the last file. *)
Lemma resumeHeights_last `{Chain W} {D : Type} cfg (e : Env W) (d : D) l :
  fs_faults (e_fs e) = no_faults ->
  lastFile (e_fs e) (fileDir cfg) (fileSuffix cfg) = Ok l -> 0 <= l < 10000000 ->
  exists s, resumeHeights cfg (newProducer e d) = (Ok (if 0 <? l then l + 1 else 0), s) /\
    lastSealedHeight s = (if 0 <? l then l else -1) /\ currentHeight s = l /\ ps_data s = d.
Proof.
  intros Hf Hl Hb.
  unfold resumeHeights, bind, wrapE, onEnv, onFS, zoom, os_MkdirAll, gets, liftR, modify.
  cbn. rewrite Hf. cbn. rewrite (lastFile_ext (e_fs e)), Hl by done. cbn.
  destruct (Z.ltb_spec 0 l); cbn.
  - eexists. rewrite i32_id by (unfold int32, min_int32, max_int32; lia). split; [reflexivity|by split_and!].
  - assert (l = 0) as -> by lia. eexists. split; [reflexivity|by split_and!].
Qed.
