(* ===== verification/ProducerSeal.v ===== *)
(** * Sealing

    [sealReadyFiles] against its schedule, and [updateCacheAndFiles]. *)

From Stdlib Require Import ZArith Lia.
From stdpp Require Import base numbers list strings gmap.
From S2P Require Import Prelude GoInt Bytes GoStr GoIO Iface Files H2H Producer ProducerLaws.

(** ** The schedule

    The files to seal when the last sealed height is [last] and the safe tip is
    [tip]: consecutive ranges of [n] heights. *)
Definition first_start (last : Z) : Z := if last <? 0 then 0 else last + 1.

Definition seal_count (n last tip : Z) : Z := Z.max 0 ((tip + 1 - first_start last) / n).

Definition seal_schedule (n last tip : Z) : list (Z * Z) :=
  (fun k => (first_start last + k * n, first_start last + k * n + n - 1)) <$>
    seqZ 0 (seal_count n last tip).

Lemma first_start_end last n : 0 < n -> -1 <= last -> first_start (first_start last + n - 1) = first_start last + n.
Proof.
  unfold first_start. intros. destruct (Z.ltb_spec last 0).
  - rewrite (proj2 (Z.ltb_ge _ _)); lia.
  - rewrite (proj2 (Z.ltb_ge _ _)); lia.
Qed.

Lemma seal_schedule_nil n last tip :
  0 < n -> tip < first_start last + n - 1 -> seal_schedule n last tip = [].
Proof.
  intros Hn Ht. unfold seal_schedule, seal_count.
  assert ((tip + 1 - first_start last) / n < 1) by (apply Z.div_lt_upper_bound; lia).
  by rewrite Z.max_l by lia.
Qed.

Lemma seal_count_cons n last tip :
  0 < n -> -1 <= last -> first_start last + n - 1 <= tip ->
  seal_count n last tip = seal_count n (first_start last + n - 1) tip + 1.
Proof.
  intros Hn Hl Ht. unfold seal_count. rewrite first_start_end by done.
  replace (tip + 1 - first_start last) with ((tip + 1 - (first_start last + n)) + 1 * n) by lia.
  rewrite Z.div_add by lia.
  assert (0 <= (tip + 1 - (first_start last + n)) / n) by (apply Z.div_pos; lia). lia.
Qed.

Lemma seal_schedule_cons n last tip :
  0 < n -> -1 <= last -> first_start last + n - 1 <= tip ->
  seal_schedule n last tip
  = (first_start last, first_start last + n - 1)
    :: seal_schedule n (first_start last + n - 1) tip.
Proof.
  intros Hn Hl Ht. unfold seal_schedule.
  rewrite seal_count_cons by done.
  assert (0 <= seal_count n (first_start last + n - 1) tip) by (unfold seal_count; lia).
  rewrite first_start_end by done.
  rewrite Z.add_comm, seqZ_app, fmap_app by lia. change (seqZ 0 1) with [0]. cbn [fmap list_fmap app].
  f_equal; [f_equal; lia|]. rewrite <- (fmap_add_seqZ 1 0), <- list_fmap_compose.
  apply list_fmap_ext. intros _ k _. cbn. f_equal; lia.
Qed.

(** Every scheduled file ends at or below the safe tip. *)
Lemma seal_schedule_bound n last tip a b :
  0 < n -> (a, b) ∈ seal_schedule n last tip ->
  first_start last <= a /\ b = a + n - 1 /\ b <= tip /\ (a - first_start last) mod n = 0.
Proof.
  intros Hn Hin. unfold seal_schedule in Hin.
  apply list_elem_of_fmap in Hin as (k & [= -> ->] & Hk).
  rewrite elem_of_seqZ in Hk. unfold seal_count in Hk.
  assert (k + 1 <= (tip + 1 - first_start last) / n) as Hk1 by lia.
  pose proof (Z.mul_div_le (tip + 1 - first_start last) n Hn).
  split_and!; [nia|lia|nia|].
  replace (first_start last + k * n - first_start last) with (k * n) by lia.
  apply Z.mod_mul. lia.
Qed.

Section Seal.
Context `{Wi : Wire} {W : Type} `{!Chain W} {D : Type}.
Context (hooks : producerHooks W D) (cfg : producerCfg).
Implicit Types (s : PState W D).

(** No [int32] operation of [sealReadyFiles] overflows. *)
Definition seal_in_range s : Prop :=
  0 < entriesPerFile cfg /\ -1 <= lastSealedHeight s /\
  lastSealedHeight s + entriesPerFile cfg <= max_int32 /\
  int32 (currentHeight s - reOrgSafeDepth cfg) /\
  currentHeight s - reOrgSafeDepth cfg + entriesPerFile cfg <= max_int32.

Lemma seal_in_range_next s :
  seal_in_range s ->
  nextEnd cfg s = first_start (lastSealedHeight s) + entriesPerFile cfg - 1 /\
  safeTip cfg s = currentHeight s - reOrgSafeDepth cfg.
Proof.
  intros (H1 & H2 & H3 & H4 & H5). unfold nextEnd, safeTip, first_start.
  rewrite (i32_id _ H4). split; [|done].
  destruct (Z.ltb_spec (lastSealedHeight s) 0); rewrite i32_id by (unfold int32, min_int32; lia); lia.
Qed.

Lemma sealFile_Ok_inv a b s s' :
  sealFile hooks a b s = (Ok tt, s') ->
  exists e d, writeSealedFile hooks a b (ps_env s, ps_data s) = (Ok tt, (e, d)) /\
    s' = set_sealed b (set_data (pruneLocked hooks a b d) (set_env e s)).
Proof.
  unfold sealFile, bind, wrapE, onHook, zoom, modify.
  destruct (writeSealedFile hooks a b _) as [[[]|err] [e d]]; cbn; [|done].
  intros. simplify_eq. by exists e, d.
Qed.

(** The loop is the schedule. *)
Lemma sealLoop_schedule fuel s :
  seal_in_range s ->
  (Z.to_nat (seal_count (entriesPerFile cfg) (lastSealedHeight s) (safeTip cfg s)) < fuel)%nat ->
  sealLoop hooks cfg fuel s
  = forM (seal_schedule (entriesPerFile cfg) (lastSealedHeight s) (safeTip cfg s))
      (fun '(a, b) => sealFile hooks a b) s.
Proof.
  revert s. induction fuel as [|fuel IH]; intros s Hr Hf; [lia|].
  pose proof (seal_in_range_next s Hr) as [Hne Hst].
  destruct Hr as (H1 & H2 & H3 & H4 & H5).
  cbn [sealLoop]. unfold bind at 1, get.
  destruct (Z.ltb_spec (safeTip cfg s) (nextEnd cfg s)) as [Hlt|Hge].
  - by rewrite seal_schedule_nil by lia.
  - rewrite seal_schedule_cons by lia. cbn [forM].
    assert (Hb : -1 <= first_start (lastSealedHeight s)).
    { unfold first_start. destruct (_ <? 0); lia. }
    rewrite Hne in Hge |- *. rewrite Hst in Hge.
    rewrite (i32_id (first_start _ + _ - 1 - _)), (i32_id (_ + 1))
      by (unfold int32, min_int32, max_int32 in *; lia).
    replace (first_start (lastSealedHeight s) + entriesPerFile cfg - 1 - entriesPerFile cfg + 1)
      with (first_start (lastSealedHeight s)) by lia.
    unfold bind.
    destruct (sealFile hooks _ _ s) as [[[]|err] s'] eqn:E; [|done].
    apply sealFile_Ok_inv in E as (e & d & _ & ->).
    rewrite IH; cbn [lastSealedHeight safeTip currentHeight set_sealed set_data set_env].
    + done.
    + unfold seal_in_range. cbn. split_and!; done || lia.
    + unfold safeTip in *. cbn. rewrite seal_count_cons in Hf by lia.
      assert (0 <= seal_count (entriesPerFile cfg)
        (first_start (lastSealedHeight s) + entriesPerFile cfg - 1)
        (i32 (currentHeight s - reOrgSafeDepth cfg))) by (unfold seal_count; lia).
      lia.
Qed.

Lemma sealReadyFiles_eq s :
  seal_in_range s ->
  sealReadyFiles hooks cfg s
  = forM (seal_schedule (entriesPerFile cfg) (lastSealedHeight s) (currentHeight s - reOrgSafeDepth cfg))
      (fun '(a, b) => sealFile hooks a b) s.
Proof.
  intros Hr. pose proof (seal_in_range_next s Hr) as [_ Hst].
  unfold sealReadyFiles. rewrite sealLoop_schedule; [by rewrite Hst|done|].
  rewrite Hst. destruct Hr as (H1 & H2 & _). unfold seal_count.
  assert (0 <= first_start (lastSealedHeight s)) by (unfold first_start; destruct (Z.ltb_spec (lastSealedHeight s) 0); lia).
  assert ((currentHeight s - reOrgSafeDepth cfg + 1 - first_start (lastSealedHeight s)) / entriesPerFile cfg
          <= Z.max 0 (currentHeight s - reOrgSafeDepth cfg + 1)); [|lia].
  apply Z.div_le_upper_bound; nia.
Qed.
End Seal.

(** ** The invariant through sealing and ingesting *)

Section Invariant.
Context `{Wi : Wire} {W : Type} `{!Chain W} {D : Type}.
Context (hooks : producerHooks W D) (cfg : producerCfg) `{HL : !HookLaws hooks}.
Implicit Types (s : PState W D).

Definition files_of s : gmap str bytes := fs_files (e_fs (ps_env s)).

(** From [s0] to [s] nothing sealed was unsealed, and only files of heights
    above the last sealed one of [s0] were written. *)
Record fsafe (s0 s : PState W D) : Prop := {
  fsafe_mono : lastSealedHeight s0 <= lastSealedHeight s;
  fsafe_frame p :
    (forall e, lastSealedHeight s0 < e < max_height -> ~ sealPath e p) ->
    files_of s !! p = files_of s0 !! p
}.

#[local] Instance fsafe_refl : Reflexive fsafe.
Proof. intros s. split; [lia|done]. Qed.

Lemma fsafe_trans s0 s1 s2 : fsafe s0 s1 -> fsafe s1 s2 -> fsafe s0 s2.
Proof.
  intros [M1 F1] [M2 F2]. split; [lia|].
  intros p Hp. rewrite F2; [by apply F1|]. intros e He. apply Hp. lia.
Qed.

(** Changes of memory, heights and cache do not matter to [fsafe]. *)
Lemma fsafe_same_files s0 s :
  lastSealedHeight s = lastSealedHeight s0 -> files_of s = files_of s0 -> fsafe s0 s.
Proof. intros HL' HF. split; [lia|]. intros. by rewrite HF. Qed.

(** A sealed file of [s0] is untouched in [s]. *)
Lemma fsafe_immutable s0 s e p :
  fsafe s0 s -> 0 <= e <= lastSealedHeight s0 -> lastSealedHeight s0 < max_height ->
  sealPath e p -> files_of s !! p = files_of s0 !! p.
Proof.
  intros [_ F] He Hl Hp. apply F. intros e' He' Hp'.
  assert (e = e') by (eapply sealPath_disjoint; eauto; unfold max_height in *; lia). lia.
Qed.

Lemma sealFile_pinv nx s r s' :
  valid_cfg cfg -> pinv hooks cfg nx s -> lastSealedHeight s + entriesPerFile cfg < nx ->
  let b := lastSealedHeight s + entriesPerFile cfg in
  sealFile hooks (lastSealedHeight s + 1) b s = (r, s') ->
  pinv hooks cfg nx s' /\ currentHeight s' = currentHeight s /\
  startupComplete s' = startupComplete s /\ fsafe s s' /\
  lastSealedHeight s' = match r with Ok _ => b | Err _ => lastSealedHeight s end.
Proof.
  intros [Hn Hd] [P1 P2 P3 P4 P5 P6] Hb b E.
  unfold sealFile, bind, wrapE, onHook, zoom, modify in E.
  destruct (writeSealedFile hooks _ b (ps_env s, ps_data s)) as [[[]|err] [e d]] eqn:Ew.
  - cbn in E. simplify_eq.
    pose proof (write_frame (lastSealedHeight s + 1) b _ _ _ ltac:(unfold b; lia) ltac:(unfold b, max_height in *; lia) Ew) as (Hh & _ & Hf). cbn in *.
    assert (Hcd : forall h, cachedHash hooks h d = cachedHash hooks h (ps_data s))
      by (intros h; refine (write_cached _ b _ _ _ h _ _ Ew); unfold b, max_height in *; lia).
    split_and!; try done; [split|split]; cbn.
    + lia.
    + replace (b + 1) with (lastSealedHeight s + 1 + 1 * entriesPerFile cfg) by (unfold b; lia).
      by rewrite Z.mod_add by lia.
    + done.
    + done.
    + intros h. rewrite prune_cached, Hcd.
      case_decide as Hdec; [split; [by intros []|unfold b in *; lia]|].
      rewrite P5. unfold b in *. lia.
    + auto.
    + lia.
    + intros p Hp. apply Hf, Hp. unfold b, max_height in *. lia.
  - cbn in E. simplify_eq.
    pose proof (write_frame (lastSealedHeight s + 1) b _ _ _ ltac:(unfold b; lia) ltac:(unfold b, max_height in *; lia) Ew) as (Hh & _ & Hf). cbn in *.
    assert (Hcd : forall h, cachedHash hooks h d = cachedHash hooks h (ps_data s))
      by (intros h; refine (write_cached _ b _ _ _ h _ _ Ew); unfold b, max_height in *; lia).
    split_and!; try done; [split|split]; cbn; try done.
    + intros h. rewrite Hcd. apply P5.
    + auto.
    + intros p Hp. apply Hf, Hp. unfold b, max_height in *. lia.
Qed.

(** Everything [sealReadyFiles] keeps, from [s0] to [s], at tip [nx - 1]. *)
Record seal_inv (nx : Z) (s0 s : PState W D) : Prop := {
  si_pinv : pinv hooks cfg nx s;
  si_current : currentHeight s = nx - 1;
  si_startup : startupComplete s = startupComplete s0;
  si_safe : fsafe s0 s;
  si_depth : lastSealedHeight s <= Z.max (lastSealedHeight s0) (nx - 1 - reOrgSafeDepth cfg)
}.

Lemma pinv_seal_in_range nx s :
  valid_cfg cfg -> pinv hooks cfg nx s -> currentHeight s = nx - 1 -> seal_in_range cfg s.
Proof.
  intros [? ?] [] ?. unfold seal_in_range, int32, min_int32, max_int32, max_height in *. lia.
Qed.

Lemma sealLoop_inv fuel nx s0 :
  valid_cfg cfg ->
  hoare (seal_inv nx s0) (sealLoop hooks cfg fuel)
    (fun r s => seal_inv nx s0 s /\
       (r = Ok tt -> nx - 1 - reOrgSafeDepth cfg < lastSealedHeight s + entriesPerFile cfg)).
Proof.
  intros Hc. induction fuel as [|fuel IH]; cbn [sealLoop]; [by apply hoare_fail|].
  intros s Hs. unfold bind at 1, get.
  pose proof (seal_in_range_next cfg s (pinv_seal_in_range _ _ Hc (si_pinv _ _ _ Hs) (si_current _ _ _ Hs))) as [Hne Hst].
  destruct Hs as [Hp Hcur Hsu Hsafe Hdep]. pose proof Hp as [P1 P2 P3 P4 P5 P6].
  assert (first_start (lastSealedHeight s) = lastSealedHeight s + 1) as Hfs
    by (unfold first_start; destruct (Z.ltb_spec (lastSealedHeight s) 0); lia).
  rewrite Hfs in Hne.
  replace (lastSealedHeight s + 1 + entriesPerFile cfg - 1) with (lastSealedHeight s + entriesPerFile cfg) in Hne by lia.
  rewrite Hne, Hst, Hcur. destruct Hc as [Hn Hd].
  destruct (Z.ltb_spec (nx - 1 - reOrgSafeDepth cfg) (lastSealedHeight s + entriesPerFile cfg)) as [Hlt|Hge].
  { cbn. by split. }
  rewrite (i32_id (_ - _)), (i32_id (_ + 1)) by (unfold int32, min_int32, max_int32, max_height in *; lia).
  replace (lastSealedHeight s + entriesPerFile cfg - entriesPerFile cfg + 1) with (lastSealedHeight s + 1) by lia.
  unfold bind. destruct (sealFile hooks _ _ s) as [r s1] eqn:E.
  apply (sealFile_pinv nx) in E as (Hp1 & Hc1 & Hsu1 & Hf1 & Hl1); [|done|done|lia].
  destruct r as [[]|err].
  - apply IH. split; [done|lia|congruence|by eapply fsafe_trans|lia].
  - split; [|done]. split; [done|lia|congruence|by eapply fsafe_trans|lia].
Qed.

Lemma sealReadyFiles_inv nx s r s' :
  valid_cfg cfg -> pinv hooks cfg nx s -> currentHeight s = nx - 1 ->
  sealReadyFiles hooks cfg s = (r, s') ->
  seal_inv nx s s' /\
  (r = Ok tt -> nx - 1 - reOrgSafeDepth cfg < lastSealedHeight s' + entriesPerFile cfg).
Proof.
  intros Hc Hp Hcur E. eapply (hoare_run _ _ _ _ _ _ (sealLoop_inv _ nx s Hc)); [|exact E].
  split; [done|done|done|done|lia].
Qed.

(** *** Ingesting *)

Lemma checkQuit_inv s r s' :
  checkQuit s = (r, s') ->
  lastSealedHeight s' = lastSealedHeight s /\ currentHeight s' = currentHeight s /\
  startupComplete s' = startupComplete s /\ ps_data s' = ps_data s /\
  e_fs (ps_env s') = e_fs (ps_env s) /\ e_h2h (ps_env s') = e_h2h (ps_env s).
Proof.
  unfold checkQuit, bind, onEnv, onWorld, zoom, fail, ret.
  destruct (quitClosed _) as [[] w]; intros H; cbn in H; simplify_eq; done.
Qed.

(** What one round of [updateCacheAndFiles] guarantees about the files, on
    every outcome. *)
Record ingest_safe (nx : Z) (s0 s : PState W D) : Prop := {
  is_safe : fsafe s0 s;
  is_depth : lastSealedHeight s <= Z.max (lastSealedHeight s0) (nx - 1 - reOrgSafeDepth cfg);
  is_startup : startupComplete s = startupComplete s0
}.

Lemma ingestBlock_step i s :
  ingestBlock hooks cfg i s = (ingestStep hooks i ;;; sealReadyFiles hooks cfg) s.
Proof.
  unfold ingestBlock, ingestStep, bind. destruct (checkQuit s) as [[[]|e] s1]; [|done].
  by destruct (onHook _ s1) as [[[]|e] s2].
Qed.

Lemma ingestStep_inv nx s r s' :
  pinv hooks cfg nx s -> nx < max_height -> ingestStep hooks nx s = (r, s') ->
  lastSealedHeight s' = lastSealedHeight s /\ files_of s' = files_of s /\
  startupComplete s' = startupComplete s /\ h2h_ok (e_h2h (ps_env s')) /\
  (r = Ok tt -> pinv hooks cfg (nx + 1) s' /\ currentHeight s' = nx).
Proof.
  intros [P1 P2 P3 P4 P5 P6] Hmax. unfold ingestStep, bind.
  destruct (checkQuit s) as [[[]|e] s1] eqn:Eq;
    apply checkQuit_inv in Eq as (L1 & C1 & S1 & D1 & F1 & H1).
  2:{ intros. simplify_eq. unfold files_of. rewrite H1. split_and!; (done || congruence). }
  unfold onHook, zoom.
  destruct (ingest hooks nx (ps_env s1, ps_data s1)) as [[[]|e] [e2 d2]] eqn:Ei;
    pose proof (ingest_frame _ _ _ _ Ei) as [Hfs Hh]; cbn in Hfs, Hh; rewrite H1 in Hh.
  2:{ intros. simplify_eq. unfold files_of. cbn. split_and!; (done || congruence || auto). }
  pose proof (ingest_cached _ _ _ Ei) as [Hin Hout]. cbn in Hin, Hout.
  unfold modify. intros. simplify_eq. unfold files_of. cbn.
  split_and!; [done|congruence|done|auto|]. intros _. split; [|done].
  split; cbn; rewrite ?L1; try lia; [|auto].
  intros h. destruct (decide (h = nx)) as [->|Hne]; [split; [lia|done]|].
  rewrite Hout, D1, P5 by done. lia.
Qed.

Lemma ingestBlock_inv nx s r s' :
  valid_cfg cfg -> pinv hooks cfg nx s -> nx < max_height ->
  ingestBlock hooks cfg nx s = (r, s') ->
  ingest_safe (nx + 1) s s' /\
  (r = Ok tt -> pinv hooks cfg (nx + 1) s' /\ currentHeight s' = nx /\
     nx - reOrgSafeDepth cfg < lastSealedHeight s' + entriesPerFile cfg).
Proof.
  intros Hc Hp Hmax. rewrite ingestBlock_step. unfold bind.
  destruct (ingestStep hooks nx s) as [[[]|e] s1] eqn:E1;
    apply ingestStep_inv in E1 as (L1 & F1 & S1 & _ & Hok); try done.
  2:{ intros. simplify_eq. split; [|done]. split; [by apply fsafe_same_files|lia|done]. }
  destruct (Hok eq_refl) as [Hp2 Hc2].
  intros E. apply (sealReadyFiles_inv (nx + 1)) in E as [[I1 I2 I3 I4 I5] Hok2]; [|done|done|lia].
  rewrite L1 in I5. split.
  - split; [eapply fsafe_trans; [by apply fsafe_same_files|done]|lia|congruence].
  - intros Hr. specialize (Hok2 Hr). split_and!; [done|lia|lia].
Qed.

Lemma updateCacheAndFiles_inv a b s r s' :
  valid_cfg cfg -> pinv hooks cfg a s -> a <= b + 1 -> b < max_height ->
  updateCacheAndFiles hooks cfg a b s = (r, s') ->
  ingest_safe (b + 1) s s' /\
  (r = Ok tt -> pinv hooks cfg (b + 1) s' /\ (a <= b -> currentHeight s' = b)).
Proof.
  intros Hc Hp Hab Hmax E.
  refine (hoare_run (fun x => pinv hooks cfg a x /\ ingest_safe a s x /\ (a < a -> currentHeight x = a - 1)) _
    (fun r x => ingest_safe (b + 1) s x /\
       (r = Ok tt -> pinv hooks cfg (b + 1) x /\ (a <= b -> currentHeight x = b))) s r s' _ _ E).
  2:{ split; [done|]. split; [|lia]. split; [reflexivity|lia|done]. }
  apply (hoare_range a b _ (fun i x => pinv hooks cfg i x /\ ingest_safe i s x /\ (a < i -> currentHeight x = i - 1)));
    [lia| |].
  - intros i Hi x (Px & [Sx Dx Ux] & Cx).
    destruct (ingestBlock hooks cfg i x) as [r1 x1] eqn:E1.
    apply ingestBlock_inv in E1 as [[S1 D1 U1] Hok]; [|done|done|lia].
    assert (ingest_safe (i + 1) s x1) as Hsafe.
    { split; [by eapply fsafe_trans|lia|congruence]. }
    destruct r1 as [[]|e].
    + destruct (Hok eq_refl) as (Hp1 & Hc1 & _). split_and!; [done|done|lia].
    + split; [|done]. destruct Hsafe. split; [done|lia|done].
  - intros x (Px & Sx & Cx). split; [done|]. intros _. split; [done|]. intros. rewrite Cx; lia.
Qed.
End Invariant.
