(* ===== verification/ProducerReorg.v ===== *)
(** * Reorganizations and the poll loop

    [findCommonAncestor], [handleReorg] and [rollback] against the chain the
    backend reports, then the invariant through [pollOnce], [pollLoop] and
    [updateFiles]. *)

From Stdlib Require Import ZArith Lia.
From stdpp Require Import base numbers list strings gmap.
From S2P Require Import Prelude GoInt Bytes GoStr GoIO Iface Files H2H Producer ProducerLaws ProducerSeal.

(** A backend that, while it stays in [P], reports the chain [chain]. *)
Definition reports `{Chain W} (P : W -> Prop) (chain : Z -> option Hash) : Prop :=
  forall w h, P w -> exists w', P w' /\
    match chain h with
    | Some x => GetBlockHash h w = (Ok x, w')
    | None => exists e, GetBlockHash h w = (Err e, w')
    end.

(** [fork last tip ours chain c]: [c] is the highest height of [(last, tip]]
    where our hash is the backend's. *)
Definition agree (ours chain : Z -> option Hash) (h : Z) : Prop :=
  exists x, ours h = Some x /\ chain h = Some x.
Definition fork (last tip : Z) (ours chain : Z -> option Hash) (c : Z) : Prop :=
  last < c <= tip /\ agree ours chain c /\ forall h, c < h <= tip -> ~ agree ours chain h.

Section Reorg.
Context `{Wi : Wire} {W : Type} `{!Chain W} {D : Type}.
Context (hooks : producerHooks W D) (cfg : producerCfg).
Implicit Types (s : PState W D).

Definition set_world (w : W) s : PState W D :=
  set_env (mkEnv w (e_fs (ps_env s)) (e_h2h (ps_env s))) s.

Lemma set_world_twice w w' s : set_world w (set_world w' s) = set_world w s.
Proof. done. Qed.

Lemma set_world_id s : set_world (e_world (ps_env s)) s = s.
Proof. by destruct s as [[? ? ?] ? ? ? ?]. Qed.

Definition ours s : Z -> option Hash := fun h => cachedHash hooks h (ps_data s).

Lemma onEnv_GetBlockHash h s :
  onEnv (onWorld (GetBlockHash h)) s
  = let '(r, w) := GetBlockHash h (e_world (ps_env s)) in (r, set_world w s).
Proof. unfold onEnv, onWorld, zoom, set_world. by destruct (GetBlockHash h _). Qed.

Context (P : W -> Prop) (chain : Z -> option Hash) (HP : reports P chain).

(** The walk, from [hgt] down to [last + 1]. *)
Lemma search_spec d last hgt s :
  last <= hgt -> P (e_world (ps_env s)) ->
  (forall h, last < h <= hgt -> is_Some (cachedHash hooks h d) -> is_Some (chain h)) ->
  exists w r, P w /\
    searchM (range_down hgt last) (fun hgt =>
      match cachedHash hooks hgt d with
      | None => ret None
      | Some ourHash =>
          let! btcHash :=
            wrapE "error fetching backend hash at height %d: %w"
              (onEnv (onWorld (GetBlockHash hgt))) in
          ret (if bool_decide (ourHash = btcHash) then Some hgt else None)
      end) s = (Ok r, set_world w s) /\
    match r with
    | Some c => fork last hgt (fun h => cachedHash hooks h d) chain c
    | None => forall h, last < h <= hgt -> ~ agree (fun h => cachedHash hooks h d) chain h
    end.
Proof.
  intros Hle. remember (Z.to_nat (hgt - last)) as n eqn:Hn.
  revert hgt s Hle Hn. induction n as [|n IH]; intros hgt s Hle Hn Hw Hc.
  { rewrite range_down_nil by lia. exists (e_world (ps_env s)), None.
    rewrite set_world_id. split_and!; [done|done|lia]. }
  rewrite range_down_cons by lia. cbn [searchM]. unfold bind at 1.
  assert (Hskip : forall w, P w -> ~ agree (fun h => cachedHash hooks h d) chain hgt ->
    exists w' r, P w' /\
    searchM (range_down (hgt - 1) last) (fun hgt =>
      match cachedHash hooks hgt d with
      | None => ret None
      | Some ourHash =>
          let! btcHash :=
            wrapE "error fetching backend hash at height %d: %w"
              (onEnv (onWorld (GetBlockHash hgt))) in
          ret (if bool_decide (ourHash = btcHash) then Some hgt else None)
      end) (set_world w s) = (Ok r, set_world w' s) /\
    match r with
    | Some c => fork last hgt (fun h => cachedHash hooks h d) chain c
    | None => forall h, last < h <= hgt -> ~ agree (fun h => cachedHash hooks h d) chain h
    end).
  { intros w Pw Hno.
    destruct (IH (hgt - 1) (set_world w s)) as (w' & r & Pw' & E & Hr); [lia|lia|done| |].
    { intros h Hh. apply Hc. lia. }
    exists w', r. split_and!; [done|by rewrite E, set_world_twice|].
    destruct r as [c|].
    - destruct Hr as (Hlc & Ha & Hn'). split_and!; [lia|lia|done|].
      intros h Hh. destruct (decide (h = hgt)) as [->|]; [done|apply Hn'; lia].
    - intros h Hh. destruct (decide (h = hgt)) as [->|]; [done|apply Hr; lia]. }
  destruct (cachedHash hooks hgt d) as [x|] eqn:Ex.
  - destruct (Hc hgt) as [y Hy]; [lia|by rewrite Ex|].
    unfold bind at 1, wrapE. rewrite onEnv_GetBlockHash.
    destruct (HP _ hgt Hw) as (w & Pw & Hg). rewrite Hy in Hg. rewrite Hg. cbn [res_wrap ret].
    case_bool_decide as Hxy.
    + subst y. exists w, (Some hgt). split_and!; [done|done|].
      split_and!; [lia|lia|by exists x|lia].
    + apply Hskip; [done|]. intros (z & Hz & Hz'). congruence.
  - pose proof (Hskip (e_world (ps_env s)) Hw) as G. rewrite set_world_id in G.
    apply G. intros (z & Hz & _). congruence.
Qed.

Lemma findCommonAncestor_eq tip s :
  lastSealedHeight s <= tip -> P (e_world (ps_env s)) ->
  (forall h, lastSealedHeight s < h <= tip -> is_Some (ours s h) -> is_Some (chain h)) ->
  exists w c, P w /\ findCommonAncestor hooks tip s = (Ok c, set_world w s) /\
    (fork (lastSealedHeight s) tip (ours s) chain c \/
     c = lastSealedHeight s /\
     forall h, lastSealedHeight s < h <= tip -> ~ agree (ours s) chain h).
Proof.
  intros Ht Hw Hc. unfold findCommonAncestor. unfold bind at 1, get.
  destruct (search_spec (ps_data s) (lastSealedHeight s) tip s) as (w & r & Pw & E & Hr); [done..|].
  unfold bind at 1. rewrite E. destruct r as [c|].
  - exists w, c. split_and!; [done|done|by left].
  - exists w, (lastSealedHeight s). split_and!; [done|done|by right].
Qed.

(** The three outcomes of [handleReorg]. *)
Lemma handleReorg_cases s :
  0 <= currentHeight s -> lastSealedHeight s <= currentHeight s ->
  P (e_world (ps_env s)) -> is_Some (ours s (currentHeight s)) ->
  (forall h, lastSealedHeight s < h <= currentHeight s -> is_Some (ours s h) -> is_Some (chain h)) ->
  is_Some (chain (currentHeight s)) ->
  exists w, P w /\
    ((agree (ours s) chain (currentHeight s) /\ handleReorg hooks s = (Ok tt, set_world w s)) \/
     (exists c, fork (lastSealedHeight s) (currentHeight s) (ours s) chain c /\
        c < currentHeight s /\
        handleReorg hooks s = (Ok tt, rollback hooks c (set_world w s))) \/
     ((forall h, lastSealedHeight s < h <= currentHeight s -> ~ agree (ours s) chain h) /\
        ~ agree (ours s) chain (currentHeight s) /\
        exists f, handleReorg hooks s = (Err (Wrapf f errDeepReorg), set_world w s))).
Proof.
  intros H0 Hls Hw [x Hx] Hc [y Hy].
  remember (handleReorg hooks s) as res eqn:Eres. unfold handleReorg in Eres.
  unfold bind at 1, get in Eres. rewrite (proj2 (Z.ltb_ge _ _)) in Eres by lia.
  unfold ours in Hx. rewrite Hx in Eres.
  unfold bind at 1, wrapE at 1 in Eres. rewrite onEnv_GetBlockHash in Eres.
  destruct (HP _ (currentHeight s) Hw) as (w & Pw & Hg). rewrite Hy in Hg. rewrite Hg in Eres.
  cbn [res_wrap] in Eres.
  case_bool_decide as Hxy.
  { subst y. exists w. split; [done|]. left. split; [by exists x|done]. }
  assert (~ agree (ours s) chain (currentHeight s)) as Htip.
  { intros (z & Hz & Hz'). unfold ours in Hz. congruence. }
  destruct (findCommonAncestor_eq (currentHeight s) (set_world w s)) as (w' & c & Pw' & E & Hr); [done..|].
  unfold bind at 1, wrapE at 1 in Eres. rewrite E, set_world_twice in Eres.
  cbn [res_wrap] in Eres. unfold bind at 1, gets in Eres.
  change (lastSealedHeight (set_world w' s)) with (lastSealedHeight s) in Eres.
  exists w'. split; [done|]. right. destruct Hr as [(Hcr & Ha & Hab)|[-> Hno]].
  - left. exists c. cbn in Hcr. assert (c <> currentHeight s) by (intros ->; done).
    rewrite (proj2 (Z.leb_gt _ _)) in Eres by lia. split_and!; [done|lia|done].
  - right. split_and!; [done|done|].
    change (lastSealedHeight (set_world w s)) with (lastSealedHeight s) in Eres.
    rewrite Z.leb_refl in Eres. by eexists.
Qed.
End Reorg.

(** ** The invariant through the poll loop

    No assumption on the backend but the range of its block count: it may
    answer differently at every call. *)

Section Poll.
Context `{Wi : Wire} {W : Type} `{!Chain W} `{!BoundedChain} {D : Type}.
Context (hooks : producerHooks W D) (cfg : producerCfg) `{HL : !HookLaws hooks}.
Context (Hc : valid_cfg cfg).
Implicit Types (s : PState W D).

(** Only the backend's world changed. *)
Definition world_only s s' : Prop := exists w, s' = set_world w s.

#[export] Instance world_only_refl : Reflexive world_only.
Proof. intros s. exists (e_world (ps_env s)). by rewrite set_world_id. Qed.

#[export] Instance world_only_trans : Transitive world_only.
Proof. intros s1 s2 s3 [w ->] [w' ->]. by exists w'. Qed.

Lemma onWorld_world_only {A} (m : M W A) s r s' :
  onEnv (onWorld m) s = (r, s') -> world_only s s'.
Proof.
  unfold onEnv, onWorld, zoom. destruct (m _) as [r1 w]. intros. simplify_eq. by exists w.
Qed.

Lemma hoare_onWorld {A} (m : M W A) s0 :
  hoare (world_only s0) (onEnv (onWorld m)) (fun _ s => world_only s0 s).
Proof.
  intros s Hs. destruct (onEnv (onWorld m) s) as [r s'] eqn:E.
  apply onWorld_world_only in E. exact (transitivity Hs E).
Qed.

Lemma checkQuit_world s0 : hoare (world_only s0) checkQuit (fun _ s => world_only s0 s).
Proof.
  unfold checkQuit. eapply hoare_bind with (R := fun _ => world_only s0).
  - eapply hoare_post; [apply hoare_onWorld|]. by intros [].
  - intros []; [by apply hoare_fail|by apply hoare_ret].
Qed.

Lemma tipReorged_world s0 : hoare (world_only s0) (tipReorged hooks) (fun _ s => world_only s0 s).
Proof.
  unfold tipReorged. intros s Hs. unfold bind at 1, get.
  destruct (_ <? 0); [done|]. destruct (cachedHash _ _ _); [|done].
  unfold bind, catch. destruct (onEnv (onWorld _) s) as [[h|e] s1] eqn:E;
    apply onWorld_world_only in E; cbn; exact (transitivity Hs E).
Qed.

Lemma findCommonAncestor_world tip s0 :
  lastSealedHeight s0 <= tip ->
  hoare (world_only s0) (findCommonAncestor hooks tip)
    (fun r s => world_only s0 s /\
       forall c, r = Ok c -> lastSealedHeight s0 <= c <= tip).
Proof.
  intros Ht s Hs. unfold findCommonAncestor. unfold bind at 1, get.
  assert (lastSealedHeight s = lastSealedHeight s0) as Hl by (by destruct Hs as [w ->]).
  revert Hl. generalize (lastSealedHeight s) (ps_data s). intros last d ->.
  revert s Hs. apply hoare_bind with (R := fun r s => world_only s0 s /\
    match r with None => True | Some c => lastSealedHeight s0 <= c <= tip end).
  - apply hoare_searchM; [|done]. intros x Hx. apply elem_of_range_down in Hx.
    destruct (cachedHash hooks x d) as [h|]; [|by apply hoare_ret].
    eapply hoare_bind with (R := fun _ => world_only s0).
    + apply hoare_wrapE. eapply hoare_post; [apply hoare_onWorld|]. by intros [].
    + intros y. apply hoare_ret. intros s Hs. case_bool_decide; [split; [done|lia]|done].
  - intros [c|].
    + apply hoare_ret. intros s [Hs Hc']. split; [done|]. intros c' [= <-]. done.
    + apply hoare_gets. intros s [Hs _]. split; [done|]. intros c' [= <-].
      destruct Hs as [w ->]. cbn. lia.
Qed.

(** *** Rolling back *)

Lemma rollback_pinv nx c s :
  pinv hooks cfg nx s -> currentHeight s = nx - 1 -> lastSealedHeight s < c < nx ->
  pinv hooks cfg (c + 1) (rollback hooks c s).
Proof.
  intros [P1 P2 P3 P4 P5 P6] Hcur Hcr. unfold max_height in *.
  split; cbn; rewrite ?Hcur; unfold max_height; try done || lia.
  - intros h. rewrite prune_cached. i32norm.
    case_decide as Hd; [split; [by intros []|lia]|]. rewrite P5. lia.
  - apply invalidate_ok; [|done]. i32norm. unfold int32, min_int32, max_int32. lia.
Qed.

(** What a poll keeps: heights sealed, files sealed, progress flags. *)
Record poll_inv (s0 s : PState W D) : Prop := {
  po_safe : fsafe hooks s0 s;
  po_startup : startupComplete s = startupComplete s0
}.

#[export] Instance poll_inv_refl : Reflexive poll_inv.
Proof. intros s. by split. Qed.

#[export] Instance poll_inv_trans : Transitive poll_inv.
Proof.
  intros s1 s2 s3 [A1 B1] [A2 B2]. split; [by eapply fsafe_trans|congruence].
Qed.

Lemma world_only_poll s s' : world_only s s' -> poll_inv s s'.
Proof. intros [w ->]. split; [|done]. by apply fsafe_same_files. Qed.

Lemma world_only_settled s s' : world_only s s' -> settled hooks cfg s -> settled hooks cfg s'.
Proof. intros [w ->] []. by split. Qed.

(** Nor do the files matter to it. *)
Lemma settled_set_env e s :
  e_h2h e = e_h2h (ps_env s) -> settled hooks cfg s -> settled hooks cfg (set_env e s).
Proof. intros E []. split; try done. by cbn; rewrite E. Qed.

Lemma rollback_poll c s : poll_inv s (rollback hooks c s).
Proof. split; [|done]. by apply fsafe_same_files. Qed.

(** [handleReorg] either changes nothing of the producer, or rolls it back
    to a height above the sealed ones. *)
Lemma handleReorg_inv s r s' :
  lastSealedHeight s <= currentHeight s -> handleReorg hooks s = (r, s') ->
  world_only s s' \/
  exists c s1, world_only s s1 /\ lastSealedHeight s < c <= currentHeight s /\
    r = Ok tt /\ s' = rollback hooks c s1.
Proof.
  intros Hle. unfold handleReorg. unfold bind at 1, get.
  destruct (_ <? 0); [ran; by left|].
  destruct (cachedHash _ _ _) as [x|]; [|ran; by left].
  unfold bind at 1, wrapE at 1.
  destruct (onEnv (onWorld _) s) as [[y|e] s1] eqn:E1; apply onWorld_world_only in E1; cbn [res_wrap];
    [|ran; by left].
  case_bool_decide; [ran; by left|].
  unfold bind at 1, wrapE at 1.
  destruct (findCommonAncestor _ _ s1) as [rc s2] eqn:E2.
  assert (Hl1 : lastSealedHeight s1 = lastSealedHeight s) by (by destruct E1 as [w ->]).
  eapply (hoare_run _ _ _ _ _ _ (findCommonAncestor_world (currentHeight s) s1 ltac:(lia)))
    in E2 as [Hw2 Hc2]; [|done].
  pose proof (transitivity E1 Hw2) as Hw. destruct rc as [c|e]; cbn [res_wrap];
    [|ran; by left].
  specialize (Hc2 c eq_refl). unfold bind at 1, gets, fail, modify.
  assert (Hl2 : lastSealedHeight s2 = lastSealedHeight s) by (by destruct Hw as [w ->]).
  destruct (Z.leb_spec c (lastSealedHeight s2)); ran; [by left|].
  right. exists c, s2. split_and!; [done|lia|lia|done|done].
Qed.

Lemma handleReorg_settled s r s' :
  settled hooks cfg s -> handleReorg hooks s = (r, s') ->
  settled hooks cfg s' /\ poll_inv s s' /\ lastSealedHeight s' = lastSealedHeight s /\
  files_of s' = files_of s /\ currentHeight s' <= currentHeight s.
Proof.
  intros Hs E. assert (lastSealedHeight s <= currentHeight s) by (destruct Hs; lia).
  apply handleReorg_inv in E as [Hw|(c & s1 & Hw & Hcr & -> & ->)]; [| |done].
  - split_and!; [by eapply world_only_settled|by apply world_only_poll|..]; destruct Hw as [w ->]; done || (cbn; lia).
  - pose proof (world_only_settled _ _ Hw Hs) as Hs1.
    assert (currentHeight s1 = currentHeight s /\ lastSealedHeight s1 = lastSealedHeight s /\
            files_of s1 = files_of s) as (Hc1 & Hl1 & Hf1) by (by destruct Hw as [w ->]).
    split_and!; [| |done|done|cbn; lia].
    + apply (rollback_pinv (currentHeight s1 + 1)); [done|lia|lia].
    + etransitivity; [by apply world_only_poll|apply rollback_poll].
Qed.

(** *** One poll *)

Lemma updateCacheAndFiles_poll a b s r s' :
  pinv hooks cfg a s -> a <= b + 1 -> b < max_height ->
  updateCacheAndFiles hooks cfg a b s = (r, s') ->
  poll_inv s s' /\ (r = Ok tt -> pinv hooks cfg (b + 1) s' /\ (a <= b -> currentHeight s' = b)).
Proof.
  intros Hp Hab Hb E. apply (updateCacheAndFiles_inv hooks cfg) in E as [[S1 _ U1] Hok]; [|done..].
  split; [by split|done].
Qed.

(** The test that skips the round never fails. *)
Lemma idle_step height s :
  exists idle s', (if i32 height =? currentHeight s
     then let! reorged := tipReorged hooks in ret (negb reorged) else ret false) s = (Ok idle, s')
    /\ world_only s s'.
Proof.
  destruct (_ =? _); [|by exists false, s].
  pose proof (tipReorged_world s s ltac:(reflexivity)) as Ht.
  unfold tipReorged, bind, get, catch, ret in *.
  destruct (_ <? 0); [by exists true, s|]. destruct (cachedHash _ _ _); [|by exists true, s].
  destruct (onEnv _ s) as [[?|?] s']; by eexists _, s'.
Qed.

Lemma pollOnce_head s :
  pollOnce hooks cfg s
  = (let! range := pollHead hooks in
     match range with
     | None => ret tt
     | Some (a, b) => wrapE "error updating %s for blocks: %w" (updateCacheAndFiles hooks cfg a b)
     end) s.
Proof.
  unfold pollOnce, pollHead, bind, gets, ret.
  destruct (checkQuit s) as [[[]|e] s1]; [|done].
  destruct (wrapE _ _ s1) as [[height|e] s2]; [|done].
  cbn beta. match goal with |- match ?x with _ => _ end = _ => destruct x as [[[]|e] s3] end; [done| |done].
  destruct (handleReorg hooks s3) as [[[]|e] s4]; [|done]. by destruct (_ <=? _).
Qed.

Lemma pollHead_inv s r s' :
  settled hooks cfg s -> pollHead hooks s = (r, s') ->
  poll_inv s s' /\ settled hooks cfg s' /\ files_of s' = files_of s /\
  forall a b, r = Ok (Some (a, b)) -> a = currentHeight s' + 1 /\ a <= b < max_height.
Proof.
  intros Hs. unfold pollHead. unfold bind at 1.
  destruct (checkQuit s) as [[[]|e] s1] eqn:E1;
    apply (hoare_run _ _ _ _ _ _ (checkQuit_world s)) in E1; try reflexivity.
  2:{ ran. split_and!; [by apply world_only_poll|exact (world_only_settled _ _ E1 Hs)|by destruct E1 as [w ->]|done]. }
  unfold bind at 1, wrapE at 1.
  destruct (onEnv (onWorld GetBlockCount) s1) as [[height|e] s2] eqn:E2; cbn [res_wrap].
  2:{ apply onWorld_world_only in E2. assert (Hw : world_only s s2) by (by transitivity s1). ran.
      split_and!; [by apply world_only_poll|exact (world_only_settled _ _ Hw Hs)|by destruct Hw as [w ->]|done]. }
  assert (Hh : 0 <= height < max_height).
  { unfold onEnv, onWorld, zoom in E2. destruct (GetBlockCount _) as [[]] eqn:EG; simplify_eq.
    by eapply GetBlockCount_bound. }
  apply onWorld_world_only in E2. assert (Hw : world_only s s2) by (by transitivity s1). clear E1 E2.
  unfold bind at 1, gets. cbn beta iota.
  destruct (idle_step height s2) as (idle & s3 & E3 & Hw3).
  rewrite (bind_Ok _ _ _ _ _ E3).
  assert (Hw' : world_only s s3) by (by transitivity s2). clear Hw Hw3 E3.
  pose proof (world_only_settled _ _ Hw' Hs) as Hs3.
  assert (Hf3 : files_of s3 = files_of s) by (by destruct Hw' as [w ->]).
  destruct idle; [ran; split_and!; [by apply world_only_poll|done..]|].
  unfold bind at 1. destruct (handleReorg hooks s3) as [r4 s4] eqn:E4.
  apply handleReorg_settled in E4 as (Hs4 & Hp4 & Hl4 & Hf4 & Hc4); [|done].
  assert (Hp : poll_inv s s4) by (etransitivity; [by apply world_only_poll|done]).
  destruct r4 as [[]|e]; [|ran; split_and!; [done|done|congruence|done]].
  unfold bind, gets, ret. intros ?. simplify_eq.
  split_and!; [done|done|congruence|]. intros a b.
  pose proof Hs4 as [H1 _ H3 H4 _ _]. unfold max_height in *. i32norm.
  destruct (Z.leb_spec height (currentHeight s')); [done|]. intros [= <- <-]. lia.
Qed.

Lemma pollOnce_inv s r s' :
  settled hooks cfg s -> pollOnce hooks cfg s = (r, s') ->
  poll_inv s s' /\ (r = Ok tt -> settled hooks cfg s').
Proof.
  intros Hs. rewrite pollOnce_head. unfold bind.
  destruct (pollHead hooks s) as [[[[a b]|]|e] s1] eqn:E1;
    apply pollHead_inv in E1 as (Hp & Hs1 & _ & Hr); try done; [|by ran..].
  destruct (Hr a b eq_refl) as [-> Hb]. unfold wrapE.
  destruct (updateCacheAndFiles hooks cfg _ b s1) as [ru s2] eqn:E2.
  apply updateCacheAndFiles_poll in E2 as [Hp2 Hok]; [|done|lia|lia].
  intros ?. simplify_eq. split; [by etransitivity|].
  intros Hr2. destruct ru as [[]|]; [|done]. destruct (Hok eq_refl) as [Hpi Hcur].
  unfold settled. by rewrite Hcur by lia.
Qed.

Lemma pollLoop_inv polls s r s' :
  settled hooks cfg s -> pollLoop hooks cfg polls s = (r, s') ->
  poll_inv s s' /\ (r = Ok tt -> settled hooks cfg s').
Proof.
  revert s. induction polls as [|n IH]; intros s Hs; cbn [pollLoop]; [ran; split; [reflexivity|done]|].
  unfold bind. destruct (pollOnce hooks cfg s) as [[[]|e] s1] eqn:E1;
    apply pollOnce_inv in E1 as [Hp Hok]; try done.
  - intros E. apply IH in E as [Hp' Hok']; [|by apply Hok]. split; [by etransitivity|done].
  - ran. by split.
Qed.

(** *** Starting from the files on disk *)

(** The last height of the files on disk, [-1] when there is none. *)
Definition resume_last (e : Env W) : option Z :=
  match lastFile (e_fs e) (fileDir cfg) (fileSuffix cfg) with
  | Ok b => Some (if 0 <? b then b else -1)
  | Err _ => None
  end.

Lemma resumeHeights_Ok e d start s :
  resumeHeights cfg (newProducer e d) = (Ok start, s) ->
  exists l, resume_last e = Some l /\ start = i32 (l + 1) /\
    lastSealedHeight s = l /\ currentHeight s = Z.max l 0 /\ ps_data s = d /\
    files_of s = fs_files (e_fs e) /\ e_h2h (ps_env s) = e_h2h e /\ startupComplete s = false.
Proof.
  unfold resumeHeights, bind, wrapE, onEnv, onFS, zoom, os_MkdirAll, gets, liftR, modify, resume_last.
  cbn. destruct (fault_mkdir _ _); cbn; [done|].
  rewrite (lastFile_ext (e_fs e)) by done.
  destruct (lastFile (e_fs e) _ _) as [b|]; cbn; [|done].
  destruct (Z.ltb_spec 0 b); ran; eexists; (split_and!; [done|done|done|cbn; lia|done..]).
Qed.

Lemma resumeHeights_Err e d err s :
  resumeHeights cfg (newProducer e d) = (Err err, s) -> files_of s = fs_files (e_fs e).
Proof.
  unfold resumeHeights, bind, wrapE, onEnv, onFS, zoom, os_MkdirAll, gets, liftR, modify.
  cbn. destruct (fault_mkdir _ _); cbn; [by ran|].
  destruct (lastFile _ _ _) as [b|]; cbn; [|by ran].
  by destruct (0 <? b).
Qed.

(** Files sealed by earlier runs are whole. *)
Definition disk_ok (e : Env W) : Prop :=
  forall l, resume_last e = Some l ->
    (l + 1) mod entriesPerFile cfg = 0 /\ l + 1 <= max_height.

Lemma resume_last_bound e l : resume_last e = Some l -> -1 <= l.
Proof.
  unfold resume_last. destruct (lastFile _ _ _); [|done].
  destruct (Z.ltb_spec 0 a); intros; simplify_eq; lia.
Qed.

Lemma resume_pinv e d start s :
  disk_ok e -> (forall h, cachedHash hooks h d = None) -> h2h_ok (e_h2h e) ->
  resumeHeights cfg (newProducer e d) = (Ok start, s) ->
  pinv hooks cfg start s /\ start = lastSealedHeight s + 1 /\
  currentHeight s = Z.max (lastSealedHeight s) 0.
Proof.
  intros Hd He Hh E. apply resumeHeights_Ok in E as (l & Hl & -> & E1 & E2 & E3 & E4 & E5 & _).
  destruct (Hd l Hl). apply resume_last_bound in Hl. unfold max_height in *. i32norm.
  split_and!; [|lia|lia]. split; rewrite ?E1, ?E3, ?E5; unfold max_height; try done || lia.
  intros h. rewrite He. split; [by intros []|lia].
Qed.

Lemma afterCatchUp_none s :
  modify (fun s => match afterCatchUp hooks with
                   | None => s
                   | Some f => let '(e, d) := f (ps_env s, ps_data s) in set_data d (set_env e s)
                   end) s = (Ok tt, s).
Proof. unfold modify. by rewrite no_afterCatchUp. Qed.

(** A whole run: whatever the backend and the file system do, the files
    sealed by earlier runs are left alone. *)
Lemma updateFiles_inv polls numBlocks e d r s' :
  disk_ok e -> (forall h, cachedHash hooks h d = None) -> h2h_ok (e_h2h e) ->
  0 <= numBlocks < max_height ->
  updateFiles hooks cfg polls numBlocks (newProducer e d) = (r, s') ->
  (forall l h p, resume_last e = Some l -> 0 <= h <= l -> sealPath h p ->
     files_of s' !! p = fs_files (e_fs e) !! p) /\
  (r = Ok tt -> settled hooks cfg s' /\ startupComplete s' = true).
Proof.
  intros Hd He Hh Hn. unfold updateFiles. unfold bind at 1.
  destruct (resumeHeights cfg _) as [[start|err] s1] eqn:E1.
  2:{ ran. apply resumeHeights_Err in E1. split; [|done]. intros. by rewrite E1. }
  pose proof (resume_pinv _ _ _ _ Hd He Hh E1) as (Hp1 & Hst & Hcur).
  apply resumeHeights_Ok in E1 as (l & Hl & _ & Hl1 & _ & _ & Hf1 & _ & _).
  assert (Himm : forall s, fsafe hooks s1 s -> forall l' h p, resume_last e = Some l' ->
            0 <= h <= l' -> sealPath h p -> files_of s !! p = fs_files (e_fs e) !! p).
  { intros s Hs l' h p Hl' Hr Hpp. rewrite Hl in Hl'. simplify_eq. rewrite <- Hf1.
    eapply fsafe_immutable; [exact Hs|exact Hr| |exact Hpp].
    destruct (Hd _ Hl). unfold max_height in *. lia. }
  unfold bind at 1, wrapE.
  destruct (updateCacheAndFiles _ _ _ _ s1) as [ru s2] eqn:E2.
  assert (poll_inv s1 s2 /\ (ru = Ok tt -> settled hooks cfg s2)) as [[Hp2 Hu2] Hs2].
  { unfold settled. destruct (decide (start <= numBlocks)) as [Hle|Hgt].
    - apply updateCacheAndFiles_poll in E2 as [? Hok]; [|done|lia|lia].
      split; [done|]. intros Hr. destruct (Hok Hr) as [? ->]; [done|lia].
    - unfold updateCacheAndFiles in E2. rewrite range_nil in E2 by lia. cbn in E2.
      revert E2. ran. split; [reflexivity|].
      intros _. replace (currentHeight s2 + 1) with (lastSealedHeight s2 + 1) by lia. done. }
  destruct ru as [[]|err]; cbn [res_wrap].
  2:{ ran. split; [by apply Himm|done]. }
  specialize (Hs2 eq_refl). unfold bind at 1, modify at 1. unfold bind at 1.
  rewrite afterCatchUp_none. intros E3.
  assert (settled hooks cfg (set_startup true s2)) as Hs3 by (destruct Hs2; by split).
  apply pollLoop_inv in E3 as [[Hp4 Hu4] Hok]; [|done]. split.
  - apply Himm. eapply fsafe_trans; [exact Hp2|]. eapply fsafe_trans; [|exact Hp4].
    by apply fsafe_same_files.
  - intros Hr. by split; [apply Hok|].
Qed.
End Poll.
