(* ===== verification/Threads.v ===== *)
(** * A producer as a thread

    The goroutine that runs [updateFiles], step by step: the unit of the
    interleavings of [System]. A step is one call of a hook, or what the code
    does between two. *)

From Stdlib Require Import ZArith Lia.
From stdpp Require Import base numbers list strings gmap.
From S2P Require Import Prelude GoInt Bytes GoStr GoIO Iface Files H2H Producer ProducerLaws ProducerSeal ProducerReorg.

Local Open Scope Z_scope.

(** Where [updateFiles] stands: before its first line; in
    [updateCacheAndFiles] before the block [next]; in [sealReadyFiles] after
    the block [current]; in the poll loop; returned. The flag tells the poll
    loop from the catch-up. A goroutine may also never be started. *)
Inductive pc :=
  | NotStarted
  | Starting (numBlocks : Z)
  | Ingesting (polling : bool) (next endBlock : Z)
  | Sealing (polling : bool) (current endBlock : Z)
  | Polling
  | Stopped (e : error).

Section Thread.
Context `{Wi : Wire} {W : Type} `{!Chain W} {D : Type}.
Context (hooks : producerHooks W D) (cfg : producerCfg) (prepare : M (PState W D) unit).
Implicit Types (s : PState W D).

(** The error [updateFiles] returns for one of [updateCacheAndFiles]. *)
Definition stop_with (polling : bool) (e : error) : pc :=
  Stopped (Wrapf (if polling then "error updating %s for blocks: %w" else "error updating %s blocks: %w") e).

(** The end of the catch-up. *)
Definition caughtUp s : PState W D :=
  let s := set_startup true s in
  match afterCatchUp hooks with
  | None => s
  | Some f => let '(e, d) := f (ps_env s, ps_data s) in set_data d (set_env e s)
  end.

Definition pstep (x : pc * PState W D) : pc * PState W D :=
  let '(p, s) := x in
  match p with
  | Starting numBlocks =>
      match (prepare ;;; resumeHeights cfg) s with
      | (Ok start, s') => (Ingesting false start numBlocks, s')
      | (Err e, s') => (Stopped e, s')
      end
  | Ingesting polling a b =>
      if b <? a then (Polling, if polling then s else caughtUp s)
      else match ingestStep hooks a s with
           | (Ok _, s') => (Sealing polling a b, s')
           | (Err e, s') => (stop_with polling e, s')
           end
  | Sealing polling a b =>
      if safeTip cfg s <? nextEnd cfg s then (Ingesting polling (a + 1) b, s)
      else match sealFile hooks (i32 (i32 (nextEnd cfg s - entriesPerFile cfg) + 1)) (nextEnd cfg s) s with
           | (Ok _, s') => (Sealing polling a b, s')
           | (Err e, s') => (stop_with polling e, s')
           end
  | Polling =>
      match pollHead hooks s with
      | (Ok None, s') => (Polling, s')
      | (Ok (Some (a, b)), s') => (Ingesting true a b, s')
      | (Err e, s') => (Stopped e, s')
      end
  | NotStarted | Stopped _ => (p, s)
  end.

(** ** What a thread keeps *)

(** The preparation of a producer only creates directories. *)
Definition prepares : Prop := forall e d r s',
  prepare (newProducer e d) = (r, s') ->
  files_of s' = fs_files (e_fs e) /\ e_h2h (ps_env s') = e_h2h e /\
  (r = Ok tt -> s' = newProducer (ps_env s') d).

Context `{HL : !HookLaws hooks} `{BC : !BoundedChain} (Hcfg : valid_cfg cfg) (Hprep : prepares).

Definition tinv (p : pc) s : Prop :=
  match p with
  | Starting n =>
      s = newProducer (ps_env s) (ps_data s) /\ (forall h, cachedHash hooks h (ps_data s) = None) /\
      disk_ok cfg (ps_env s) /\ 0 <= n < max_height
  | Ingesting polling a b =>
      pinv hooks cfg a s /\ 0 <= b < max_height /\ (currentHeight s = a - 1 \/ a = 0) /\
      (polling = true -> startupComplete s = true)
  | Sealing polling a b =>
      pinv hooks cfg (a + 1) s /\ a <= b < max_height /\ currentHeight s = a /\ 0 <= b /\
      (polling = true -> startupComplete s = true)
  | Polling => settled hooks cfg s /\ startupComplete s = true
  | NotStarted | Stopped _ => True
  end.

(** The last height of the sealed files, by this run or an earlier one. *)
Definition on_disk s : Z := default (-1) (resume_last cfg (ps_env s)).
Definition sealed_up_to (p : pc) s : Z :=
  match p with
  | NotStarted | Starting _ | Stopped _ => Z.max (lastSealedHeight s) (on_disk s)
  | _ => lastSealedHeight s
  end.

(** What a step leaves alone. *)
Record tsafe (p : pc) s (p' : pc) s' : Prop := {
  ts_h2h : h2h_ok (e_h2h (ps_env s'));
  ts_mono : sealed_up_to p s <= sealed_up_to p' s';
  ts_own h q : 0 <= h <= sealed_up_to p s -> sealPath h q -> files_of s' !! q = files_of s !! q;
  ts_other q : (forall e, 0 <= e < max_height -> ~ sealPath e q) -> files_of s' !! q = files_of s !! q
}.

Lemma sealed_up_to_stop e s : lastSealedHeight s <= sealed_up_to (Stopped e) s.
Proof. cbn. lia. Qed.

Lemma on_disk_ext s s' : files_of s' = files_of s -> on_disk s' = on_disk s.
Proof. intros E. unfold on_disk, resume_last. by rewrite (lastFile_ext _ _ _ _ E). Qed.

Lemma fsafe_tsafe p s p' s' :
  -1 <= lastSealedHeight s < max_height -> sealed_up_to p s = lastSealedHeight s ->
  lastSealedHeight s' <= sealed_up_to p' s' -> fsafe hooks s s' -> h2h_ok (e_h2h (ps_env s')) ->
  tsafe p s p' s'.
Proof.
  intros Hb Hp Hp' F Hh. split; [done| | |].
  - pose proof (fsafe_mono _ _ _ F). lia.
  - rewrite Hp. intros h q Hr Hq. eapply fsafe_immutable; [done|exact Hr|lia|exact Hq].
  - intros q Hq. apply F. intros e He. apply Hq. lia.
Qed.

(** A step that only moves on. *)
Lemma same_tsafe p s p' s' :
  files_of s' = files_of s -> h2h_ok (e_h2h (ps_env s')) -> sealed_up_to p s <= sealed_up_to p' s' ->
  tsafe p s p' s'.
Proof. intros E Hh Hle. by split; [| |by rewrite E..]. Qed.

Definition step_ok p s (x : pc * PState W D) : Prop := tinv x.1 x.2 /\ tsafe p s x.1 x.2.

Lemma prepare_resume e d r s' :
  (prepare ;;; resumeHeights cfg) (newProducer e d) = (r, s') ->
  h2h_ok (e_h2h e) -> disk_ok cfg e -> (forall h, cachedHash hooks h d = None) ->
  files_of s' = fs_files (e_fs e) /\ h2h_ok (e_h2h (ps_env s')) /\
  (forall start, r = Ok start -> pinv hooks cfg start s' /\ (currentHeight s' = start - 1 \/ start = 0) /\
     resume_last cfg e = Some (lastSealedHeight s')).
Proof using Hcfg Hprep.
  intros E Hh Hd He. unfold bind in E.
  destruct (prepare _) as [[[]|err] s1] eqn:E1; apply Hprep in E1 as (F1 & H1 & Hok).
  2:{ simplify_eq. by rewrite F1, H1. }
  rewrite (Hok eq_refl) in E.
  assert (Hl : resume_last cfg (ps_env s1) = resume_last cfg e).
  { unfold resume_last. by rewrite (lastFile_ext (e_fs e)). }
  destruct r as [start|err].
  - assert (disk_ok cfg (ps_env s1)) as Hd1 by (intros l; rewrite Hl; apply Hd).
    pose proof E as E'. apply (resume_pinv hooks cfg) in E' as (Hp & Hst & Hcur); [|done|done|by rewrite H1].
    apply resumeHeights_Ok in E as (l & Hl1 & _ & <- & _ & _ & F2 & H2 & _).
    split_and!; [by rewrite F2|by rewrite H2, H1|]. intros ? [= <-]. split_and!; [done| |congruence].
    destruct Hp. lia.
  - pose proof E as E'. apply resumeHeights_Err in E. split; [by rewrite E|]. split; [|done].
    revert E'. unfold resumeHeights, bind, wrapE, onEnv, onFS, zoom, os_MkdirAll, gets, liftR, modify.
    cbn. rewrite <- H1 in Hh. destruct (fault_mkdir _ _); cbn; [by ran|].
    destruct (lastFile _ _ _) as [b|]; cbn; [|by ran]. by destruct (0 <? b).
Qed.

(** Every step keeps the invariant of the thread, the cache and the files of
    others, and the files it sealed itself. *)
Lemma pstep_ok p s : h2h_ok (e_h2h (ps_env s)) -> tinv p s -> step_ok p s (pstep (p, s)).
Proof using Hcfg Hprep BC.
  intros Hh Hi. destruct p as [|n|polling a b|polling a b| |e]; cbn [pstep tinv] in *.
  - split; [done|]. by apply same_tsafe.
  - destruct Hi as (Hs & He & Hd & Hn).
    destruct ((prepare ;;; resumeHeights cfg) s) as [r s'] eqn:E. rewrite Hs in E.
    apply prepare_resume in E as (F & Hh' & Hok); try done.
    assert (files_of s' = files_of s) as F' by (by rewrite F).
    pose proof (on_disk_ext _ _ F') as Ho. rewrite Hs in Ho.
    destruct r as [start|err]; split; cbn [fst snd tinv]; try done.
    + destruct (Hok start eq_refl) as (Hp & Hc & _). split_and!; [done|lia|lia|done|done].
    + destruct (Hok start eq_refl) as (Hp & Hc & Hl). apply same_tsafe; [done|done|].
      cbn [sealed_up_to]. rewrite Hs. unfold on_disk in *. cbn in *. rewrite Hl. cbn. destruct Hp. lia.
    + apply same_tsafe; [done|done|]. cbn [sealed_up_to]. rewrite Ho, Hs. cbn.
      assert (-1 <= on_disk s); [|rewrite Hs in *; cbn in *; lia].
      unfold on_disk. destruct (resume_last _ _) eqn:E; cbn; [by eapply resume_last_bound|lia].
  - destruct Hi as (Hp & Hb & Hc & Hsu). pose proof Hp as [P1 P2 P3 P4 P5 P6]. destruct (Z.ltb_spec b a).
    + assert (settled hooks cfg s) as Hs by (unfold settled; by replace (currentHeight s + 1) with a by lia).
      split; cbn [fst snd].
      * destruct polling; [by split; auto|]. unfold caughtUp. rewrite no_afterCatchUp.
        split; [|done]. destruct Hs. by split.
      * unfold caughtUp. rewrite no_afterCatchUp. by destruct polling; apply same_tsafe.
    + destruct (ingestStep hooks a s) as [r s'] eqn:E.
      apply (ingestStep_inv hooks cfg) in E as (L1 & F1 & S1 & Hh' & Hok); [|done|lia].
      destruct r as [[]|e]; split; cbn [fst snd tinv stop_with]; try done.
      * destruct (Hok eq_refl). split_and!; [done|lia|lia|done|lia|by rewrite S1].
      * apply same_tsafe; [done|done|cbn; lia].
      * apply same_tsafe; [done|done|cbn; lia].
  - destruct Hi as (Hp & Hb & Hc & Hb0 & Hsu). pose proof Hp as [P1 P2 P3 P4 P5 P6].
    destruct (Z.ltb_spec (safeTip cfg s) (nextEnd cfg s)) as [Hlt|Hge].
    + split; [cbn; split_and!; [done|lia|lia|left; lia|done]|by apply same_tsafe].
    + pose proof (pinv_seal_in_range hooks cfg _ s Hcfg Hp ltac:(lia)) as Hr.
      destruct (seal_in_range_next cfg s Hr) as [Hne Hst].
      assert (nextEnd cfg s = lastSealedHeight s + entriesPerFile cfg) as Hne'.
      { rewrite Hne. unfold first_start. destruct (Z.ltb_spec (lastSealedHeight s) 0); lia. }
      rewrite Hne', Hst, Hc in *. destruct Hcfg as [Hn Hd]. clear Hne. unfold max_height in *. i32norm.
      replace (lastSealedHeight s + entriesPerFile cfg - entriesPerFile cfg + 1) with (lastSealedHeight s + 1) by lia.
      destruct (sealFile hooks _ _ s) as [r s'] eqn:E.
      apply (sealFile_pinv hooks cfg (a + 1)) in E as (Hp' & Hc' & Hsu' & Hf & Hl); [|done|done|lia].
      pose proof (pinv_h2h _ _ _ _ Hp') as Hh'.
      destruct r as [[]|e]; split; cbn [fst snd tinv stop_with]; try done.
      * split_and!; [done|lia|unfold max_height; lia|congruence|lia|by rewrite Hsu'].
      * apply fsafe_tsafe; try done; cbn; unfold max_height; lia.
      * apply fsafe_tsafe; try done; cbn; unfold max_height; lia.
  - destruct Hi as [Hs Hsu]. destruct (pollHead hooks s) as [r s'] eqn:E.
    apply (pollHead_inv hooks cfg) in E as ([Hf Hst] & Hs' & F & Hr); [|done].
    pose proof (pinv_h2h _ _ _ _ Hs') as Hh'.
    assert (forall p', lastSealedHeight s' <= sealed_up_to p' s' -> tsafe Polling s p' s') as Ht.
    { intros p' Hle. destruct Hs as [? _ ? Hb _ _]. by apply fsafe_tsafe; try done; unfold max_height in *; lia. }
    destruct r as [[[a b]|]|e]; split; cbn [fst snd tinv]; try (apply Ht; cbn; lia); try done.
    + destruct (Hr a b eq_refl) as [-> ?]. unfold max_height in *.
      destruct Hs' as [H1 H2 H3 H4 H5 H6]. split_and!; [by split|lia|lia|lia|congruence].
    + split; [done|congruence].
  - split; [done|]. by apply same_tsafe.
Qed.
(** ** A thread alone is [updateFiles] *)

Definition tstep (x y : pc * PState W D) : Prop := y = pstep x.

Lemma tstep_then x y : rtc tstep (pstep x) y -> rtc tstep x y.
Proof. by apply rtc_l. Qed.

Lemma sealFile_error a b s e s' : sealFile hooks a b s = (Err e, s') -> e <> OutOfFuel.
Proof.
  unfold sealFile, bind, wrapE. destruct (onHook _ s) as [[[]|e'] s1]; cbn; [done|]. by intros [= <- _].
Qed.

Lemma sealReadyFiles_fuel s r s' :
  seal_in_range cfg s -> sealReadyFiles hooks cfg s = (r, s') -> r <> Err OutOfFuel.
Proof.
  intros Hr. rewrite sealReadyFiles_eq by done.
  generalize (seal_schedule (entriesPerFile cfg) (lastSealedHeight s) (currentHeight s - reOrgSafeDepth cfg)).
  clear Hr. intros l. revert s. induction l as [|[x y] l IH]; intros s; cbn [forM]; [by intros [= <- _]|].
  unfold bind. destruct (sealFile hooks x y s) as [[[]|e] s1] eqn:E; [apply IH|].
  intros [= <- _] [= ->]. by apply sealFile_error in E.
Qed.

Lemma sealLoop_runs fuel polling a b s r s' :
  sealLoop hooks cfg fuel s = (r, s') -> r <> Err OutOfFuel ->
  rtc tstep (Sealing polling a b, s)
    (match r with Ok _ => Ingesting polling (a + 1) b | Err e => stop_with polling e end, s').
Proof.
  revert s. induction fuel as [|fuel IH]; intros s; cbn [sealLoop]; [by intros [= <- _]|].
  unfold bind at 1, get. intros E Hr. apply tstep_then. cbn [pstep].
  destruct (_ <? _); [unfold ret in E; by simplify_eq|].
  unfold bind in E. destruct (sealFile hooks _ _ s) as [[[]|e] s1]; [by apply IH|by simplify_eq].
Qed.

Lemma ingest_runs polling a b s r s' :
  pinv hooks cfg a s -> b < max_height -> updateCacheAndFiles hooks cfg a b s = (r, s') ->
  rtc tstep (Ingesting polling a b, s)
    (match r with Ok _ => Ingesting polling (Z.max a (b + 1)) b | Err e => stop_with polling e end, s').
Proof using Hcfg HL.
  unfold updateCacheAndFiles. remember (Z.to_nat (b + 1 - a)) as n eqn:Hn. revert a s Hn.
  induction n as [|n IH]; intros a s Hn Hp Hb.
  - rewrite range_nil by lia. cbn. intros [= <- <-]. by rewrite Z.max_l by lia.
  - rewrite range_cons by lia. cbn [forM]. unfold bind at 1.
    destruct (ingestBlock hooks cfg a s) as [r1 s1] eqn:E1.
    pose proof E1 as Hi. apply (ingestBlock_inv hooks cfg a) in Hi as [_ Hok]; [|exact Hcfg|exact Hp|lia].
    rewrite ingestBlock_step in E1. unfold bind in E1.
    intros E. apply tstep_then. cbn [pstep]. rewrite (proj2 (Z.ltb_ge b a)) by lia.
    destruct (ingestStep hooks a s) as [[[]|e] s2] eqn:E2; [|by simplify_eq].
    apply (ingestStep_inv hooks cfg) in E2 as (_ & _ & _ & _ & Hok2); [|done|lia].
    destruct (Hok2 eq_refl) as [Hp2 Hc2].
    etransitivity.
    + eapply sealLoop_runs; [exact E1|]. eapply sealReadyFiles_fuel; [|exact E1].
      by apply (pinv_seal_in_range hooks cfg (a + 1)); [| |lia].
    + destruct r1 as [[]|e]; [|by simplify_eq]. destruct (Hok eq_refl) as [Hp1 _].
      replace (Z.max a (b + 1)) with (Z.max (a + 1) (b + 1)) by lia. by apply IH; [lia|..].
Qed.

Lemma pollOnce_runs s r s' :
  settled hooks cfg s -> pollOnce hooks cfg s = (r, s') ->
  rtc tstep (Polling, s) (match r with Ok _ => Polling | Err e => Stopped e end, s').
Proof using Hcfg HL BC.
  intros Hs. rewrite pollOnce_head. unfold bind. intros E. apply tstep_then. cbn [pstep].
  destruct (pollHead hooks s) as [[[[a b]|]|e] s1] eqn:E1; [|unfold ret in E; by simplify_eq..].
  apply (pollHead_inv hooks cfg) in E1 as (_ & Hs1 & _ & Hr); [|done..].
  destruct (Hr a b eq_refl) as [-> Hb]. unfold wrapE in E.
  destruct (updateCacheAndFiles hooks cfg _ b s1) as [ru s2] eqn:E2. simplify_eq.
  apply (ingest_runs true) in E2; [|done|lia].
  etransitivity; [exact E2|]. destruct ru as [[]|e]; [|done]. apply tstep_then. cbn [pstep].
  by rewrite (proj2 (Z.ltb_lt b _)) by lia.
Qed.

Lemma pollLoop_runs polls s r s' :
  settled hooks cfg s -> pollLoop hooks cfg polls s = (r, s') ->
  rtc tstep (Polling, s) (match r with Ok _ => Polling | Err e => Stopped e end, s').
Proof using Hcfg HL BC.
  revert s. induction polls as [|n IH]; intros s Hs; cbn [pollLoop]; [by intros [= <- <-]|].
  unfold bind. destruct (pollOnce hooks cfg s) as [[[]|e] s1] eqn:E1; intros E.
  - destruct (pollOnce_inv hooks cfg Hcfg _ _ _ Hs E1) as [_ Hok].
    etransitivity; [exact (pollOnce_runs _ _ _ Hs E1)|]. apply IH; [by apply Hok|done].
  - simplify_eq. exact (pollOnce_runs _ _ _ Hs E1).
Qed.
End Thread.

(** A run of [updateFiles] after the preparation, however many polls it makes
    and however it ends, is a sequence of steps of its thread. *)
Lemma updateFiles_runs `{Wi : Wire} {W : Type} `{!Chain W} {D : Type} `{!BoundedChain}
    (hooks : producerHooks W D) `{!HookLaws hooks} cfg prepare polls numBlocks e d r s' :
  valid_cfg cfg -> prepares prepare -> disk_ok cfg e -> (forall h, cachedHash hooks h d = None) ->
  h2h_ok (e_h2h e) -> 0 <= numBlocks < max_height ->
  (prepare ;;; updateFiles hooks cfg polls numBlocks) (newProducer e d) = (r, s') ->
  rtc (tstep hooks cfg prepare) (Starting numBlocks, newProducer e d)
    (match r with Ok _ => Polling | Err err => Stopped err end, s').
Proof.
  intros Hc Hprep Hd He Hh Hn E. apply tstep_then. cbn [pstep].
  destruct ((prepare ;;; resumeHeights cfg) (newProducer e d)) as [r1 s1] eqn:E1.
  pose proof E1 as Hi. apply (prepare_resume hooks) in Hi as (_ & _ & Hok); [|done..].
  unfold updateFiles, bind in E, E1.
  destruct (prepare _) as [[[]|err] s0]; [|by simplify_eq]. rewrite E1 in E.
  destruct r1 as [start|err]; [|by simplify_eq]. destruct (Hok start eq_refl) as (Hp & Hcur & _).
  unfold wrapE in E. destruct (updateCacheAndFiles hooks cfg start numBlocks s1) as [ru s2] eqn:E2.
  pose proof E2 as Hr. apply (ingest_runs hooks cfg prepare Hc false) in Hr; [|done|lia].
  etransitivity; [exact Hr|]. destruct ru as [[]|err]; cbn [res_wrap] in E; [|by simplify_eq].
  apply tstep_then. cbn [pstep]. rewrite (proj2 (Z.ltb_lt numBlocks _)) by lia.
  unfold modify in E. cbn beta iota in E. unfold caughtUp. rewrite no_afterCatchUp in E |- *.
  apply (pollLoop_runs hooks cfg prepare Hc) in E; [exact E|].
  assert (settled hooks cfg s2) as [S1 S2 S3 S4 S5 S6]; [|by split].
  destruct (Z.le_gt_cases start numBlocks) as [Hle|Hgt].
  - apply (updateCacheAndFiles_inv hooks cfg) in E2 as [_ Hok2]; [|done|done|lia|lia].
    destruct (Hok2 eq_refl) as [Hp2 Hc2]. unfold settled. by rewrite Hc2 by lia.
  - unfold updateCacheAndFiles in E2. rewrite range_nil in E2 by lia. cbn in E2. unfold ret in E2.
    simplify_eq. unfold settled. by replace (currentHeight s2 + 1) with start by lia.
Qed.
