(* ===== verification/System.v ===== *)
(** * The producers together

    The goroutines of the producers share the file system, the hash cache and
    the backend. A system is what they share and one thread for each; a
    schedule interleaves their steps, with each other and with the requests. *)

From Stdlib Require Import ZArith Lia.
From stdpp Require Import base numbers list strings gmap.
From S2P Require Import Prelude GoInt Bytes GoStr GoIO Iface Files H2H Producer ProducerLaws ProducerSeal ProducerReorg Threads.

Local Open Scope Z_scope.

(** Replace one member of a family. *)
Definition family_set {I : Type} `{EqDecision I} {T : I -> Type} (i : I) (x : T i) (f : forall j, T j) : forall j, T j :=
  fun j => match decide (i = j) with
           | left e => eq_rect i T x j e
           | right _ => f j
           end.

Lemma family_set_eq {I : Type} `{EqDecision I} {T : I -> Type} i x (f : forall j, T j) : family_set i x f i = x.
Proof. unfold family_set. by rewrite (decide_True_pi (P := i = i) eq_refl). Qed.

Lemma family_set_ne {I : Type} `{EqDecision I} {T : I -> Type} i j x (f : forall j, T j) :
  i <> j -> family_set i x f j = f j.
Proof. intros H. unfold family_set. by destruct (decide (i = j)). Qed.

Section System.
Context `{Wi : Wire} {W : Type} `{!Chain W} {I : Type} `{!EqDecision I} {D : I -> Type}.
Context (hooks : forall i, producerHooks W (D i)) (cfg : I -> producerCfg).
Context (prepare : forall i, M (PState W (D i)) unit).

Record system := mkSystem {
  sy_env : Env W;
  sy_threads : forall i, pc * producerView (D i)
}.
Implicit Types (σ : system).

Definition thread i σ : pc * PState W (D i) :=
  ((sy_threads σ i).1, of_view (sy_env σ) (sy_threads σ i).2).

Definition sys_step i σ : system :=
  let '(p, s) := pstep (hooks i) (cfg i) (prepare i) (thread i σ) in
  mkSystem (ps_env s) (family_set (T := fun i => (pc * producerView (D i))%type) i (p, view_of s) (sy_threads σ)).

(** An event of a schedule: a step of a producer, or anything a request or the
    backend does to what is shared. *)
Inductive event :=
  | Step (i : I)
  | Other (f : Env W -> Env W).

Definition sys_event (ev : event) σ : system :=
  match ev with
  | Step i => sys_step i σ
  | Other f => mkSystem (f (sy_env σ)) (sy_threads σ)
  end.
Definition run (l : list event) σ : system := foldl (fun σ ev => sys_event ev σ) σ l.

(** Requests write no file and keep the cache consistent. *)
Definition harmless (ev : event) : Prop :=
  match ev with
  | Step _ => True
  | Other f => forall e, fs_files (e_fs (f e)) = fs_files (e_fs e) /\ (h2h_ok (e_h2h e) -> h2h_ok (e_h2h (f e)))
  end.

(** ** Invariants *)

Context `{HL : !forall i, HookLaws (hooks i)} `{BC : !BoundedChain}.

(** No producer seals a file of another one, or one that another one finds
    when it resumes. *)
Class Apart := {
  apart_sealed i j h h' q :
    0 <= h < max_height -> 0 <= h' < max_height ->
    sealPath (hooks := hooks i) h q -> sealPath (hooks := hooks j) h' q -> i = j;
  apart_listed i j h q :
    i <> j -> 0 <= h < max_height -> sealPath (hooks := hooks j) h q ->
    is_entry (fileDir (cfg i)) (fileSuffix (cfg i)) q = false
}.

Definition sys_ok σ : Prop :=
  h2h_ok (e_h2h (sy_env σ)) /\
  forall i, tinv (hooks i) (cfg i) (thread i σ).1 (thread i σ).2.

Definition sealed_at i σ : Z := sealed_up_to (cfg i) (thread i σ).1 (thread i σ).2.

(** [sys_safe σ σ']: the files that are sealed stay. *)
Record sys_safe σ σ' : Prop := {
  ss_mono i : sealed_at i σ <= sealed_at i σ';
  ss_files i h q :
    0 <= h < max_height -> h <= sealed_at i σ -> sealPath (hooks := hooks i) h q ->
    fs_files (e_fs (sy_env σ')) !! q = fs_files (e_fs (sy_env σ)) !! q
}.

#[export] Instance sys_safe_preorder : PreOrder sys_safe.
Proof.
  split; [split; [lia|done]|]. intros σ1 σ2 σ3 [M1 F1] [M2 F2]. split.
  - intros i. specialize (M1 i). specialize (M2 i). lia.
  - intros i h q Hh Hs Hq. rewrite (F2 i h), (F1 i h); try done. specialize (M1 i). lia.
Qed.

(** What is shared may change below a thread that is not running. *)
Lemma tinv_env {D'} (hk : producerHooks W D') `{!HookLaws hk} cf p e e' (v : producerView D') :
  h2h_ok (e_h2h e') -> resume_last cf e' = resume_last cf e ->
  tinv hk cf p (of_view e v) -> tinv hk cf p (of_view e' v).
Proof.
  intros Hh Hr. destruct p as [|n|polling a b|polling a b| |err]; cbn; try done.
  - intros (Hs & He & Hd & Hn). split_and!; try done; [|by intros l; rewrite Hr; apply Hd|lia|lia].
    unfold newProducer, of_view in *. cbn in *. by injection Hs as -> -> ->.
  - intros ([] & ?). split; [by split|done].
  - intros ([] & ?). split; [by split|done].
  - intros ([] & ?). split; [by split|done].
Qed.

Lemma sealed_env {D'} cf p (e e' : Env W) (v : producerView D') :
  resume_last cf e' = resume_last cf e ->
  sealed_up_to cf p (of_view e' v) = sealed_up_to cf p (of_view e v).
Proof. intros Hr. destruct p; cbn; unfold on_disk; cbn; by rewrite ?Hr. Qed.

Context (Hcfg : forall i, valid_cfg (cfg i)) (Hprep : forall i, prepares (prepare i)) `{AP : !Apart}.

Lemma sys_step_ok i σ : sys_ok σ -> sys_ok (sys_step i σ) /\ sys_safe σ (sys_step i σ).
Proof using Hcfg Hprep AP BC.
  intros [Hh Ht]. unfold sys_step.
  pose proof (pstep_ok (hooks i) (cfg i) (prepare i) (Hcfg i) (Hprep i)
    (thread i σ).1 (thread i σ).2 Hh (Ht i)) as [Ht' Hsafe].
  rewrite <- surjective_pairing in Ht', Hsafe.
  destruct (pstep _ _ _ (thread i σ)) as [p s]. cbn in Ht', Hsafe.
  destruct Hsafe as [Hh' Hmono Hown Hother]. unfold files_of in *. cbn in Hown, Hother.
  set (σ' := mkSystem _ _).
  assert (thread i σ' = (p, s)) as Hi.
  { unfold thread, σ'. cbn. rewrite family_set_eq. cbn. by rewrite of_view_of. }
  assert (forall j, i <> j -> sy_threads σ' j = sy_threads σ j) as Hj.
  { intros j Hne. exact (family_set_ne (T := fun i => (pc * producerView (D i))%type) i j _ _ Hne). }
  assert (forall j, i <> j -> resume_last (cfg j) (ps_env s) = resume_last (cfg j) (sy_env σ)) as Hr.
  { intros j Hne. unfold resume_last. rewrite (lastFile_agree (e_fs (sy_env σ))); [done|].
    intros q Hq. apply Hother. intros e He Hs. by rewrite (apart_listed j i e q) in Hq. }
  split.
  - split; [done|]. intros j. destruct (decide (i = j)) as [<-|Hne]; [by rewrite Hi|].
    unfold thread. rewrite Hj by done. apply (tinv_env _ _ _ (sy_env σ)); [done|by apply Hr|apply Ht].
  - split.
    + intros j. unfold sealed_at. destruct (decide (i = j)) as [<-|Hne]; [by rewrite Hi|].
      unfold thread. rewrite Hj by done. cbn. by rewrite (sealed_env _ _ (sy_env σ) (ps_env s)) by (by apply Hr).
    + intros j h q Hb Hs Hq. cbn. destruct (decide (i = j)) as [<-|Hne].
      * apply (Hown h q); [unfold sealed_at, thread in Hs; cbn in Hs; lia|done].
      * apply Hother. intros e He Hq'. apply Hne. exact (apart_sealed i j e h q He Hb Hq' Hq).
Qed.

Lemma run_ok l σ : Forall harmless l -> sys_ok σ -> sys_ok (run l σ) /\ sys_safe σ (run l σ).
Proof using Hcfg Hprep AP BC.
  intros Hl. revert σ. induction Hl as [|ev l Hev Hl IH]; intros σ Hok; [by split|].
  assert (sys_ok (sys_event ev σ) /\ sys_safe σ (sys_event ev σ)) as [Hok1 Hs1].
  { destruct ev as [i|f]; [by apply sys_step_ok|]. destruct Hok as [Hh Ht]. destruct (Hev (sy_env σ)) as [Hf Hh'].
    assert (forall j, resume_last (cfg j) (f (sy_env σ)) = resume_last (cfg j) (sy_env σ)) as Hr.
    { intros j. unfold resume_last. by rewrite (lastFile_ext (e_fs (sy_env σ))). }
    split; [split; [by apply Hh'|]|split].
    - intros i. apply (tinv_env _ _ _ (sy_env σ)); [by apply Hh'|done|apply Ht].
    - intros i. unfold sealed_at, thread. cbn. by rewrite (sealed_env _ _ (sy_env σ) (f (sy_env σ))).
    - intros. cbn. by rewrite Hf. }
  destruct (IH _ Hok1) as [Hok2 Hs2]. split; [done|]. by transitivity (sys_event ev σ).
Qed.
End System.
