(* ===== verification/HeaderFiles.v ===== *)
(** * Block headers and filter headers on disk

    [header-files.go]: the producer of the [.header] and [.cfheader] files. *)

From Stdlib Require Import ZArith Lia.
From stdpp Require Import base numbers list strings gmap.
From S2P Require Import Prelude GoInt Bytes GoStr GoIO Iface Toy Files H2H Producer ProducerLaws ProducerSeal ProducerReorg.

Local Open Scope Z_scope.

Definition HeaderFileDir : str := "headers".
Definition HeaderFileSuffix : str := ".header".
Definition FilterHeaderFileSuffix : str := ".cfheader".

Section HeaderFiles.
Context `{Wi : Wire} {W : Type} `{!Chain W}.

(** The in-memory part of [headerFiles]. *)
Record headerFiles := mkHF {
  headers : gmap Z BlockHeader;
  filterHeaders : gmap Z Hash
}.

(** [ingest]: what it fetches, then what it stores under the lock. *)
Definition hf_fetch (height : Z) : M (Env W * headerFiles) (BlockHeader * Hash) :=
  let! hash := wrapE "error getting block hash for height %d: %w"
                 (inEnv (getBlockHash height)) in
  let! header := wrapE "error getting block header for hash %s: %w"
                   (inEnv (onWorld (GetBlockHeader hash))) in
  let! filter := wrapE "error getting block filter for hash %s: %w"
                   (inEnv (onWorld (GetBlockFilter hash))) in
  let! filterHeader := wrapE "error parsing filter header for hash %s: %w"
                         (liftR (NewHashFromStr (fr_Header filter))) in
  ret (header, filterHeader).
Definition hf_ingest (height : Z) : M (Env W * headerFiles) unit :=
  let! hf := hf_fetch height in
  inData (fun h => mkHF (<[height := hf.1]> (headers h))
                        (<[height := hf.2]> (filterHeaders h))).

(** *** Serialization *)

(** [serializeHeadersLocked] *)
Definition serializeHeaders (h : headerFiles) (startIndex endIndex : Z) : M Writer unit :=
  forM (range startIndex endIndex) (fun j =>
    match headers h !! j with
    | None => fail (Errorf "missing header at height %d")
    | Some header => wrapE "error writing headers: %w" (w_Write (hdr_Serialize header))
    end).

(** [serializeFilterHeadersLocked]. A [Write] that returns no error has
    written everything, so the short write check never fails. *)
Definition serializeFilterHeaders (h : headerFiles) (startIndex endIndex : Z) : M Writer unit :=
  forM (range startIndex endIndex) (fun j =>
    match filterHeaders h !! j with
    | None => fail (Errorf "missing filter header at height %d")
    | Some fh => wrapE "error writing filter header: %w" (w_Write fh)
    end).

(** [headersSize], [filterHeadersSize] *)
Definition headersSize (startIndex endIndex : Z) : option Z :=
  if endIndex <? startIndex then None
  else Some (i64 (i32 (i32 (endIndex - startIndex) + 1) * MaxBlockHeaderPayload)).
Definition filterHeadersSize (startIndex endIndex : Z) : option Z :=
  if endIndex <? startIndex then None
  else Some (i64 (i32 (i32 (endIndex - startIndex) + 1) * HashSize)).

(** [filterHeaderAtHeight] *)
Definition filterHeaderAtHeight (h : headerFiles) (hgt : Z) : option Hash :=
  filterHeaders h !! hgt.

(** [writeHeaders], [writeFilterHeaders] *)
Definition writeHeaders (h : headerFiles) (fileName : str) (startIndex endIndex : Z) : M FS unit :=
  create_write_close "error creating file %s: %w" "error writing headers to file %s: %w"
    "error closing file %s: %w" fileName (serializeHeaders h startIndex endIndex).
Definition writeFilterHeaders (h : headerFiles) (fileName : str) (startIndex endIndex : Z) : M FS unit :=
  create_write_close "error creating file %s: %w" "error writing filter headers to file %s: %w"
    "error closing file %s: %w" fileName (serializeFilterHeaders h startIndex endIndex).

(** *** Sealing *)

(** The body of the loop of [verifyHeaders]. *)
Definition verifyStep (h : headerFiles) (fileStart : Z) (running : Hash) (height : Z) : result Hash :=
  match headers h !! height with
  | None => Err (Errorf "missing header at height %d")
  | Some header =>
      if (fileStart <? height) && negb (bool_decide (PrevBlock header = running))
      then Err (Errorf "header at height %d does not link to its predecessor")
      else Ok (BlockHash header)
  end.

(** [verifyHeaders] *)
Definition verifyHeaders (fileStart fileEnd : Z) : M (Env W * headerFiles) unit :=
  let! endHash := wrapE "error getting block hash at %d: %w"
                    (inEnv (onWorld (GetBlockHash fileEnd))) in
  let! h := gets snd in
  let! running := liftR (res_fold (verifyStep h fileStart) zero_hash (range fileStart fileEnd)) in
  if bool_decide (running = endHash) then ret tt
  else fail (Errorf "header chain of heights %d-%d does not end in the backend's block at %d (got %s, want %s); at least one header belongs to a reorged-away block").

(** [writeSealedFile] *)
Definition hf_writeSealedFile (headerDir : str) (fileStart fileEnd : Z)
  : M (Env W * headerFiles) unit :=
  wrapE "refusing to seal headers %d-%d: %w" (verifyHeaders fileStart fileEnd) ;;;
  let! h := gets snd in
  inEnv (onFS (writeHeaders h
    (block_file HeaderFileSuffix headerDir fileStart fileEnd) fileStart fileEnd)) ;;;
  inEnv (onFS (writeFilterHeaders h
    (block_file FilterHeaderFileSuffix headerDir fileStart fileEnd) fileStart fileEnd)).

(** [pruneLocked] *)
Definition hf_pruneLocked (start end_ : Z) (h : headerFiles) : headerFiles :=
  mkHF (delete_range start end_ (headers h)) (delete_range start end_ (filterHeaders h)).

(** [cachedHash] *)
Definition hf_cachedHash (height : Z) (h : headerFiles) : option Hash :=
  BlockHash <$> headers h !! height.

(** [newHeaderFiles] *)
Definition headerCfg (headersPerFile depth : Z) (baseDir : str) : producerCfg :=
  mkCfg "header" baseDir HeaderFileDir HeaderFileSuffix headersPerFile depth.

Definition headerHooks (baseDir : str) : producerHooks W headerFiles :=
  mkHooks hf_ingest (hf_writeSealedFile (filepath_Join baseDir HeaderFileDir))
    hf_pruneLocked hf_cachedHash None.

Definition newHeaderFiles (e : Env W) : PState W headerFiles :=
  newProducer e (mkHF ∅ ∅).

(** ** The laws of the hooks *)

Lemma hf_fetch_fetched h : keeps fetched (hf_fetch h).
Proof. unfold hf_fetch. eauto 20 with go. Qed.

Lemma verifyHeaders_fetched a b : keeps fetched (verifyHeaders a b).
Proof.
  unfold verifyHeaders. apply keeps_bind; [apply _|auto with go|intros endHash].
  apply keeps_bind; [apply _|auto with go|intros h]. apply keeps_bind; [apply _|auto with go|intros running].
  case_bool_decide; auto with go.
Qed.

(** The files of the range ending at [e]. *)
Definition hf_sealPath (headerDir : str) (e : Z) (p : str) : Prop :=
  exists a suffix, 0 <= a < 10000000 /\
    (suffix = HeaderFileSuffix \/ suffix = FilterHeaderFileSuffix) /\
    p = block_file suffix headerDir a e.

Lemma hf_writeSealedFile_wrote dir a b :
  0 <= a <= b -> b < 10000000 ->
  keeps (wrote (hf_sealPath dir b)) (hf_writeSealedFile dir a b).
Proof.
  intros Ha Hb. unfold hf_writeSealedFile.
  apply keeps_bind; [apply _| |intros _].
  { apply keeps_wrapE. eapply keeps_sub; [apply fetched_wrote|apply verifyHeaders_fetched]. }
  apply keeps_bind; [apply _|auto with go|intros h].
  apply keeps_bind; [apply _| |intros _]; apply wrote_create_write_close; eexists a, _;
    (split; [lia|split; [|reflexivity]]); auto.
Qed.

#[export] Instance header_laws baseDir : HookLaws (headerHooks baseDir).
Proof.
  refine {| sealPath := hf_sealPath (filepath_Join baseDir HeaderFileDir) |}.
  - intros e e' p He He' (a & s & Ha & Hs & ->) (a' & s' & Ha' & Hs' & E).
    apply block_file_inj_full in E as (_ & _ & -> & _); try done; destruct Hs, Hs'; by subst.
  - intros h s r s' E. apply fetch_then_store in E as (? & ? & _); [done|apply hf_fetch_fetched].
  - intros h s s' E. apply fetch_then_store in E as (_ & _ & Hok & _); [|apply hf_fetch_fetched].
    destruct (Hok eq_refl) as ([hd fh] & _ & ->). cbn. unfold hf_cachedHash. cbn. split.
    + rewrite lookup_insert_eq. by eexists.
    + intros h' Hne. by rewrite lookup_insert_ne.
  - intros a b s r s' Ha Hb E. apply hf_writeSealedFile_wrote in E as [_ ? ? ?]; done.
  - intros a b s r s' h Ha Hb E. apply hf_writeSealedFile_wrote in E as [-> _ _ _]; done.
  - intros a b d h. cbn. unfold hf_cachedHash, hf_pruneLocked. cbn.
    rewrite lookup_delete_range. by case_decide.
  - done.
Defined.

(** ** What is verified *)

Context `{!WireLaws (Wi := Wi)}.

(** The hash at the end of a chain of headers on top of [prev]; [None] when
    a header does not link. *)
Fixpoint chain_from (prev : Hash) (hs : list BlockHeader) : option Hash :=
  match hs with
  | [] => Some prev
  | h :: hs' => if bool_decide (PrevBlock h = prev) then chain_from (BlockHash h) hs' else None
  end.

(** A segment of the block chain: its first header may link to anything. *)
Definition segment_end (hs : list BlockHeader) : option Hash :=
  match hs with [] => None | h :: hs' => chain_from (BlockHash h) hs' end.

Lemma chain_from_snoc prev hs h x :
  chain_from prev (hs ++ [h]) = Some x <->
  chain_from prev hs = Some (PrevBlock h) /\ x = BlockHash h.
Proof.
  revert prev. induction hs as [|g hs IH]; intros prev; cbn.
  - case_bool_decide; naive_solver.
  - case_bool_decide; [apply IH|naive_solver].
Qed.

Lemma header_inj h h' : BlockHash h = BlockHash h' -> h = h' \/ collision.
Proof.
  rewrite !BlockHash_Serialize. intros [E|]%DoubleHash_inj_or; [left|by right].
  pose proof (hdr_Deserialize_Serialize h []) as H1. rewrite E, hdr_Deserialize_Serialize in H1.
  by simplify_eq.
Qed.

(** The end hash commits to the whole segment. *)
Lemma segment_inj hs hs' x :
  length hs = length hs' -> segment_end hs = Some x -> segment_end hs' = Some x ->
  hs = hs' \/ collision.
Proof.
  destruct hs as [|h hs], hs' as [|h' hs']; try done. cbn [length segment_end].
  revert hs' x. induction hs as [|g hs IH] using rev_ind; intros hs'; destruct hs' as [|g' hs' _] using rev_ind;
    rewrite ?length_app; cbn [length]; try (intros; lia).
  - cbn. intros x _ [= <-] [= E]. destruct (header_inj h h') as [->|]; [done|by left|by right].
  - intros x HL [E1 ->]%chain_from_snoc [E2 E]%chain_from_snoc.
    destruct (header_inj g g') as [->|]; [done| |by right].
    destruct (IH hs' (PrevBlock g')) as [Eq|]; [lia|done|done| |by right].
    left. simplify_eq. done.
Qed.

Lemma verify_fold d a running lo b :
  a < lo ->
  forall x, res_fold (verifyStep d a) running (range lo b) = Ok x <->
    exists hs, mapM (fun j => headers d !! j) (range lo b) = Some hs /\
      chain_from running hs = Some x.
Proof.
  intros Ha. remember (Z.to_nat (b - lo + 1)) as n eqn:Hn. revert lo running Ha Hn.
  induction n as [|n IH]; intros lo running Ha Hn x.
  { rewrite range_nil by lia. cbn [res_fold]. setoid_rewrite mapM_nil_Some.
    split; [intros [= <-]; by exists []|intros (hs & -> & H); by injection H as ->]. }
  rewrite range_cons by lia. cbn [res_fold]. setoid_rewrite mapM_cons_Some.
  unfold verifyStep at 1. destruct (headers d !! lo) as [h|]; cbn [res_bind].
  2:{ split; [done|]. by intros (hs & (? & ? & ? & _) & _). }
  rewrite (proj2 (Z.ltb_lt a lo)) by done. cbn [andb].
  case_bool_decide as Hp; cbn [negb res_bind].
  - rewrite IH by lia. split.
    + intros (hs & E & E2). exists (h :: hs). split; [by exists h, hs|].
      cbn. by rewrite bool_decide_eq_true_2.
    + intros (hs & (h' & t & [= <-] & E & ->) & E2). exists t. split; [done|].
      cbn in E2. by rewrite bool_decide_eq_true_2 in E2.
  - split; [done|]. intros (hs & (h' & t & [= <-] & E & ->) & E2).
    cbn in E2. by rewrite bool_decide_eq_false_2 in E2.
Qed.

(** Verification succeeds exactly on the segments ending in the block the
    backend reports. *)
Lemma verifyHeaders_iff a b e d endHash w :
  a <= b -> GetBlockHash b (e_world e) = (Ok endHash, w) ->
  (verifyHeaders a b (e, d)).1 = Ok tt <->
  exists hs, mapM (fun j => headers d !! j) (range a b) = Some hs /\ segment_end hs = Some endHash.
Proof.
  intros Hab Hg. unfold verifyHeaders, bind, wrapE, inEnv, onWorld, zoom, gets, liftR. cbn.
  rewrite Hg. cbn. rewrite range_cons by lia. cbn [res_fold]. setoid_rewrite mapM_cons_Some.
  unfold verifyStep at 1. destruct (headers d !! a) as [h|]; cbn [res_bind].
  2:{ split; [done|]. by intros (hs & (? & ? & ? & _) & _). }
  rewrite Z.ltb_irrefl. cbn [andb res_bind].
  pose proof (verify_fold d a (BlockHash h) (a + 1) b ltac:(lia) endHash) as V. split.
  - destruct (res_fold _ _ _) as [x|err]; [|done]. case_bool_decide as Hx; [subst x|done].
    intros _. destruct (proj1 V eq_refl) as (hs & E1 & E). exists (h :: hs).
    split; [by exists h, hs|done].
  - intros (hs & (h' & t & [= <-] & E & ->) & E2).
    rewrite (proj2 V) by eauto. by rewrite bool_decide_eq_true_2.
Qed.

Lemma verifyHeaders_Ok a b s s' :
  a <= b -> verifyHeaders a b s = (Ok tt, s') ->
  exists endHash w hs, GetBlockHash b (e_world s.1) = (Ok endHash, w) /\
    mapM (fun j => headers s.2 !! j) (range a b) = Some hs /\ segment_end hs = Some endHash.
Proof.
  destruct s as [e d]. cbn. intros Hab E.
  destruct (GetBlockHash b (e_world e)) as [[endHash|err] w] eqn:Hg.
  - destruct (proj1 (verifyHeaders_iff a b e d endHash w Hab Hg)) as (hs & ? & ?); [by rewrite E|].
    by exists endHash, w, hs.
  - unfold verifyHeaders, bind, wrapE, inEnv, onWorld, zoom in E. cbn in E. by rewrite Hg in E.
Qed.

(** ** What is written *)

Lemma serializeHeaders_writes d a b :
  exists e, writes (serializeHeaders d a b) (collect (fun j => hdr_Serialize <$> headers d !! j) (range a b)).1 e /\
    (e = None <-> (collect (fun j => hdr_Serialize <$> headers d !! j) (range a b)).2 = true).
Proof.
  apply (writes_range _ _ _ (fun _ => Errorf "missing header at height %d")).
  - intros j bs E. destruct (headers d !! j); [|done]. cbn in E. simplify_eq.
    apply (writes_wrapE _ _ _ None), writes_Write.
  - intros j E. destruct (headers d !! j); [done|]. apply writes_fail.
Qed.

Lemma serializeFilterHeaders_writes d a b :
  exists e, writes (serializeFilterHeaders d a b) (collect (fun j => filterHeaders d !! j) (range a b)).1 e /\
    (e = None <-> (collect (fun j => filterHeaders d !! j) (range a b)).2 = true).
Proof.
  apply (writes_range _ _ _ (fun _ => Errorf "missing filter header at height %d")).
  - intros j bs ->. apply (writes_wrapE _ _ _ None), writes_Write.
  - intros j ->. apply writes_fail.
Qed.

Lemma headers_collected d a b out :
  collect_all (fun j => hdr_Serialize <$> headers d !! j) (range a b) = Some out ->
  exists hs, mapM (fun j => headers d !! j) (range a b) = Some hs /\ out = headers_bytes hs.
Proof. intros (ch & (hs & E & ->)%mapM_fmap_Some & ->)%collect_all_Some. by exists hs. Qed.

(** What a successful seal leaves on disk. *)
Lemma hf_writeSealedFile_Ok dir a b s s' :
  a <= b -> hf_writeSealedFile dir a b s = (Ok tt, s') ->
  exists endHash w hs fhs,
    GetBlockHash b (e_world s.1) = (Ok endHash, w) /\
    mapM (fun j => headers s.2 !! j) (range a b) = Some hs /\
    segment_end hs = Some endHash /\
    mapM (fun j => filterHeaders s.2 !! j) (range a b) = Some fhs /\
    fs_files (e_fs s'.1)
    = <[block_file FilterHeaderFileSuffix dir a b := concat fhs]>
        (<[block_file HeaderFileSuffix dir a b := headers_bytes hs]> (fs_files (e_fs s.1))) /\
    s'.2 = s.2.
Proof.
  intros Hab E. unfold hf_writeSealedFile in E.
  apply bind_Ok_inv in E as ([] & s1 & E1%wrapE_Ok_inv & E).
  pose proof (verifyHeaders_fetched _ _ _ _ _ E1) as [Hd Hf _].
  apply verifyHeaders_Ok in E1 as (endHash & w & hs & Hg & Hhs & Hseg); [|done].
  apply bind_Ok_inv in E as (h & s2 & [= <- <-] & E).
  apply bind_Ok_inv in E as ([] & s3 & E3 & E).
  apply inEnv_onFS_inv in E3 as (E3 & _ & _ & D3), E as (E4 & _ & _ & D4).
  destruct (serializeHeaders_writes s1.2 a b) as (e1 & W1 & C1).
  destruct (serializeFilterHeaders_writes s1.2 a b) as (e2 & W2 & C2).
  apply (create_write_close_Ok _ _ _ _ _ _ _ _ _ W1) in E3 as [H1 F3].
  apply (create_write_close_Ok _ _ _ _ _ _ _ _ _ W2) in E4 as [H2 F4].
  apply (collect_end _ _ _ C1) in H1. apply (collect_end _ _ _ C2) in H2.
  apply headers_collected in H1 as (hs' & Hhs' & O1). apply collect_all_Some in H2 as (fhs & Hfhs & O2).
  rewrite Hd in *. rewrite Hhs in Hhs'. simplify_eq.
  exists endHash, w, hs', fhs. split_and!; [done..| |congruence].
  by rewrite F4, F3, <- O1, <- O2, Hf.
Qed.

(** A segment that does not verify is not written at all. *)
Lemma hf_writeSealedFile_refused dir a b s r s' :
  hf_writeSealedFile dir a b s = (r, s') -> (verifyHeaders a b s).1 <> Ok tt ->
  e_fs s'.1 = e_fs s.1 /\ exists f err, r = Err (Wrapf f err).
Proof.
  unfold hf_writeSealedFile, bind at 1, wrapE. destruct (verifyHeaders a b s) as [[[]|err] s1] eqn:E; [done|].
  cbn. intros [= <- <-] _. split; [by apply (verifyHeaders_fetched _ _ _ _ _ E)|by eexists _, _].
Qed.
End HeaderFiles.
Arguments headerFiles {Wi}.

(** The filter header files are not listed with the header files. *)
Lemma cfheader_not_header dir a b :
  0 <= a < 10000000 -> 0 <= b < 10000000 ->
  is_entry dir ".header" (block_file FilterHeaderFileSuffix dir a b) = false.
Proof. intros. by apply (is_entry_different ".header" ".c" "fheader"). Qed.

(** ** Properties *)

Section Properties.
Context `{WireLaws} {W : Type} `{!Chain W}.
Implicit Types (s : Env W * headerFiles).


(** C18: a seal of the header producer writes both files completely and with
    exactly the stored entries, or fails; stored headers that do not form a
    chain ending in the backend's block are refused before any file is
    touched. *)
Theorem hf_writeSealedFile_spec dir a b s r s' :
  a <= b -> hf_writeSealedFile dir a b s = (r, s') ->
  (r = Ok tt -> exists endHash w hs fhs,
    GetBlockHash b (e_world s.1) = (Ok endHash, w) /\
    mapM (fun j => headers s.2 !! j) (range a b) = Some hs /\
    segment_end hs = Some endHash /\
    mapM (fun j => filterHeaders s.2 !! j) (range a b) = Some fhs /\
    fs_files (e_fs s'.1)
    = <[block_file FilterHeaderFileSuffix dir a b := concat fhs]>
        (<[block_file HeaderFileSuffix dir a b := headers_bytes hs]> (fs_files (e_fs s.1)))) /\
  ((forall hs endHash w, GetBlockHash b (e_world s.1) = (Ok endHash, w) ->
      mapM (fun j => headers s.2 !! j) (range a b) = Some hs -> segment_end hs <> Some endHash) ->
    e_fs s'.1 = e_fs s.1 /\ exists f err, r = Err (Wrapf f err)).
Proof.
  intros Hab E. split.
  - intros ->. apply hf_writeSealedFile_Ok in E as (h & w & hs & fhs & H1 & H2 & H3 & H4 & H5 & _); [|done].
    by exists h, w, hs, fhs.
  - intros Hno. eapply hf_writeSealedFile_refused; [done|].
    destruct (verifyHeaders a b s) as [rv sv] eqn:Ev. cbn. intros ->.
    apply verifyHeaders_Ok in Ev as (h & w & hs & H1 & H2 & H3); [|done]. by eapply Hno.
Qed.

(** C19: seal, then restart: after a successful seal of the next header file
    the cache loaded from disk maps every height, of the old files and of the
    new one, to the hash of its header. *)
Theorem seal_then_load dir segs hss a b s s' :
  dir_holds (e_fs s.1) dir ".header" segs ->
  (forall x y, (x, y) ∈ segs -> 0 <= x < a /\ 0 <= y < 10000000) ->
  0 <= a <= b -> b < 10000000 ->
  files_hold (e_fs s.1) (listFiles (e_fs s.1) dir ".header") hss ->
  Z.of_nat (length (concat hss)) = a -> fs_faults (e_fs s.1) = no_faults ->
  hf_writeSealedFile dir a b s = (Ok tt, s') ->
  exists hs e', mapM (fun j => headers s.2 !! j) (range a b) = Some hs /\
    loadFromHeaders dir s'.1 = (Ok b, e') /\
    forall j, 0 <= j <= b ->
      heightToHash (e_h2h e') !! j = BlockHash <$> (concat hss ++ hs) !! Z.to_nat j.
Proof.
  intros Hd Hseg Ha Hb Hf HL Hnf E.
  destruct (dir_holds_fresh (e_fs s.1) dir ".header" segs a b) as [Hfresh Hle]; [done|done|lia|lia|done|].
  destruct s as [e d]. assert (Hff : fs_faults (e_fs s'.1) = no_faults).
  { apply hf_writeSealedFile_wrote in E as [_ _ -> _]; done. }
  apply hf_writeSealedFile_Ok in E as (h & w & hs & fhs & _ & Hhs & _ & _ & Hfs & _); [|lia].
  cbn [fst snd] in *. exists hs.
  set (p := block_file HeaderFileSuffix dir a b) in *.
  set (q := block_file FilterHeaderFileSuffix dir a b) in *.
  assert (Hlist : listFiles (e_fs s'.1) dir ".header" = listFiles (e_fs e) dir ".header" ++ [p]).
  { transitivity (listFiles (set_file q (concat fhs) (set_file p (headers_bytes hs) (e_fs e))) dir ".header").
    - unfold listFiles. by rewrite Hfs.
    - rewrite listFiles_other by (apply cfheader_not_header; lia).
      apply listFiles_insert; [done| |done]. apply is_entry_same; done || lia. }
  assert (Hhold : files_hold (e_fs s'.1) (listFiles (e_fs s'.1) dir ".header") (hss ++ [hs])).
  { rewrite Hlist. apply Forall2_app; [|constructor; [|constructor]].
    - eapply Forall2_impl_in; [exact Hf|]. intros name x Hin Hr. unfold readable in *.
      rewrite Hfs, Hff. rewrite Hnf in Hr. rewrite !lookup_insert_ne; [done| |].
      + intros <-. apply Hd in Hin as (x0 & y0 & Hxy & Hp). destruct (Hseg _ _ Hxy).
        apply block_file_inj in Hp as [-> _]; lia.
      + intros <-. apply elem_of_listFiles in Hin as [_ Hin].
        unfold q in Hin. rewrite cfheader_not_header in Hin by lia. done.
    - unfold readable. rewrite Hfs, Hff, lookup_insert_ne, lookup_insert_eq; [done|].
      intros Hqp. apply (block_file_suffix_inj _ _ _ a b a b) in Hqp; done || lia. }
  assert (Htot : Z.of_nat (length (concat (hss ++ [hs]))) = b + 1).
  { rewrite concat_app, length_app. cbn. rewrite app_nil_r.
    apply mapM_Some, Forall2_length in Hhs. rewrite length_range in Hhs. lia. }
  unfold loadFromHeaders. rewrite (loadFiles_spec _ _ (hss ++ [hs])) by (done || (unfold max_int32; lia)).
  eexists. split; [done|]. rewrite Htot. i32norm.
  replace (0 + (b + 1) - 1) with b by lia. split; [done|].
  intros j Hj. cbn. rewrite lookup_store_headers, decide_True by lia.
  rewrite concat_app. cbn. by rewrite app_nil_r, Z.sub_0_r.
Qed.

(** A seal changes its two files only. *)
Lemma hf_writeSealedFile_frame dir a b s r s' p :
  hf_writeSealedFile dir a b s = (r, s') ->
  p <> block_file HeaderFileSuffix dir a b -> p <> block_file FilterHeaderFileSuffix dir a b ->
  fs_files (e_fs s'.1) !! p = fs_files (e_fs s.1) !! p.
Proof.
  intros E Hh Hc. unfold hf_writeSealedFile, bind at 1, wrapE in E.
  destruct (verifyHeaders a b s) as [r1 s1] eqn:E1.
  apply verifyHeaders_fetched in E1 as [_ <- _]. destruct r1 as [[]|e]; cbn in E; [|by simplify_eq].
  unfold bind, gets in E. destruct (inEnv _ s1) as [r2 s2] eqn:E2.
  apply inEnv_onFS_inv in E2 as (E2 & _). eapply create_write_close_frame in E2; [|exact Hh].
  destruct r2 as [[]|e]; [|simplify_eq; done].
  apply inEnv_onFS_inv in E as (E & _). eapply create_write_close_frame in E; [|exact Hc].
  by rewrite E.
Qed.


(** The sizes announced for the in-memory tail are exact: whenever the
    headers (filter headers) of a range are served, they are as many bytes as
    [headersSize] ([filterHeadersSize]) says. *)
Lemma headersSize_exact d a b w :
  0 <= a <= b -> b <= max_int32 -> b - a < max_int32 ->
  (serializeHeaders d a b (new_writer None) = (Ok tt, w) ->
     headersSize a b = Some (Z.of_nat (length (w_buf w)))) /\
  ((forall j x, filterHeaders d !! j = Some x -> is_hash x) ->
   serializeFilterHeaders d a b (new_writer None) = (Ok tt, w) ->
     filterHeadersSize a b = Some (Z.of_nat (length (w_buf w)))).
Proof.
  intros Ha Hb Hab. unfold headersSize, filterHeadersSize.
  rewrite (proj2 (Z.ltb_ge _ _)) by lia. i32norm.
  unfold MaxBlockHeaderPayload, HashSize. unfold max_int32 in *.
  rewrite !i64_id by (unfold max_int64; lia). split.
  - destruct (serializeHeaders_writes d a b) as (e & W1 & He). intros E.
    apply (writes_unlimited _ _ _ _ _ W1 He) in E.
    apply (length_collect_all _ _ 80) in E; [rewrite E, length_range; f_equal; lia|].
    intros j bs Hj. apply fmap_Some in Hj as (x & _ & ->). apply length_hdr_Serialize.
  - intros Hh. destruct (serializeFilterHeaders_writes d a b) as (e & W1 & He). intros E.
    apply (writes_unlimited _ _ _ _ _ W1 He) in E.
    apply (length_collect_all _ _ 32) in E; [rewrite E, length_range; f_equal; lia|done].
Qed.
End Properties.

(** *** Witnesses *)

(** A producer that has ingested four blocks. *)
Definition hf_example : Env toy_world * headerFiles :=
  (forM (range 0 3) hf_ingest
     (mkEnv (toy_env 4) (mkFS ∅ ∅ no_faults) newH2HCache, mkHF ∅ ∅)).2.

Definition toy_tip (n : nat) : Hash :=
  default zero_hash (BlockHash (Wire := toy_wire) <$> last (toy_headers n)).


Lemma hf_writeSealedFile_spec_witness :
  exists fhs, fs_files (e_fs (hf_writeSealedFile "d" 0 3 hf_example).2.1)
    !! block_file ".cfheader" "d" 0 3 = Some fhs.
Proof.
  destruct (hf_writeSealedFile_spec "d" 0 3 hf_example _ _ ltac:(lia) (surjective_pairing _)) as [Hok _].
  destruct Hok as (h & w & hs & fhs & _ & _ & _ & _ & ->); [vm_compute; reflexivity|].
  exists (concat fhs). apply lookup_insert_eq.
Defined.

Lemma seal_then_load_witness :
  exists hs e', mapM (fun j => headers hf_example.2 !! j) (range 0 3) = Some hs /\
    loadFromHeaders "d" (hf_writeSealedFile "d" 0 3 hf_example).2.1 = (Ok 3, e') /\
    heightToHash (e_h2h e') !! 2 = BlockHash <$> hs !! 2%nat.
Proof.
  destruct (seal_then_load "d" [] [] 0 3 hf_example (hf_writeSealedFile "d" 0 3 hf_example).2)
    as (hs & e' & H1 & H2 & H3).
  - intros p. vm_compute (listFiles _ _ _). split; [intros []%elem_of_nil|by intros (? & ? & []%elem_of_nil & _)].
  - by intros x y []%elem_of_nil.
  - lia.
  - lia.
  - vm_compute (listFiles _ _ _). constructor.
  - reflexivity.
  - vm_compute. reflexivity.
  - apply run_Ok. vm_compute. reflexivity.
  - exists hs, e'. split_and!; [done|done|]. apply (H3 2). lia.
Defined.

(** The disk refuses the second file of the first seal. *)
Definition hf_refused : Env toy_world * headerFiles :=
  (mkEnv (e_world hf_example.1)
     (mkFS ∅ ∅ {| fault_mkdir := fun _ => false;
                  fault_create := fun p => (p =? block_file ".cfheader" "/headers" 0 3)%string;
                  fault_quota := fun _ => None; fault_close := fun _ => false;
                  fault_open := fun _ => false; fault_read := fun _ => None;
                  fault_stat := fun _ => false; fault_rename := fun _ => false |})
     (e_h2h hf_example.1), hf_example.2).

