(* ===== verification/LifeCycle.v ===== *)
(** * Properties of the producer life cycle

    Stated for every producer that satisfies [HookLaws]; the witnesses run the
    header producer of [HeaderFiles]. *)

From Stdlib Require Import ZArith Lia.
From stdpp Require Import base numbers list strings gmap.
From S2P Require Import Prelude GoInt Bytes GoStr GoIO Iface Toy Files H2H Producer ProducerLaws ProducerSeal ProducerReorg HeaderFiles.

Local Open Scope Z_scope.

Section Sealing.
Context `{Wi : Wire} {W : Type} `{!Chain W} {D : Type}.
Context (hooks : producerHooks W D) (cfg : producerCfg).
Implicit Types (s : PState W D).

(** C6: the sealing loop is its schedule: it seals, in order, exactly the
    consecutive whole files between the last sealed height and the safe tip,
    stopping at the first error; no fuel runs out and no [int32] wraps. *)
Theorem sealReadyFiles_schedule s :
  seal_in_range cfg s ->
  sealReadyFiles hooks cfg s
  = forM (seal_schedule (entriesPerFile cfg) (lastSealedHeight s)
            (currentHeight s - reOrgSafeDepth cfg))
      (fun '(a, b) => sealFile hooks a b) s.
Proof. apply sealReadyFiles_eq. Qed.

Context `{HL : !HookLaws hooks}.

(** C7: after sealing without error no whole file is left below the safe tip,
    nothing above the safe tip was sealed, the sealed height is again a file
    boundary, and memory holds exactly the heights above it. *)
Theorem sealReadyFiles_complete s s' :
  valid_cfg cfg -> settled hooks cfg s ->
  sealReadyFiles hooks cfg s = (Ok tt, s') ->
  lastSealedHeight s <= lastSealedHeight s' /\
  lastSealedHeight s' <= Z.max (lastSealedHeight s) (currentHeight s - reOrgSafeDepth cfg) /\
  currentHeight s - reOrgSafeDepth cfg < lastSealedHeight s' + entriesPerFile cfg /\
  (lastSealedHeight s' + 1) mod entriesPerFile cfg = 0 /\
  forall h, is_Some (cachedHash hooks h (ps_data s')) <->
    lastSealedHeight s' < h <= currentHeight s'.
Proof.
  intros Hc Hs E. apply (sealReadyFiles_inv hooks cfg (currentHeight s + 1)) in E as [[I1 I2 I3 [I4 _] I5] Hok];
    [|done|done|lia].
  specialize (Hok eq_refl). split_and!; [done|lia|lia|apply I1|].
  intros h. rewrite (pinv_mem _ _ _ _ I1). lia.
Qed.

(** A failed write neither promotes the sealed height nor prunes memory:
    every ingested height is still there, to be sealed again. *)
Lemma sealFile_error_keeps_memory s e s' :
  valid_cfg cfg -> settled hooks cfg s ->
  lastSealedHeight s + entriesPerFile cfg <= currentHeight s ->
  sealFile hooks (lastSealedHeight s + 1) (lastSealedHeight s + entriesPerFile cfg) s = (Err e, s') ->
  lastSealedHeight s' = lastSealedHeight s /\ currentHeight s' = currentHeight s /\
  settled hooks cfg s'.
Proof.
  intros Hc Hs Hle E. apply (sealFile_pinv hooks cfg (currentHeight s + 1)) in E as (H1 & H2 & _ & _ & H3);
    [|done|done|lia].
  split_and!; [done|done|]. unfold settled. by rewrite H2.
Qed.
End Sealing.

Section Reorganizations.
Context `{Wi : Wire} {W : Type} `{!Chain W} {D : Type}.
Context (hooks : producerHooks W D) (cfg : producerCfg) `{HL : !HookLaws hooks}.
Context (P : W -> Prop) (chain : Z -> option Hash).
Implicit Types (s : PState W D).

(** The walk back returns the highest in-memory height where our hash is
    the backend's, and the last sealed height when there is none. *)
Lemma findCommonAncestor_highest tip s :
  reports P chain -> lastSealedHeight s <= tip -> P (e_world (ps_env s)) ->
  (forall h, lastSealedHeight s < h <= tip -> is_Some (ours hooks s h) -> is_Some (chain h)) ->
  exists w c, findCommonAncestor hooks tip s = (Ok c, set_world w s) /\
    (fork (lastSealedHeight s) tip (ours hooks s) chain c \/
     c = lastSealedHeight s /\
     forall h, lastSealedHeight s < h <= tip -> ~ agree (ours hooks s) chain h).
Proof.
  intros HP Ht Hw Hc. destruct (findCommonAncestor_eq hooks P chain HP tip s) as (w & c & _ & E & Hr); [done..|].
  by exists w, c.
Qed.

(** A producer with blocks in memory, and a backend at least as long. *)
Definition reorg_ready s : Prop :=
  settled hooks cfg s /\ 0 <= currentHeight s /\ lastSealedHeight s < currentHeight s /\
  P (e_world (ps_env s)) /\
  forall h, lastSealedHeight s < h <= currentHeight s -> is_Some (chain h).

Lemma reorg_ready_cases s :
  reports P chain -> reorg_ready s ->
  exists w, P w /\
    ((agree (ours hooks s) chain (currentHeight s) /\ handleReorg hooks s = (Ok tt, set_world w s)) \/
     (exists c, fork (lastSealedHeight s) (currentHeight s) (ours hooks s) chain c /\
        c < currentHeight s /\
        handleReorg hooks s = (Ok tt, rollback hooks c (set_world w s))) \/
     ((forall h, lastSealedHeight s < h <= currentHeight s -> ~ agree (ours hooks s) chain h) /\
        ~ agree (ours hooks s) chain (currentHeight s) /\
        exists f, handleReorg hooks s = (Err (Wrapf f errDeepReorg), set_world w s))).
Proof.
  intros HP (Hs & H0 & Hl & Hw & Hch). apply handleReorg_cases; try done; try lia.
  - apply (pinv_mem _ _ _ _ Hs). lia.
  - intros h Hh _. by apply Hch.
  - apply Hch. lia.
Qed.

(** C4: the three outcomes of [handleReorg]: the tip is still on the backend's
    chain and nothing happens; or the producer rolls back to the highest
    common height [c], keeping exactly the memory up to [c] and forgetting
    every shared cache entry above it, without touching a file; or no
    in-memory height is common and it refuses with [errDeepReorg], its state
    unchanged. *)
Theorem handleReorg_outcomes s :
  reports P chain -> reorg_ready s ->
  let '(r, s') := handleReorg hooks s in
  files_of s' = files_of s /\ lastSealedHeight s' = lastSealedHeight s /\
  (agree (ours hooks s) chain (currentHeight s) ->
     r = Ok tt /\ world_only s s') /\
  (forall c, fork (lastSealedHeight s) (currentHeight s) (ours hooks s) chain c ->
     c < currentHeight s ->
     r = Ok tt /\ currentHeight s' = c /\
     (forall h, ours hooks s' h = if decide (c < h) then None else ours hooks s h) /\
     (forall h, heightToHash (e_h2h (ps_env s')) !! h
                = if decide (c < h) then None else heightToHash (e_h2h (ps_env s)) !! h)) /\
  ((forall h, lastSealedHeight s < h <= currentHeight s -> ~ agree (ours hooks s) chain h) ->
     is_Ok r = false /\ world_only s s' /\
     forall e, r = Err e -> errors_Is e errDeepReorg = true).
Proof.
  intros HP Hr. pose proof Hr as ([P1 P2 P3 P4 P5 P6] & H0 & Hl & Hw & Hch).
  destruct (reorg_ready_cases s HP Hr) as (w & Pw & [[Ha E]|[(c & Hf & Hcc & E)|(Hno & Hnt & f & E)]]);
    rewrite E; (split; [done|split; [done|]]).
  - split_and!; [split; [done|by exists w]| |intros Hno; by destruct (Hno (currentHeight s) ltac:(lia))].
    intros c (Hlc & _ & Hab) Hcc. by destruct (Hab (currentHeight s) ltac:(lia)).
  - destruct Hf as (Hcr & Hca & Hcn). split_and!.
    + intros Ha. by destruct (Hcn (currentHeight s) ltac:(lia)).
    + intros c' (Hcr' & Hca' & Hcn') _.
      assert (c' = c) as ->.
      { destruct (Z.lt_trichotomy c c') as [?|[?|?]]; [|done|];
          [by destruct (Hcn c' ltac:(lia))|by destruct (Hcn' c ltac:(lia))]. }
      split_and!; [done|done| |].
      * intros h. unfold ours, rollback. cbn. rewrite prune_cached. unfold max_height in *. i32norm.
        destruct (decide (c < h)) as [Hch'|Hch']; [|by rewrite decide_False by lia].
        case_decide; [done|]. destruct (cachedHash hooks h (ps_data s)) eqn:Eh; [|done].
        assert (is_Some (cachedHash hooks h (ps_data s))) as Hs by (by rewrite Eh).
        apply P5 in Hs. lia.
      * intros h.
        change (heightToHash (invalidate (i32 (c + 1)) (e_h2h (ps_env s))) !! h
          = if decide (c < h) then None else heightToHash (e_h2h (ps_env s)) !! h).
        unfold max_height in *. i32norm. rewrite lookup_invalidate by done.
        apply decide_ext. lia.
    + intros Hno. by destruct (Hno c ltac:(lia)).
  - split_and!; [done| |].
    + intros c (Hcr & Hca & _) _. by destruct (Hno c ltac:(lia)).
    + intros _. split_and!; [done|by exists w|]. intros e [= <-]. cbn. by rewrite orb_true_r.
Qed.

(** C20: after a successful [handleReorg] everything the producer holds in
    memory is on the backend's chain, provided two chains that agree at a
    height agree below it. *)
Theorem handleReorg_on_chain s s' :
  reports P chain -> reorg_ready s ->
  (forall h h', lastSealedHeight s < h' <= h -> h <= currentHeight s ->
     agree (ours hooks s) chain h -> agree (ours hooks s) chain h') ->
  handleReorg hooks s = (Ok tt, s') ->
  forall h, lastSealedHeight s' < h <= currentHeight s' -> ours hooks s' h = chain h.
Proof.
  intros HP Hr Hprefix E h Hh. pose proof Hr as ([P1 P2 P3 P4 P5 P6] & H0 & Hl & _).
  destruct (reorg_ready_cases s HP Hr) as (w & _ & [[Ha E']|[(c & Hf & Hcc & E')|(_ & _ & f & E')]]);
    rewrite E in E'; simplify_eq; cbn in Hh.
  - destruct (Hprefix (currentHeight s) h ltac:(lia) ltac:(lia) Ha) as (x & Hx & Hx').
    unfold ours in *. cbn. congruence.
  - destruct Hf as (Hcr & Hca & _). destruct (Hprefix c h ltac:(lia) ltac:(lia) Hca) as (x & Hx & Hx').
    unfold ours in *. cbn. rewrite prune_cached. unfold max_height in *. i32norm.
    by rewrite decide_False, Hx, Hx' by lia.
Qed.
End Reorganizations.

Section Runs.
Context `{Wi : Wire} {W : Type} `{!Chain W} `{!BoundedChain} {D : Type}.
Context (hooks : producerHooks W D) (cfg : producerCfg) `{HL : !HookLaws hooks}.
Implicit Types (s : PState W D).

(** Any number of polls, against any backend and file system: the sealed
    height never goes back, files at or below it are never changed, and as
    long as no poll fails the producer stays settled (whole files sealed,
    memory exactly the heights above them up to the current one). *)
Lemma pollLoop_invariant polls s r s' :
  valid_cfg cfg -> settled hooks cfg s ->
  pollLoop hooks cfg polls s = (r, s') ->
  lastSealedHeight s <= lastSealedHeight s' /\
  (forall e p, 0 <= e <= lastSealedHeight s -> sealPath e p -> files_of s' !! p = files_of s !! p) /\
  (r = Ok tt -> settled hooks cfg s').
Proof.
  intros Hc Hs E. destruct (pollLoop_inv hooks cfg Hc polls s r s' Hs E) as [[Hsafe _] Hok].
  split_and!; [apply Hsafe| |done]. intros e p He Hp.
  eapply fsafe_immutable; [done|exact He| |exact Hp]. destruct Hs. lia.
Qed.

(** C1: a whole run of [updateFiles] on a directory of whole files: whatever
    the backend, the disk and the poll loop do, and however the run ends, the
    files sealed by earlier runs are left byte for byte as they were. *)
Theorem updateFiles_keeps_sealed polls numBlocks e d m r s' :
  valid_cfg cfg -> no_slash (fileSuffix cfg) = true ->
  find_submatch (fileSuffix cfg) (fileDir cfg) = None ->
  1 < m * entriesPerFile cfg <= 10000000 ->
  dir_holds (e_fs e) (fileDir cfg) (fileSuffix cfg) (whole_files (entriesPerFile cfg) m) ->
  (forall h, cachedHash hooks h d = None) -> h2h_ok (e_h2h e) -> 0 <= numBlocks < max_height ->
  updateFiles hooks cfg polls numBlocks (newProducer e d) = (r, s') ->
  (forall h p, 0 <= h < m * entriesPerFile cfg -> sealPath h p ->
     files_of s' !! p = fs_files (e_fs e) !! p) /\
  (r = Ok tt -> settled hooks cfg s' /\ startupComplete s' = true).
Proof.
  intros Hc Hs Hdir Hm Hd He Hh Hn E. destruct Hc as [Hn0 Hd0].
  assert (resume_last cfg e = Some (m * entriesPerFile cfg - 1)) as Hl.
  { unfold resume_last. rewrite (lastFile_whole_files _ _ _ (entriesPerFile cfg) m) by (done || nia).
    by rewrite (proj2 (Z.ltb_lt _ _)) by lia. }
  apply (updateFiles_inv hooks cfg) in E as [Himm Hok]; try done.
  - split; [|done]. intros h p Hr Hp. eapply Himm; [done| |done]. lia.
  - intros l. rewrite Hl. intros [= <-]. unfold max_height.
    replace (m * entriesPerFile cfg - 1 + 1) with (m * entriesPerFile cfg) by lia.
    split; [apply Z.mod_mul; lia|lia].
Qed.

(** A restart resumes at the height after the last whole file, with the
    sealed and current heights at its end; an empty directory resumes at
    genesis. *)
Lemma resumeHeights_whole_files e d m :
  0 < entriesPerFile cfg -> no_slash (fileSuffix cfg) = true ->
  find_submatch (fileSuffix cfg) (fileDir cfg) = None ->
  fs_faults (e_fs e) = no_faults ->
  dir_holds (e_fs e) (fileDir cfg) (fileSuffix cfg) (whole_files (entriesPerFile cfg) m) ->
  (m = 0 \/ 1 < m * entriesPerFile cfg <= 10000000) ->
  exists s, resumeHeights cfg (newProducer e d) = (Ok (m * entriesPerFile cfg), s) /\
    lastSealedHeight s = m * entriesPerFile cfg - 1 /\
    currentHeight s = Z.max 0 (m * entriesPerFile cfg - 1) /\ ps_data s = d.
Proof.
  intros Hn Hs Hdir Hf Hd Hm.
  assert (lastFile (e_fs e) (fileDir cfg) (fileSuffix cfg)
          = Ok (Z.max 0 (m * entriesPerFile cfg - 1))) as Hl.
  { destruct Hm as [->|Hm]; [by apply lastFile_empty|].
    rewrite (lastFile_whole_files _ _ _ (entriesPerFile cfg) m) by (done || nia). f_equal. lia. }
  destruct (resumeHeights_last cfg e d _ Hf Hl) as (s & E & H1 & H2 & H3); [lia|].
  exists s. rewrite E, H1, H2. destruct (Z.ltb_spec 0 (Z.max 0 (m * entriesPerFile cfg - 1)));
    split_and!; do 2 f_equal; lia || done.
Qed.

(** A server shutdown stops a poll, or the next ingested block, with
    [errServerShutdown], before anything else is done. *)
Lemma shutdown_stops s w a b :
  quitClosed (e_world (ps_env s)) = (true, w) -> a <= b ->
  pollOnce hooks cfg s = (Err errServerShutdown, set_world w s) /\
  updateCacheAndFiles hooks cfg a b s = (Err errServerShutdown, set_world w s).
Proof.
  intros Hq Hab. assert (checkQuit s = (Err errServerShutdown, set_world w s)) as E.
  { unfold checkQuit, bind, onEnv, onWorld, zoom. by rewrite Hq. }
  split.
  - unfold pollOnce. by apply bind_Err.
  - unfold updateCacheAndFiles. rewrite range_cons by done. cbn [forM].
    apply bind_Err. unfold ingestBlock. by apply bind_Err.
Qed.
End Runs.

(** *** Witnesses *)

(** The header producer on a chain of six blocks, two headers per file. *)
Definition lc_hooks : producerHooks toy_world headerFiles := headerHooks "/b".
Definition lc_cfg (depth : Z) : producerCfg := headerCfg 2 depth "/b".
Definition lc_start (w : toy_world) : PState toy_world headerFiles :=
  newHeaderFiles (mkEnv w (mkFS ∅ ∅ no_faults) newH2HCache).

(** The example states are sealed: conversion would run the producer to
    compare them. Nothing sealed on disk yet: the safe depth is more than the chain. *)
Definition lc_unsealed_aux : seal (updateFiles lc_hooks (lc_cfg 100) 0 5 (lc_start (toy_env 6))).2.
Proof. by eexists. Qed.
Definition lc_unsealed : PState toy_world headerFiles := lc_unsealed_aux.(unseal).
Definition lc_unsealed_eq : lc_unsealed = _ := lc_unsealed_aux.(seal_eq).
(** Two files sealed, two heights in memory. *)
Definition lc_sealed_aux : seal (updateFiles lc_hooks (lc_cfg 2) 0 5 (lc_start (toy_env 6))).2.
Proof. by eexists. Qed.
Definition lc_sealed : PState toy_world headerFiles := lc_sealed_aux.(unseal).
Definition lc_sealed_eq : lc_sealed = _ := lc_sealed_aux.(seal_eq).

(** The backend after a reorganization of the blocks above height 3. *)
Definition lc_fork : toy_world :=
  mkToy (take 4 (toy_blocks 6 zero_hash 0) ++ toy_blocks 4 (toy_tip 4) 100) [] None.
Definition lc_reorged : PState toy_world headerFiles := set_world lc_fork lc_unsealed.

(** Evaluate a closed goal about the example states. *)
Ltac lc_compute := unfold lc_reorged; rewrite ?lc_unsealed_eq, ?lc_sealed_eq; vm_compute; reflexivity.

Definition toy_reported (w : toy_world) (h : Z) : option Hash :=
  if h <? 0 then None else BlockHash <$> (tb_header <$> tw_now w !! Z.to_nat h).

Lemma toy_reports w : reports (eq w) (toy_reported w).
Proof.
  intros w' h <-. exists w. split; [done|]. unfold toy_reported. cbn. unfold toy_GetBlockHash.
  destruct (h <? 0); [by eexists|]. destruct (tw_now w !! Z.to_nat h); [done|by eexists].
Qed.

Lemma lc_valid depth : 0 <= depth <= 10000000 -> valid_cfg (lc_cfg depth).
Proof. intros. split; cbn; lia. Qed.

Lemma lc_resume depth : resume_last (lc_cfg depth) (ps_env (lc_start (toy_env 6))) = Some (-1).
Proof. vm_compute. reflexivity. Qed.

Lemma lc_start_settled depth s :
  0 <= depth <= 10000000 ->
  updateFiles lc_hooks (lc_cfg depth) 0 5 (lc_start (toy_env 6)) = (Ok tt, s) ->
  settled lc_hooks (lc_cfg 2) s.
Proof.
  intros Hd E.
  apply (updateFiles_inv lc_hooks (lc_cfg depth) (lc_valid depth Hd)) in E as [_ G].
  - destruct (G eq_refl) as [[P1 P2 P3 P4 P5 P6] _]. by split.
  - intros l Hl. pose proof (lc_resume depth) as Hr. cbn in Hr. rewrite Hr in Hl.
    injection Hl as <-. split; [reflexivity|unfold max_height; lia].
  - intros h. cbn. unfold hf_cachedHash. cbn. by rewrite lookup_empty.
  - apply newH2HCache_ok.
  - clear. split; [lia|reflexivity].
Qed.

Lemma lc_unsealed_settled : settled lc_hooks (lc_cfg 2) lc_unsealed.
Proof. rewrite lc_unsealed_eq. apply (lc_start_settled 100); [lia|]. apply run_Ok. vm_compute. reflexivity. Qed.

Lemma lc_sealed_settled : settled lc_hooks (lc_cfg 2) lc_sealed.
Proof. rewrite lc_sealed_eq. apply (lc_start_settled 2); [lia|]. apply run_Ok. vm_compute. reflexivity. Qed.

Lemma lc_reorged_sealed : lastSealedHeight lc_reorged = -1.
Proof. lc_compute. Qed.
Lemma lc_reorged_current : currentHeight lc_reorged = 5.
Proof. lc_compute. Qed.

Lemma lc_reorg_ready : reorg_ready lc_hooks (lc_cfg 2) (eq lc_fork) (toy_reported lc_fork) lc_reorged.
Proof.
  unfold reorg_ready. rewrite lc_reorged_sealed, lc_reorged_current.
  split; [|split; [lia|split; [lia|split; [reflexivity|]]]].
  - apply (world_only_settled lc_hooks (lc_cfg 2) lc_unsealed); [by exists lc_fork|apply lc_unsealed_settled].
  - intros h Hh. unfold toy_reported. rewrite (proj2 (Z.ltb_ge _ _)) by lia.
    rewrite !fmap_is_Some. apply lookup_lt_is_Some_2. vm_compute (length _). lia.
Qed.

Lemma sealReadyFiles_schedule_witness :
  sealReadyFiles lc_hooks (lc_cfg 2) lc_unsealed
  = forM [(0, 1); (2, 3)] (fun '(a, b) => sealFile lc_hooks a b) lc_unsealed.
Proof.
  assert (seal_schedule 2 (lastSealedHeight lc_unsealed) (currentHeight lc_unsealed - 2)
          = [(0, 1); (2, 3)]) as E by lc_compute.
  rewrite <- E. apply (sealReadyFiles_schedule lc_hooks (lc_cfg 2)).
  rewrite lc_unsealed_eq. vm_compute. split_and!; done.
Defined.

Lemma sealReadyFiles_complete_witness :
  currentHeight lc_unsealed - 2
  < lastSealedHeight (sealReadyFiles lc_hooks (lc_cfg 2) lc_unsealed).2 + 2.
Proof.
  destruct (sealReadyFiles_complete lc_hooks (lc_cfg 2) lc_unsealed
              (sealReadyFiles lc_hooks (lc_cfg 2) lc_unsealed).2) as (_ & _ & H & _).
  - apply lc_valid; lia.
  - apply lc_unsealed_settled.
  - apply run_Ok. lc_compute.
  - exact H.
Defined.

Lemma lc_fork_at : fork (-1) 5 (ours lc_hooks lc_reorged) (toy_reported lc_fork) 3.
Proof.
  split_and!; [lia|lia|..].
  - exists (toy_tip 4). split; lc_compute.
  - unfold lc_reorged. rewrite lc_unsealed_eq.
    intros h Hh (x & H1 & H2). assert (h = 4 \/ h = 5) as [-> | ->] by lia;
      vm_compute in H1; vm_compute in H2; congruence.
Qed.

Lemma handleReorg_outcomes_witness :
  (handleReorg lc_hooks lc_reorged).1 = Ok tt /\ currentHeight (handleReorg lc_hooks lc_reorged).2 = 3.
Proof.
  pose proof (handleReorg_outcomes lc_hooks (lc_cfg 2) (eq lc_fork) (toy_reported lc_fork) lc_reorged
                (toy_reports _) lc_reorg_ready) as G.
  destruct (handleReorg lc_hooks lc_reorged) as [r s'].
  destruct G as (_ & _ & _ & G & _). rewrite lc_reorged_sealed, lc_reorged_current in G.
  destruct (G 3 lc_fork_at) as (H1 & H2 & _); [lia|].
  split; [exact H1|exact H2].
Defined.

Lemma lc_agree_prefix h :
  -1 < h <= 5 -> agree (ours lc_hooks lc_reorged) (toy_reported lc_fork) h <-> h <= 3.
Proof.
  intros Hh. split.
  - intros Ha. destruct (decide (h <= 3)) as [|Hn]; [done|].
    destruct lc_fork_at as (_ & _ & Hno). by destruct (Hno h ltac:(lia)).
  - intros H3. exists (default zero_hash (toy_reported lc_fork h)).
    assert (h = 0 \/ h = 1 \/ h = 2 \/ h = 3) as Hcases by lia.
    destruct Hcases as [-> | [-> | [-> | ->]]]; split; lc_compute.
Qed.

Lemma handleReorg_on_chain_witness :
  ours lc_hooks (handleReorg lc_hooks lc_reorged).2 2 = toy_reported lc_fork 2.
Proof.
  apply (handleReorg_on_chain lc_hooks (lc_cfg 2) (eq lc_fork) (toy_reported lc_fork) lc_reorged).
  - apply toy_reports.
  - apply lc_reorg_ready.
  - intros h h' Hh Hc Ha.
    rewrite lc_reorged_sealed in Hh. rewrite lc_reorged_current in Hc.
    apply lc_agree_prefix in Ha; [|lia]. apply lc_agree_prefix; lia.
  - apply run_Ok. lc_compute.
  - unfold lc_reorged. rewrite lc_unsealed_eq. vm_compute. split; [reflexivity|discriminate].
Defined.

(** The disk after [lc_sealed], read by a new process. *)
Lemma lc_sealed_dir :
  dir_holds (e_fs (ps_env lc_sealed)) (fileDir (lc_cfg 2)) ".header" (whole_files 2 2).
Proof.
  intros p. rewrite lc_sealed_eq. vm_compute (listFiles _ _ _). vm_compute (whole_files _ _).
  rewrite !elem_of_cons, elem_of_nil. split.
  - intros [->|[->|[]]]; [exists 0, 1|exists 2, 3]; (split; [set_solver|vm_compute; reflexivity]).
  - intros (a & b & Hab & ->). set_unfold. destruct Hab as [[= -> ->]|[[= -> ->]|[]]]; vm_compute; tauto.
Qed.

Lemma updateFiles_keeps_sealed_witness :
  files_of (updateFiles lc_hooks (lc_cfg 2) 1 9
    (newProducer (mkEnv lc_fork (e_fs (ps_env lc_sealed)) newH2HCache) (mkHF ∅ ∅))).2
    !! block_file ".header" "/b/headers" 0 1
  = fs_files (e_fs (ps_env lc_sealed)) !! block_file ".header" "/b/headers" 0 1.
Proof.
  destruct (updateFiles lc_hooks (lc_cfg 2) 1 9
    (newProducer (mkEnv lc_fork (e_fs (ps_env lc_sealed)) newH2HCache) (mkHF ∅ ∅))) as [r s'] eqn:E.
  destruct (updateFiles_keeps_sealed lc_hooks (lc_cfg 2) 1 9
    (mkEnv lc_fork (e_fs (ps_env lc_sealed)) newH2HCache) (mkHF ∅ ∅) 2 r s') as [G _].
  - apply lc_valid; lia.
  - reflexivity.
  - vm_compute. reflexivity.
  - cbn. lia.
  - apply lc_sealed_dir.
  - intros h. cbn. unfold hf_cachedHash. cbn. by rewrite lookup_empty.
  - apply newH2HCache_ok.
  - by vm_compute.
  - exact E.
  - apply (G 1); [cbn; lia|]. exists 0, HeaderFileSuffix. split; [lia|]. split; [by left|].
    vm_compute. reflexivity.
Defined.

