(* ===== verification/CFilterFiles.v ===== *)
(** * Compact filters on disk

    [cfilter-files.go]: the producer of the [.cfilter] files. *)

From Stdlib Require Import ZArith Lia.
From stdpp Require Import base numbers list strings gmap.
From S2P Require Import Prelude GoInt Bytes GoStr GoIO Iface Toy Files H2H Producer ProducerLaws ProducerSeal ProducerReorg.

Local Open Scope Z_scope.

Definition FilterFileDir : str := "filters".
Definition FilterFileSuffix : str := ".cfilter".

Section CFilterFiles.
Context `{Wi : Wire} {W : Type} `{!Chain W}.

(** The in-memory part of [cFilterFiles]. *)
Record cFilterFiles := mkCF {
  filters : gmap Z bytes;
  cf_heightToHash : gmap Z Hash
}.

(** [ingest]: what it fetches, then what it stores under the lock. *)
Definition cf_fetch (height : Z) : M (Env W * cFilterFiles) (Hash * bytes) :=
  let! hash := wrapE "error getting block hash for height %d: %w"
                 (inEnv (getBlockHash height)) in
  let! filter := wrapE "error getting block filter for hash %s: %w"
                   (inEnv (onWorld (GetBlockFilter hash))) in
  let! filterBytes := wrapE "error parsing filter bytes for hash %s: %w"
                        (liftR (hex_DecodeString (fr_Filter filter))) in
  ret (hash, filterBytes).
Definition cf_ingest (height : Z) : M (Env W * cFilterFiles) unit :=
  let! hf := cf_fetch height in
  inData (fun c => mkCF (<[height := hf.2]> (filters c))
                        (<[height := hf.1]> (cf_heightToHash c))).

(** *** Serialization *)

(** [serializeFiltersLocked] *)
Definition serializeFilters (c : cFilterFiles) (startIndex endIndex : Z) : M Writer unit :=
  forM (range startIndex endIndex) (fun j =>
    match filters c !! j with
    | None => fail (Errorf "missing filter at height %d")
    | Some filter => wrapE "error writing filters: %w" (w_Write (WriteVarBytes filter))
    end).

(** [filterAtHeight] *)
Definition filterAtHeight (c : cFilterFiles) (height : Z) : option bytes := filters c !! height.

(** [filtersSize]: the loop sums in [int64]; a missing filter ends it. *)
Definition sizeStep (c : cFilterFiles) (total : option Z) (j : Z) : option Z :=
  match total, filters c !! j with
  | Some t, Some filter =>
      let n := Z.of_nat (length filter) in
      Some (i64 (t + i64 (VarIntSerializeSize (u64 n) + n)))
  | _, _ => None
  end.
Definition filtersSize (c : cFilterFiles) (startIndex endIndex : Z) : option Z :=
  foldl (sizeStep c) (Some 0) (range startIndex endIndex).

(** [writeFilters] *)
Definition writeFilters (c : cFilterFiles) (fileName : str) (startIndex endIndex : Z) : M FS unit :=
  create_write_close "error creating file %s: %w" "error writing filters to file %s: %w"
    "error closing file %s: %w" fileName (serializeFilters c startIndex endIndex).

(** *** Sealing *)

(** [authHeader] of [verifyFilters] *)
Definition authHeader (height : Z) : M (Env W * cFilterFiles) Hash :=
  let! hash := wrapE "error getting block hash at %d: %w" (inEnv (getBlockHash height)) in
  let! filter := wrapE "error getting filter at %d: %w"
                   (inEnv (onWorld (GetBlockFilter hash))) in
  liftR (NewHashFromStr (fr_Header filter)).

(** Where the chain of a file starts: the zero hash for the genesis block. *)
Definition startHeader (fileStart : Z) : M (Env W * cFilterFiles) Hash :=
  if 0 <? fileStart then authHeader (i32 (fileStart - 1)) else ret zero_hash.

(** The body of the loop of [verifyFilters]. *)
Definition filterStep (c : cFilterFiles) (prevHeader : Hash) (height : Z) : result Hash :=
  match filters c !! height with
  | None => Err (Errorf "missing filter at height %d")
  | Some filter => Ok (DoubleHash (DoubleHash filter ++ prevHeader))
  end.

(** [verifyFilters] *)
Definition verifyFilters (fileStart fileEnd : Z) : M (Env W * cFilterFiles) unit :=
  let! prevHeader := startHeader fileStart in
  let! wantEnd := authHeader fileEnd in
  let! c := gets snd in
  let! prevHeader := liftR (res_fold (filterStep c) prevHeader (range fileStart fileEnd)) in
  if bool_decide (prevHeader = wantEnd) then ret tt
  else fail (Errorf "filter chain of heights %d-%d does not match the backend's filter header at %d (got %s, want %s); at least one filter belongs to a reorged-away block").

(** [writeSealedFile] *)
Definition cf_writeSealedFile (filterDir : str) (fileStart fileEnd : Z)
  : M (Env W * cFilterFiles) unit :=
  wrapE "refusing to seal filters %d-%d: %w" (verifyFilters fileStart fileEnd) ;;;
  let! c := gets snd in
  inEnv (onFS (writeFilters c (block_file FilterFileSuffix filterDir fileStart fileEnd)
                 fileStart fileEnd)).

(** [pruneLocked] *)
Definition cf_pruneLocked (start end_ : Z) (c : cFilterFiles) : cFilterFiles :=
  mkCF (delete_range start end_ (filters c)) (delete_range start end_ (cf_heightToHash c)).

(** [cachedHash] *)
Definition cf_cachedHash (height : Z) (c : cFilterFiles) : option Hash :=
  cf_heightToHash c !! height.

(** [newCFilterFiles] *)
Definition filterCfg (filtersPerFile depth : Z) (baseDir : str) : producerCfg :=
  mkCfg "filter" baseDir FilterFileDir FilterFileSuffix filtersPerFile depth.

Definition filterHooks (baseDir : str) : producerHooks W cFilterFiles :=
  mkHooks cf_ingest (cf_writeSealedFile (filepath_Join baseDir FilterFileDir))
    cf_pruneLocked cf_cachedHash None.

Definition newCFilterFiles (e : Env W) : PState W cFilterFiles := newProducer e (mkCF ∅ ∅).

(** ** The laws of the hooks *)

Lemma cf_fetch_fetched h : keeps fetched (cf_fetch h).
Proof. unfold cf_fetch. eauto 20 with go. Qed.

Lemma authHeader_fetched h : keeps fetched (authHeader h).
Proof. unfold authHeader. eauto 20 with go. Qed.
#[local] Hint Resolve authHeader_fetched : go.

Lemma startHeader_fetched a : keeps fetched (startHeader a).
Proof. unfold startHeader. destruct (0 <? a); auto with go. Qed.
#[local] Hint Resolve startHeader_fetched : go.

Lemma verifyFilters_fetched a b : keeps fetched (verifyFilters a b).
Proof.
  unfold verifyFilters.
  repeat (apply keeps_bind; [apply _|auto with go|intros ?]).
  case_bool_decide; auto with go.
Qed.

Definition cf_sealPath (filterDir : str) (e : Z) (p : str) : Prop :=
  exists a, 0 <= a < 10000000 /\ p = block_file FilterFileSuffix filterDir a e.

Lemma cf_writeSealedFile_wrote dir a b :
  0 <= a <= b -> b < 10000000 -> keeps (wrote (cf_sealPath dir b)) (cf_writeSealedFile dir a b).
Proof.
  intros Ha Hb. unfold cf_writeSealedFile.
  apply keeps_bind; [apply _| |intros _].
  { apply keeps_wrapE. eapply keeps_sub; [apply fetched_wrote|apply verifyFilters_fetched]. }
  apply keeps_bind; [apply _|auto with go|intros c].
  apply wrote_create_write_close. exists a. split; [lia|done].
Qed.

#[export] Instance filter_laws baseDir : HookLaws (filterHooks baseDir).
Proof.
  refine {| sealPath := cf_sealPath (filepath_Join baseDir FilterFileDir) |}.
  - intros e e' p He He' (a & Ha & ->) (a' & Ha' & E).
    by apply block_file_inj_full in E as (_ & _ & -> & _).
  - intros h s r s' E. apply fetch_then_store in E as (? & ? & _); [done|apply cf_fetch_fetched].
  - intros h s s' E. apply fetch_then_store in E as (_ & _ & Hok & _); [|apply cf_fetch_fetched].
    destruct (Hok eq_refl) as ([hash f] & _ & ->). cbn. unfold cf_cachedHash. cbn. split.
    + rewrite lookup_insert_eq. by eexists.
    + intros h' Hne. by rewrite lookup_insert_ne.
  - intros a b s r s' Ha Hb E. apply cf_writeSealedFile_wrote in E as [_ ? ? ?]; done.
  - intros a b s r s' h Ha Hb E. apply cf_writeSealedFile_wrote in E as [-> _ _ _]; done.
  - intros a b d h. cbn. unfold cf_cachedHash, cf_pruneLocked. cbn.
    rewrite lookup_delete_range. by case_decide.
  - done.
Defined.

(** ** What is verified and written *)

Lemma filter_fold c prev a b x :
  res_fold (filterStep c) prev (range a b) = Ok x <->
  exists fs, mapM (fun j => filters c !! j) (range a b) = Some fs /\ foldl filter_step prev fs = x.
Proof.
  generalize (range a b). intros l. revert prev. induction l as [|j l IH]; intros prev.
  - cbn [res_fold]. setoid_rewrite mapM_nil_Some.
    split; [intros [= <-]; by exists []|intros (fs & -> & E); by rewrite <- E].
  - cbn [res_fold]. setoid_rewrite mapM_cons_Some. unfold filterStep at 1.
    destruct (filters c !! j) as [f|]; cbn [res_bind].
    + rewrite IH. split.
      * intros (fs & E & E2). exists (f :: fs). split; [by exists f, fs|done].
      * intros (fs & (f' & t & [= <-] & E & ->) & E2). by exists t.
    + split; [done|]. by intros (fs & (? & ? & ? & _) & _).
Qed.

(** A successful verification: the header it compares with, and the filters
    it chained. *)
Lemma verifyFilters_Ok a b s s' :
  verifyFilters a b s = (Ok tt, s') ->
  exists prev wantEnd fs, (startHeader a s).1 = Ok prev /\
    (authHeader b (startHeader a s).2).1 = Ok wantEnd /\
    mapM (fun j => filters s.2 !! j) (range a b) = Some fs /\
    foldl filter_step prev fs = wantEnd.
Proof.
  unfold verifyFilters. intros (prev & s1 & E1 & E)%bind_Ok_inv.
  apply bind_Ok_inv in E as (wantEnd & s2 & E2 & E).
  apply bind_Ok_inv in E as (c & s3 & [= <- <-] & E).
  apply bind_Ok_inv in E as (x & s4 & [= E4 <-] & E).
  case_bool_decide as Hx; [|done]. subst x.
  apply filter_fold in E4 as (fs & Hfs & Hx).
  pose proof (startHeader_fetched _ _ _ _ E1) as F1.
  pose proof (authHeader_fetched _ _ _ _ E2) as F2.
  exists prev, wantEnd, fs. rewrite E1. cbn. rewrite E2.
  by rewrite (fe_data _ _ F2), (fe_data _ _ F1) in Hfs.
Qed.

Lemma serializeFilters_writes c a b :
  exists e, writes (serializeFilters c a b) (collect (fun j => WriteVarBytes <$> filters c !! j) (range a b)).1 e /\
    (e = None <-> (collect (fun j => WriteVarBytes <$> filters c !! j) (range a b)).2 = true).
Proof.
  apply (writes_range _ _ _ (fun _ => Errorf "missing filter at height %d")).
  - intros j bs E. destruct (filters c !! j); [|done]. cbn in E. simplify_eq.
    apply (writes_wrapE _ _ _ None), writes_Write.
  - intros j E. destruct (filters c !! j); [done|]. apply writes_fail.
Qed.

(** The encoding of a filter file. *)
Definition filters_bytes (fs : list bytes) : bytes := concat (map WriteVarBytes fs).

Lemma cf_writeSealedFile_Ok dir a b s s' :
  cf_writeSealedFile dir a b s = (Ok tt, s') ->
  exists fs sv, verifyFilters a b s = (Ok tt, sv) /\
    mapM (fun j => filters s.2 !! j) (range a b) = Some fs /\
    fs_files (e_fs s'.1) = <[block_file FilterFileSuffix dir a b := filters_bytes fs]> (fs_files (e_fs s.1)) /\
    fs_faults (e_fs s'.1) = fs_faults (e_fs s.1) /\ s'.2 = s.2.
Proof.
  unfold cf_writeSealedFile. intros ([] & s1 & E1%wrapE_Ok_inv & E)%bind_Ok_inv.
  pose proof (verifyFilters_fetched _ _ _ _ _ E1) as [Hd Hf _].
  apply bind_Ok_inv in E as (c & s2 & [= <- <-] & E).
  apply inEnv_onFS_inv in E as (E & _ & _ & D).
  destruct (serializeFilters_writes s1.2 a b) as (e & W1 & C1).
  pose proof (create_write_close_env _ _ _ _ _ _ _ _ E) as [_ Hfaults].
  apply (create_write_close_Ok _ _ _ _ _ _ _ _ _ W1) in E as [H1 F].
  apply (collect_end _ _ _ C1), collect_all_Some in H1 as (ch & Hch & O). rewrite Hd in *.
  rewrite mapM_fmap_Some in Hch. destruct Hch as (fs & Hfs & ->).
  exists fs, s1. split_and!; [done|done| |congruence|congruence].
  by rewrite F, <- Hf, O.
Qed.
End CFilterFiles.

(** ** Properties *)

Section Properties.
Context `{WireLaws} {W : Type} `{!Chain W}.
Implicit Types (s : Env W * cFilterFiles).


(** A seal of the filter producer writes exactly the stored filters, each
    with its var-int length, and only after they verified; filters that do not
    verify leave every file untouched. *)
Lemma cf_writeSealedFile_spec dir a b s r s' :
  cf_writeSealedFile dir a b s = (r, s') ->
  (r = Ok tt -> exists fs sv, verifyFilters a b s = (Ok tt, sv) /\
     mapM (fun j => filters s.2 !! j) (range a b) = Some fs /\
     fs_files (e_fs s'.1)
     = <[block_file FilterFileSuffix dir a b := filters_bytes fs]> (fs_files (e_fs s.1))) /\
  ((verifyFilters a b s).1 <> Ok tt ->
     e_fs s'.1 = e_fs s.1 /\ exists err, r = Err (Wrapf "refusing to seal filters %d-%d: %w" err)).
Proof.
  intros E. split.
  - intros ->. apply cf_writeSealedFile_Ok in E as (fs & sv & H1 & H2 & H3 & _). by exists fs, sv.
  - unfold cf_writeSealedFile, bind at 1, wrapE in E.
    destruct (verifyFilters a b s) as [[[]|err] s1] eqn:Ev; [done|]. cbn in E.
    injection E as <- <-. intros _. split; [|by eexists]. by apply (verifyFilters_fetched _ _ _ _ _ Ev).
Qed.

Lemma length_WriteVarBytes f :
  Z.of_nat (length f) < 18446744073709551616 ->
  Z.of_nat (length (WriteVarBytes f)) = VarIntSerializeSize (Z.of_nat (length f)) + Z.of_nat (length f).
Proof.
  intros Hb. rewrite WriteVarBytes_eq, length_app, Nat2Z.inj_add.
  by rewrite (VarIntSerializeSize_length (Z.of_nat (length f))) by (unfold uint64; lia).
Qed.

Lemma filtersSize_missing c l :
  foldl (sizeStep c) None l = None.
Proof. by induction l. Qed.

Lemma filtersSize_acc c l t out :
  collect_all (fun j => WriteVarBytes <$> filters c !! j) l = Some out ->
  0 <= t -> t + Z.of_nat (length out) <= max_int64 ->
  foldl (sizeStep c) (Some t) l = Some (t + Z.of_nat (length out)).
Proof.
  revert t out. induction l as [|j l IH]; intros t out E Ht Hb.
  - unfold collect_all in E. cbn in E. injection E as <-. cbn. f_equal. lia.
  - rewrite collect_all_cons in E. cbn [foldl]. unfold sizeStep at 2. destruct (filters c !! j) as [f|]; [|done].
    cbn in E. destruct (collect_all _ l) as [o|]; [|done]. injection E as <-.
    rewrite length_app, Nat2Z.inj_add in *. unfold max_int64 in *.
    assert (Hw : Z.of_nat (length f) <= Z.of_nat (length (WriteVarBytes f)))
      by (rewrite WriteVarBytes_eq, length_app; lia).
    pose proof (length_WriteVarBytes f ltac:(lia)) as HL.
    cbn zeta.     rewrite u64_id by (unfold uint64; lia). rewrite <- HL.
    rewrite (i64_id (Z.of_nat _)), i64_id by (unfold max_int64; lia). rewrite (IH _ o) by (done || lia). f_equal. lia.
Qed.

(** The announced size of in-memory filters is exact: it is the number of
    bytes served, and it is known exactly when every filter of the range is in
    memory. *)
Lemma filtersSize_exact c a b :
  (forall w, serializeFilters c a b (new_writer None) = (Ok tt, w) ->
     Z.of_nat (length (w_buf w)) <= max_int64 ->
     filtersSize c a b = Some (Z.of_nat (length (w_buf w)))) /\
  (forall n, filtersSize c a b = Some n ->
     exists w, serializeFilters c a b (new_writer None) = (Ok tt, w)).
Proof.
  destruct (serializeFilters_writes c a b) as (e & W1 & He). split.
  - intros w E Hb. apply (writes_unlimited _ _ _ _ _ W1 He) in E.
    unfold filtersSize. by rewrite (filtersSize_acc _ _ 0 _ E) by (done || lia).
  - intros n E. assert (Hall : is_Some (collect_all (fun j => WriteVarBytes <$> filters c !! j) (range a b))).
    { clear W1 He. apply collect_all_is_Some. unfold filtersSize in E. revert E. generalize 0 as t.
      induction (range a b) as [|j l IH]; intros t E i Hi; [by apply elem_of_nil in Hi|].
      cbn [foldl] in E. unfold sizeStep at 2 in E. destruct (filters c !! j) as [f|] eqn:Ej; [|by rewrite filtersSize_missing in E].
      apply elem_of_cons in Hi as [->|Hi]; [rewrite Ej; by eexists|by eapply IH]. }
    destruct (W1 (new_writer None)) as [A _]; [done|]. specialize (A eq_refl).
    destruct Hall as [out Hout]. unfold collect_all in Hout.
    destruct (collect _ _) as [o ok]; destruct ok; [|done]. cbn in *.
    rewrite A. destruct He as [_ He]. rewrite He by done. by eexists.
Qed.
End Properties.

(** *** Witnesses *)

(** A producer that has ingested four blocks. *)
Definition cf_example : Env toy_world * cFilterFiles :=
  (forM (range 0 3) cf_ingest
     (mkEnv (toy_env 4) (mkFS ∅ ∅ no_faults) newH2HCache, mkCF ∅ ∅)).2.


