(* ===== verification/Verify.v ===== *)
(** * The verify command

    [verify.go]: the check of all sealed files against each other and the
    backend, with the repair of corrupt files. *)

From Stdlib Require Import ZArith Lia.
From stdpp Require Import base numbers list strings gmap.
From S2P Require Import Prelude GoInt Bytes GoStr GoIO Iface Backend Toy Files H2H Producer ProducerLaws HeaderFiles CFilterFiles.

Local Open Scope Z_scope.

(** The state of a verification run: the backend and network, the disk, and
    the mutable fields of [verifier]. *)
Record verifier (W : Type) := mkV {
  v_world : W;
  v_fs : FS;
  badFiles : list str;
  fixedFiles : list str;
  fHeaderCacheStart : Z;
  fHeaderCache : bytes;
  fHeaderCacheFromMemory : bool
}.
Arguments mkV {W} _ _ _ _ _ _ _.
Arguments v_world {W} _.
Arguments v_fs {W} _.
Arguments badFiles {W} _.
Arguments fixedFiles {W} _.
Arguments fHeaderCacheStart {W} _.
Arguments fHeaderCache {W} _.
Arguments fHeaderCacheFromMemory {W} _.

(** The fields of [verifier] that do not change. [v_temp] is the name
    [os.CreateTemp] picks, a parameter. *)
Record verifyCfg := mkVC {
  v_GenesisHash : Hash;
  v_baseDir : str;
  headersPerFile : Z;
  filtersPerFile : Z;
  v_fix : bool;
  v_reOrgSafeDepth : Z;
  serverURL : str;
  v_temp : FS -> str -> str
}.

Definition memoryHeadersRoute : str := "headers".
Definition memoryFilterHeadersRoute : str := "filter-headers".

(** *** Access to the parts of the state *)

Definition onV {W A} (m : M W A) : M (verifier W) A :=
  zoom v_world (fun w v => mkV w (v_fs v) (badFiles v) (fixedFiles v)
    (fHeaderCacheStart v) (fHeaderCache v) (fHeaderCacheFromMemory v)) m.
Definition onVFS {W A} (m : M FS A) : M (verifier W) A :=
  zoom v_fs (fun f v => mkV (v_world v) f (badFiles v) (fixedFiles v)
    (fHeaderCacheStart v) (fHeaderCache v) (fHeaderCacheFromMemory v)) m.
Definition readV {W A} (f : FS -> result A) : M (verifier W) A := fun v => (f (v_fs v), v).
Definition addBad {W} (name : str) : M (verifier W) unit :=
  modify (fun v => mkV (v_world v) (v_fs v) (badFiles v ++ [name])%list (fixedFiles v)
    (fHeaderCacheStart v) (fHeaderCache v) (fHeaderCacheFromMemory v)).
Definition addFixed {W} (name : str) : M (verifier W) unit :=
  modify (fun v => mkV (v_world v) (v_fs v) (badFiles v) (fixedFiles v ++ [name])%list
    (fHeaderCacheStart v) (fHeaderCache v) (fHeaderCacheFromMemory v)).
Definition setCache {W} (start : Z) (data : bytes) (mem : bool) : M (verifier W) unit :=
  modify (fun v => mkV (v_world v) (v_fs v) (badFiles v) (fixedFiles v) start data mem).
Definition dropCache {W} : M (verifier W) unit :=
  modify (fun v => mkV (v_world v) (v_fs v) (badFiles v) (fixedFiles v)
    (-1) (fHeaderCache v) (fHeaderCacheFromMemory v)).

Section Verify.
Context `{Wi : Wire} {W : Type} `{!Chain W} `{!Http W} (c : verifyCfg).

(** [authFilterHeader] *)
Definition authFilterHeader (height : Z) : M W Hash :=
  let! hash := GetBlockHash height in
  let! filter := GetBlockFilter hash in
  liftR (NewHashFromStr (fr_Header filter)).

(** *** Repairing a file *)

(** The record writers get the backend and the temporary file. *)
Definition inW {A} (m : M W A) : M (W * Writer) A := zoom fst (fun w s => (w, s.2)) m.
Definition inWr {A} (m : M Writer A) : M (W * Writer) A := zoom snd (fun wr s => (s.1, wr)) m.

(** [writeHeaderRecord], [writeFilterHeaderRecord], [writeFilterRecord] *)
Definition writeHeaderRecord (height : Z) : M (W * Writer) unit :=
  let! hash := inW (GetBlockHash height) in
  let! header := inW (GetBlockHeader hash) in
  inWr (w_Write (hdr_Serialize header)).

Definition writeFilterHeaderRecord (height : Z) : M (W * Writer) unit :=
  let! header := inW (authFilterHeader height) in
  inWr (w_Write header).

Definition writeFilterRecord (height : Z) : M (W * Writer) unit :=
  let! hash := inW (GetBlockHash height) in
  let! filter := inW (GetBlockFilter hash) in
  let! filterBytes := liftR (hex_DecodeString (fr_Filter filter)) in
  inWr (w_Write (WriteVarBytes filterBytes)).

(** Write the records into the open file [tmp]. *)
Definition writeRecords (tmp : str) (start end_ : Z) (writeRecord : Z -> M (W * Writer) unit)
  : M (verifier W) unit := fun v =>
  let '(r, (w, wr)) :=
    forM (range start end_) (fun height => wrapE "error writing height %d: %w" (writeRecord height))
      (v_world v, new_writer (fault_quota (fs_faults (v_fs v)) tmp)) in
  (r, mkV w (set_file tmp (w_buf wr) (v_fs v)) (badFiles v) (fixedFiles v)
        (fHeaderCacheStart v) (fHeaderCache v) (fHeaderCacheFromMemory v)).

(** [regenerate]; removing the temporary file, deferred, changes nothing after
    the rename. *)
Definition regenerate (name : str) (start end_ : Z) (writeRecord : Z -> M (W * Writer) unit)
  : M (verifier W) unit :=
  let! fs := gets v_fs in
  let tmp := v_temp c fs name in
  wrapE "error creating temp file: %w" (onVFS (os_Create tmp)) ;;;
  finally
    (writeRecords tmp start end_ writeRecord ;;;
     wrapE "error closing temp file: %w" (onVFS (os_Close tmp)) ;;;
     wrapE "error replacing %s: %w" (onVFS (os_Rename tmp name)) ;;;
     addFixed name)
    (fun v => mkV (v_world v) (os_Remove tmp (v_fs v)) (badFiles v) (fixedFiles v)
        (fHeaderCacheStart v) (fHeaderCache v) (fHeaderCacheFromMemory v)).

(** *** Block headers *)

(** [data[offset : offset+n]] for record [height] of a file that starts at
    [start]. *)
Definition recordAt (n : Z) (data : bytes) (start height : Z) : bytes :=
  slice (Z.to_nat ((height - start) * n)) (Z.to_nat n) data.

(** The body of the loops over header records. *)
Definition linkStep (data : bytes) (start : Z) (prev : Hash) (height : Z) : result Hash :=
  let record := recordAt MaxBlockHeaderPayload data start height in
  let hash := DoubleHash record in
  if height =? 0 then
    if bool_decide (hash = v_GenesisHash c) then Ok hash else Err (Errorf "wrong genesis block")
  else if bool_decide (slice 4 32 record = prev) then Ok hash
  else Err (Errorf "header at height %d does not link to its predecessor").

(** The [verify] closure of [verifyOneHeaderFile]: the new value of
    [running]. *)
Definition checkHeaderFile (name : str) (start end_ : Z) (running : Hash) : M (verifier W) Hash :=
  let! data := wrapE "error reading: %w" (readV (fun fs => os_ReadFile fs name)) in
  if negb (Z.of_nat (length data) =? headersPerFile c * MaxBlockHeaderPayload)
  then fail (Errorf "size %d, want %d")
  else
    let! prev := liftR (res_fold (linkStep data start) running (range start end_)) in
    let! anchor := wrapE "error getting anchor: %w" (onV (GetBlockHash end_)) in
    if bool_decide (prev = anchor) then ret prev
    else fail (Errorf "last header (%s) does not match the backend's block at height %d (%s)").

(** [verifyOneHeaderFile]: the result is the value of [running] afterwards. *)
Definition verifyOneHeaderFile (name : str) (start end_ : Z) (running : Hash) : M (verifier W) Hash :=
  let! r := catch (checkHeaderFile name start end_ running) in
  match r with
  | Ok running' => ret running'
  | Err _ =>
      if negb (v_fix c) then addBad name ;;; ret running
      else
        regenerate name start end_ writeHeaderRecord ;;;
        wrapE "%s still corrupt after fix: %w" (checkHeaderFile name start end_ running)
  end.

(** The [verify] closure of [verifyFilterHeaderAnchor]. *)
Definition checkFilterHeaderFile (name : str) (end_ : Z) : M (verifier W) unit :=
  let! data := wrapE "error reading: %w" (readV (fun fs => os_ReadFile fs name)) in
  if negb (Z.of_nat (length data) =? headersPerFile c * HashSize)
  then fail (Errorf "size %d, want %d")
  else
    let! authority := onV (authFilterHeader end_) in
    let stored := drop (length data - Z.to_nat HashSize) data in
    if bool_decide (stored = authority) then ret tt
    else fail (Errorf "last filter header does not match the backend").

(** [verifyFilterHeaderAnchor] *)
Definition verifyFilterHeaderAnchor (name : str) (start end_ : Z) : M (verifier W) unit :=
  let! r := catch (checkFilterHeaderFile name end_) in
  match r with
  | Ok _ => ret tt
  | Err _ =>
      if negb (v_fix c) then addBad name
      else
        regenerate name start end_ writeFilterHeaderRecord ;;;
        dropCache ;;;
        wrapE "%s still corrupt after fix: %w" (checkFilterHeaderFile name end_)
  end.

(** *** The server's memory *)

(** [fetchInMemory] *)
Definition fetchInMemory (route : str) (start : Z) : M (verifier W) bytes :=
  let url := (serverURL c ++ "/" ++ route ++ "/" ++ fmt_d start)%string in
  let! resp := wrapE "error fetching unsealed range from %s (is the block-dn server running?): %w"
                 (onV (http_Get url)) in
  let! body := wrapE "error reading response of %s: %w" (liftR (Body resp)) in
  if StatusCode resp =? 200 then ret body
  else fail (Errorf "unexpected status %d from %s: %s").

(** The body of the loop of [checkMemoryHeaders], which also keeps the hash at
    the anchor height. *)
Definition memoryStep (data : bytes) (start anchorHeight : Z) (acc : Hash * Hash) (height : Z)
  : result (Hash * Hash) :=
  res_bind (linkStep data start acc.1 height) (fun hash =>
    Ok (hash, if height =? anchorHeight then hash else acc.2)).

(** [checkMemoryHeaders] *)
Definition checkMemoryHeaders (data : bytes) (start end_ : Z) (running : Hash) : M (verifier W) unit :=
  let anchorHeight := i32 (end_ - v_reOrgSafeDepth c) in
  let! acc := liftR (res_fold (memoryStep data start anchorHeight) (running, zero_hash) (range start end_)) in
  if anchorHeight <? start then ret tt
  else
    let! anchor := wrapE "error getting anchor: %w" (onV (GetBlockHash anchorHeight)) in
    if bool_decide (acc.2 = anchor) then ret tt
    else fail (Errorf "header at height %d (%s) does not match the backend's block (%s)").

(** [checkMemoryFilterHeaders] *)
Definition checkMemoryFilterHeaders (data : bytes) (start end_ : Z) : M (verifier W) unit :=
  let anchorHeight := i32 (end_ - v_reOrgSafeDepth c) in
  if anchorHeight <? start then ret tt
  else
    let! authority := onV (authFilterHeader anchorHeight) in
    let stored := recordAt HashSize data start anchorHeight in
    if bool_decide (stored = authority) then ret tt
    else fail (Errorf "filter header at height %d does not match the backend").

(** [verifyMemoryTail]; the messages it prints do not change the state. *)
Definition verifyMemoryTail (start : Z) (running : Hash) : M (verifier W) unit :=
  let! headerData := fetchInMemory memoryHeadersRoute start in
  let n := Z.of_nat (length headerData) in
  if (n =? 0) || negb (n mod MaxBlockHeaderPayload =? 0)
  then fail (Errorf "in-memory headers response has invalid length %d")
  else
    let end_ := i32 (i32 (start + i32 (n / MaxBlockHeaderPayload)) - 1) in
    let! r := catch (checkMemoryHeaders headerData start end_ running) in
    (if is_Ok r then ret tt
     else addBad ("in-memory headers " ++ fmt_d start ++ "-" ++ fmt_d end_)%string) ;;;
    let! fhData := fetchInMemory memoryFilterHeadersRoute start in
    let m := Z.of_nat (length fhData) in
    if (m =? 0) || negb (m mod HashSize =? 0)
    then fail (Errorf "in-memory filter headers response has invalid length %d")
    else
      let fhEnd := i32 (i32 (start + i32 (m / HashSize)) - 1) in
      let! r := catch (checkMemoryFilterHeaders fhData start fhEnd) in
      if is_Ok r then ret tt
      else addBad ("in-memory filter headers " ++ fmt_d start ++ "-" ++ fmt_d fhEnd)%string.

(** *** All header files *)

Definition headerDir : str := filepath_Join (v_baseDir c) HeaderFileDir.
Definition filterDir : str := filepath_Join (v_baseDir c) FilterFileDir.

(** [verifyHeaderFiles]: one round for each header file that exists, then the
    memory tail. [fuel] bounds the number of files. *)
Fixpoint verifyHeaderLoop (fuel : nat) (start : Z) (running : Hash) : M (verifier W) unit :=
  match fuel with
  | O => fail OutOfFuel
  | S fuel' =>
      let end_ := i32 (i32 (start + headersPerFile c) - 1) in
      let name := block_file HeaderFileSuffix headerDir start end_ in
      let! fs := gets v_fs in
      if negb (fileExists fs name) then verifyMemoryTail start running
      else
        let! running' := verifyOneHeaderFile name start end_ running in
        verifyFilterHeaderAnchor (block_file FilterHeaderFileSuffix headerDir start end_) start end_ ;;;
        verifyHeaderLoop fuel' (i32 (start + headersPerFile c)) running'
  end.

Definition verifyHeaderFiles (fuel : nat) : M (verifier W) unit := verifyHeaderLoop fuel 0 zero_hash.

(** *** Stored filter headers *)

(** [loadFilterHeaders] *)
Definition loadFilterHeaders (fileStart : Z) : M (verifier W) unit :=
  let name := block_file FilterHeaderFileSuffix headerDir fileStart
                (i32 (i32 (fileStart + headersPerFile c) - 1)) in
  let! r := catch (readV (fun fs => os_ReadFile fs name)) in
  match r with
  | Ok data => setCache fileStart data false
  | Err e =>
      if bool_decide (e = err_not_exist) then
        let! data := fetchInMemory memoryFilterHeadersRoute fileStart in
        setCache fileStart data true
      else fail e
  end.

(** One attempt of [storedFilterHeader]: [None] when the loaded range is too
    short. *)
Definition storedTry (height fileStart : Z) : M (verifier W) (option Hash) :=
  let! v := get in
  (if negb (fHeaderCacheStart v =? fileStart)
   then wrapE "error loading filter headers for height %d: %w" (loadFilterHeaders fileStart)
   else ret tt) ;;;
  let! v := get in
  let offset := (height - fileStart) * HashSize in
  ret (if offset + HashSize <=? Z.of_nat (length (fHeaderCache v))
       then Some (recordAt HashSize (fHeaderCache v) fileStart height)
       else None).

(** [storedFilterHeader]: at most two attempts, the second after dropping a
    snapshot of the server's memory. *)
Definition storedFilterHeader (height : Z) : M (verifier W) Hash :=
  let fileStart := i32 (height - Z.rem height (headersPerFile c)) in
  let! r := storedTry height fileStart in
  match r with
  | Some h => ret h
  | None =>
      let! mem := gets fHeaderCacheFromMemory in
      if negb mem then fail (Errorf "filter header data for height %d is truncated")
      else
        dropCache ;;;
        let! r := storedTry height fileStart in
        match r with
        | Some h => ret h
        | None => fail (Errorf "filter header data for height %d is truncated")
        end
  end.

(** *** Filter files *)

(** The loop of [readFilterFile]: [n] entries, then nothing. *)
Fixpoint readFilters (n : nat) (rest : bytes) : result (list bytes) :=
  match n with
  | O => match rest with [] => Ok [] | _ => Err (Errorf "%d trailing bytes") end
  | S n' =>
      res_bind (res_wrap "entry %d: %w" (ReadVarBytes MaxBlockPayload rest)) (fun '(filter, rest') =>
        res_bind (readFilters n' rest') (fun fs => Ok (filter :: fs)))
  end.

(** [readFilterFile] *)
Definition readFilterFile (fs : FS) (name : str) : result (list bytes) :=
  res_bind (res_wrap "error reading: %w" (os_ReadFile fs name)) (fun data =>
    readFilters (Z.to_nat (filtersPerFile c)) data).

(** [checkFilterChain] *)
Definition checkFilterChain (filters : list bytes) (start end_ : Z) : M (verifier W) unit :=
  let! prev := (if 0 <? start then storedFilterHeader (i32 (start - 1)) else ret zero_hash) in
  let! want := storedFilterHeader end_ in
  if bool_decide (foldl filter_step prev filters = want) then ret tt
  else fail (Errorf "filter chain does not close against the stored filter headers").

(** One height of [diagnoseRange]. *)
Definition diagnoseHeight (filters : list bytes) (start : Z) (bad : bool * bool) (height : Z)
  : M (verifier W) (bool * bool) :=
  let! hash := onV (GetBlockHash height) in
  let! auth := onV (GetBlockFilter hash) in
  let! authFilter := liftR (hex_DecodeString (fr_Filter auth)) in
  let badFilter := negb (bool_decide (filters !! Z.to_nat (height - start) = Some authFilter)) in
  let! authHeader := liftR (NewHashFromStr (fr_Header auth)) in
  let! stored := storedFilterHeader height in
  ret (bad.1 || badFilter, bad.2 || negb (bool_decide (stored = authHeader))).

(** [diagnoseRange] *)
Fixpoint diagnoseLoop (filters : list bytes) (start : Z) (heights : list Z) (bad : bool * bool)
  : M (verifier W) (bool * bool) :=
  match heights with
  | [] => ret bad
  | height :: l =>
      let! bad' := diagnoseHeight filters start bad height in
      diagnoseLoop filters start l bad'
  end.
Definition diagnoseRange (filters : list bytes) (start end_ : Z) : M (verifier W) (bool * bool) :=
  diagnoseLoop filters start (range start end_) (false, false).

(** Read a filter file and check its chain; the filters that could be read are
    kept for the diagnosis. *)
Definition checkFilterFile (name : str) (start end_ : Z) : M (verifier W) (result unit * list bytes) :=
  let! r := catch (readV (fun fs => readFilterFile fs name)) in
  match r with
  | Err e => ret (Err e, [])
  | Ok filters =>
      let! r := catch (checkFilterChain filters start end_) in
      ret (r, filters)
  end.

(** Regenerate the filter header file of the range of [start]. *)
Definition fixFilterHeaders (start : Z) : M (verifier W) unit :=
  let fhStart := i32 (start - Z.rem start (headersPerFile c)) in
  let fhEnd := i32 (i32 (fhStart + headersPerFile c) - 1) in
  let fhName := block_file FilterHeaderFileSuffix headerDir fhStart fhEnd in
  let! fs := gets v_fs in
  if negb (fileExists fs fhName)
  then fail (Errorf "filter headers of heights %d-%d diverge from the backend but aren't sealed to disk yet; restart the block-dn server to re-index them")
  else regenerate fhName fhStart fhEnd writeFilterHeaderRecord ;;; dropCache.

(** [verifyOneFilterFile] *)
Definition verifyOneFilterFile (name : str) (start end_ : Z) : M (verifier W) unit :=
  let! rf := checkFilterFile name start end_ in
  if is_Ok rf.1 then ret tt
  else if negb (v_fix c) then addBad name
  else
    let! bad := diagnoseRange rf.2 start end_ in
    (if bad.1 : bool then regenerate name start end_ writeFilterRecord else ret tt) ;;;
    (if bad.2 : bool then fixFilterHeaders start else ret tt) ;;;
    let! rf := checkFilterFile name start end_ in
    wrapE "%s still corrupt after fix: %w" (liftR rf.1).

(** [verifyFilterFiles] *)
Fixpoint verifyFilterLoop (fuel : nat) (start : Z) : M (verifier W) unit :=
  match fuel with
  | O => fail OutOfFuel
  | S fuel' =>
      let end_ := i32 (i32 (start + filtersPerFile c) - 1) in
      let name := block_file FilterFileSuffix filterDir start end_ in
      let! fs := gets v_fs in
      if negb (fileExists fs name) then ret tt
      else
        verifyOneFilterFile name start end_ ;;;
        verifyFilterLoop fuel' (i32 (start + filtersPerFile c))
  end.
Definition verifyFilterFiles (fuel : nat) : M (verifier W) unit := verifyFilterLoop fuel 0.

(** [runVerify], from the point where the verifier is built. *)
Definition newVerifier (w : W) (fs : FS) : verifier W := mkV w fs [] [] (-1) [] false.
Definition runVerify (fuel : nat) : M (verifier W) unit :=
  verifyHeaderFiles fuel ;;;
  verifyFilterFiles fuel ;;;
  let! bad := gets badFiles in
  if (0 <? Z.of_nat (length bad)) then fail (Errorf "%d corrupt file(s) found: %v") else ret tt.
End Verify.
