(* ===== verification/VerifyLaws.v ===== *)
(** * Properties of the verify command

    Repair is atomic; a run that reports nothing proves that the sealed files
    are the backend's chain; without [--fix] nothing is written. *)

From Stdlib Require Import ZArith Lia.
From stdpp Require Import base numbers list strings gmap.
From S2P Require Import Prelude GoInt Bytes GoStr GoIO Iface Backend Toy Files H2H Producer ProducerLaws HeaderFiles CFilterFiles Verify.

Local Open Scope Z_scope.

(** ** Repair *)

Section Repair.
Context `{Wi : Wire} {W : Type} `{!Chain W} (c : verifyCfg).

(** What [os.CreateTemp] promises: the file is new. *)
Definition temp_fresh (v : verifier W) (name : str) : Prop :=
  fs_files (v_fs v) !! v_temp c (v_fs v) name = None /\ v_temp c (v_fs v) name <> name.

(** The bytes the record writers produce. *)
Definition records_out (v : verifier W) (tmp : str) (start end_ : Z)
  (writeRecord : Z -> M (W * Writer) unit) : result unit * (W * Writer) :=
  forM (range start end_) (fun height => wrapE "error writing height %d: %w" (writeRecord height))
    (v_world v, new_writer (fault_quota (fs_faults (v_fs v)) tmp)).

Lemma regenerate_spec name start end_ rec v r v' :
  temp_fresh v name -> regenerate c name start end_ rec v = (r, v') ->
  badFiles v' = badFiles v /\ fHeaderCacheStart v' = fHeaderCacheStart v /\
  match r with
  | Err _ => fs_files (v_fs v') = fs_files (v_fs v) /\ fixedFiles v' = fixedFiles v
  | Ok _ => exists w wr, records_out v (v_temp c (v_fs v) name) start end_ rec = (Ok tt, (w, wr)) /\
      fs_files (v_fs v') = <[name := w_buf wr]> (fs_files (v_fs v)) /\
      fixedFiles v' = (fixedFiles v ++ [name])%list
  end.
Proof.
  intros [Hf Hne]. unfold regenerate, records_out, bind, gets, wrapE, onVFS, zoom, finally, os_Create,
    writeRecords, os_Close, os_Rename, addFixed, modify.
  set (tmp := v_temp c (v_fs v) name) in *. cbn. destruct (fault_create _ tmp); cbn; [intros [= <- <-]; done|].
  destruct (forM _ _ _) as [[[]|err] [w wr]]; cbn.
  2:{ intros [= <- <-]. cbn. split_and!; [done|done| |done].
      by rewrite !delete_insert_eq, (delete_id _ _ Hf). }
  destruct (fault_close _ tmp); cbn.
  { intros [= <- <-]. cbn. split_and!; [done|done| |done]. by rewrite !delete_insert_eq, (delete_id _ _ Hf). }
  destruct (fault_rename _ name); cbn.
  { intros [= <- <-]. cbn. split_and!; [done|done| |done]. by rewrite !delete_insert_eq, (delete_id _ _ Hf). }
  rewrite lookup_insert_eq. cbn. intros [= <- <-]. cbn. split_and!; [done|done|].
  exists w, wr. split_and!; [done| |done].
  apply map_eq. intros p. destruct (decide (p = tmp)) as [->|Hp].
  - rewrite lookup_delete_eq, lookup_insert_ne by done. done.
  - rewrite lookup_delete_ne by done. destruct (decide (p = name)) as [->|Hn].
    + by rewrite !lookup_insert_eq.
    + by rewrite !lookup_insert_ne, lookup_delete_ne, !lookup_insert_ne by done.
Qed.
End Repair.

(** ** What a verified header file holds *)

Section HeaderCheck.
Context `{WireLaws} {W : Type} `{!Chain W} (c : verifyCfg).

Lemma segment_end_snoc hs h x :
  hs <> [] -> segment_end (hs ++ [h]) = Some x <-> segment_end hs = Some (PrevBlock h) /\ x = BlockHash h.
Proof. destruct hs as [|g hs]; [done|]. intros _. apply chain_from_snoc. Qed.

(** A linked range of records is determined by its end hash. *)
Lemma link_commits data start running x hs :
  0 <= start -> hs <> [] ->
  res_fold (linkStep c data start) running (range start (start + Z.of_nat (length hs) - 1)) = Ok x ->
  segment_end hs = Some x ->
  (forall k h, hs !! k = Some h ->
     recordAt MaxBlockHeaderPayload data start (start + Z.of_nat k) = hdr_Serialize h) \/ collision.
Proof.
  intros Hst. revert x. induction hs as [|h hs IH] using rev_ind; intros x Hne Hfold Hseg; [done|].
  rewrite length_app in Hfold. cbn [length] in Hfold.
  rewrite range_snoc, res_fold_app in Hfold by lia.
  replace (start + Z.of_nat (length hs + 1) - 1 - 1) with (start + Z.of_nat (length hs) - 1) in Hfold by lia.
  replace (start + Z.of_nat (length hs + 1) - 1) with (start + Z.of_nat (length hs)) in Hfold by lia.
  destruct (res_fold (linkStep c data start) running _) as [y|] eqn:Ey; [|done]. cbn in Hfold.
  unfold linkStep in Hfold. set (r := recordAt _ data start (start + Z.of_nat (length hs))) in *.
  assert (Hx : x = DoubleHash r /\ (hs <> [] -> slice 4 32 r = y)).
  { destruct (Z.eqb_spec (start + Z.of_nat (length hs)) 0) as [H0|H0].
    - case_bool_decide; [|done]. cbn in Hfold. injection Hfold as <-. split; [done|].
      destruct hs; [done|cbn in H0; lia].
    - case_bool_decide; [|done]. cbn in Hfold. injection Hfold as <-. done. }
  destruct Hx as [-> Hlink].
  assert (Hend : DoubleHash r = BlockHash h).
  { destruct hs as [|g hs']; [cbn in Hseg; by injection Hseg|].
    by apply segment_end_snoc in Hseg as [_ ?]. }
  rewrite BlockHash_Serialize in Hend. apply DoubleHash_inj_or in Hend as [Hr|]; [|by right].
  destruct (decide (hs = [])) as [->|Hhs].
  { left. intros [|k] g; cbn; [|by intros]. intros [= <-]. cbn in *. done. }
  apply segment_end_snoc in Hseg as [Hseg _]; [|done].
  destruct (IH y Hhs eq_refl) as [G|]; [| |by right].
  { rewrite Hseg. by rewrite <- PrevBlock_Serialize, <- Hr, Hlink. }
  left. intros k g Hk. apply lookup_snoc_Some in Hk as [[Hk Hg]|[-> <-]]; [by apply G|done].
Qed.

Lemma checkHeaderFile_Ok name start end_ running v x v' :
  checkHeaderFile c name start end_ running v = (Ok x, v') ->
  exists data w, os_ReadFile (v_fs v) name = Ok data /\
    Z.of_nat (length data) = headersPerFile c * MaxBlockHeaderPayload /\
    res_fold (linkStep c data start) running (range start end_) = Ok x /\
    GetBlockHash end_ (v_world v) = (Ok x, w) /\ v_fs v' = v_fs v /\ badFiles v' = badFiles v /\ v_world v' = w.
Proof.
  unfold checkHeaderFile. intros (data & v1 & E1%wrapE_Ok_inv & E)%bind_Ok_inv.
  injection E1 as E1 <-. destruct (Z.eqb_spec (Z.of_nat (length data)) (headersPerFile c * MaxBlockHeaderPayload));
    [|done]. cbn [negb] in E.
  apply bind_Ok_inv in E as (prev & v2 & [= E2 <-] & E).
  apply bind_Ok_inv in E as (anchor & v3 & E3%wrapE_Ok_inv & E).
  case_bool_decide; [subst anchor|done]. injection E as <- <-.
  unfold onV, zoom in E3. destruct (GetBlockHash end_ (v_world v)) as [r w]. injection E3 as -> <-.
  by exists data, w.
Qed.

Lemma recordAt_headers hs start k h :
  hs !! k = Some h ->
  recordAt MaxBlockHeaderPayload (headers_bytes hs) start (start + Z.of_nat k) = hdr_Serialize h.
Proof.
  intros Hk. unfold recordAt, MaxBlockHeaderPayload.
  replace (Z.to_nat ((start + Z.of_nat k - start) * 80)) with (k * 80)%nat by lia.
  apply slice_concat.
  - apply Forall_map, Forall_true. intros. apply length_hdr_Serialize.
  - change (map hdr_Serialize hs) with (hdr_Serialize <$> hs). by rewrite list_lookup_fmap, Hk.
Qed.

(** Linked headers pass the loop. *)
Lemma link_complete hs start running h x :
  0 <= start -> head hs = Some h ->
  (if start =? 0 then BlockHash h = v_GenesisHash c else PrevBlock h = running) ->
  segment_end hs = Some x ->
  res_fold (linkStep c (headers_bytes hs) start) running
    (range start (start + Z.of_nat (length hs) - 1)) = Ok x.
Proof.
  intros Hst Hh Hfirst Hseg.
  assert (G : forall hs' rest x, hs = hs' ++ rest -> hs' <> [] -> segment_end hs' = Some x ->
    res_fold (linkStep c (headers_bytes hs) start) running
      (range start (start + Z.of_nat (length hs') - 1)) = Ok x);
    [|apply (G hs []); [by rewrite app_nil_r|by intros ->|done]].
  clear Hseg x. induction hs' as [|g hs' IH] using rev_ind; intros rest x E Hne Hseg; [done|].
  rewrite <- app_assoc in E. cbn [app] in E. rewrite length_app. cbn [length].
  replace (start + Z.of_nat (length hs' + 1) - 1) with (start + Z.of_nat (length hs')) by lia.
  rewrite range_snoc by lia. rewrite res_fold_app.
  assert (Hrec : recordAt MaxBlockHeaderPayload (headers_bytes hs) start (start + Z.of_nat (length hs'))
                 = hdr_Serialize g) by (apply recordAt_headers; rewrite E; by apply list_lookup_middle).
  destruct (decide (hs' = [])) as [->|Hhs].
  - cbn in Hseg. injection Hseg as <-. rewrite E in Hh. cbn in Hh. injection Hh as ->.
    rewrite range_nil by (cbn; lia). cbn [res_fold res_bind]. unfold linkStep. rewrite Hrec.
    rewrite <- BlockHash_Serialize, PrevBlock_Serialize. cbn [length]. rewrite Z.add_0_r.
    destruct (start =? 0); by rewrite bool_decide_eq_true_2.
  - apply segment_end_snoc in Hseg as [Hseg ->]; [|done].
    rewrite (IH (g :: rest) _ E Hhs Hseg). cbn [res_fold res_bind]. unfold linkStep. rewrite Hrec.
    rewrite <- BlockHash_Serialize, PrevBlock_Serialize.
    rewrite (proj2 (Z.eqb_neq _ _)) by (destruct hs'; cbn; [done|lia]).
    by rewrite bool_decide_eq_true_2.
Qed.

(** The check itself neither writes nor reports. *)
Lemma checkHeaderFile_quiet name start end_ running v r v' :
  checkHeaderFile c name start end_ running v = (r, v') ->
  v_fs v' = v_fs v /\ badFiles v' = badFiles v.
Proof.
  unfold checkHeaderFile, bind, wrapE, readV, liftR, onV, zoom, fail, ret.
  repeat (case_match; simplify_eq/=; try done); intros; by simplify_eq.
Qed.

Lemma headers_bytes_records data hs :
  length data = (length hs * 80)%nat ->
  (forall k h, hs !! k = Some h -> slice (k * 80) 80 data = hdr_Serialize h) ->
  data = headers_bytes hs.
Proof.
  intros HL Hr. rewrite (slices_concat 80 (length hs) data HL). unfold headers_bytes. f_equal.
  apply list_eq. intros k. rewrite !list_lookup_fmap.
  destruct (hs !! k) as [h|] eqn:Ek.
  - rewrite lookup_seq_lt by (by apply lookup_lt_Some in Ek). cbn. f_equal. by apply Hr.
  - rewrite lookup_ge_None in Ek. rewrite (proj2 (lookup_ge_None _ _)); [done|]. by rewrite length_seq.
Qed.
End HeaderCheck.

(** ** A run without repair

    Without [--fix] the command only reads: the files stay, and reports are
    appended. *)
Record reads {W} (v v' : verifier W) : Prop := {
  rd_fs : v_fs v' = v_fs v;
  rd_bad : badFiles v `prefix_of` badFiles v'
}.

#[export] Instance reads_preorder {W} : PreOrder (@reads W).
Proof.
  split; [by split|]. intros v1 v2 v3 [A B] [A' B']. split; [congruence|by etrans].
Qed.

Section ReadOnly.
Context `{Wi : Wire} {W : Type} `{!Chain W} `{!Http W} (c : verifyCfg).
Context (Hfix : v_fix c = false).

Lemma reads_onV {A} (m : M W A) : keeps reads (onV m).
Proof. intros v r v'. unfold onV, zoom. destruct (m (v_world v)). intros [= _ <-]. by split. Qed.

Lemma reads_readV {A} (f : FS -> result A) : keeps (@reads W) (readV f).
Proof. intros v r v' [= _ <-]. reflexivity. Qed.

Lemma reads_addBad name : keeps (@reads W) (addBad name).
Proof. intros v r v' [= _ <-]. split; [done|by apply prefix_app_r]. Qed.

Lemma reads_setCache start data mem : keeps (@reads W) (setCache start data mem).
Proof. intros v r v' [= _ <-]. by split. Qed.

Lemma reads_dropCache : keeps (@reads W) dropCache.
Proof. intros v r v' [= _ <-]. by split. Qed.
#[local] Hint Resolve reads_onV reads_readV reads_addBad reads_setCache reads_dropCache : go.

(** [reads_tac]: one case for each test of the code. *)
Ltac reads_tac :=
  repeat first
    [ progress (eauto with go)
    | apply keeps_bind; [apply _| |intros ?]
    | apply keeps_wrapE
    | apply keeps_catch
    | match goal with
      | |- keeps _ (if ?b then _ else _) => destruct b
      | |- keeps _ (match ?r with Ok _ => _ | Err _ => _ end) => destruct r
      | |- keeps _ (match ?r with Some _ => _ | None => _ end) => destruct r
      end ].

Lemma checkHeaderFile_reads name start end_ running :
  keeps reads (checkHeaderFile c name start end_ running).
Proof. unfold checkHeaderFile. reads_tac. Qed.
#[local] Hint Resolve checkHeaderFile_reads : go.

Lemma verifyOneHeaderFile_reads name start end_ running :
  keeps reads (verifyOneHeaderFile c name start end_ running).
Proof. unfold verifyOneHeaderFile. rewrite Hfix. cbn [negb]. reads_tac. Qed.

Lemma checkFilterHeaderFile_reads name end_ : keeps reads (checkFilterHeaderFile c name end_).
Proof. unfold checkFilterHeaderFile. reads_tac. Qed.
#[local] Hint Resolve checkFilterHeaderFile_reads : go.

Lemma verifyFilterHeaderAnchor_reads name start end_ :
  keeps reads (verifyFilterHeaderAnchor c name start end_).
Proof. unfold verifyFilterHeaderAnchor. rewrite Hfix. cbn [negb]. reads_tac. Qed.

Lemma fetchInMemory_reads route start : keeps reads (fetchInMemory c route start).
Proof. unfold fetchInMemory. reads_tac. Qed.
#[local] Hint Resolve fetchInMemory_reads : go.

Lemma verifyMemoryTail_reads start running : keeps reads (verifyMemoryTail c start running).
Proof. unfold verifyMemoryTail, checkMemoryHeaders, checkMemoryFilterHeaders. reads_tac. Qed.

Lemma storedFilterHeader_reads height : keeps reads (storedFilterHeader c height).
Proof. unfold storedFilterHeader, storedTry, loadFilterHeaders. reads_tac. Qed.
#[local] Hint Resolve storedFilterHeader_reads : go.

Lemma checkFilterFile_reads name start end_ : keeps reads (checkFilterFile c name start end_).
Proof. unfold checkFilterFile, checkFilterChain. reads_tac. Qed.
#[local] Hint Resolve checkFilterFile_reads : go.

Lemma verifyOneFilterFile_reads name start end_ : keeps reads (verifyOneFilterFile c name start end_).
Proof. unfold verifyOneFilterFile. rewrite Hfix. cbn [negb]. reads_tac. Qed.
#[local] Hint Resolve verifyOneHeaderFile_reads verifyFilterHeaderAnchor_reads verifyMemoryTail_reads
  verifyOneFilterFile_reads : go.

Lemma verifyHeaderLoop_reads fuel start running : keeps reads (verifyHeaderLoop c fuel start running).
Proof.
  revert start running. induction fuel as [|fuel IH]; intros start running; cbn [verifyHeaderLoop]; reads_tac.
Qed.

Lemma verifyFilterLoop_reads fuel start : keeps reads (verifyFilterLoop c fuel start).
Proof.
  revert start. induction fuel as [|fuel IH]; intros start; cbn [verifyFilterLoop]; reads_tac.
Qed.
End ReadOnly.

(** ** The chain of the header files *)

Section HeaderChain.
Context `{WireLaws} {W : Type} `{!Chain W} `{!Http W} (c : verifyCfg).

(** The header file of index [i]. *)
Definition fileName (i : nat) : str :=
  block_file HeaderFileSuffix (headerDir c)
    (Z.of_nat i * headersPerFile c) (Z.of_nat i * headersPerFile c + headersPerFile c - 1).

(** The first [k] header files are linked and end in [x], the block the
    backend reported. *)
Inductive chained (fs : FS) : nat -> Hash -> Prop :=
  | chained_O : chained fs 0 zero_hash
  | chained_S k x y data w w' :
      chained fs k x ->
      os_ReadFile fs (fileName k) = Ok data ->
      Z.of_nat (length data) = headersPerFile c * MaxBlockHeaderPayload ->
      res_fold (linkStep c data (Z.of_nat k * headersPerFile c)) x
        (range (Z.of_nat k * headersPerFile c) (Z.of_nat k * headersPerFile c + headersPerFile c - 1)) = Ok y ->
      GetBlockHash (Z.of_nat k * headersPerFile c + headersPerFile c - 1) w = (Ok y, w') ->
      chained fs (S k) y.

Lemma link_first data start running b x :
  0 < start <= b -> res_fold (linkStep c data start) running (range start b) = Ok x ->
  slice 4 32 (recordAt MaxBlockHeaderPayload data start start) = running.
Proof.
  intros Hs. rewrite range_cons by lia. cbn [res_fold]. unfold linkStep at 1.
  rewrite (proj2 (Z.eqb_neq _ _)) by lia. by case_bool_decide.
Qed.

Lemma segment_end_app hs1 hs2 x h :
  hs1 <> [] -> head hs2 = Some h -> segment_end (hs1 ++ hs2) = Some x <->
  segment_end hs1 = Some (PrevBlock h) /\ segment_end hs2 = Some x.
Proof.
  intros Hne Hh. destruct hs2 as [|h' hs2]; [done|]. injection Hh as ->.
  revert x. induction hs2 as [|g hs2 IH] using rev_ind; intros x.
  - rewrite segment_end_snoc by done. cbn. naive_solver.
  - rewrite app_comm_cons, app_assoc, segment_end_snoc by (by destruct hs1).
    rewrite IH, segment_end_snoc by done. naive_solver.
Qed.

Lemma file_headers data k x y hs :
  0 < headersPerFile c -> length hs = Z.to_nat (headersPerFile c) ->
  Z.of_nat (length data) = headersPerFile c * MaxBlockHeaderPayload ->
  res_fold (linkStep c data (Z.of_nat k * headersPerFile c)) x
    (range (Z.of_nat k * headersPerFile c) (Z.of_nat k * headersPerFile c + headersPerFile c - 1)) = Ok y ->
  segment_end hs = Some y ->
  (data = headers_bytes hs /\ (forall h, (0 < k)%nat -> head hs = Some h -> PrevBlock h = x)) \/ collision.
Proof.
  intros Hn HL Hd Hf Hs. set (start := Z.of_nat k * headersPerFile c) in *.
  assert (Hst : 0 <= start) by (unfold start; nia).
  destruct (link_commits c data start x y hs) as [G|]; [done| | |done| |by right].
  - intros ->. cbn in HL. lia.
  - by replace (start + Z.of_nat (length hs) - 1) with (start + headersPerFile c - 1) by lia.
  - left. split.
    + apply headers_bytes_records; [unfold MaxBlockHeaderPayload in Hd; lia|].
      intros i h Hi. rewrite <- (G i h Hi). unfold recordAt, MaxBlockHeaderPayload.
      f_equal. lia.
    + intros h Hk Hh. apply link_first in Hf; [|unfold start in *; nia].
      rewrite <- Hf, <- (PrevBlock_Serialize h), <- (G 0%nat h); [|by destruct hs].
      by rewrite Z.add_0_r.
Qed.

(** The last hash commits to every file before it. *)
Lemma chained_commits fs k x hs :
  0 < headersPerFile c -> chained fs k x ->
  length hs = (k * Z.to_nat (headersPerFile c))%nat ->
  (0 < k)%nat -> segment_end hs = Some x ->
  (forall i, (i < k)%nat ->
     os_ReadFile fs (fileName i)
     = Ok (headers_bytes (take (Z.to_nat (headersPerFile c)) (drop (i * Z.to_nat (headersPerFile c)) hs))))
  \/ collision.
Proof.
  intros Hn Hc. set (n := Z.to_nat (headersPerFile c)). revert hs.
  induction Hc as [|k x y data w w' Hc IH Hread HL Hf Hb]; intros hs Hlen Hk Hs; [lia|].
  rewrite <- (take_drop (k * n) hs) in Hs.
  assert (Hl1 : length (take (k * n) hs) = (k * n)%nat) by (rewrite length_take; lia).
  assert (Hl2 : length (drop (k * n) hs) = n) by (rewrite length_drop; lia).
  destruct (decide (k = 0%nat)) as [->|Hk0].
  - cbn [Nat.mul take drop app] in *.
    destruct (file_headers data 0 x y hs) as [[Hd _]|]; [done|lia|done|done|done| |by right].
    left. intros i Hi. assert (i = 0%nat) as -> by lia. cbn. rewrite take_ge by lia. by rewrite Hread, Hd.
  - destruct (drop (k * n) hs) as [|h t] eqn:Ed; [cbn in Hl2; lia|].
    apply (segment_end_app _ _ _ h) in Hs as [Hs1 Hs2]; [| |done].
    2:{ intros E. rewrite E in Hl1. cbn in Hl1. nia. }
    destruct (file_headers data k x y (h :: t)) as [[Hd Hlink]|]; [done|lia|done|done|done| |by right].
    rewrite (Hlink h) in Hs1 by (done || lia).
    destruct (IH (take (k * n) hs)) as [G|]; [lia|lia|done| |by right].
    left. intros i Hi. destruct (decide (i = k)) as [->|Hne].
    + rewrite Ed, Hread, Hd. by rewrite take_ge by lia.
    + rewrite G by lia. do 2 f_equal. rewrite <- (take_drop (k * n) hs) at 2.
      rewrite drop_app_le by nia. rewrite take_app_le; [done|]. rewrite length_drop. nia.
Qed.
End HeaderChain.

(** ** A clean run *)

Section CleanRun.
Context `{WireLaws} {W : Type} `{!Chain W} `{!Http W} (c : verifyCfg).
Context (Hfix : v_fix c = false) (Hn : 0 < headersPerFile c).

Lemma prefix_same {A} (l k : list A) : l `prefix_of` k -> k `prefix_of` l -> l = k.
Proof. intros. by apply (anti_symm prefix). Qed.

Lemma verifyOneHeaderFile_clean name start end_ running v y v' :
  verifyOneHeaderFile c name start end_ running v = (Ok y, v') -> badFiles v' = badFiles v ->
  checkHeaderFile c name start end_ running v = (Ok y, v').
Proof.
  unfold verifyOneHeaderFile, bind, catch. rewrite Hfix. cbn [negb].
  destruct (checkHeaderFile c name start end_ running v) as [[x|err] v1] eqn:E; [done|].
  cbn. intros [= _ <-] Hb. cbn in Hb.
  pose proof (checkHeaderFile_reads c _ _ _ _ _ _ _ E) as [_ [l Hl]].
  rewrite Hl in Hb. apply (f_equal length) in Hb. rewrite !length_app in Hb. cbn in Hb. lia.
Qed.

(** One lap of the loop on a file that exists. *)
Lemma verifyHeaderLoop_clean fuel k running v v' :
  (Z.of_nat k + Z.of_nat fuel) * headersPerFile c <= max_int32 ->
  chained c (v_fs v) k running ->
  verifyHeaderLoop c fuel (Z.of_nat k * headersPerFile c) running v = (Ok tt, v') ->
  badFiles v' = badFiles v ->
  exists k' y, (k <= k')%nat /\ chained c (v_fs v) k' y /\ fileExists (v_fs v) (fileName c k') = false.
Proof.
  revert k running v. induction fuel as [|fuel IH]; intros k running v Hb Hch E Hbad; [done|].
  cbn [verifyHeaderLoop] in E. unfold max_int32 in Hb.
  assert (0 <= Z.of_nat k * headersPerFile c /\ 0 <= Z.of_nat fuel * headersPerFile c) as [Hp1 Hp2] by nia.
  rewrite (i32_id (Z.of_nat k * headersPerFile c + headersPerFile c)) in E
    by (unfold int32, min_int32, max_int32; nia).
  rewrite (i32_id (_ - 1)) in E by (unfold int32, min_int32, max_int32; nia).
  apply bind_Ok_inv in E as (fs & v0 & [= <- <-] & E).
  change (block_file HeaderFileSuffix (headerDir c) _ _) with (fileName c k) in E at 1.
  destruct (fileExists (v_fs v) (fileName c k)) eqn:Ex; cbn [negb] in E; [|by exists k, running].
  apply bind_Ok_inv in E as (y & v1 & E1 & E).
  pose proof (verifyOneHeaderFile_reads c Hfix _ _ _ _ _ _ _ E1) as [F1 B1].
  apply bind_Ok_inv in E as ([] & v2 & E2 & E).
  pose proof (verifyFilterHeaderAnchor_reads c Hfix _ _ _ _ _ _ E2) as [F2 B2].
  pose proof (verifyHeaderLoop_reads c Hfix _ _ _ _ _ _ E) as [F3 B3]. rewrite Hbad in B3.
  assert (badFiles v1 = badFiles v) as Hb1 by (apply prefix_same; [by etrans|done]).
  assert (badFiles v2 = badFiles v) as Hb2.
  { apply prefix_same; [done|]. by rewrite <- Hb1. }
  apply verifyOneHeaderFile_clean in E1; [|done].
  apply checkHeaderFile_Ok in E1 as (data & w & R1 & R2 & R3 & R4 & _).
  replace (Z.of_nat k * headersPerFile c + headersPerFile c) with (Z.of_nat (S k) * headersPerFile c) in E by lia.
  destruct (IH (S k) y v2) as (k' & x & Hk & Hc' & Hx); [unfold max_int32; nia| |done|congruence|].
  - rewrite F2, F1. by eapply chained_S.
  - exists k', x. rewrite F2, F1 in Hc', Hx. split_and!; [lia|done|done].
Qed.

Lemma verifyMemoryTail_ends start running : ends (verifyMemoryTail c start running).
Proof.
  unfold verifyMemoryTail, fetchInMemory, addBad.
  repeat first [ progress (auto with go) | apply ends_bind; [|intros ?]
    | match goal with |- ends (if ?b then _ else _) => destruct b end ].
Qed.

(** The filter file of index [i]. *)
Definition filterName (i : nat) : str :=
  block_file FilterFileSuffix (filterDir c)
    (Z.of_nat i * filtersPerFile c) (Z.of_nat i * filtersPerFile c + filtersPerFile c - 1).

(** The loops stop at the first missing file. *)
Lemma verifyFilterLoop_fuel fuel k m v :
  0 < filtersPerFile c -> (Z.of_nat m + 1) * filtersPerFile c <= max_int32 ->
  (k <= m < k + fuel)%nat -> fileExists (v_fs v) (filterName m) = false ->
  (verifyFilterLoop c fuel (Z.of_nat k * filtersPerFile c) v).1 <> Err OutOfFuel.
Proof.
  intros Hf Hb. revert k v. induction fuel as [|fuel IH]; intros k v Hk Hm; [lia|].
  cbn [verifyFilterLoop]. unfold max_int32 in Hb.
  assert (0 <= Z.of_nat k * filtersPerFile c <= Z.of_nat m * filtersPerFile c) by nia.
  rewrite (i32_id (Z.of_nat k * filtersPerFile c + filtersPerFile c))
    by (unfold int32, min_int32, max_int32; nia).
  rewrite (i32_id (_ - 1)) by (unfold int32, min_int32, max_int32; nia).
  change (block_file FilterFileSuffix (filterDir c) (Z.of_nat k * filtersPerFile c)
    (Z.of_nat k * filtersPerFile c + filtersPerFile c - 1)) with (filterName k).
  rewrite (bind_Ok _ _ _ (v_fs v) v) by done.
  destruct (fileExists (v_fs v) (filterName k)) eqn:Ex; cbn [negb]; [|done].
  unfold bind at 1. destruct (verifyOneFilterFile c _ _ _ v) as [[[]|e] v1] eqn:E1.
  - pose proof (verifyOneFilterFile_reads c Hfix _ _ _ _ _ _ E1) as [F1 _].
    replace (Z.of_nat k * filtersPerFile c + filtersPerFile c) with (Z.of_nat (S k) * filtersPerFile c) by lia.
    apply IH; [|by rewrite F1]. assert (k <> m) by (intros ->; congruence). lia.
  - revert E1. unfold verifyOneFilterFile, checkFilterFile, bind, catch. rewrite Hfix. cbn [negb].
    destruct (readV _ v) as [[fs|e1] v2]; [destruct (checkFilterChain c fs _ _ v2) as [[[]|e1] v3]|]; done.
Qed.

Lemma verifyHeaderLoop_fuel fuel k m running v :
  (Z.of_nat m + 1) * headersPerFile c <= max_int32 ->
  (k <= m < k + fuel)%nat -> fileExists (v_fs v) (fileName c m) = false ->
  (verifyHeaderLoop c fuel (Z.of_nat k * headersPerFile c) running v).1 <> Err OutOfFuel.
Proof.
  revert k running v. induction fuel as [|fuel IH]; intros k running v Hb Hk Hm; [lia|].
  cbn [verifyHeaderLoop]. unfold max_int32 in Hb.
  assert (0 <= Z.of_nat k * headersPerFile c <= Z.of_nat m * headersPerFile c) by nia.
  rewrite (i32_id (Z.of_nat k * headersPerFile c + headersPerFile c))
    by (unfold int32, min_int32, max_int32; nia).
  rewrite (i32_id (_ - 1)) by (unfold int32, min_int32, max_int32; nia).
  change (block_file HeaderFileSuffix (headerDir c) (Z.of_nat k * headersPerFile c)
    (Z.of_nat k * headersPerFile c + headersPerFile c - 1)) with (fileName c k).
  rewrite (bind_Ok _ _ _ (v_fs v) v) by done.
  destruct (fileExists (v_fs v) (fileName c k)) eqn:Ex; cbn [negb].
  - unfold bind at 1. destruct (verifyOneHeaderFile c _ _ _ _ v) as [[y|e] v1] eqn:E1.
    2:{ revert E1. unfold verifyOneHeaderFile, bind, catch. rewrite Hfix. cbn [negb].
        by destruct (checkHeaderFile c _ _ _ _ v) as [[x|err] v2]. }
    pose proof (verifyOneHeaderFile_reads c Hfix _ _ _ _ _ _ _ E1) as [F1 _].
    unfold bind at 1. destruct (verifyFilterHeaderAnchor c _ _ _ v1) as [[[]|e] v2] eqn:E2.
    2:{ revert E2. unfold verifyFilterHeaderAnchor, bind, catch. rewrite Hfix. cbn [negb].
        by destruct (checkFilterHeaderFile c _ _ v1) as [[x|err] v3]. }
    pose proof (verifyFilterHeaderAnchor_reads c Hfix _ _ _ _ _ _ E2) as [F2 _].
    replace (Z.of_nat k * headersPerFile c + headersPerFile c) with (Z.of_nat (S k) * headersPerFile c) by lia.
    apply IH; [done| |by rewrite F2, F1].
    assert (k <> m) by (intros ->; congruence). lia.
  - apply verifyMemoryTail_ends.
Qed.
End CleanRun.

(** ** Filters *)

Section Filters.
Context `{WireLaws} {W : Type} `{!Chain W} `{!Http W} (c : verifyCfg).

Lemma readFilters_bytes fs :
  Forall (fun f => Z.of_nat (length f) <= MaxBlockPayload) fs ->
  readFilters (length fs) (filters_bytes fs) = Ok fs.
Proof.
  induction 1 as [|f fs Hf _ IH]; cbn [length readFilters]; [done|].
  unfold filters_bytes. cbn [map concat]. pose proof MaxPayload_bound as [Hb _].
  rewrite ReadVarBytes_WriteVarBytes by lia. cbn. unfold filters_bytes in IH. by rewrite IH.
Qed.

Lemma readFilters_length n bs fs : readFilters n bs = Ok fs -> length fs = n.
Proof.
  revert bs fs. induction n as [|n IH]; intros bs fs; cbn.
  - destruct bs; [by intros [= <-]|done].
  - destruct (ReadVarBytes _ bs) as [[f rest]|]; [|done]. cbn.
    destruct (readFilters n rest) as [fs'|] eqn:E; [|done]. cbn. intros [= <-].
    cbn. f_equal. by eapply IH.
Qed.

Lemma checkFilterFile_Ok name start end_ v fs v' :
  checkFilterFile c name start end_ v = (Ok (Ok tt, fs), v') ->
  readFilterFile c (v_fs v) name = Ok fs /\
  exists prev want v1, (0 < start -> (storedFilterHeader c (i32 (start - 1)) v) = (Ok prev, v1)) /\
    (start <= 0 -> prev = zero_hash /\ v1 = v) /\
    (storedFilterHeader c end_ v1).1 = Ok want /\ foldl filter_step prev fs = want.
Proof.
  unfold checkFilterFile. intros (r & v1 & [= <- <-] & E)%bind_Ok_inv.
  destruct (readFilterFile c (v_fs v) name) as [fs'|err]; [|done].
  apply bind_Ok_inv in E as (r & v2 & E2 & E). injection E as -> <- <-.
  unfold catch in E2. destruct (checkFilterChain c fs' start end_ v) as [r' v3] eqn:E.
  injection E2 as -> <-. split; [done|]. unfold checkFilterChain in E.
  apply bind_Ok_inv in E as (prev & v4 & E4 & E).
  apply bind_Ok_inv in E as (want & v5 & E5 & E). case_bool_decide as Hx; [|done].
  exists prev, want, v4. split_and!; [| |by rewrite E5|done].
  - intros Hs. by rewrite (proj2 (Z.ltb_lt _ _)) in E4 by lia.
  - intros Hs. rewrite (proj2 (Z.ltb_ge _ _)) in E4 by lia. by injection E4 as <- <-.
Qed.
End Filters.

(** ** Properties *)

Section Properties.
Context `{WireLaws} {W : Type} `{!Chain W} `{!Http W} (c : verifyCfg).


(** C28: without [--fix] the verification ends: with one round for each file that
    exists and one for the first that does not, neither walk runs out of
    rounds, whatever the files hold and whatever the backend answers. *)
Theorem runVerify_terminates fuel m n v :
  v_fix c = false -> 0 < headersPerFile c -> 0 < filtersPerFile c ->
  (Z.of_nat m + 1) * headersPerFile c <= max_int32 -> (Z.of_nat n + 1) * filtersPerFile c <= max_int32 ->
  fileExists (v_fs v) (fileName c m) = false -> fileExists (v_fs v) (filterName c n) = false ->
  (m < fuel)%nat -> (n < fuel)%nat ->
  (runVerify c fuel v).1 <> Err OutOfFuel.
Proof.
  intros Hfix Hh Hf Hm Hn Em En Hfm Hfn. unfold runVerify, verifyHeaderFiles, verifyFilterFiles.
  pose proof (verifyHeaderLoop_fuel c Hfix Hh fuel 0 m zero_hash v Hm ltac:(lia) Em) as H1.
  unfold bind at 1. change (Z.of_nat 0 * headersPerFile c) with 0 in H1.
  destruct (verifyHeaderLoop c fuel 0 zero_hash v) as [[[]|e] v1] eqn:E1; [|cbn in *; congruence].
  pose proof (verifyHeaderLoop_reads c Hfix _ _ _ _ _ _ E1) as [F1 _].
  pose proof (verifyFilterLoop_fuel c Hfix fuel 0 n v1 Hf Hn ltac:(lia) ltac:(by rewrite F1)) as H2.
  unfold bind at 1. change (Z.of_nat 0 * filtersPerFile c) with 0 in H2.
  destruct (verifyFilterLoop c fuel 0 v1) as [[[]|e] v2]; [|cbn in *; congruence].
  unfold bind, gets. by destruct (0 <? _).
Qed.

(** Without [--fix] the command never writes: whatever it finds and
    however it ends, the disk is unchanged. *)
Lemma runVerify_only_reads fuel v r v' :
  v_fix c = false -> runVerify c fuel v = (r, v') -> v_fs v' = v_fs v.
Proof.
  intros Hfix E. assert (keeps reads (runVerify c fuel)) as K; [|by apply (K _ _ _ E)].
  unfold runVerify. apply keeps_bind; [apply _|by apply verifyHeaderLoop_reads|intros _].
  apply keeps_bind; [apply _|by apply verifyFilterLoop_reads|intros _].
  apply keeps_bind; [apply _|auto with go|intros bad]. destruct (0 <? _); auto with go.
Qed.


(** C25: what the header producer seals, the verify command accepts: if the
    backend still reports the same block for the end of the file, and the file
    follows the one before it, the check succeeds. *)
Theorem sealed_headers_verify dir a b (s : Env W * headerFiles) s' v endHash w w' running h :
  0 <= a <= b -> b < 10000000 -> b - a + 1 = headersPerFile c -> fs_faults (e_fs s.1) = no_faults ->
  hf_writeSealedFile dir a b s = (Ok tt, s') ->
  v_fs v = e_fs s'.1 ->
  GetBlockHash b (e_world s.1) = (Ok endHash, w) -> GetBlockHash b (v_world v) = (Ok endHash, w') ->
  headers s.2 !! a = Some h ->
  (if a =? 0 then BlockHash h = v_GenesisHash c else PrevBlock h = running) ->
  (checkHeaderFile c (block_file HeaderFileSuffix dir a b) a b running v).1 = Ok endHash.
Proof.
  intros Ha Hb Hn Hnf E Hv Hg Hg' Hh Hfirst.
  assert (Hff : fs_faults (e_fs s'.1) = no_faults)
    by (pose proof (hf_writeSealedFile_wrote dir a b Ha Hb _ _ _ E) as [_ _ -> _]; done).
  apply hf_writeSealedFile_Ok in E as (x & w0 & hs & fhs & Hg0 & Hhs & Hseg & _ & Hfs & _); [|lia].
  rewrite Hg in Hg0. injection Hg0 as <- <-.
  assert (Hread : os_ReadFile (v_fs v) (block_file HeaderFileSuffix dir a b) = Ok (headers_bytes hs)).
  { unfold os_ReadFile, readable. rewrite Hv, Hfs, Hff, lookup_insert_ne, lookup_insert_eq; [done|].
    intros Hq. apply (block_file_suffix_inj _ _ _ a b a b) in Hq; done || lia. }
  pose proof Hhs as Hhs'. apply mapM_Some, Forall2_length in Hhs'. rewrite length_range in Hhs'.
  assert (Hhead : head hs = Some h).
  { rewrite range_cons in Hhs by lia. apply mapM_cons_Some in Hhs as (y & t & Hy & _ & ->). cbn. congruence. }
  unfold checkHeaderFile. unfold bind at 1, wrapE at 1, readV. rewrite Hread. cbn [res_wrap].
  rewrite length_headers_bytes. unfold MaxBlockHeaderPayload at 1.
  rewrite (proj2 (Z.eqb_eq _ _)) by lia. cbn [negb].
  unfold bind at 1, liftR. pose proof (link_complete c hs a running h endHash ltac:(lia) Hhead Hfirst Hseg) as L.
  replace (a + Z.of_nat (length hs) - 1) with b in L by lia. rewrite L.
  unfold bind, wrapE, onV, zoom. rewrite Hg'. cbn. by rewrite bool_decide_eq_true_2.
Qed.

(** C26: filters sealed by the filter producer and read back by the verify
    command are the same filters: the file format round-trips. *)
Theorem filters_seal_then_read dir a b (s : Env W * cFilterFiles) s' :
  b - a + 1 = filtersPerFile c -> fs_faults (e_fs s.1) = no_faults ->
  (forall j f, a <= j <= b -> filters s.2 !! j = Some f -> Z.of_nat (length f) <= MaxBlockPayload) ->
  cf_writeSealedFile dir a b s = (Ok tt, s') ->
  exists fs, mapM (fun j => filters s.2 !! j) (range a b) = Some fs /\
    readFilterFile c (e_fs s'.1) (block_file FilterFileSuffix dir a b) = Ok fs.
Proof.
  intros Hn Hnf Hlen (fs & sv & _ & Hfs & Hw & Hff & _)%cf_writeSealedFile_Ok.
  exists fs. split; [done|]. unfold readFilterFile, os_ReadFile, readable.
  rewrite Hw, lookup_insert_eq, Hff, Hnf. cbn. pose proof Hfs as HL.
  apply mapM_Some in Hfs. apply Forall2_length in Hfs as HL2. rewrite length_range in HL2.
  replace (Z.to_nat (filtersPerFile c)) with (length fs) by lia. apply readFilters_bytes.
  apply Forall_forall. intros f Hf. apply list_elem_of_lookup in Hf as [i Hi].
  destruct (Forall2_lookup_r _ _ _ _ _ Hfs Hi) as (j & Hj & E). apply (Hlen j); [|done].
  apply elem_of_range. by eapply list_elem_of_lookup_2.
Qed.


(** Without [--fix] a corrupt header file also condemns the next one: the
    hash to link to is not updated, so a file whose first header links to its
    true predecessor is reported as corrupt too. *)
Lemma unfixed_bad_file_condemns_next name name2 start end_ end2 running v e data :
  v_fix c = false -> 0 < end_ + 1 <= end2 ->
  (checkHeaderFile c name start end_ running v).1 = Err e ->
  os_ReadFile (v_fs v) name2 = Ok data ->
  slice 4 32 (recordAt MaxBlockHeaderPayload data (end_ + 1) (end_ + 1)) <> running ->
  exists v2, (let! running' := verifyOneHeaderFile c name start end_ running in
              verifyOneHeaderFile c name2 (end_ + 1) end2 running') v = (Ok running, v2) /\
    badFiles v2 = (badFiles v ++ [name; name2])%list.
Proof.
  intros Hfix Hs He Hr Hne. unfold verifyOneHeaderFile, bind at 1 2, catch at 1. rewrite Hfix. cbn [negb].
  destruct (checkHeaderFile c name start end_ running v) as [rc v1] eqn:E1. cbn in He. subst rc.
  apply checkHeaderFile_quiet in E1 as [F1 B1]. cbn.
  unfold bind at 1, catch. destruct (checkHeaderFile c name2 (end_ + 1) end2 running _) as [rc v3] eqn:E3.
  pose proof (checkHeaderFile_quiet _ _ _ _ _ _ _ _ E3) as [F3 B3].
  destruct rc as [y|err].
  - exfalso. apply checkHeaderFile_Ok in E3 as (data' & w & R1 & _ & R3 & _). cbn in R1.
    rewrite F1, Hr in R1. injection R1 as <-. apply link_first in R3; [done|lia].
  - cbn. eexists. split; [done|]. cbn. rewrite B3. cbn. by rewrite B1, <- app_assoc.
Qed.
End Properties.

(** *** Witnesses *)

(** A server that serves heights 4 and 5 from memory, four entries per file on
    disk. *)
Definition vt_blocks : list toy_block := toy_blocks 6 zero_hash 0.

#[export] Instance toy_http : Http toy_world := fun url w =>
  (Ok {| StatusCode := 200;
         Body := Ok (if (url =? "http://s/headers/4")%string
                     then headers_bytes (map tb_header (drop 4 vt_blocks))
                     else concat (map (toy_filter_header vt_blocks) [4%nat; 5%nat])) |}, w).

Definition vt_cfg (fix_ : bool) : verifyCfg :=
  mkVC (default zero_hash (BlockHash (Wire := toy_wire) <$> head (toy_headers 6))) "/b" 4 4 fix_ 1 "http://s"
    (fun _ name => ("/b/headers/verify-fix-1" : str)).

Definition vt_fs : FS := e_fs (hf_writeSealedFile "/b/headers" 0 3 hf_example).2.1.
Definition vt_start : verifier toy_world := newVerifier (toy_env 6) vt_fs.

(** The same disk with the first header file truncated. *)
Definition vt_corrupt : verifier toy_world :=
  newVerifier (toy_env 6) (set_file (block_file ".header" "/b/headers" 0 3) [] vt_fs).


Lemma runVerify_terminates_witness : (runVerify (vt_cfg false) 4 vt_corrupt).1 <> Err OutOfFuel.
Proof.
  apply (runVerify_terminates (vt_cfg false) 4 1 1 vt_corrupt);
    [reflexivity|reflexivity|reflexivity|vm_compute; discriminate|vm_compute; discriminate|vm_compute; reflexivity
    |vm_compute; reflexivity|lia|lia].
Defined.


Lemma sealed_headers_verify_witness :
  (checkHeaderFile (vt_cfg false) (block_file ".header" "/b/headers" 0 3) 0 3 zero_hash vt_start).1
  = Ok (toy_tip 4).
Proof.
  apply (sealed_headers_verify (vt_cfg false) "/b/headers" 0 3 hf_example
    (hf_writeSealedFile "/b/headers" 0 3 hf_example).2 vt_start (toy_tip 4) (toy_env 4) (toy_env 6) zero_hash
    (tb_header (toy_mk zero_hash 0))).
  - lia.
  - lia.
  - reflexivity.
  - vm_compute. reflexivity.
  - apply run_Ok. vm_compute. reflexivity.
  - reflexivity.
  - vm_compute. reflexivity.
  - vm_compute. reflexivity.
  - vm_compute. reflexivity.
  - vm_compute. reflexivity.
Defined.

Lemma filters_seal_then_read_witness :
  exists fs, readFilterFile (vt_cfg false) (e_fs (cf_writeSealedFile "/b/filters" 0 3 cf_example).2.1)
    (block_file ".cfilter" "/b/filters" 0 3) = Ok fs.
Proof.
  destruct (filters_seal_then_read (vt_cfg false) "/b/filters" 0 3 cf_example
    (cf_writeSealedFile "/b/filters" 0 3 cf_example).2) as (fs & _ & E).
  - reflexivity.
  - vm_compute. reflexivity.
  - intros j f Hj Hf.
    assert (Hall : forallb (fun j => match filters cf_example.2 !! j with
                      | Some f => Z.of_nat (length f) <=? 4000000 | None => true end) (range 0 3) = true)
      by (vm_compute; reflexivity).
    rewrite forallb_forall in Hall. specialize (Hall j). rewrite Hf in Hall.
    apply Z.leb_le, Hall, list_elem_of_In, elem_of_range. exact Hj.
  - apply run_Ok. vm_compute. reflexivity.
  - exists fs. exact E.
Defined.

(** The disk with the filter file too. *)
Definition vt_filters : verifier toy_world :=
  newVerifier (toy_env 6) (e_fs (cf_writeSealedFile "/b/filters" 0 3
    (mkEnv (toy_env 4) vt_fs newH2HCache, cf_example.2)).2.1).


