(* ===== verification/PrevOuts.v ===== *)
(** * Blocks with the scripts they spend

    [block-prevouts.go]: fetching a block and the previous output scripts of
    its inputs through REST or RPC, and the prefetcher that runs the fetches of
    the next heights in the background. *)

From Stdlib Require Import ZArith Lia Ascii.
From stdpp Require Import base numbers list strings gmap.
From S2P Require Import Prelude GoInt Bytes GoStr GoIO Iface Backend Toy Files H2H Producer ProducerLaws.

Local Open Scope Z_scope.

Definition restProbePath : str := "/rest/chaininfo.json".
Definition restBlockPath (hash : str) : str := "/rest/block/" ++ hash ++ ".bin".
Definition restSpentTxOutsPath (hash : str) : str := "/rest/spenttxouts/" ++ hash ++ ".bin".
Definition minPrevOutBackendVersion : Z := 300000.
Definition prefetchDepth : Z := 8.

(** ** The getblock response

    [getBlockVin] with its [PrevOut], the hexadecimal script of the spent
    output; [getBlockTx]; [getBlockResult]. *)
Record getBlockVin := mkVin { vin_PrevOut : option str }.
Record getBlockTx := mkGetBlockTx { gtx_Hex : str; gtx_Vin : list getBlockVin }.
Record getBlockResult := mkGetBlockResult { gbr_Tx : list getBlockTx }.

(** [json.Unmarshal] into a [getBlockResult]. *)
Class Json := json_getBlockResult : bytes -> result getBlockResult.

(** [json.Marshal] of a string without special characters. *)
Definition json_string (s : str) : str :=
  String (ascii_of_nat 34) s ++ String (ascii_of_nat 34) EmptyString.

(** [blockWithPrevOuts] *)
Record blockWithPrevOuts `{Tx} := mkBlock {
  txs : list MsgTx;
  prevOutScripts : gmap OutPoint bytes
}.

(** [fetchPrevOutScript] *)
Definition fetchPrevOutScript `{Tx} (b : blockWithPrevOuts) (op : OutPoint) : result bytes :=
  match prevOutScripts b !! op with
  | Some pkScript => Ok pkScript
  | None => Err (Errorf "no previous output script known for outpoint %v")
  end.

(** [verifyPrevOutBackendVersion] *)
Definition verifyPrevOutBackendVersion (version : Z) : result unit :=
  if version <? minPrevOutBackendVersion
  then Err (Errorf "indexing SP tweak data or custom filters requires bitcoind v30.0 or later, but the backend reports version %d")
  else Ok tt.

(** [backendRESTURL] *)
Definition backendRESTURL (host : str) (disableTLS : bool) : str :=
  ((if disableTLS then "http" else "https") ++ "://" ++ host)%string.

(** ** Parsing spent outputs *)

Section Parse.
Context `{Wi : Wire}.

(** [io.ReadFull] into [n] bytes. *)
Definition io_ReadFull (n : nat) (r : bytes) : result (bytes * bytes) :=
  if bool_decide (length r < n)%nat
  then Err (match r with [] => io_EOF | _ => io_ErrUnexpectedEOF end)
  else Ok (take n r, drop n r).

(** One output: its value and its script. *)
Definition readTxOut (r : bytes) : result (TxOut * bytes) :=
  res_bind (res_wrap "error reading value of spent output %d of tx %d: %w" (io_ReadFull 8 r))
    (fun '(valueBytes, r) =>
  res_bind (res_wrap "error reading pkScript of spent output %d of tx %d: %w"
              (ReadVarBytes MaxMessagePayload r))
    (fun '(pkScript, r) => Ok (mkTxOut (i64 (get_le valueBytes)) pkScript, r))).

(** [n] items, one after the other. *)
Fixpoint readN {A} (read : bytes -> result (A * bytes)) (n : nat) (r : bytes)
  : result (list A * bytes) :=
  match n with
  | O => Ok ([], r)
  | S n' =>
      res_bind (read r) (fun '(x, r) =>
        res_bind (readN read n' r) (fun '(l, r) => Ok (x :: l, r)))
  end.

(** The outputs spent by one transaction. *)
Definition readTxOuts (r : bytes) : result (list TxOut * bytes) :=
  res_bind (res_wrap "error reading input count of tx %d: %w" (ReadVarInt r)) (fun '(numIns, r) =>
    if MaxBlockPayload <? numIns then Err (Errorf "input count %d of tx %d exceeds maximum %d")
    else readN readTxOut (Z.to_nat numIns) r).

(** [parseSpentTxOuts] *)
Definition parseSpentTxOuts (r : bytes) : result (list (list TxOut)) :=
  res_bind (res_wrap "error reading tx count: %w" (ReadVarInt r)) (fun '(numTxs, r) =>
    if MaxBlockPayload <? numTxs then Err (Errorf "tx count %d exceeds maximum %d")
    else
      res_bind (readN readTxOuts (Z.to_nat numTxs) r) (fun '(spentTxOuts, r) =>
        match r with
        | [] => Ok spentTxOuts
        | _ => Err (Errorf "unexpected trailing data after spent output lists")
        end)).
End Parse.

(** ** Fetching a block *)

(** The mutable fields of [blockPrevOutFetcher]: whether [probeOnce] has run,
    and what it found. *)
Record blockPrevOutFetcher := mkFetcher { probed : bool; useREST : bool }.

Section Fetch.
Context `{Wi : Wire} `{!Tx} `{!Json} {W : Type} `{!Chain W} `{!Http W} `{!Rpc W} (restURL : str).

Abbreviation F := (W * blockPrevOutFetcher)%type.

Definition onNet {A} (m : M W A) : M F A := zoom fst (fun w s => (w, s.2)) m.

(** [probeREST]: the result is the new value of [useREST]. *)
Definition probeREST : M F unit :=
  let! r := catch (onNet (http_Get (restURL ++ restProbePath)%string)) in
  match r with
  | Err _ => ret tt
  | Ok resp =>
      if negb (StatusCode resp =? 200) then ret tt
      else modify (fun s => (s.1, mkFetcher (probed s.2) true))
  end.

(** [f.probeOnce.Do(f.probeREST)] *)
Definition probeOnce : M F unit :=
  let! s := get in
  if probed s.2 then ret tt
  else modify (fun s => (s.1, mkFetcher true (useREST s.2))) ;;; probeREST.

(** [requireREST] *)
Definition requireREST : M F unit :=
  probeOnce ;;;
  let! s := get in
  if useREST s.2 then ret tt
  else fail (Errorf "the backend's REST API is not reachable at %s; set rest=1 in the bitcoind configuration").

(** [restGet] *)
Definition restGet (path : str) : M F bytes :=
  let! resp := wrapE "error calling REST endpoint %s: %w"
                 (onNet (http_Get (restURL ++ path)%string)) in
  let! body := wrapE "error reading response of REST endpoint %s: %w" (liftR (Body resp)) in
  if StatusCode resp =? 200 then ret body
  else fail (Errorf "REST endpoint %s returned HTTP status %d: %s").

(** The loop over the inputs of one transaction. *)
Definition addScripts (ops : list OutPoint) (scripts : list bytes) (m : gmap OutPoint bytes)
  : gmap OutPoint bytes :=
  foldl (fun m p => <[p.1 := p.2]> m) m (zip ops scripts).

(** The body of the loop over the transactions of [fetchBlockREST]. *)
Definition pairTx (spentTxOuts : list (list TxOut)) (m : gmap OutPoint bytes)
  (it : nat * MsgTx) : result (gmap OutPoint bytes) :=
  let '(txIndex, tx) := it in
  if bool_decide (txIndex = 0%nat) then Ok m
  else
    let spent := default [] (spentTxOuts !! txIndex) in
    if bool_decide (length spent = length (TxIn tx))
    then Ok (addScripts (TxIn tx) (map PkScript spent) m)
    else Err (Errorf "input count mismatch for tx %d in block %v: %d spent outputs vs %d inputs").

(** [fetchBlockREST] *)
Definition fetchBlockREST (hash : Hash) : M F blockWithPrevOuts :=
  let! blockBytes := wrapE "error fetching block %v: %w" (restGet (restBlockPath (Hash_String hash))) in
  let! transactions := wrapE "error deserializing block %v: %w"
                         (liftR (block_Deserialize (bytes_NewReader blockBytes))) in
  let! spentBytes := wrapE "error fetching spent outputs of block %v: %w"
                       (restGet (restSpentTxOutsPath (Hash_String hash))) in
  let! spentTxOuts := wrapE "error parsing spent outputs of block %v: %w"
                        (liftR (parseSpentTxOuts spentBytes)) in
  if negb (bool_decide (length spentTxOuts = length transactions))
  then fail (Errorf "tx count mismatch for block %v: %d spent output lists vs %d txs")
  else
    let! m := liftR (res_fold (pairTx spentTxOuts) ∅ (imap pair transactions)) in
    ret (mkBlock _ transactions m).

(** The body of the loop over the inputs of [getBlockWithPrevOuts]. *)
Definition decodeVin (m : gmap OutPoint bytes) (it : OutPoint * getBlockVin)
  : result (gmap OutPoint bytes) :=
  let '(op, vin) := it in
  match vin_PrevOut vin with
  | None => Err (Errorf "missing prevout data for input %d of tx %d in block %v; fetching previous outputs requires bitcoind v25.0 or later and an unpruned block")
  | Some scriptHex =>
      res_bind (res_wrap "error decoding prevout script of input %d of tx %d in block %v: %w"
                  (hex_DecodeString scriptHex))
        (fun pkScript => Ok (<[op := pkScript]> m))
  end.

(** The body of the loop over its transactions. *)
Definition decodeTx (block : blockWithPrevOuts) (rpcTx : getBlockTx) : result blockWithPrevOuts :=
  res_bind (res_wrap "error deserializing tx %d in block %v: %w"
              (tx_Deserialize (hex_NewDecoder (gtx_Hex rpcTx)))) (fun tx =>
    let block' := mkBlock _ (txs block ++ [tx]) (prevOutScripts block) in
    if IsCoinBaseTx tx then Ok block'
    else if negb (bool_decide (length (gtx_Vin rpcTx) = length (TxIn tx)))
    then Err (Errorf "input count mismatch for tx %d in block %v: %d vs %d")
    else res_bind (res_fold decodeVin (prevOutScripts block') (zip (TxIn tx) (gtx_Vin rpcTx)))
           (fun m => Ok (mkBlock _ (txs block') m))).

(** [getBlockWithPrevOuts] *)
Definition getBlockWithPrevOuts (hash : Hash) : M F blockWithPrevOuts :=
  let! rawResult := wrapE "error fetching block %v with getblock verbosity 3: %w"
                      (onNet (RawRequest "getblock" [json_string (Hash_String hash); "3"])) in
  let! result := wrapE "error decoding getblock response for block %v: %w"
                   (liftR (json_getBlockResult rawResult)) in
  liftR (res_fold decodeTx (mkBlock _ [] ∅) (gbr_Tx result)).

(** [blockPrevOutFetcher.fetchBlock] *)
Definition fetchSingle (hash : Hash) : M F blockWithPrevOuts :=
  probeOnce ;;;
  let! s := get in
  if useREST s.2 then fetchBlockREST hash else getBlockWithPrevOuts hash.
End Fetch.

(** ** The prefetcher

    A [prefetchedBlock] is the hash its fetch was started for and the content
    of its channel: [None] while the background fetch runs. *)
Record prefetchedBlock `{Tx} := mkPrefetched {
  pb_hash : Hash;
  pb_result : option (result blockWithPrevOuts)
}.

Record blockPrefetcher `{Tx} := mkPrefetcher {
  pf_fetcher : blockPrevOutFetcher;
  pending : gmap Z prefetchedBlock
}.

(** The Go scheduler: the heights whose background fetches finish before the
    producer goes on. The background goroutines only call [fetchSingle] and
    fill their channel, so any schedule is a choice of such moments. *)
Class Scheduler (W : Type) := finishing : W -> list Z * W.

Section Prefetch.
Context `{Wi : Wire} `{T : !Tx} `{!Json} {W : Type} `{!Chain W} `{!Http W} `{!Rpc W} `{!Scheduler W}.
Context (restURL : str).

Abbreviation P := (Env W * blockPrefetcher)%type.

Definition onFetcher {A} (m : M (W * blockPrevOutFetcher) A) : M P A :=
  zoom (fun s => (e_world s.1, pf_fetcher s.2))
    (fun wf s => (mkEnv wf.1 (e_fs s.1) (e_h2h s.1), mkPrefetcher _ wf.2 (pending s.2))) m.

Definition set_pending (f : gmap Z prefetchedBlock -> gmap Z prefetchedBlock) : M P unit :=
  inData (fun p => mkPrefetcher _ (pf_fetcher p) (f (pending p))).

(** [newBlockPrefetcher] *)
Definition newBlockPrefetcher (f : blockPrevOutFetcher) : blockPrefetcher := mkPrefetcher _ f ∅.

(** The body of the goroutine started for height [h]. *)
Definition goroutine (h : Z) : M P unit :=
  let! p := gets snd in
  match pending p !! h with
  | Some (mkPrefetched _ hash None) =>
      let! res := catch (onFetcher (fetchSingle restURL hash)) in
      set_pending (<[h := mkPrefetched _ hash (Some res)]>)
  | _ => ret tt
  end.

(** A moment at which background fetches may finish. *)
Definition yield : M P unit :=
  let! hs := inEnv (onWorld (fun w => let '(hs, w') := finishing w in (Ok hs, w'))) in
  forM hs goroutine.

(** [scheduleAhead]: over the heights of the window. *)
Fixpoint scheduleLoop (heights : list Z) : M P unit :=
  match heights with
  | [] => ret tt
  | h :: l =>
      let! p := gets snd in
      match pending p !! h with
      | Some _ => scheduleLoop l
      | None =>
          yield ;;;
          let! r := catch (inEnv (getBlockHash h)) in
          match r with
          | Err _ => ret tt
          | Ok hash => set_pending (<[h := mkPrefetched _ hash None]>) ;;; scheduleLoop l
          end
      end
  end.
Definition scheduleAhead (height : Z) : M P unit :=
  scheduleLoop (range (i32 (height + 1)) (i32 (height + prefetchDepth))).

(** [res := <-entry.result]: other fetches may finish before this one, which
    finishes at the latest now. *)
Definition receive (height : Z) : M P (option (result blockWithPrevOuts)) :=
  yield ;;;
  goroutine height ;;;
  let! p := gets snd in
  ret (match pending p !! height with Some e => pb_result e | None => None end).

(** [blockPrefetcher.fetchBlock]. Only this code touches [pending], so it does
    not matter that the entry leaves it after the receive. *)
Definition prefetch_fetchBlock (height : Z) (hash : Hash) : M P blockWithPrevOuts :=
  scheduleAhead height ;;;
  let! p := gets snd in
  match pending p !! height with
  | Some entry =>
      let! res := receive height in
      set_pending (delete height) ;;;
      match res with
      | Some (Ok block) =>
          if bool_decide (pb_hash entry = hash) then ret block
          else yield ;;; onFetcher (fetchSingle restURL hash)
      | _ => yield ;;; onFetcher (fetchSingle restURL hash)
      end
  | None => yield ;;; onFetcher (fetchSingle restURL hash)
  end.
End Prefetch.
