(* ===== verification/ToyNet.v ===== *)
(** * A concrete network for the examples

    Instances of the interfaces of [Backend] over the toy backend of [Toy]: a
    REST server that knows the blocks of the world, and transactions made from
    a number.  Nothing here models code of the repository. *)

From Stdlib Require Import ZArith Lia Strings.Byte.
From stdpp Require Import base numbers list strings gmap.
From S2P Require Import Prelude GoInt Bytes GoStr GoIO Iface Backend Toy Files H2H Producer PrevOuts.

Local Open Scope Z_scope.

Record toy_tx := mkToyTx { tt_in : list Z; tt_out : list TxOut; tt_coinbase : bool }.

Definition toy_taproot (n : Z) : bytes := x51 :: x20 :: put_le 32 n.
Definition toy_p2wpkh (n : Z) : bytes := x00 :: x14 :: put_le 20 n.
Definition is_taproot (s : bytes) : bool :=
  match s with x51 :: x20 :: k => bool_decide (length k = 32%nat) | _ => false end.
Definition is_witness (n : byte) (len : nat) (s : bytes) : bool :=
  match s with
  | x00 :: m :: k => bool_decide (m = n) && bool_decide (length k = len)
  | _ => false
  end.

(** Two transactions for block [n]: the coinbase, and one with two inputs, a
    taproot output and an output to a witness key. *)
Definition toy_txs (n : Z) : list toy_tx :=
  [ mkToyTx [0] [mkTxOut 5000 (toy_p2wpkh n)] true;
    mkToyTx [10 * n + 1; 10 * n + 2]
      [mkTxOut (500 * n) (toy_taproot n); mkTxOut 100 (toy_p2wpkh (n + 1))] false ].

#[export] Instance toy_Tx : Tx := {|
  OutPoint := Z;
  MsgTx := toy_tx;
  TxIn := tt_in;
  TxOuts := tt_out;
  IsCoinBaseTx := tt_coinbase;
  tx_Deserialize := fun _ => Err (External "tx");
  block_Deserialize := fun r => Ok (toy_txs (get_le (rd_data r)));
  IsPayToTaproot := is_taproot;
  IsPayToWitnessPubKeyHash := is_witness x14 20;
  IsPayToWitnessScriptHash := is_witness x20 32
|}.

(** What the two inputs of the second transaction of block [n] spend. *)
Definition toy_spent (n : Z) : list TxOut :=
  [mkTxOut 1000 (toy_taproot (10 * n + 1)); mkTxOut 2000 (toy_p2wpkh (10 * n + 2))].

Definition toy_encode_out (o : TxOut) : bytes := put_le 8 (Value o) ++ WriteVarBytes (PkScript o).
Definition toy_spent_bytes (n : Z) : bytes :=
  WriteVarInt 2 ++ WriteVarInt 0 ++ WriteVarInt 2 ++ concat (map toy_encode_out (toy_spent n)).

Definition toy_at (w : toy_world) (path : str -> str) (url : str) : option Z :=
  '(n, _) ← list_find (fun b => url = path (toy_str_of_hash (BlockHash (tb_header b)))) (tw_now w);
  Some (Z.of_nat n).

#[export] Instance toy_rest : Http toy_world := fun url w =>
  (Ok (if (url =? restProbePath)%string then mkResponse 200 (Ok [])
       else match toy_at w restBlockPath url, toy_at w restSpentTxOutsPath url with
            | Some n, _ => mkResponse 200 (Ok (put_le 4 n))
            | _, Some n => mkResponse 200 (Ok (toy_spent_bytes n))
            | _, _ => mkResponse 404 (Ok [])
            end), w).

#[export] Instance toy_rpc : Rpc toy_world := fun _ _ w => (Err (External "rpc"), w).
#[export] Instance toy_json : Json := fun _ => Err (External "json").

(** The background fetch of height 2 finishes whenever it can. *)
#[export] Instance toy_scheduler : Scheduler toy_world := fun w => ([2], w).

(** The value of a computation known to succeed. *)
Definition ok_or {A} (d : A) (r : result A) : A := match r with Ok a => a | Err _ => d end.
Lemma ok_or_Ok {A} (d : A) (r : result A) : is_Ok r = true -> r = Ok (ok_or d r).
Proof. by destruct r. Qed.
