(* ===== verification/PrevOutsLaws.v ===== *)
(** * What fetched blocks contain

    The spent-output format is parsed exactly, a fetched block has the script
    of every input, and the prefetcher is transparent. *)

From Stdlib Require Import ZArith Lia.
From stdpp Require Import base numbers list strings gmap.
From S2P Require Import Prelude GoInt Bytes GoStr GoIO Iface Backend Toy Files H2H Producer ProducerLaws PrevOuts ToyNet.

Local Open Scope Z_scope.

(** ** Exact readers

    [read] accepts the encodings of the values in [ok], and nothing else. *)
Definition exact {A} (read : bytes -> result (A * bytes)) (enc : A -> bytes) (ok : A -> Prop) : Prop :=
  forall bs x rest, read bs = Ok (x, rest) <-> bs = enc x ++ rest /\ ok x.

Lemma exact_readN {A} (read : bytes -> result (A * bytes)) enc ok n bs l rest :
  exact read enc ok ->
  readN read n bs = Ok (l, rest) <->
  bs = concat (map enc l) ++ rest /\ length l = n /\ Forall ok l.
Proof.
  intros Hr. revert bs l. induction n as [|n IH]; intros bs l; cbn [readN].
  - split; [by intros [= <- <-]|]. intros (-> & ->%nil_length_inv & _). done.
  - split.
    + destruct (read bs) as [[x r]|] eqn:E; [|done]. cbn.
      destruct (readN read n r) as [[l' r']|] eqn:E'; [|done]. cbn. intros [= <- <-].
      apply Hr in E as [-> Hx]. apply IH in E' as (-> & <- & Hl).
      split_and!; [by cbn; rewrite <- app_assoc|done|by constructor].
    + intros (-> & HL & Hok). destruct l as [|x l]; [done|]. injection HL as HL.
      apply Forall_cons in Hok as [Hx Hok]. cbn.
      rewrite (proj2 (Hr _ x (concat (map enc l) ++ rest))) by (split; [by rewrite app_assoc|done]).
      cbn. by rewrite (proj2 (IH _ l)).
Qed.

Section Format.
Context `{WireLaws} `{!WireCanonical}.

(** The format of [/rest/spenttxouts]. *)
Definition encodeTxOut (o : TxOut) : bytes := put_le 8 (u64 (Value o)) ++ WriteVarBytes (PkScript o).
Definition encodeList {A} (enc : A -> bytes) (l : list A) : bytes :=
  WriteVarInt (Z.of_nat (length l)) ++ concat (map enc l).
Definition encodeSpentTxOuts (l : list (list TxOut)) : bytes := encodeList (encodeList encodeTxOut) l.

(** What the parser accepts: scripts and lists within the limits. *)
Definition ok_TxOut (o : TxOut) : Prop :=
  - 9223372036854775808 <= Value o <= max_int64 /\ Z.of_nat (length (PkScript o)) <= MaxMessagePayload.
Definition ok_list {A} (ok : A -> Prop) (l : list A) : Prop :=
  Z.of_nat (length l) <= MaxBlockPayload /\ Forall ok l.

Lemma io_ReadFull_app n r bs rest :
  io_ReadFull n r = Ok (bs, rest) <-> r = bs ++ rest /\ length bs = n.
Proof.
  unfold io_ReadFull. case_bool_decide as Hd; split.
  - done.
  - intros [-> <-]. rewrite length_app in Hd. lia.
  - intros [= <- <-]. rewrite take_drop, length_take. split; [done|lia].
  - intros [-> <-]. by rewrite take_app_length, drop_app_length.
Qed.

Lemma u64_i64 v : 0 <= v < 18446744073709551616 -> u64 (i64 v) = v.
Proof.
  intros Hv. unfold u64, i64.
  destruct (Z.lt_ge_cases v 9223372036854775808).
  - rewrite (Z.mod_small (v + _)) by lia. rewrite Z.mod_small; lia.
  - replace (v + 9223372036854775808) with (v - 9223372036854775808 + 1 * 18446744073709551616) by lia.
    rewrite Z_mod_plus_full, (Z.mod_small (v - _)) by lia.
    replace (_ - _ - _) with (v + (-1) * 18446744073709551616) by lia.
    rewrite Z_mod_plus_full, Z.mod_small; lia.
Qed.

Lemma i64_u64 v : - 9223372036854775808 <= v <= max_int64 -> i64 (u64 v) = v.
Proof.
  unfold max_int64, u64, i64. intros Hv.
  destruct (Z.lt_ge_cases v 0).
  - rewrite <- (Z_mod_plus_full v 1), (Z.mod_small (v + _)) by lia.
    replace (_ + 9223372036854775808) with (v + 9223372036854775808 + 1 * 18446744073709551616) by lia.
    rewrite Z_mod_plus_full, Z.mod_small; lia.
  - rewrite (Z.mod_small v), Z.mod_small; lia.
Qed.

Lemma i64_range v : - 9223372036854775808 <= i64 v <= max_int64.
Proof. unfold i64, max_int64. pose proof (Z.mod_pos_bound (v + 9223372036854775808) 18446744073709551616). lia. Qed.

Lemma exact_TxOut : exact readTxOut encodeTxOut ok_TxOut.
Proof.
  pose proof MaxPayload_bound as [_ Hm].
  intros bs o rest. unfold readTxOut, encodeTxOut, ok_TxOut. split.
  - destruct (io_ReadFull 8 bs) as [[v r]|] eqn:E; [|done]. cbn [res_wrap res_bind].
    apply io_ReadFull_app in E as [-> HL].
    destruct (ReadVarBytes MaxMessagePayload r) as [[s r']|] eqn:E'; [|done].
    cbn [res_wrap res_bind]. intros [= <- <-]. apply ReadVarBytes_canonical in E' as [-> Hs]. cbn [Value PkScript]. split; [|split; [apply i64_range|done]].
    pose proof (get_le_bound v) as Hb. rewrite HL in Hb. rewrite u64_i64 by (cbn in Hb; lia).
    rewrite <- HL, put_get_le. by rewrite <- app_assoc.
  - destruct o as [v s]. cbn [Value PkScript]. intros (-> & Hv & Hs).
    rewrite <- app_assoc, (proj2 (io_ReadFull_app 8 _ _ _)) by (split; [done|apply length_put_le]).
    cbn [res_wrap res_bind]. rewrite ReadVarBytes_WriteVarBytes by lia. cbn [res_wrap res_bind].
    rewrite get_put_le_id by (unfold u64; cbn; pose proof (Z.mod_pos_bound v 18446744073709551616); lia).
    by rewrite i64_u64.
Qed.

Lemma exact_list {A} (read : bytes -> result (A * bytes)) enc ok (e : error) f bs l rest :
  exact read enc ok ->
  res_bind (res_wrap f (ReadVarInt bs)) (fun '(n, r) =>
    if MaxBlockPayload <? n then Err e else readN read (Z.to_nat n) r) = Ok (l, rest)
  <-> bs = encodeList enc l ++ rest /\ ok_list ok l.
Proof.
  pose proof MaxPayload_bound as [Hm _]. intros Hr. unfold encodeList, ok_list. split.
  - destruct (ReadVarInt bs) as [[n r]|] eqn:E; [|done]. cbn.
    apply ReadVarInt_shrinks in E as E'. destruct E' as [_ Hn]. unfold uint64 in Hn.
    apply ReadVarInt_canonical in E as ->. destruct (Z.ltb_spec MaxBlockPayload n); [done|].
    intros (-> & HL & Hok)%(exact_readN _ _ _ _ _ _ _ Hr).
    rewrite HL, Z2Nat.id by lia. by rewrite <- app_assoc.
  - intros (-> & HL & Hok). rewrite <- app_assoc, ReadVarInt_WriteVarInt by (unfold uint64; lia). cbn.
    rewrite (proj2 (Z.ltb_ge _ _)) by lia. apply (exact_readN _ _ _ _ _ _ _ Hr). by rewrite Nat2Z.id.
Qed.

Lemma exact_TxOuts : exact readTxOuts (encodeList encodeTxOut) (ok_list ok_TxOut).
Proof. intros bs l rest. apply exact_list, exact_TxOut. Qed.

(** C15: the spent-output parser is exact: it returns [lists] precisely on the
    encoding of [lists], within the limits, with nothing after it; so what it
    accepts round-trips and no two responses mean the same. *)
Theorem parseSpentTxOuts_exact r lists :
  parseSpentTxOuts r = Ok lists <-> r = encodeSpentTxOuts lists /\ ok_list (ok_list ok_TxOut) lists.
Proof.
  pose proof (exact_list readTxOuts _ _ (Errorf "tx count %d exceeds maximum %d")
                "error reading tx count: %w" r lists [] exact_TxOuts) as E.
  rewrite app_nil_r in E. fold encodeSpentTxOuts in E. unfold encodeSpentTxOuts. rewrite <- E.
  unfold parseSpentTxOuts. destruct (ReadVarInt r) as [[n r']|]; [|done]. cbn.
  destruct (_ <? n); [done|]. destruct (readN _ _ r') as [[l [|b r'']]|]; cbn; [|done|done].
  split; [by intros [= ->]|by intros [= ->]].
Qed.
End Format.

(** ** Tables of scripts *)

Section Scripts.
Context {K : Type} `{Countable K}.
Implicit Types (m : gmap K bytes) (l : list (K * bytes)).

Definition insert_all l m : gmap K bytes := foldl (fun m p => <[p.1 := p.2]> m) m l.

Lemma insert_all_other l m k : k ∉ l.*1 -> insert_all l m !! k = m !! k.
Proof.
  revert m. induction l as [|[k0 v0] l IH]; intros m Hk; cbn; [done|].
  rewrite fmap_cons, not_elem_of_cons in Hk. destruct Hk as [Hne Hk].
  fold (insert_all l (<[k0:=v0]> m)). rewrite IH by done. by rewrite lookup_insert_ne.
Qed.

Lemma insert_all_some l m k :
  k ∈ l.*1 \/ is_Some (m !! k) -> is_Some (insert_all l m !! k).
Proof.
  revert m. induction l as [|[k0 v0] l IH]; intros m Hk; cbn.
  - destruct Hk as [Hk|]; [by apply elem_of_nil in Hk|done].
  - apply IH. destruct (decide (k = k0)) as [->|Hne]; [right; rewrite lookup_insert_eq; by eexists|].
    rewrite lookup_insert_ne by done. rewrite fmap_cons, elem_of_cons in Hk. naive_solver.
Qed.

Lemma insert_all_lookup l m k v : NoDup l.*1 -> (k, v) ∈ l -> insert_all l m !! k = Some v.
Proof.
  revert m. induction l as [|[k0 v0] l IH]; intros m Hnd Hin; [by apply elem_of_nil in Hin|].
  rewrite fmap_cons, NoDup_cons in Hnd. destruct Hnd as [Hk0 Hnd].
  apply elem_of_cons in Hin as [[= -> ->]|Hin]; cbn; [|by apply IH].
  fold (insert_all l (<[k0:=v0]> m)). by rewrite insert_all_other, lookup_insert_eq.
Qed.
End Scripts.

Section Blocks.
Context `{Wi : Wire} `{T : !Tx} `{J : !Json} {W : Type} `{C : !Chain W} `{Hn : !Http W} `{R : !Rpc W}.
Context (restURL : str).
Implicit Types (b : blockWithPrevOuts) (m : gmap OutPoint bytes).

(** Every input of the transaction has its script in the table. *)
Definition has_scripts m (tx : MsgTx) : Prop := forall op, op ∈ TxIn tx -> is_Some (m !! op).

(** Every input of every transaction but the coinbase can be looked up. *)
Definition complete b : Prop := forall i tx op,
  txs b !! i = Some tx -> i <> 0%nat -> IsCoinBaseTx tx = false -> op ∈ TxIn tx ->
  exists script, fetchPrevOutScript b op = Ok script.

Lemma complete_has b :
  (forall i tx, txs b !! i = Some tx -> i <> 0%nat -> IsCoinBaseTx tx = false -> has_scripts (prevOutScripts b) tx) ->
  complete b.
Proof.
  intros Hs i tx op Hi H0 Hc Hop. destruct (Hs i tx Hi H0 Hc op Hop) as [s E].
  exists s. unfold fetchPrevOutScript. by rewrite E.
Qed.

(** *** REST *)

(** The pairs the loop of [fetchBlockREST] stores for one transaction. *)
Definition tx_pairs (spent : list (list TxOut)) (it : nat * MsgTx) : list (OutPoint * bytes) :=
  if bool_decide (it.1 = 0%nat) then []
  else zip (TxIn it.2) (map PkScript (default [] (spent !! it.1))).

Lemma pairTx_fold spent l m m' :
  res_fold (pairTx spent) m l = Ok m' ->
  m' = insert_all (concat (map (tx_pairs spent) l)) m /\
  forall i tx, (i, tx) ∈ l -> i <> 0%nat -> length (default [] (spent !! i)) = length (TxIn tx).
Proof.
  revert m. induction l as [|[i tx] l IH]; intros m; cbn [res_fold].
  - intros [= <-]. split; [done|]. intros ? ? Hin. by apply elem_of_nil in Hin.
  - unfold pairTx at 1. cbn [map concat]. unfold tx_pairs at 1. cbn [fst snd].
    case_bool_decide as Hi; [|case_bool_decide as HL]; [| |done]; cbn [res_bind];
      intros (E & Hl)%IH; split.
    + done.
    + intros j tx' [[= -> ->]|Hin]%elem_of_cons; [done|by apply Hl].
    + rewrite E. unfold insert_all, addScripts. by rewrite foldl_app.
    + intros j tx' [[= -> ->]|Hin]%elem_of_cons; [done|by apply Hl].
Qed.

Lemma tx_pairs_fst spent i tx :
  length (default [] (spent !! i)) = length (TxIn tx) -> i <> 0%nat ->
  (tx_pairs spent (i, tx)).*1 = TxIn tx.
Proof.
  intros HL Hi. unfold tx_pairs. cbn. rewrite bool_decide_eq_false_2 by done.
  rewrite fst_zip; [done|]. rewrite length_map. lia.
Qed.

(** What a successful [fetchBlockREST] went through. *)
Lemma fetchBlockREST_Ok hash s b s' :
  fetchBlockREST restURL hash s = (Ok b, s') ->
  exists s0 s1 blockBytes s2 s3 spentBytes spent,
    restGet restURL (restBlockPath (Hash_String hash)) s0 = (Ok blockBytes, s1) /\
    block_Deserialize (bytes_NewReader blockBytes) = Ok (txs b) /\
    restGet restURL (restSpentTxOutsPath (Hash_String hash)) s2 = (Ok spentBytes, s3) /\
    parseSpentTxOuts spentBytes = Ok spent /\
    length spent = length (txs b) /\
    res_fold (pairTx spent) ∅ (imap pair (txs b)) = Ok (prevOutScripts b).
Proof.
  unfold fetchBlockREST. intros (blockBytes & s1 & E1%wrapE_Ok_inv & E)%bind_Ok_inv.
  apply bind_Ok_inv in E as (transactions & s2 & [= E2 <-]%wrapE_Ok_inv & E).
  apply bind_Ok_inv in E as (spentBytes & s3 & E3%wrapE_Ok_inv & E).
  apply bind_Ok_inv in E as (spent & s4 & [= E4 <-]%wrapE_Ok_inv & E).
  case_bool_decide as HL; [|done]. cbn [negb] in E.
  apply bind_Ok_inv in E as (m & s5 & [= E5 <-] & [= <- <-]).
  by exists s, s1, blockBytes, s1, s3, spentBytes, spent.
Qed.

Lemma elem_of_imap_pair {A} (l : list A) i x : (i, x) ∈ imap pair l <-> l !! i = Some x.
Proof.
  rewrite list_elem_of_lookup. setoid_rewrite list_lookup_imap_Some. split.
  - by intros (j & x' & Hx & [= -> ->]).
  - intros Hx. by exists i, x.
Qed.

Lemma rest_has spent b :
  res_fold (pairTx spent) ∅ (imap pair (txs b)) = Ok (prevOutScripts b) -> complete b.
Proof.
  intros (E & HL)%pairTx_fold. apply complete_has. intros i tx Hi H0 _ op Hop.
  rewrite E. apply insert_all_some. left. apply list_elem_of_fmap.
  assert (Hin : (i, tx) ∈ imap pair (txs b)) by by apply elem_of_imap_pair.
  rewrite <- (tx_pairs_fst spent i tx) in Hop by auto. apply list_elem_of_fmap in Hop as (p & -> & Hp).
  exists p. split; [done|]. rewrite list_elem_of_In, in_concat.
  exists (tx_pairs spent (i, tx)). split; [|by apply list_elem_of_In].
  apply in_map. by apply list_elem_of_In.
Qed.

(** *** RPC *)

Lemma decodeVin_fold l m m' :
  res_fold decodeVin m l = Ok m' ->
  (forall op, op ∈ l.*1 \/ is_Some (m !! op) -> is_Some (m' !! op)).
Proof.
  revert m. induction l as [|[op vin] l IH]; intros m; cbn [res_fold].
  - intros [= <-] op [Hop|]; [by apply elem_of_nil in Hop|done].
  - unfold decodeVin at 1. destruct (vin_PrevOut vin) as [h|]; [|done].
    destruct (hex_DecodeString h) as [bs|]; [|done]. cbn [res_wrap res_bind]. intros E op' Hop.
    apply (IH _ E). destruct (decide (op' = op)) as [->|Hne]; [right; rewrite lookup_insert_eq; by eexists|].
    rewrite lookup_insert_ne by done. rewrite fmap_cons, elem_of_cons in Hop. naive_solver.
Qed.

Definition rpc_complete b : Prop := forall tx,
  tx ∈ txs b -> IsCoinBaseTx tx = false -> has_scripts (prevOutScripts b) tx.

Lemma decodeTx_complete b r b' : decodeTx b r = Ok b' -> rpc_complete b -> rpc_complete b'.
Proof.
  unfold decodeTx. destruct (tx_Deserialize _) as [tx|]; [|done]. cbn [res_wrap res_bind].
  destruct (IsCoinBaseTx tx) eqn:Hc.
  - intros [= <-] Hb tx' Hin Hc'. cbn in Hin. apply elem_of_app in Hin as [Hin|Hin%list_elem_of_singleton].
    + by apply Hb.
    + congruence.
  - case_bool_decide as HL; [|done]. cbn [negb prevOutScripts txs].
    destruct (res_fold decodeVin _ _) as [m|] eqn:E; [|done]. intros [= <-] Hb tx' Hin Hc' op Hop.
    cbn in *. apply (decodeVin_fold _ _ _ E). rewrite fst_zip by lia.
    apply elem_of_app in Hin as [Hin| ->%list_elem_of_singleton]; [right; by apply (Hb tx')|by left].
Qed.

Lemma decodeTx_fold l b b' : res_fold decodeTx b l = Ok b' -> rpc_complete b -> rpc_complete b'.
Proof.
  revert b. induction l as [|r l IH]; intros b; cbn [res_fold]; [by intros [= <-]|].
  destruct (decodeTx b r) as [b1|] eqn:E; [|done]. cbn. intros E' Hb.
  by eapply IH, decodeTx_complete.
Qed.

Lemma fetchSingle_complete hash s b s' : fetchSingle restURL hash s = (Ok b, s') -> complete b.
Proof.
  unfold fetchSingle. intros ([] & s1 & _ & E)%bind_Ok_inv.
  apply bind_Ok_inv in E as (s2 & s3 & _ & E). destruct (useREST s2.2).
  - apply fetchBlockREST_Ok in E as (_ & _ & _ & _ & _ & _ & spent & _ & _ & _ & _ & _ & E).
    by eapply rest_has.
  - unfold getBlockWithPrevOuts in E. apply bind_Ok_inv in E as (raw & s4 & _ & E).
    apply bind_Ok_inv in E as (res & s5 & _ & E). injection E as E _. apply decodeTx_fold in E.
    + apply complete_has. intros i tx Hi _ Hc. apply E; [by eapply list_elem_of_lookup_2|done].
    + intros tx Hin. by apply elem_of_nil in Hin.
Qed.
End Blocks.

(** ** Properties of the fetch *)

Section Fetch.
Context `{Wi : Wire} `{T : !Tx} `{J : !Json} {W : Type} `{C : !Chain W} `{Hn : !Http W} `{R : !Rpc W}.
Context (restURL : str).

(** C29: the REST path pairs blocks and spent outputs by position: the scripts
    come from the spent-output response of this block, there is one output for
    each input, and an outpoint spent once in the block is looked up as the
    script of its own output. *)
Theorem fetchBlockREST_aligned hash s b s' :
  fetchBlockREST restURL hash s = (Ok b, s') ->
  exists x spentBytes x' spent,
    restGet restURL (restSpentTxOutsPath (Hash_String hash)) x = (Ok spentBytes, x') /\
    parseSpentTxOuts spentBytes = Ok spent /\ length spent = length (txs b) /\
    forall i tx j op, i <> 0%nat -> txs b !! i = Some tx -> TxIn tx !! j = Some op ->
      exists outs o, spent !! i = Some outs /\ length outs = length (TxIn tx) /\ outs !! j = Some o /\
        (NoDup (concat (map (tx_pairs spent) (imap pair (txs b)))).*1 ->
         fetchPrevOutScript b op = Ok (PkScript o)).
Proof.
  intros (s0 & s1 & bb & s2 & s3 & sb & spent & _ & _ & E3 & E4 & HL & (E & Hl)%pairTx_fold)%fetchBlockREST_Ok.
  exists s2, sb, s3, spent. split_and!; [done..|]. intros i tx j op H0 Hi Hj.
  assert (Hin : (i, tx) ∈ imap pair (txs b)) by by apply elem_of_imap_pair.
  pose proof (Hl _ _ Hin H0) as HL2.
  destruct (spent !! i) as [outs|] eqn:Ho; [|apply lookup_ge_None in Ho; apply lookup_lt_Some in Hi; lia].
  cbn in HL2. apply lookup_lt_Some in Hj as Hlt.
  destruct (outs !! j) as [o|] eqn:Hoj; [|apply lookup_ge_None in Hoj; lia].
  exists outs, o. split_and!; [done..|]. intros Hnd. unfold fetchPrevOutScript. rewrite E.
  rewrite (insert_all_lookup _ _ op (PkScript o) Hnd); [done|].
  rewrite list_elem_of_In, in_concat. exists (tx_pairs spent (i, tx)). split.
  - apply in_map. by apply list_elem_of_In.
  - apply list_elem_of_In. unfold tx_pairs. cbn. rewrite bool_decide_eq_false_2 by done. rewrite Ho. cbn.
    apply list_elem_of_lookup. exists j. apply lookup_zip_Some. split; [done|].
    by rewrite list_lookup_fmap, Hoj.
Qed.
End Fetch.

(** The files and the cache's invariant survive, whatever the pending fetches
    are. *)
Record env_kept {W D} (s s' : Env W * D) : Prop := {
  ek_fs : e_fs s'.1 = e_fs s.1;
  ek_h2h : h2h_ok (e_h2h s.1) -> h2h_ok (e_h2h s'.1)
}.

#[export] Instance env_kept_preorder {W D} : PreOrder (@env_kept W D).
Proof. split; [by split|]. intros s1 s2 s3 [] []. split; [congruence|auto]. Qed.

(** ** The prefetcher *)

Section Prefetch.
Context `{Wi : Wire} `{T : !Tx} `{J : !Json} {W : Type} `{C : !Chain W} `{Hn : !Http W} `{R : !Rpc W} `{Sc : !Scheduler W}.
Context (restURL : str).
Abbreviation P := (Env W * blockPrefetcher)%type.
Implicit Types (s : P).

(** A direct fetch can give this result. *)
Definition direct (hash : Hash) (r : result blockWithPrevOuts) : Prop :=
  exists x x', fetchSingle restURL hash x = (r, x').

(** Every block in a channel was fetched for the hash recorded with it. *)
Definition pf_inv (p : blockPrefetcher) : Prop := forall h e r,
  pending p !! h = Some e -> pb_result e = Some r -> direct (pb_hash e) r.

(** What the steps of the prefetcher do: no file is touched, entries keep
    their hash and new ones are in [Q]. *)
Record moved (Q : Z -> Prop) (s s' : P) : Prop := {
  mv_fs : e_fs s'.1 = e_fs s.1;
  mv_h2h : h2h_ok (e_h2h s.1) -> h2h_ok (e_h2h s'.1);
  mv_inv : pf_inv s.2 -> pf_inv s'.2;
  mv_hash h e : pending s.2 !! h = Some e ->
    exists e', pending s'.2 !! h = Some e' /\ pb_hash e' = pb_hash e;
  mv_dom h : is_Some (pending s'.2 !! h) -> is_Some (pending s.2 !! h) \/ Q h
}.

#[export] Instance moved_preorder Q : PreOrder (moved Q).
Proof.
  split; [split; eauto|]. intros s1 s2 s3 [A1 A2 A3 A4 A5] [B1 B2 B3 B4 B5].
  split; [congruence|auto|auto| |].
  - intros h e He. destruct (A4 _ _ He) as (e' & He' & E). destruct (B4 _ _ He') as (e2 & ? & ?).
    exists e2. split; [done|congruence].
  - intros h Hh. destruct (B5 h Hh) as [Hh'|]; [|by right]. by apply A5.
Qed.

Abbreviation quiet := (moved (fun _ => False)).

Lemma quiet_moved Q s s' : quiet s s' -> moved Q s s'.
Proof. intros [? ? ? ? M]. split; [done..|]. intros h Hh. destruct (M h Hh); [by left|done]. Qed.

Lemma onFetcher_quiet {A} (m : M (W * blockPrevOutFetcher) A) : keeps quiet (onFetcher m).
Proof.
  intros s r s'. unfold onFetcher, zoom. destruct (m _) as [r1 wf]. intros [= _ <-].
  split; cbn; eauto.
Qed.

Lemma inEnv_quiet {A} (m : M (Env W) A) Q :
  keeps (@fetched W blockPrefetcher) (inEnv m) -> keeps (moved Q) (inEnv m).
Proof.
  intros Hm s r s' E. pose proof (Hm _ _ _ E) as [E1 E2 E3]. split; [done|done|by rewrite E1|..]; rewrite E1; eauto.
Qed.

Lemma goroutine_quiet h : keeps quiet (goroutine restURL h).
Proof.
  intros s r s'. unfold goroutine, bind at 1, gets.
  destruct (pending s.2 !! h) as [[hash [res|]]|] eqn:E; [intros [= _ <-]; reflexivity| |intros [= _ <-]; reflexivity].
  unfold bind, catch. destruct (onFetcher (fetchSingle restURL hash) s) as [res s1] eqn:E1.
  pose proof (onFetcher_quiet _ _ _ _ E1) as Q1. unfold set_pending, inData, modify. intros [= _ <-].
  assert (Hd : direct hash res).
  { unfold onFetcher, zoom in E1. destruct (fetchSingle restURL hash _) as [r1 wf] eqn:E2. injection E1 as <- _. by eexists _, _. }
  etransitivity; [exact Q1|]. destruct (mv_hash _ _ _ Q1 _ _ E) as (e' & He' & Hh). split; cbn; auto.
  - intros Hi h' e r' He Hr. cbn in He. destruct (decide (h' = h)) as [->|].
    + rewrite lookup_insert_eq in He. injection He as <-. cbn in *. congruence.
    + rewrite lookup_insert_ne in He by done. by eapply Hi.
  - intros h' e He. destruct (decide (h' = h)) as [->|].
    + exists (mkPrefetched _ hash (Some res)). rewrite lookup_insert_eq. split; [done|]. cbn. cbn in Hh. congruence.
    + exists e. by rewrite lookup_insert_ne.
  - intros h' Hh'. left. destruct (decide (h' = h)) as [->|]; [by eexists|].
    by rewrite lookup_insert_ne in Hh'.
Qed.

Lemma yield_quiet : keeps quiet (yield restURL).
Proof.
  unfold yield. apply keeps_bind; [apply _|apply inEnv_quiet; auto with go|intros hs].
  apply keeps_forM; [apply _|apply goroutine_quiet].
Qed.

Lemma quiet_none s s' h : quiet s s' -> pending s.2 !! h = None -> pending s'.2 !! h = None.
Proof.
  intros Q E. destruct (pending s'.2 !! h) eqn:E'; [|done].
  destruct (mv_dom _ _ _ Q h) as [[? ?]|]; [by eexists|congruence|done].
Qed.

Lemma insert_moved (Q : Z -> Prop) s h hash : pending s.2 !! h = None -> Q h ->
  moved Q s (s.1, mkPrefetcher _ (pf_fetcher s.2) (<[h := mkPrefetched _ hash None]> (pending s.2))).
Proof.
  intros E HQ. split; cbn; auto.
  - intros Hi h' e r' He Hr. cbn in He. destruct (decide (h' = h)) as [->|].
    + rewrite lookup_insert_eq in He. by injection He as <-.
    + rewrite lookup_insert_ne in He by done. by eapply Hi.
  - intros h' e He. exists e. rewrite lookup_insert_ne by (intros ->; congruence). done.
  - intros h' Hh'. destruct (decide (h' = h)) as [->|]; [by right|].
    rewrite lookup_insert_ne in Hh' by done. by left.
Qed.

Lemma goroutine_total h : total (goroutine restURL h).
Proof.
  unfold goroutine. apply total_bind; [auto with go|intros p].
  destruct (pending p !! h) as [[hash [?|]]|]; auto with go.
  apply total_bind; [auto with go|intros ?]. apply total_modify.
Qed.
Hint Resolve goroutine_total : go.

Lemma yield_total : total (yield restURL).
Proof.
  unfold yield. apply total_bind; [|auto with go].
  intros s. unfold inEnv, onWorld, zoom. by destruct (finishing _).
Qed.
Hint Resolve yield_total : go.

Lemma receive_total h : total (receive restURL h).
Proof. unfold receive. auto 10 with go. Qed.

Lemma receive_quiet h : keeps quiet (receive restURL h).
Proof.
  unfold receive. apply keeps_bind; [apply _|apply yield_quiet|intros _].
  apply keeps_bind; [apply _|apply goroutine_quiet|intros _]. auto with go.
Qed.

Lemma scheduleLoop_spec l (Q : Z -> Prop) :
  (forall h, h ∈ l -> Q h) -> keeps (moved Q) (scheduleLoop restURL l) /\ total (scheduleLoop restURL l).
Proof.
  intros HQ. enough (G : forall s, let '(r, s') := scheduleLoop restURL l s in moved Q s s' /\ is_Ok r = true).
  { split; [intros s r s' E; specialize (G s); rewrite E in G; apply G|].
    intros s. specialize (G s). destruct (scheduleLoop restURL l s). apply G. }
  induction l as [|h l IH]; intros s; cbn [scheduleLoop]; [by split|].
  unfold bind at 1, gets. destruct (pending s.2 !! h) eqn:E; [apply IH; set_solver|].
  unfold bind at 1. destruct (yield restURL s) as [r1 s1] eqn:E1.
  destruct (total_run _ _ _ _ yield_total E1) as [[] ->]. apply yield_quiet in E1.
  unfold bind at 1, catch. destruct (inEnv (getBlockHash h) s1) as [r2 s2] eqn:E2.
  assert (Q2 : quiet s1 s2) by (eapply inEnv_quiet; [|exact E2]; auto with go).
  assert (Q12 : quiet s s2) by (by etransitivity).
  destruct r2 as [hash|e]; [|cbn; split; [by apply quiet_moved|done]].
  unfold bind at 1, set_pending, inData, modify.
  set (s3 := (s2.1, _)). specialize (IH ltac:(set_solver) s3).
  destruct (scheduleLoop restURL l s3) as [r s']. destruct IH as [IH HO]. split; [|done].
  etransitivity; [by apply quiet_moved|]. etransitivity; [|exact IH].
  apply insert_moved; [by eapply quiet_none|]. apply HQ. set_solver.
Qed.

(** Dropping the entry of [height] once its result was received. *)
Lemma delete_inv p h : pf_inv p -> pf_inv (mkPrefetcher _ (pf_fetcher p) (delete h (pending p))).
Proof. intros Hi h' e r He Hr. cbn in He. apply lookup_delete_Some in He as [_ He]. by eapply Hi. Qed.

(** The state after a block left the window. *)
Record settled_at s (height : Z) (s3 : P) : Prop := {
  sa_fs : e_fs s3.1 = e_fs s.1;
  sa_inv : pf_inv s3.2;
  sa_none : pending s3.2 !! height = None;
  sa_dom h : is_Some (pending s3.2 !! h) ->
    is_Some (pending s.2 !! h) \/ height < h <= height + prefetchDepth
}.

(** What [fetchBlock] promises about its result and final state. *)
Definition promise s (height : Z) (hash : Hash) (r : result blockWithPrevOuts) (s' : P) : Prop :=
  direct hash r /\ pf_inv s'.2 /\ e_fs s'.1 = e_fs s.1 /\
  (forall b, r = Ok b -> complete b) /\
  (forall h, is_Some (pending s'.2 !! h) ->
     h <> height /\ (is_Some (pending s.2 !! h) \/ height < h <= height + prefetchDepth)).

Lemma settled_done s height hash s3 r : settled_at s height s3 -> direct hash r -> promise s height hash r s3.
Proof.
  intros [A B D E] Hd. split_and!; [done..| |].
  - intros b ->. destruct Hd as (x & x' & Hd). by eapply fetchSingle_complete.
  - intros h Hs. split; [|by apply E]. intros ->. rewrite D in Hs. by destruct Hs.
Qed.

Lemma settled_finish s height hash s3 r s' :
  settled_at s height s3 -> (yield restURL ;;; onFetcher (fetchSingle restURL hash)) s3 = (r, s') ->
  promise s height hash r s'.
Proof.
  intros [A B D E]. unfold bind. destruct (yield restURL s3) as [r1 s1] eqn:E1.
  destruct (total_run _ _ _ _ yield_total E1) as [[] ->]. apply yield_quiet in E1 as Q1.
  intros E2. apply onFetcher_quiet in E2 as Q2.
  assert (Q : quiet s3 s') by (by etransitivity). apply settled_done.
  - split; [by rewrite (mv_fs _ _ _ Q)|by apply (mv_inv _ _ _ Q)|by eapply quiet_none|].
    intros h Hs. apply E. destruct (mv_dom _ _ _ Q h Hs); done.
  - unfold onFetcher, zoom in E2. destruct (fetchSingle restURL hash _) as [r2 wf] eqn:E3.
    injection E2 as <- _. by eexists _, _.
Qed.

Lemma receive_value h s res s' :
  receive restURL h s = (Ok res, s') ->
  res = match pending s'.2 !! h with Some e => pb_result e | None => None end.
Proof.
  unfold receive. intros (? & s1 & _ & E)%bind_Ok_inv. apply bind_Ok_inv in E as (? & s2 & _ & E).
  apply bind_Ok_inv in E as (p & s3 & [= <- <-] & [= <- <-]). done.
Qed.

(** C14: prefetching is transparent: whatever the scheduler does, a block comes
    from a fetch for exactly the hash asked for and has the script of every
    input; an error is the error of a direct fetch for that hash, never of a
    prefetch; no file changes, and pending fetches stay in the window. *)
Theorem prefetch_transparent height hash s r s' :
  0 <= height < 10000000 -> pf_inv s.2 ->
  prefetch_fetchBlock restURL height hash s = (r, s') -> promise s height hash r s'.
Proof.
  intros Hh Hinv. unfold prefetch_fetchBlock, bind at 1.
  destruct (scheduleLoop_spec (range (i32 (height + 1)) (i32 (height + prefetchDepth)))
              (fun h => height < h <= height + prefetchDepth)) as [Hm Ht].
  { unfold prefetchDepth in *. i32norm. intros h Hin%elem_of_range. lia. }
  unfold scheduleAhead. destruct (scheduleLoop _ _ s) as [r1 s1] eqn:E1.
  destruct (total_run _ _ _ _ Ht E1) as [[] ->]. apply Hm in E1 as M1. clear Hm Ht E1.
  pose proof (mv_inv _ _ _ M1 Hinv) as I1. unfold bind at 1, gets.
  destruct (pending s1.2 !! height) as [entry|] eqn:He.
  - unfold bind at 1. destruct (receive restURL height s1) as [r2 s2] eqn:E2.
    destruct (total_run _ _ _ _ (receive_total _) E2) as [res ->].
    apply receive_value in E2 as Hres. apply receive_quiet in E2 as Q2.
    destruct (mv_hash _ _ _ Q2 _ _ He) as (e2 & He2 & Hhash). rewrite He2 in Hres.
    pose proof (mv_inv _ _ _ Q2 I1) as I2. rewrite <- Hhash.
    unfold bind at 1, set_pending, inData, modify. set (s3 := (s2.1, _)).
    assert (G : settled_at s height s3).
    { split; cbn; [by rewrite (mv_fs _ _ _ Q2), (mv_fs _ _ _ M1)|by apply delete_inv|by rewrite lookup_delete_eq|].
      intros h [e [_ Hd]%lookup_delete_Some]. apply (mv_dom _ _ _ M1).
      destruct (mv_dom _ _ _ Q2 h); [by eexists|done|done]. }
    destruct res as [[block|e]|]; [case_bool_decide as Heq|..];
      [|intros E; by apply (settled_finish _ _ _ _ _ _ G E)..].
    intros [= <- <-]. assert (D : direct hash (Ok block)) by (rewrite <- Heq; by eapply I2).
    by apply settled_done.
  - intros E. apply (settled_finish _ _ _ s1 _ _); [|exact E].
    split; [apply M1|done|done|apply M1].
Qed.
(** Whatever the prefetcher holds, the files stay. *)
Lemma moved_env_kept Q s s' : moved Q s s' -> env_kept s s'.
Proof. intros [A B _ _ _]. by split. Qed.

Lemma prefetch_frame height hash : keeps env_kept (prefetch_fetchBlock restURL height hash).
Proof.
  assert (Y : keeps env_kept (yield restURL ;;; onFetcher (fetchSingle restURL hash))).
  { apply keeps_bind; [apply _|eapply keeps_sub; [apply moved_env_kept|apply yield_quiet]|intros _].
    eapply keeps_sub; [apply moved_env_kept|apply onFetcher_quiet]. }
  unfold prefetch_fetchBlock. apply keeps_bind; [apply _| |intros _].
  { eapply keeps_sub; [apply (moved_env_kept (fun _ => True))|]. by apply scheduleLoop_spec. }
  apply keeps_bind; [apply _|auto with go|intros p].
  destruct (pending p !! height) as [entry|]; [|exact Y].
  apply keeps_bind; [apply _|eapply keeps_sub; [apply moved_env_kept|apply receive_quiet]|intros res].
  apply keeps_bind; [apply _| |intros _].
  { intros s r s' [= _ <-]. by split. }
  destruct res as [[block|]|]; [|exact Y..]. case_bool_decide; [auto with go|exact Y].
Qed.
End Prefetch.

(** *** Witnesses *)

Lemma parseSpentTxOuts_exact_witness :
  parseSpentTxOuts (encodeSpentTxOuts [[]; [mkTxOut (-1) (toy_taproot 7)]])
  = Ok [[]; [mkTxOut (-1) (toy_taproot 7)]].
Proof.
  apply (parseSpentTxOuts_exact (Wi := toy_wire) _ _). split; [reflexivity|].
  unfold ok_list, ok_TxOut. split; [vm_compute; done|].
  repeat constructor; vm_compute; done.
Defined.

Definition toy_block_hash (n : nat) : Hash :=
  match toy_blocks 12 zero_hash 0 !! n with
  | Some b => BlockHash (Wire := toy_wire) (tb_header b)
  | None => zero_hash
  end.

(** What the REST path makes of block 3. *)
Definition toy_fetched : blockWithPrevOuts :=
  ok_or (mkBlock _ [] ∅) (fetchBlockREST (W := toy_world) "" (toy_block_hash 3) (toy_env 12, mkFetcher true true)).1.

Lemma fetchBlockREST_aligned_witness :
  exists (outs : list TxOut) (o : TxOut), length outs = 2%nat /\ outs !! 0%nat = Some o /\ fetchPrevOutScript toy_fetched 31 = Ok (toy_taproot 31).
Proof.
  assert (E : is_Ok (fetchBlockREST (W := toy_world) "" (toy_block_hash 3) (toy_env 12, mkFetcher true true)).1 = true)
    by (vm_compute; reflexivity).
  destruct (fetchBlockREST_aligned "" _ _ _ _ (run_Ok _ _ _ (ok_or_Ok (mkBlock _ [] ∅) _ E)))
    as (y & sb & y' & spent & _ & _ & _ & G).
  destruct (G 1%nat (mkToyTx [31; 32] [mkTxOut 1500 (toy_taproot 3); mkTxOut 100 (toy_p2wpkh 4)] false) 0%nat 31)
    as (outs & o & _ & HL & Hj & _); [done|vm_compute; reflexivity|reflexivity|].
  exists outs, o. split; [exact HL|]. split; [exact Hj|]. vm_compute. reflexivity.
Defined.

(** A prefetcher that has served height 1 and holds fetches for the next
    heights, one of them finished. *)
Definition pf_example : Env toy_world * blockPrefetcher :=
  (prefetch_fetchBlock "" 1 (toy_block_hash 1)
     (mkEnv (toy_env 12) (mkFS ∅ ∅ no_faults) newH2HCache, newBlockPrefetcher (mkFetcher false false))).2.

Lemma prefetch_transparent_witness : pf_inv "" pf_example.2.
Proof.
  destruct (prefetch_transparent "" 1 (toy_block_hash 1)
    (mkEnv (toy_env 12) (mkFS ∅ ∅ no_faults) newH2HCache, newBlockPrefetcher (mkFetcher false false))
    _ _ ltac:(lia) ltac:(intros h e r He; cbn in He; by rewrite lookup_empty in He)
    (surjective_pairing _)) as (_ & Hi & _).
  exact Hi.
Defined.
