(* ===== verification/SealSeq.v ===== *)
(** * Sealing several files in order

    The producers of several files per batch write them with [createAndWrite]
    in a fixed order, the resume file last. *)

From Stdlib Require Import ZArith Lia Ascii.
From stdpp Require Import base numbers list strings gmap.
From S2P Require Import Prelude GoInt Bytes GoStr GoIO Iface Files H2H Producer ProducerLaws.

Local Open Scope Z_scope.

(** [createAndWrite] *)
Definition createAndWrite (fileName : str) (write : M Writer unit) : M FS unit :=
  create_write_close "error creating file %s: %w" "error writing file %s: %w"
    "error closing file %s: %w" fileName write.

(** ** Writing in order *)

Section Sequence.
Context {A : Type} (name : A -> str) (out : A -> bytes) (ok : A -> Prop).

(** How far a sequence of writes came: the files before the failed one are
    complete, those after it are untouched. *)
Record wrote_until (l pre rest : list A) (fs fs' : FS) (r : result unit) : Prop := {
  wu_split : l = pre ++ rest;
  wu_done x : x ∈ pre -> ok x /\ fs_files fs' !! name x = Some (out x);
  wu_ok : r = Ok tt -> rest = [];
  wu_fail : r <> Ok tt -> rest <> [];
  wu_rest x : x ∈ tail rest -> fs_files fs' !! name x = fs_files fs !! name x;
  wu_other p : p ∉ map name l -> fs_files fs' !! p = fs_files fs !! p
}.

Lemma write_sequence (write : A -> M Writer unit) l fs r fs' :
  (forall x, x ∈ l -> exists e, writes (write x) (out x) e /\ (e = None -> ok x)) -> NoDup (map name l) ->
  forM l (fun x => createAndWrite (name x) (write x)) fs = (r, fs') ->
  exists pre rest, wrote_until l pre rest fs fs' r.
Proof.
  intros Hw. revert fs. induction l as [|x l IH]; intros fs Hnd; cbn [forM].
  - intros [= <- <-]. exists [], []. by split; auto; set_solver.
  - cbn [map] in Hnd. apply NoDup_cons in Hnd as [Hx Hnd].
    unfold bind. destruct (createAndWrite (name x) (write x) fs) as [r1 fs1] eqn:E1.
    assert (Hframe : forall p, p <> name x -> fs_files fs1 !! p = fs_files fs !! p)
      by (intros p Hp; by eapply create_write_close_frame).
    destruct r1 as [[]|e].
    + destruct (Hw x (list_elem_of_here x l)) as (e & We & Hok).
      apply (create_write_close_Ok _ _ _ _ _ _ _ _ _ We) in E1 as [He Hf].
      intros E. apply IH in E as (pre & rest & [H1 H2 H3 H4 H5 H6]); [|set_solver|done].
      exists (x :: pre), rest. split.
      * by rewrite H1.
      * intros y [->|Hy]%elem_of_cons; [|by apply H2]. split; [by apply Hok|].
        rewrite H6 by done. rewrite Hf. apply lookup_insert_eq.
      * done.
      * done.
      * intros y Hy. rewrite H5 by done. apply Hframe. intros Hn. apply Hx. rewrite <- Hn.
        apply list_elem_of_fmap. exists y. split; [done|]. rewrite H1. apply elem_of_app. right.
        by destruct rest; [|right].
      * intros p Hp. cbn [map] in Hp. apply not_elem_of_cons in Hp as [Hp1 Hp2]. by rewrite H6, Hframe.
    + intros [= <- <-]. exists [], (x :: l). split; try done.
      * intros y Hy. by apply elem_of_nil in Hy.
      * intros y Hy. cbn in Hy. apply Hframe. intros Hn. apply Hx. rewrite <- Hn.
        apply list_elem_of_fmap. by exists y.
      * intros p Hp. cbn [map] in Hp. apply not_elem_of_cons in Hp as [Hp1 Hp2]. by apply Hframe.
Qed.

(** The last file of the sequence is touched only when all others are
    complete. *)
Lemma last_written_last l z pre rest fs fs' r :
  wrote_until (l ++ [z]) pre rest fs fs' r ->
  fs_files fs' !! name z = fs_files fs !! name z \/
  forall x, x ∈ l -> ok x /\ fs_files fs' !! name x = Some (out x).
Proof.
  intros [H1 H2 _ _ H5 _]. destruct rest as [|y rest].
  - right. intros x Hx. apply H2. rewrite app_nil_r in H1. set_solver.
  - destruct (decide (rest = [])) as [->|Hne].
    + right. intros x Hx. apply H2. apply app_inj_tail in H1 as [<- _]. done.
    + left. apply H5. cbn. destruct (exists_last Hne) as (l' & y' & ->).
      rewrite app_comm_cons, app_assoc in H1. apply app_inj_tail in H1 as [_ ->]. set_solver.
Qed.
End Sequence.

(** The hooks run the writes one by one in the environment. *)
Lemma forM_onFS {W D A} (l : list A) (m : A -> M FS unit) (s : Env W * D) :
  forM l (fun x => inEnv (onFS (m x))) s = inEnv (onFS (forM l m)) s.
Proof.
  revert s. induction l as [|x l IH]; intros s; cbn [forM].
  - unfold ret, inEnv, onFS, zoom. by destruct s as [[w f h] d].
  - unfold bind at 1. destruct (inEnv (onFS (m x)) s) as [r1 s1] eqn:E1.
    assert (E2 : (match r1 with Ok _ => inEnv (onFS (forM l m)) s1 | Err e => (Err e, s1) end)
                 = inEnv (onFS (m x ;;; forM l m)) s).
    { unfold inEnv, onFS, zoom, bind in *. destruct (m x (e_fs s.1)) as [[?|?] f1]; injection E1 as <- <-; [|done].
      cbn. by destruct (forM l m f1). }
    rewrite <- E2. destruct r1; [apply IH|done].
Qed.
