(* ===== verification/SPTweaks.v ===== *)
(** * Silent payment tweak data

    [silent-payments-files.go]: the producer of the [.sptweak] files. *)

From Stdlib Require Import ZArith Lia Strings.Byte.
From stdpp Require Import base numbers list strings gmap.
From S2P Require Import Prelude GoInt Bytes GoStr GoIO Iface Backend Toy Files H2H Producer ProducerLaws PrevOuts PrevOutsLaws SealSeq.

Local Open Scope Z_scope.

(** The package [silentpayments]: the tweak of a transaction, computed with a
    way to look up previous output scripts; [None] when it has no eligible
    outputs. *)
Class SilentPayments `{Tx} := {
  PublicKey : Type;
  TransactionTweakData : MsgTx -> (OutPoint -> result bytes) -> result (option PublicKey);
  SerializeCompressed : PublicKey -> bytes
}.

(** The magic numbers of [chaincfg]. *)
Class Networks := { MainNet : Z; TestNet3 : Z; TestNet4 : Z; SigNet : Z }.

Definition SPTweakFileDir : str := "silentpayments".
Definition SPTweakFileSuffix : str := ".sptweak".
Definition spTweakFileVersion : Z := 0.
Definition typeSPTweaks : Z := 2.
Definition spTweakFileHeaderSize : Z := 4 + 1 + 1 + 4 + 8.

(** [TaprootActivationHeights] *)
Definition TaprootActivationHeights `{Networks} : gmap Z Z :=
  <[MainNet := 709632]> (<[TestNet3 := 2011968]> (<[TestNet4 := 1]> (<[SigNet := 1]> ∅))).

Definition spTweakDustLimits : list Z := [0; 600; 1000; 3750].

(** [spTweakDustDir] *)
Definition spTweakDustDir (dustLimit : Z) : str :=
  filepath_Join SPTweakFileDir ("dust-" ++ fmt_d dustLimit)%string.

(** [isValidSPTweakDustLimit] *)
Definition isValidSPTweakDustLimit (dustLimit : Z) : bool :=
  bool_decide (dustLimit ∈ spTweakDustLimits).

(** The array built by [writeSPTweakFileHeader], and its write. *)
Definition spTweakFileHeader (net startHeight dustLimit : Z) : bytes :=
  put_le 4 (u32 net) ++ [byte_of_Z spTweakFileVersion; byte_of_Z typeSPTweaks]
  ++ put_le 4 (u32 startHeight) ++ put_le 8 dustLimit.
Definition writeSPTweakFileHeader (net startHeight dustLimit : Z) : M Writer unit :=
  w_Write (spTweakFileHeader net startHeight dustLimit).

(** [spTweakEntry] *)
Record spTweakEntry := mkEntry { tweak : bytes; maxValue : Z }.

Section SPTweaks.
Context `{Wi : Wire} `{T : !Tx} `{J : !Json} {W : Type} `{C : !Chain W} `{Hn : !Http W} `{R : !Rpc W} `{Sc : !Scheduler W}.
Context `{SP : !SilentPayments} `{NW : !Networks}.

(** The in-memory part of [spTweakFiles]. The statistics for the log are left
    out; [nil] and empty lists of entries are the same. *)
Record spTweakFiles := mkSP {
  tweakData : gmap Z (list spTweakEntry);
  sp_heightToHash : gmap Z Hash;
  blockFetcher : blockPrefetcher
}.

(** The constants of an [spTweakFiles]: the network, the base directory and
    the URL of the block fetcher. *)
Context (net : Z) (baseDir restURL : str).

Abbreviation S := (Env W * spTweakFiles)%type.

(** [taprootStartHeight] and [taprootSupported] *)
Definition taprootStartHeight : Z := default 0 (TaprootActivationHeights !! net).
Definition taprootSupported : bool := bool_decide (is_Some (TaprootActivationHeights !! net)).

Definition onPrefetcher {A} (m : M (Env W * blockPrefetcher) A) : M S A :=
  zoom (fun s => (s.1, blockFetcher s.2))
    (fun ep s => (ep.1, mkSP (tweakData s.2) (sp_heightToHash s.2) ep.2)) m.

Definition set_tweaks (height : Z) (entries : list spTweakEntry) (c : spTweakFiles) : spTweakFiles :=
  mkSP (<[height := entries]> (tweakData c)) (sp_heightToHash c) (blockFetcher c).

(** *** Ingestion *)

(** The largest taproot output value of a transaction. *)
Definition maxTaprootValue (tx : MsgTx) : Z :=
  foldl (fun m o => if IsPayToTaproot (PkScript o) then Z.max m (u64 (Value o)) else m) 0 (TxOuts tx).

(** [copy(entry.tweak[:], ...)] into a [[33]byte]. *)
Definition copy33 (bs : bytes) : bytes := take 33 (bs ++ replicate 33 x00).

(** The body of the loop of [indexBlockSPTweakData]. *)
Definition tweakStep (block : blockWithPrevOuts) (entries : list spTweakEntry) (tx : MsgTx)
  : result (list spTweakEntry) :=
  if IsCoinBaseTx tx then Ok entries
  else
    res_bind (res_wrap "error calculating SP tweak data for tx index %d in block at height %d: %w"
                (TransactionTweakData tx (fetchPrevOutScript block)))
      (fun tweakPubKey =>
         match tweakPubKey with
         | None => Ok entries
         | Some key =>
             Ok (entries ++ [mkEntry (copy33 (SerializeCompressed key)) (maxTaprootValue tx)])
         end).

(** [indexBlockSPTweakData] *)
Definition indexBlockSPTweakData (height : Z) (block : blockWithPrevOuts) : M S unit :=
  let! entries := liftR (res_fold (tweakStep block) [] (txs block)) in
  match entries with
  | [] => ret tt
  | _ => inData (set_tweaks height entries)
  end.

(** [ingest] *)
Definition sp_ingest (height : Z) : M S unit :=
  let! hash := wrapE "error getting block hash for height %d: %w" (inEnv (getBlockHash height)) in
  inData (fun c => mkSP (<[height := []]> (tweakData c)) (<[height := hash]> (sp_heightToHash c))
                     (blockFetcher c)) ;;;
  if height <? taprootStartHeight then ret tt
  else
    let! block := wrapE "error getting block for SP tweak data: %w"
                    (onPrefetcher (prefetch_fetchBlock restURL height hash)) in
    wrapE "error indexing SP tweak data: %w" (indexBlockSPTweakData height block).

(** *** Serialization *)

(** The entries of a dust filter level. *)
Definition level (dustLimit : Z) (entries : list spTweakEntry) : list spTweakEntry :=
  filter (fun e => dustLimit < maxValue e) entries.

(** [serializeSPTweaks] *)
Definition serializeSPTweaks (c : spTweakFiles) (dustLimit startIndex endIndex : Z) : M Writer unit :=
  wrapE "error writing SP tweak file header: %w" (writeSPTweakFileHeader net startIndex dustLimit) ;;;
  forM (range startIndex endIndex) (fun j =>
    match tweakData c !! j with
    | None => fail (Errorf "missing SP tweak data at height %d")
    | Some entries =>
        let count := Z.of_nat (length (level dustLimit entries)) in
        wrapE "error writing SP tweak count: %w" (w_Write (WriteVarInt count)) ;;;
        forM entries (fun entry =>
          if maxValue entry <=? dustLimit then ret tt
          else wrapE "error writing SP tweak: %w" (w_Write (tweak entry)))
    end).

(** [spTweaksSize] *)
Definition spSizeStep (c : spTweakFiles) (dustLimit : Z) (total : option Z) (j : Z) : option Z :=
  match total, tweakData c !! j with
  | Some t, Some entries =>
      let count := Z.of_nat (length (level dustLimit entries)) in
      Some (i64 (t + i64 (VarIntSerializeSize count + i64 (count * 33))))
  | _, _ => None
  end.
Definition spTweaksSize (c : spTweakFiles) (dustLimit startIndex endIndex : Z) : option Z :=
  foldl (spSizeStep c dustLimit) (Some spTweakFileHeaderSize) (range startIndex endIndex).

(** *** Sealing *)

(** The name of the file of a level. *)
Definition spFileName (dustLimit fileStart fileEnd : Z) : str :=
  block_file SPTweakFileSuffix (filepath_Join baseDir (spTweakDustDir dustLimit)) fileStart fileEnd.

(** [writeSealedFile]: the levels backwards, so the unfiltered one last. *)
Definition sp_writeSealedFile (fileStart fileEnd : Z) : M S unit :=
  let! c := gets snd in
  forM (rev spTweakDustLimits) (fun dustLimit =>
    inEnv (onFS (createAndWrite (spFileName dustLimit fileStart fileEnd)
                   (serializeSPTweaks c dustLimit fileStart fileEnd)))).

(** [pruneLocked], [cachedHash] *)
Definition sp_pruneLocked (start end_ : Z) (c : spTweakFiles) : spTweakFiles :=
  mkSP (delete_range start end_ (tweakData c)) (delete_range start end_ (sp_heightToHash c))
    (blockFetcher c).
Definition sp_cachedHash (height : Z) (c : spTweakFiles) : option Hash := sp_heightToHash c !! height.

(** [newSPTweakFiles] *)
Definition spCfg (itemsPerFile depth : Z) : producerCfg :=
  mkCfg "SP tweak data" baseDir (spTweakDustDir 0) SPTweakFileSuffix itemsPerFile depth.
Definition spHooks : producerHooks W spTweakFiles :=
  mkHooks sp_ingest sp_writeSealedFile sp_pruneLocked sp_cachedHash None.
Definition newSPTweakFiles (e : Env W) (f : blockPrevOutFetcher) : PState W spTweakFiles :=
  newProducer e (mkSP ∅ ∅ (newBlockPrefetcher f)).

(** [updateFiles]: on a network without Taproot the producer only waits for the
    shutdown. [listFiles] has no wildcard in its directory and does not fail;
    the legacy files it finds are only reported in the log. *)
Definition sp_updateFiles (itemsPerFile depth : Z) (polls : nat) (numBlocks : Z)
  : M (PState W spTweakFiles) unit :=
  if negb taprootSupported then modify (set_startup true) ;;; fail errServerShutdown
  else
    forM spTweakDustLimits (fun dustLimit =>
      wrapE "error creating directory %s: %w"
        (onEnv (onFS (os_MkdirAll (filepath_Join baseDir (spTweakDustDir dustLimit)))))) ;;;
    updateFiles spHooks (spCfg itemsPerFile depth) polls numBlocks.
End SPTweaks.
