(* ===== verification/SPTweaksLaws.v ===== *)
(** * What the tweak producer promises

    The laws of its hooks, so the life cycle theorems hold for it, and the
    properties of its data and files. *)

From Stdlib Require Import ZArith Lia.
From stdpp Require Import base numbers list strings gmap.
From S2P Require Import Prelude GoInt Bytes GoStr Paths GoIO Iface Backend Toy Files H2H Producer ProducerLaws ProducerSeal PrevOuts ToyNet PrevOutsLaws SealSeq SPTweaks.

Local Open Scope Z_scope.

Section Laws.
Context `{Wi : Wire} `{T : !Tx} `{J : !Json} {W : Type} `{C : !Chain W} `{Hn : !Http W} `{R : !Rpc W} `{Sc : !Scheduler W}.
Context `{SP : !SilentPayments} `{NW : !Networks}.
Context (net : Z) (baseDir restURL : str).
Abbreviation S := (Env W * spTweakFiles)%type.
Implicit Types (s : S) (c : spTweakFiles).

(** ** Well-formed data

    Tweaks are compressed keys, values are [uint64], and the heights with
    tweak data are the heights with a hash. *)
Definition wf_entry (e : spTweakEntry) : Prop := length (tweak e) = 33%nat /\ uint64 (maxValue e).
Record sp_wf c : Prop := {
  wf_entries h es : tweakData c !! h = Some es -> Forall wf_entry es;
  wf_dom h : is_Some (tweakData c !! h) <-> is_Some (sp_heightToHash c !! h)
}.

(** What happens after [ingest] stored the hash of its block. *)
Record indexed s s' : Prop := {
  ix_env : env_kept s s';
  ix_hashes : sp_heightToHash s'.2 = sp_heightToHash s.2;
  ix_dom h : is_Some (tweakData s.2 !! h) -> is_Some (tweakData s'.2 !! h);
  ix_wf : sp_wf s.2 -> sp_wf s'.2
}.

#[export] Instance indexed_preorder : PreOrder indexed.
Proof.
  split; [by split|]. intros s1 s2 s3 [] []. split; [by etransitivity|congruence|auto|auto].
Qed.

Lemma onPrefetcher_indexed {A} (m : M (Env W * blockPrefetcher) A) :
  keeps env_kept m -> keeps indexed (onPrefetcher m).
Proof.
  intros Hm s r s'. unfold onPrefetcher, zoom. destruct (m _) as [r1 [e p]] eqn:E.
  apply Hm in E as [E1 E2]. intros [= _ <-]. split; [by split|done|done|].
  intros [H1 H2]. by split.
Qed.

Lemma copy33_length bs : length (copy33 bs) = 33%nat.
Proof. unfold copy33. rewrite length_take, length_app, length_replicate. lia. Qed.

Lemma maxTaprootValue_uint64 tx : uint64 (maxTaprootValue tx).
Proof.
  unfold maxTaprootValue. assert (G : uint64 0) by (unfold uint64; lia). revert G. generalize 0 as m.
  induction (TxOuts tx) as [|o l IH]; intros m Hm; [done|]. cbn. apply IH.
  destruct (IsPayToTaproot _); [|done].
  unfold uint64, u64 in *. pose proof (Z.mod_pos_bound (Value o) 18446744073709551616). lia.
Qed.

Lemma tweakStep_wf block entries tx entries' :
  tweakStep block entries tx = Ok entries' -> Forall wf_entry entries -> Forall wf_entry entries'.
Proof.
  unfold tweakStep. destruct (IsCoinBaseTx tx); [by intros [= <-]|].
  destruct (TransactionTweakData _ _) as [[k|]|]; cbn; [|by intros [= <-]|done].
  intros [= <-] Hf. apply Forall_app. split; [done|]. constructor; [|done].
  split; [apply copy33_length|apply maxTaprootValue_uint64].
Qed.

Lemma tweakStep_fold_wf block l entries entries' :
  res_fold (tweakStep block) entries l = Ok entries' -> Forall wf_entry entries -> Forall wf_entry entries'.
Proof.
  revert entries. induction l as [|tx l IH]; intros entries; cbn [res_fold]; [by intros [= <-]|].
  destruct (tweakStep block entries tx) as [e1|] eqn:E; [|done]. cbn. intros E' Hf.
  by eapply IH, tweakStep_wf.
Qed.

(** The entry of [height] is there already when the block is indexed. *)
Lemma index_indexed height block s r s' :
  indexBlockSPTweakData height block s = (r, s') -> is_Some (tweakData s.2 !! height) -> indexed s s'.
Proof.
  unfold indexBlockSPTweakData, bind, liftR.
  destruct (res_fold _ [] _) as [entries|] eqn:E; [|intros [= _ <-]; reflexivity].
  destruct entries as [|e es]; [intros [= _ <-]; reflexivity|].
  unfold inData, modify. intros [= _ <-] Hh. split; [by split|done| |].
  { intros h Hs. cbn. rewrite lookup_insert_is_Some'. by right. }
  intros [H1 H2]. split; cbn.
  - intros h es' He. destruct (decide (h = height)) as [->|].
    + rewrite lookup_insert_eq in He. injection He as <-. by eapply tweakStep_fold_wf.
    + rewrite lookup_insert_ne in He by done. by eapply H1.
  - intros h. rewrite <- H2. destruct (decide (h = height)) as [->|].
    + rewrite lookup_insert_eq. split; intros; [done|by eexists].
    + by rewrite lookup_insert_ne.
Qed.

Definition stored height hash c : spTweakFiles :=
  mkSP (<[height := []]> (tweakData c)) (<[height := hash]> (sp_heightToHash c)) (blockFetcher c).

(** The shape of [ingest]: the hash, the stored entry, then the index. *)
Lemma sp_ingest_inv height s r s' :
  sp_ingest net restURL height s = (r, s') ->
  (exists e, r = Err e /\ fetched s s') \/
  (exists hash s1, fetched s s1 /\ indexed (s1.1, stored height hash s.2) s').
Proof.
  unfold sp_ingest, bind at 1.
  destruct (wrapE _ (inEnv (getBlockHash height)) s) as [r1 s1] eqn:E1.
  assert (F1 : fetched s s1).
  { apply (keeps_wrapE fetched _ _ (fetched_getBlockHash height) _ _ _ E1). }
  destruct r1 as [hash|e]; [|intros [= <- <-]; left; by exists e].
  unfold bind at 1, inData at 1, modify. intros E. right. exists hash, s1. split; [done|].
  rewrite (fe_data _ _ F1) in E. fold (stored height hash s.2) in E.
  set (s2 := (s1.1, stored height hash s.2)) in *.
  destruct (height <? taprootStartHeight net); [injection E as _ <-; reflexivity|].
  unfold bind at 1 in E. destruct (wrapE _ _ s2) as [r3 s3] eqn:E3.
  assert (I3 : indexed s2 s3).
  { revert E3. apply keeps_wrapE, onPrefetcher_indexed, prefetch_frame. }
  destruct r3 as [block|e]; [|by injection E as _ <-].
  unfold wrapE in E. destruct (indexBlockSPTweakData height block s3) as [r4 s4] eqn:E4.
  injection E as _ <-. etransitivity; [exact I3|]. apply (index_indexed _ _ _ _ _ E4).
  apply (ix_dom _ _ I3). cbn. rewrite lookup_insert_eq. by eexists.
Qed.

Lemma stored_wf height hash c : sp_wf c -> sp_wf (stored height hash c).
Proof.
  intros [H1 H2]. split; cbn.
  - intros h es He. destruct (decide (h = height)) as [->|].
    + rewrite lookup_insert_eq in He. by injection He as <-.
    + rewrite lookup_insert_ne in He by done. by eapply H1.
  - intros h. rewrite !lookup_insert_is_Some', H2. done.
Qed.

(** ** The laws of the hooks *)

Definition sp_sealPath (e : Z) (p : str) : Prop :=
  exists a d, 0 <= a < 10000000 /\ d ∈ spTweakDustLimits /\ p = spFileName baseDir d a e.

Lemma sp_writeSealedFile_wrote a b :
  0 <= a <= b -> b < 10000000 -> keeps (wrote (W := W) (sp_sealPath b)) (sp_writeSealedFile net baseDir a b).
Proof.
  intros Ha Hb. unfold sp_writeSealedFile. apply keeps_bind; [apply _|auto with go|intros c].
  apply keeps_forM_in; [apply _|intros d Hd]. apply wrote_create_write_close.
  exists a, d. split; [lia|]. split; [by rewrite list_elem_of_In, <- in_rev, <- list_elem_of_In in Hd|done].
Qed.

#[export] Instance sp_laws : HookLaws (spHooks (W := W) net baseDir restURL).
Proof.
  refine {| sealPath := sp_sealPath |}.
  - intros e e' p He He' (a & d & Ha & _ & ->) (a' & d' & Ha' & _ & E).
    by apply block_file_inj_full in E as (_ & _ & -> & _).
  - intros h s r s' [(e & -> & F)|(hash & s1 & F & I)]%sp_ingest_inv.
    + split; apply F.
    + destruct (ix_env _ _ I) as [E1 E2]. destruct F as [_ F1 F2]. cbn in E1, E2. split; [congruence|auto].
  - intros h s s' [(e & [=] & F)|(hash & s1 & F & I)]%sp_ingest_inv.
    cbn. unfold sp_cachedHash. rewrite (ix_hashes _ _ I). cbn. split.
    + rewrite lookup_insert_eq. by eexists.
    + intros h' Hne. by rewrite lookup_insert_ne.
  - intros a b s r s' Ha Hb E. apply sp_writeSealedFile_wrote in E as [_ ? ? ?]; done.
  - intros a b s r s' h Ha Hb E. apply sp_writeSealedFile_wrote in E as [-> _ _ _]; done.
  - intros a b d h. cbn. unfold sp_cachedHash, sp_pruneLocked. cbn.
    rewrite lookup_delete_range. by case_decide.
  - done.
Defined.

(** C31: every operation of the tweak producer keeps its data well-formed,
    however it ends: tweaks are 33 bytes, values are unsigned 64-bit integers,
    and exactly the heights with a hash have tweak data. *)
Theorem sp_operations_keep_wf s r s' height a b :
  sp_wf s.2 ->
  (sp_ingest net restURL height s = (r, s') -> sp_wf s'.2) /\
  (0 <= a <= b -> b < 10000000 -> sp_writeSealedFile net baseDir a b s = (r, s') -> sp_wf s'.2) /\
  sp_wf (sp_pruneLocked a b s.2).
Proof.
  intros Hwf. split_and!.
  - intros [(e & _ & F)|(hash & s1 & F & I)]%sp_ingest_inv; [by rewrite (fe_data _ _ F)|].
    by apply (ix_wf _ _ I), stored_wf.
  - intros Ha Hb E. apply sp_writeSealedFile_wrote in E as [-> _ _ _]; done.
  - destruct Hwf as [H1 H2]. unfold sp_pruneLocked. split; cbn.
    + intros h es He. rewrite lookup_delete_range in He. case_decide; [done|]. by eapply H1.
    + intros h. rewrite !lookup_delete_range. case_decide; [|apply H2]. split; by intros [? ?].
Qed.
End Laws.

(** ** Files *)

Section Files.
Context `{WireLaws} `{T : !Tx} `{J : !Json} {W : Type} `{C : !Chain W} `{Hn : !Http W} `{R : !Rpc W} `{Sc : !Scheduler W}.
Context (net : Z) (baseDir : str).
Implicit Types (c : spTweakFiles) (s : Env W * spTweakFiles).

(** The levels have different directories. *)
Lemma spFileName_level d d' a b :
  d ∈ spTweakDustLimits -> d' ∈ spTweakDustLimits -> 0 <= a < 10000000 -> 0 <= b < 10000000 ->
  spFileName baseDir d a b = spFileName baseDir d' a b -> d = d'.
Proof.
  intros Hd Hd' Ha Hb E. apply block_file_inj_full in E as (E & _); try done.
  assert (G : forall x, x ∈ spTweakDustLimits -> normal_path (spTweakDustDir x) = true).
  { apply Forall_forall. repeat constructor; vm_compute; done. }
  apply filepath_Join_inj in E; [|by apply G..]. clear - E Hd Hd'.
  revert Hd' E. revert Hd. revert d'. revert d.
  enough (F : Forall (fun d => Forall (fun d' => spTweakDustDir d = spTweakDustDir d' -> d = d')
                              spTweakDustLimits) spTweakDustLimits).
  { intros d d' Hd Hd'. rewrite Forall_forall in F. specialize (F d Hd). rewrite Forall_forall in F. by apply F. }
  repeat constructor; vm_compute; intros; done.
Qed.

(** What a height contributes to a file. *)
Definition chunk c (d j : Z) : option bytes :=
  (fun es => WriteVarInt (Z.of_nat (length (level d es))) ++ concat (map tweak (level d es)))
    <$> tweakData c !! j.

(** The whole file of a level. *)
Definition sp_file c (d a b : Z) : option bytes :=
  (fun body => spTweakFileHeader net a d ++ body) <$> collect_all (chunk c d) (range a b).

Lemma writes_tweaks d es :
  writes (forM es (fun entry =>
    if maxValue entry <=? d then ret tt
    else wrapE "error writing SP tweak: %w" (w_Write (tweak entry)))) (concat (map tweak (level d es))) None.
Proof.
  induction es as [|e es IH]; cbn [forM].
  - apply writes_ret.
  - unfold level. rewrite filter_cons. destruct (Z.leb_spec (maxValue e) d).
    + rewrite decide_False by lia. exact IH.
    + rewrite decide_True by lia. cbn [map concat].
      apply writes_bind; [|exact IH]. apply (writes_wrapE _ _ _ None), writes_Write.
Qed.

Lemma serializeSPTweaks_writes c d a b :
  exists e, writes (serializeSPTweaks net c d a b)
              (spTweakFileHeader net a d ++ (collect (chunk c d) (range a b)).1) e /\
    (e = None <-> (collect (chunk c d) (range a b)).2 = true).
Proof.
  destruct (writes_range (chunk c d) (range a b) (fun j =>
    match tweakData c !! j with
    | None => fail (Errorf "missing SP tweak data at height %d")
    | Some entries =>
        let count := Z.of_nat (length (level d entries)) in
        wrapE "error writing SP tweak count: %w" (w_Write (WriteVarInt count)) ;;;
        forM entries (fun entry =>
          if maxValue entry <=? d then ret tt
          else wrapE "error writing SP tweak: %w" (w_Write (tweak entry)))
    end) (fun _ => Errorf "missing SP tweak data at height %d")) as (e & We & He).
  - intros j bs. unfold chunk. destruct (tweakData c !! j) as [es|]; [|done]. intros [= <-].
    apply writes_bind; [apply (writes_wrapE _ _ _ None), writes_Write|apply writes_tweaks].
  - intros j. unfold chunk. destruct (tweakData c !! j); [done|]. intros _. apply writes_fail.
  - exists e. split; [|done]. apply writes_bind; [|exact We].
    apply (writes_wrapE _ _ _ None), writes_Write.
Qed.

(** Serialization on an unlimited writer. *)
Lemma serializeSPTweaks_ok c d a b :
  (forall w, serializeSPTweaks net c d a b (new_writer None) = (Ok tt, w) -> sp_file c d a b = Some (w_buf w)) /\
  (forall out, sp_file c d a b = Some out ->
     serializeSPTweaks net c d a b (new_writer None) = (Ok tt, mkWriter out None)).
Proof.
  destruct (serializeSPTweaks_writes c d a b) as (e & We & He). unfold sp_file.
  destruct (We (new_writer None)) as [A _]; [done|]. specialize (A eq_refl). split.
  - intros w E. rewrite A in E. injection E as E <-. cbn.
    assert (e = None) as Hen by by destruct e. by rewrite (collect_end _ _ _ He Hen).
  - intros out (body & Hb & ->)%fmap_Some. unfold collect_all in Hb.
    destruct (collect (chunk c d) (range a b)) as [o ok]; destruct ok; [|done]. injection Hb as ->.
    cbn in *. rewrite A. destruct He as [_ He]. by rewrite He.
Qed.

(** C16: the crash-safety of a seal: whatever fails and wherever it stops, the
    file in the resume directory is touched only when the files of all other
    dust levels are completely written; after a successful seal all of them
    are. So a restart, which looks for that file only, never skips a range
    with a missing level. *)
Theorem sp_seal_resume_last a b s r s' :
  0 <= a <= b -> b < 10000000 -> sp_writeSealedFile net baseDir a b s = (r, s') ->
  (forall p, (forall d, d ∈ spTweakDustLimits -> p <> spFileName baseDir d a b) ->
     fs_files (e_fs s'.1) !! p = fs_files (e_fs s.1) !! p) /\
  (fs_files (e_fs s'.1) !! spFileName baseDir 0 a b = fs_files (e_fs s.1) !! spFileName baseDir 0 a b \/
   forall d, d ∈ [600; 1000; 3750] -> exists out,
     sp_file s.2 d a b = Some out /\ fs_files (e_fs s'.1) !! spFileName baseDir d a b = Some out) /\
  (r = Ok tt -> forall d, d ∈ spTweakDustLimits -> exists out,
     sp_file s.2 d a b = Some out /\ fs_files (e_fs s'.1) !! spFileName baseDir d a b = Some out).
Proof.
  intros Ha Hb E. unfold sp_writeSealedFile in E. unfold bind at 1, gets in E. rewrite forM_onFS in E.
  apply inEnv_onFS_inv in E as (E & _).
  assert (Hex : forall d o, o = spTweakFileHeader net a d ++ (collect (chunk s.2 d) (range a b)).1 ->
    (collect (chunk s.2 d) (range a b)).2 = true -> sp_file s.2 d a b = Some o).
  { intros d o -> Hc. unfold sp_file, collect_all. destruct (collect _ _) as [x ok]. cbn in *. by rewrite Hc. }
  apply (write_sequence (fun d => spFileName baseDir d a b)
           (fun d => spTweakFileHeader net a d ++ (collect (chunk s.2 d) (range a b)).1)
           (fun d => (collect (chunk s.2 d) (range a b)).2 = true)) in E as (pre & rest & Hw).
  - pose proof Hw as [Hsplit Hdone Hall _ _ Hother]. change (rev spTweakDustLimits) with [3750; 1000; 600; 0] in *.
    split_and!.
    + intros p Hp. apply Hother. intros (d & -> & Hd)%list_elem_of_fmap.
      apply (Hp d); [|done]. unfold spTweakDustLimits. set_solver.
    + change [3750; 1000; 600; 0] with ([3750; 1000; 600] ++ [0]) in Hw.
      apply last_written_last in Hw as Hlast. destruct Hlast as [Hl|Hl]; [by left|right].
      intros d Hd. destruct (Hl d) as [Hok Hf]; [set_solver|]. eexists. split; [|exact Hf]. by apply Hex.
    + intros ->%Hall d Hd. destruct (Hdone d) as [Hok Hf].
      { rewrite <- (app_nil_r pre), <- Hsplit. unfold spTweakDustLimits in Hd. set_solver. }
      eexists. split; [|exact Hf]. by apply Hex.
  - intros d _. destruct (serializeSPTweaks_writes s.2 d a b) as (e & We & He).
    exists e. split; [exact We|]. by apply He.
  - apply NoDup_fmap_2_strong; [|apply (bool_decide_unpack _); vm_compute; exact I].
    intros d d' Hd Hd' En. revert Hd Hd'. change (rev spTweakDustLimits) with [3750; 1000; 600; 0].
    intros Hd Hd'. apply (spFileName_level d d' a b); [..|done]; try lia; unfold spTweakDustLimits; set_solver.
Qed.
(** *** Sizes *)

Lemma length_tweaks es d : Forall wf_entry es -> Forall (fun t => length t = 33%nat) (map tweak (level d es)).
Proof.
  rewrite !Forall_forall. intros Hf t (e & -> & [_ He]%list_elem_of_filter)%list_elem_of_fmap.
  by apply Hf.
Qed.

Lemma length_tweaks_concat es d :
  Forall wf_entry es -> length (concat (map tweak (level d es))) = (length (level d es) * 33)%nat.
Proof. intros Hf. rewrite (length_concat_const _ 33) by by apply length_tweaks. by rewrite length_map. Qed.

Lemma spSize_missing c d l : foldl (spSizeStep c d) None l = None.
Proof. by induction l. Qed.

Lemma spSize_acc c d l t out :
  (forall h es, tweakData c !! h = Some es -> Forall wf_entry es) ->
  collect_all (chunk c d) l = Some out -> 0 <= t -> t + Z.of_nat (length out) <= max_int64 ->
  foldl (spSizeStep c d) (Some t) l = Some (t + Z.of_nat (length out)).
Proof.
  intros Hwf. revert t out. induction l as [|j l IH]; intros t out E Ht Hb.
  - unfold collect_all in E. cbn in E. injection E as <-. cbn. f_equal. lia.
  - rewrite collect_all_cons in E. cbn [foldl]. unfold spSizeStep at 2. unfold chunk at 1 in E.
    destruct (tweakData c !! j) as [es|] eqn:Ej; [|done]. cbn [fmap option_fmap option_map] in E.
    destruct (collect_all _ l) as [o|]; [|done]. injection E as <-.
    pose proof (length_tweaks_concat es d (Hwf _ _ Ej)) as HL.
    rewrite !length_app, HL, !Nat2Z.inj_add, Nat2Z.inj_mul in *. cbn zeta. unfold max_int64 in *.
    rewrite VarIntSerializeSize_length by (unfold uint64; lia).
    rewrite (i64_id (_ * 33)) by (unfold max_int64; lia). rewrite (i64_id (_ + _ * 33)) by (unfold max_int64; lia).
    rewrite i64_id by (unfold max_int64; lia). rewrite (IH _ o) by (done || lia). f_equal. lia.
Qed.

Lemma length_spTweakFileHeader a d : length (spTweakFileHeader net a d) = 18%nat.
Proof. unfold spTweakFileHeader. rewrite !length_app, !length_put_le. done. Qed.

(** The announced size of in-memory tweak data is exact, at every dust
    level: the number of bytes served, known exactly when no height is
    missing. *)
Lemma spTweaksSize_exact c d a b :
  sp_wf c ->
  (forall w, serializeSPTweaks net c d a b (new_writer None) = (Ok tt, w) ->
     Z.of_nat (length (w_buf w)) <= max_int64 ->
     spTweaksSize c d a b = Some (Z.of_nat (length (w_buf w)))) /\
  (forall n, spTweaksSize c d a b = Some n ->
     exists w, serializeSPTweaks net c d a b (new_writer None) = (Ok tt, w)).
Proof.
  intros [Hwf _]. destruct (serializeSPTweaks_ok c d a b) as [H1 H2]. split.
  - intros w E Hb. apply H1 in E as (out & Hout & Hw)%fmap_Some. rewrite Hw in *.
    rewrite length_app, length_spTweakFileHeader, Nat2Z.inj_add in *.
    unfold spTweaksSize, spTweakFileHeaderSize.
    rewrite (spSize_acc _ _ _ _ out Hwf Hout) by (unfold max_int64 in *; lia). done.
  - intros n E. assert (Hall : is_Some (collect_all (chunk c d) (range a b))).
    { apply collect_all_is_Some. unfold spTweaksSize in E. revert E. generalize spTweakFileHeaderSize as t.
      induction (range a b) as [|j l IH]; intros t E i Hi; [by apply elem_of_nil in Hi|].
      cbn [foldl] in E. unfold spSizeStep at 2 in E.
      destruct (tweakData c !! j) as [es|] eqn:Ej; [|by rewrite spSize_missing in E].
      apply elem_of_cons in Hi as [->|Hi]; [unfold chunk; rewrite Ej; by eexists|by eapply IH]. }
    destruct Hall as [body Hb]. eexists. apply H2. unfold sp_file. rewrite Hb. done.
Qed.

(** *** Reading a file back *)

(** A reader of the format: for each height a count, then that many keys. *)
Definition readTweaks (r : bytes) : result (list bytes * bytes) :=
  res_bind (ReadVarInt r) (fun '(n, r) => readN (io_ReadFull 33) (Z.to_nat n) r).
Definition readSPTweaks (n : nat) (file : bytes) : result (list (list bytes) * bytes) :=
  readN readTweaks n (drop 18 file).

Lemma readTweaks_chunk d es rest :
  Forall wf_entry es -> uint64 (Z.of_nat (length (level d es))) ->
  readTweaks (WriteVarInt (Z.of_nat (length (level d es))) ++ concat (map tweak (level d es)) ++ rest)
  = Ok (map tweak (level d es), rest).
Proof.
  intros Hf Hu. unfold readTweaks. rewrite ReadVarInt_WriteVarInt by done. cbn [res_bind]. rewrite Nat2Z.id.
  pose proof (length_tweaks es d Hf) as HL. rewrite <- (length_map tweak (level d es)).
  revert HL. generalize (map tweak (level d es)) as ts. clear.
  induction ts as [|t ts IH]; intros HL; [done|]. apply Forall_cons in HL as [Ht HL].
  cbn [length readN concat]. rewrite <- app_assoc, (proj2 (io_ReadFull_app 33 _ _ _)) by done.
  cbn [res_bind]. by rewrite IH.
Qed.

End Files.

(** *** Witnesses *)

(** A tweak that looks up the scripts of all inputs and takes the first
    outpoint as its key. *)
Definition toy_tweak (tx : toy_tx) (lookup : Z -> result bytes) : result (option Z) :=
  res_bind (res_fold (fun (_ : unit) op => res_bind (lookup op) (fun _ => Ok tt)) tt (tt_in tx)) (fun _ =>
    Ok (if existsb (fun o => is_taproot (PkScript o)) (tt_out tx) then head (tt_in tx) else None)).

#[export] Instance toy_sp : SilentPayments := {|
  PublicKey := Z;
  TransactionTweakData := toy_tweak;
  SerializeCompressed := fun k => Byte.x02 :: put_le 32 k
|}.
#[export] Instance toy_networks : Networks := {| MainNet := 1; TestNet3 := 2; TestNet4 := 3; SigNet := 4 |}.

Definition sp_empty : Env toy_world * spTweakFiles :=
  (mkEnv (toy_env 12) (mkFS ∅ ∅ no_faults) newH2HCache, mkSP ∅ ∅ (newBlockPrefetcher (mkFetcher false false))).

(** The tweak producer has ingested four blocks on a network where Taproot
    starts at height 1. *)
Definition sp_example : Env toy_world * spTweakFiles := (forM (range 0 3) (sp_ingest 4 "") sp_empty).2.

Lemma sp_empty_wf : sp_wf sp_empty.2.
Proof. split; cbn; intros h *; rewrite !lookup_empty; [done|]. by split; intros [? ?]. Qed.

Lemma sp_operations_keep_wf_witness : sp_wf (sp_ingest 4 "" 1 sp_empty).2.2.
Proof.
  destruct (sp_operations_keep_wf 4 "" "" sp_empty (sp_ingest 4 "" 1 sp_empty).1 (sp_ingest 4 "" 1 sp_empty).2 1 0 3 sp_empty_wf)
    as (H & _ & _).
  apply H. apply surjective_pairing.
Defined.

Lemma sp_example_wf : sp_wf sp_example.2.
Proof.
  unfold sp_example. generalize sp_empty_wf. generalize sp_empty as s.
  induction (range 0 3) as [|h l IH]; intros s Hs; [done|]. cbn [forM]. unfold bind.
  destruct (sp_ingest 4 "" h s) as [r s1] eqn:E.
  assert (Hwf : sp_wf s1.2).
  { apply sp_ingest_inv in E as [(e & _ & F)|(hash & s2 & F & I)].
    - by rewrite (fe_data _ _ F).
    - by apply (ix_wf _ _ I), stored_wf. }
  destruct r; [by apply IH|done].
Qed.

Lemma sp_seal_resume_last_witness :
  exists out, fs_files (e_fs (sp_writeSealedFile 4 "/b" 0 3 sp_example).2.1) !! spFileName "/b" 600 0 3 = Some out.
Proof.
  assert (Hd : 600 ∈ spTweakDustLimits) by (unfold spTweakDustLimits; set_solver).
  assert (E : is_Ok (sp_writeSealedFile 4 "/b" 0 3 sp_example).1 = true) by (vm_compute; reflexivity).
  destruct (sp_writeSealedFile 4 "/b" 0 3 sp_example) as [r s'] eqn:Es. cbn [fst] in E.
  destruct r as [[]|]; [|discriminate E].
  destruct (sp_seal_resume_last 4 "/b" 0 3 sp_example _ _ ltac:(lia) ltac:(lia) Es) as (_ & _ & H).
  destruct (H eq_refl 600 Hd) as (out & _ & Hf). exists out. exact Hf.
Defined.

