(* ===== verification/CustomFilters.v ===== *)
(** * Filters restricted to output types

    [custom-filter-files.go]: the producer that builds four sets of compact
    filters with their filter header chains, and rebuilds the chains after a
    restart. *)

From Stdlib Require Import ZArith Lia.
From stdpp Require Import base numbers list strings gmap.
From S2P Require Import Prelude GoInt Bytes GoStr GoIO Iface Backend Toy Files H2H Producer ProducerLaws HeaderFiles CFilterFiles PrevOuts SealSeq.

Local Open Scope Z_scope.

(** The package [gcs/builder]: [WithKeyHash], the [AddEntry] calls, [Build];
    and [gcs.Filter.NBytes]. *)
Class Gcs := {
  Filter : Type;
  Build : Hash -> list bytes -> result Filter;
  NBytes : Filter -> result bytes
}.

(** An index out of range ends the program. *)
Definition go_panic : error := Sentinel "panic: index out of range".
Definition index {S A} (l : list A) (i : nat) : M S A :=
  match l !! i with Some x => ret x | None => fail go_panic end.

(** ** Configurations *)

(** [scriptTypes], a bit mask. *)
Definition scriptTypeP2WPKH : Z := 1.
Definition scriptTypeP2WSH : Z := 2.
Definition scriptTypeP2TR : Z := 4.

(** [customFilterConfig] and [customFilterConfigs] *)
Record customFilterConfig := mkCustom { cfg_name : str; types : Z }.
Definition customFilterConfigs : list customFilterConfig :=
  [ mkCustom "segwit" (Z.lor (Z.lor scriptTypeP2WPKH scriptTypeP2WSH) scriptTypeP2TR);
    mkCustom "p2wpkh" scriptTypeP2WPKH;
    mkCustom "p2wsh" scriptTypeP2WSH;
    mkCustom "p2tr" scriptTypeP2TR ].

(** [customFilterConfigIndex] *)
Definition customFilterConfigIndex (name : str) : option nat :=
  fst <$> list_find (fun c => cfg_name c = name) customFilterConfigs.

(** [customFilterDir], [customHeaderDir] *)
Definition customFilterDir (name : str) : str := filepath_Join FilterFileDir ("custom-" ++ name)%string.
Definition customHeaderDir (name : str) : str := filepath_Join HeaderFileDir ("custom-" ++ name)%string.

Section Build.
Context `{T : !Tx} `{G : !Gcs}.

(** [classifyScript] *)
Definition classifyScript (pkScript : bytes) : Z :=
  if IsPayToWitnessPubKeyHash pkScript then scriptTypeP2WPKH
  else if IsPayToWitnessScriptHash pkScript then scriptTypeP2WSH
  else if IsPayToTaproot pkScript then scriptTypeP2TR
  else 0.

(** The scripts of a block, in the order they are added: the outputs of its
    transactions, then the scripts they spend. *)
Definition blockScripts (block : blockWithPrevOuts) : list bytes :=
  concat (map (fun tx => map PkScript (TxOuts tx)) (txs block))
  ++ map snd (map_to_list (prevOutScripts block)).

(** [addScript]: whether a script goes into the filter of a configuration. *)
Definition included (c : customFilterConfig) (pkScript : bytes) : bool :=
  let t := classifyScript pkScript in
  if t =? 0 then false else negb (Z.land (types c) t =? 0).

Fixpoint res_map {A B} (f : A -> result B) (l : list A) : result (list B) :=
  match l with
  | [] => Ok []
  | x :: l' => res_bind (f x) (fun y => res_bind (res_map f l') (fun ys => Ok (y :: ys)))
  end.

(** [buildCustomFilters] *)
Definition buildCustomFilters (hash : Hash) (block : blockWithPrevOuts) : result (list Filter) :=
  res_map (fun c =>
    res_wrap "error building custom filter %s: %w"
      (Build hash (filter (fun s => included c s = true) (blockScripts block)))) customFilterConfigs.
End Build.

Section CustomFilters.
Context `{Wi : Wire} `{T : !Tx} `{J : !Json} `{G : !Gcs} {W : Type} `{C : !Chain W} `{Hn : !Http W} `{R : !Rpc W} `{Sc : !Scheduler W}.

(** The in-memory part of [customFilterFiles]. *)
Record customFilterFiles := mkCU {
  cu_blockFetcher : blockPrefetcher;
  cu_filters : gmap Z (list bytes);
  cu_filterHeaders : gmap Z (list Hash);
  cu_heightToHash : gmap Z Hash
}.

(** The constants: the directory, the URL of the fetcher, and the entries per
    filter file and per filter header file. *)
Context (baseDir restURL : str) (entries headersPerFile : Z).

Abbreviation S := (Env W * customFilterFiles)%type.

Definition onCuPrefetcher {A} (m : M (Env W * blockPrefetcher) A) : M S A :=
  zoom (fun s => (s.1, cu_blockFetcher s.2))
    (fun ep s => (ep.1, mkCU ep.2 (cu_filters s.2) (cu_filterHeaders s.2) (cu_heightToHash s.2))) m.
Definition set_headers (f : gmap Z (list Hash) -> gmap Z (list Hash)) : M S unit :=
  inData (fun c => mkCU (cu_blockFetcher c) (cu_filters c) (f (cu_filterHeaders c)) (cu_heightToHash c)).

(** File names. *)
Definition cuFilterFile (c : customFilterConfig) (fileStart fileEnd : Z) : str :=
  block_file FilterFileSuffix (filepath_Join baseDir (customFilterDir (cfg_name c))) fileStart fileEnd.
Definition cuHeaderFile (c : customFilterConfig) (fileStart fileEnd : Z) : str :=
  block_file FilterHeaderFileSuffix (filepath_Join baseDir (customHeaderDir (cfg_name c))) fileStart fileEnd.

(** [filterHeaderFromBytes] *)
Definition filterHeaderFromBytes (filterBytes : bytes) (prevHeader : Hash) : Hash :=
  DoubleHash (DoubleHash filterBytes ++ prevHeader).

Definition zeroHeaders : list Hash := map (fun _ => zero_hash) customFilterConfigs.

(** *** The header chains after a restart *)

(** The loop of [readFilterFile]: the entries up to [io.EOF]. Each entry
    shortens the rest. *)
Fixpoint readEntries (fuel : nat) (rest : bytes) (eof : bool) : result (list bytes) :=
  match fuel with
  | O => Err OutOfFuel
  | Datatypes.S fuel' =>
      match ReadVarBytes MaxMessagePayload rest with
      | Ok (filter, rest') =>
          res_bind (readEntries fuel' rest' eof) (fun l => Ok (filter :: l))
      | Err e =>
          if eof && errors_Is e io_EOF then Ok []
          else Err (Wrapf "error reading filter %d: %w" (if eof then e else External "read"))
      end
  end.

(** [readFilterFile]. The callback only changes local variables of the caller,
    which are dropped after an error, so the entries can be returned instead;
    their number is the first result of the code. *)
Definition cu_readFilterFile (fs : FS) (fileName : str) : result (list bytes) :=
  res_bind (res_wrap "error opening file: %w" (readable fs fileName)) (fun '(data, eof) =>
    readEntries (Datatypes.S (length data)) data eof).

(** One configuration of [readHeaderFileAnchor]. *)
Definition readAnchor (fs : FS) (height : Z) (c : customFilterConfig) : result Hash :=
  let fileStart := i32 (i32 (height + 1) - headersPerFile) in
  res_bind (res_wrap "error reading filter header file to resume the header chain: %w"
              (os_ReadFile fs (cuHeaderFile c fileStart height))) (fun data =>
    if negb (Z.of_nat (length data) =? headersPerFile * HashSize)
    then Err (Errorf "unexpected size %d of filter header file %s, expected %d")
    else Ok (drop (length data - Z.to_nat HashSize) data)).

(** [readHeaderFileAnchor] *)
Definition readHeaderFileAnchor (fs : FS) (height : Z) : result (list Hash) :=
  res_map (readAnchor fs height) customFilterConfigs.

(** The headers of the filters of one file, chained onto [prev]. *)
Fixpoint header_chain (prev : Hash) (filters : list bytes) : list Hash :=
  match filters with
  | [] => []
  | f :: l => let h := filterHeaderFromBytes f prev in h :: header_chain h l
  end.

(** One configuration of one round of [rebuildFilterHeaders]: the rows of the
    file. *)
Definition rebuildColumn (fs : FS) (fileStart fileEnd : Z) (cp : customFilterConfig * Hash)
  : result (list Hash) :=
  res_bind (res_wrap "error rebuilding filter headers from %s: %w"
              (cu_readFilterFile fs (cuFilterFile cp.1 fileStart fileEnd))) (fun filters =>
    if negb (Z.of_nat (length filters) =? entries)
    then Err (Errorf "filter file %s has %d entries, expected %d")
    else Ok (header_chain cp.2 filters)).

(** The row of all configurations at offset [r] of the file. *)
Definition row (columns : list (list Hash)) (r : nat) : list Hash :=
  map (fun column => default zero_hash (column !! r)) columns.

Definition storeRows (fileStart : Z) (columns : list (list Hash)) (m : gmap Z (list Hash))
  : gmap Z (list Hash) :=
  foldl (fun m r => <[i32 (fileStart + Z.of_nat r) := row columns r]> m) m (seq 0 (Z.to_nat entries)).

(** [rebuildFilterHeaders]: the loop over the files. *)
Fixpoint rebuildLoop (fuel : nat) (prev : list Hash) (fileStart end_ : Z) : M S (list Hash) :=
  match fuel with
  | O => fail OutOfFuel
  | Datatypes.S fuel' =>
      if end_ <? fileStart then ret prev
      else
        let fileEnd := i32 (i32 (fileStart + entries) - 1) in
        let! fs := gets (fun s => e_fs s.1) in
        let! columns := liftR (res_map (rebuildColumn fs fileStart fileEnd) (zip customFilterConfigs prev)) in
        set_headers (storeRows fileStart columns) ;;;
        rebuildLoop fuel' (zip_with (fun p column => default p (last column)) prev columns)
          (i32 (fileStart + entries)) end_
  end.
Definition rebuildFilterHeaders (prevHeaders : list Hash) (start end_ : Z) : M S (list Hash) :=
  rebuildLoop (Datatypes.S (Z.to_nat (end_ - start + 1))) prevHeaders start end_.

(** [resumeFilterHeaders] *)
Definition resumeFilterHeaders (height : Z) : M S (list Hash) :=
  let anchorCount := i32 (Z.quot height headersPerFile * headersPerFile) in
  let! prevHeaders :=
    (if 0 <? anchorCount
     then let! fs := gets (fun s => e_fs s.1) in liftR (readHeaderFileAnchor fs (i32 (anchorCount - 1)))
     else ret zeroHeaders) in
  if anchorCount =? height then ret prevHeaders
  else rebuildFilterHeaders prevHeaders anchorCount (i32 (height - 1)).

(** [prevFilterHeaders] *)
Definition prevFilterHeaders (height : Z) : M S (list Hash) :=
  if height =? 0 then ret zeroHeaders
  else
    let! c := gets snd in
    match cu_filterHeaders c !! i32 (height - 1) with
    | Some headers => ret headers
    | None => resumeFilterHeaders height
    end.

(** *** Ingestion *)

(** The loop of [ingest] over the filters: serialized filters and headers. *)
Fixpoint serializeAll (filters : list Filter) (prevHeaders : list Hash) : result (list (bytes * Hash)) :=
  match filters, prevHeaders with
  | [], _ => Ok []
  | f :: fs, p :: ps =>
      res_bind (res_wrap "error serializing custom filter %s at height %d: %w" (NBytes f)) (fun serialized =>
        res_bind (serializeAll fs ps) (fun l => Ok ((serialized, filterHeaderFromBytes serialized p) :: l)))
  | _ :: _, [] => Err go_panic
  end.

(** [ingest] *)
Definition cu_ingest (height : Z) : M S unit :=
  let! hash := wrapE "error getting block hash for height %d: %w" (inEnv (getBlockHash height)) in
  let! prevHeaders := wrapE "error getting previous filter headers for height %d: %w"
                        (prevFilterHeaders height) in
  let! block := wrapE "error getting block for custom filters: %w"
                  (onCuPrefetcher (prefetch_fetchBlock restURL height hash)) in
  let! filters := wrapE "error building custom filters for height %d: %w"
                    (liftR (buildCustomFilters hash block)) in
  let! l := liftR (serializeAll filters prevHeaders) in
  inData (fun c => mkCU (cu_blockFetcher c) (<[height := map fst l]> (cu_filters c))
                     (<[height := map snd l]> (cu_filterHeaders c)) (<[height := hash]> (cu_heightToHash c))).

(** *** Serialization *)

(** [serializeFilters], [serializeFilterHeaders] *)
Definition cu_serializeFilters (c : customFilterFiles) (cfgIndex : nat) (startIndex endIndex : Z) : M Writer unit :=
  forM (range startIndex endIndex) (fun j =>
    match cu_filters c !! j with
    | None => fail (Errorf "missing custom filter at height %d")
    | Some filters =>
        let! f := index filters cfgIndex in
        wrapE "error writing filters: %w" (w_Write (WriteVarBytes f))
    end).
Definition cu_serializeFilterHeaders (c : customFilterFiles) (cfgIndex : nat) (startIndex endIndex : Z)
  : M Writer unit :=
  forM (range startIndex endIndex) (fun j =>
    match cu_filterHeaders c !! j with
    | None => fail (Errorf "missing custom filter header at height %d")
    | Some headers =>
        let! h := index headers cfgIndex in
        wrapE "error writing filter headers: %w" (w_Write h)
    end).

(** [filtersSize]: the inner [None] is an index out of range. *)
Definition cuSizeStep (c : customFilterFiles) (cfgIndex : nat) (total : option Z) (j : Z) : option Z :=
  match total, cu_filters c !! j with
  | Some t, Some filters =>
      match filters !! cfgIndex with
      | Some filter =>
          let n := Z.of_nat (length filter) in
          Some (i64 (t + i64 (VarIntSerializeSize (u64 n) + n)))
      | None => None
      end
  | _, _ => None
  end.
Definition cu_filtersSize (c : customFilterFiles) (cfgIndex : nat) (startIndex endIndex : Z) : option Z :=
  foldl (cuSizeStep c cfgIndex) (Some 0) (range startIndex endIndex).

(** [filterHeadersSize] *)
Definition cu_filterHeadersSize (startIndex endIndex : Z) : option Z :=
  if endIndex <? startIndex then None
  else Some (i64 (i32 (i32 (endIndex - startIndex) + 1) * HashSize)).

(** *** Sealing *)

(** The configurations with their index. *)
Definition indexedConfigs : list (nat * customFilterConfig) := imap pair customFilterConfigs.

(** [writeFilterHeaderFiles] *)
Definition writeFilterHeaderFiles (fileEnd : Z) : M S unit :=
  let fileStart := i32 (i32 (fileEnd + 1) - headersPerFile) in
  let! c := gets snd in
  forM indexedConfigs (fun ic =>
    inEnv (onFS (createAndWrite (cuHeaderFile ic.2 fileStart fileEnd)
                   (cu_serializeFilterHeaders c ic.1 fileStart fileEnd)))) ;;;
  set_headers (delete_range fileStart fileEnd).

(** [writeSealedFile]: the filter header files when the range completes them,
    then the filter files backwards. *)
Definition cu_writeSealedFile (fileStart fileEnd : Z) : M S unit :=
  (if Z.rem (i32 (fileEnd + 1)) headersPerFile =? 0 then writeFilterHeaderFiles fileEnd else ret tt) ;;;
  let! c := gets snd in
  forM (rev indexedConfigs) (fun ic =>
    inEnv (onFS (createAndWrite (cuFilterFile ic.2 fileStart fileEnd)
                   (cu_serializeFilters c ic.1 fileStart fileEnd)))).

(** [pruneLocked]: the filter headers stay. [cachedHash] *)
Definition cu_pruneLocked (start end_ : Z) (c : customFilterFiles) : customFilterFiles :=
  mkCU (cu_blockFetcher c) (delete_range start end_ (cu_filters c)) (cu_filterHeaders c)
    (delete_range start end_ (cu_heightToHash c)).
Definition cu_cachedHash (height : Z) (c : customFilterFiles) : option Hash := cu_heightToHash c !! height.

(** [newCustomFilterFiles] *)
Definition cuCfg (depth : Z) : producerCfg :=
  mkCfg "custom filter" baseDir (customFilterDir "segwit") FilterFileSuffix entries depth.
Definition cuHooks : producerHooks W customFilterFiles :=
  mkHooks cu_ingest cu_writeSealedFile cu_pruneLocked cu_cachedHash None.
Definition newCustomFilterFiles (e : Env W) (f : blockPrevOutFetcher) : PState W customFilterFiles :=
  newProducer e (mkCU (newBlockPrefetcher f) ∅ ∅ ∅).

(** [updateFiles] *)
Definition cu_updateFiles (depth : Z) (polls : nat) (numBlocks : Z) : M (PState W customFilterFiles) unit :=
  if (headersPerFile <=? 0) || negb (Z.rem headersPerFile entries =? 0)
  then fail (Errorf "custom filter headers per file (%d) must be a positive multiple of the filters per file (%d)")
  else
    forM customFilterConfigs (fun c =>
      forM [customFilterDir (cfg_name c); customHeaderDir (cfg_name c)] (fun dir =>
        wrapE "error creating directory %s: %w" (onEnv (onFS (os_MkdirAll (filepath_Join baseDir dir)))))) ;;;
    updateFiles cuHooks (cuCfg depth) polls numBlocks.
End CustomFilters.
