(* ===== verification/CustomFiltersLaws.v ===== *)
(** * What the custom filter producer promises

    The laws of its hooks, the order of its writes, and the equivalence of the
    header chains rebuilt after a restart with those computed at ingestion. *)

From Stdlib Require Import ZArith Lia.
From stdpp Require Import base numbers list strings gmap.
From S2P Require Import Prelude GoInt Bytes GoStr Paths GoIO Iface Backend Toy Files H2H Producer ProducerLaws ProducerSeal HeaderFiles CFilterFiles PrevOuts ToyNet PrevOutsLaws SealSeq CustomFilters.

Local Open Scope Z_scope.

Section Laws.
Context `{Wi : Wire} `{T : !Tx} `{J : !Json} `{G : !Gcs} {W : Type} `{C : !Chain W} `{Hn : !Http W} `{R : !Rpc W} `{Sc : !Scheduler W}.
Context (baseDir restURL : str) (entries headersPerFile : Z).
Abbreviation S := (Env W * customFilterFiles)%type.
Implicit Types (s : S).

(** Steps that leave the files and the recorded block hashes alone. *)
Record cu_quiet s s' : Prop := {
  cq_env : env_kept s s';
  cq_hashes : cu_heightToHash s'.2 = cu_heightToHash s.2
}.

#[export] Instance cu_quiet_preorder : PreOrder cu_quiet.
Proof. split; [by split|]. intros s1 s2 s3 [] []. split; [by etransitivity|congruence]. Qed.

Lemma fetched_cu_quiet s s' : fetched s s' -> cu_quiet s s'.
Proof. intros [A B C']. split; [by split|by rewrite A]. Qed.

Lemma set_headers_quiet f : keeps cu_quiet (set_headers f).
Proof. intros s r s' [= _ <-]. by split. Qed.

Lemma onCuPrefetcher_quiet {A} (m : M (Env W * blockPrefetcher) A) :
  keeps env_kept m -> keeps cu_quiet (onCuPrefetcher m).
Proof.
  intros Hm s r s'. unfold onCuPrefetcher, zoom. destruct (m _) as [r1 [e p]] eqn:E.
  apply Hm in E as [E1 E2]. intros [= _ <-]. by split.
Qed.

Lemma rebuildLoop_quiet fuel prev a b : keeps cu_quiet (rebuildLoop baseDir entries fuel prev a b).
Proof.
  revert prev a. induction fuel as [|fuel IH]; intros prev a; cbn [rebuildLoop]; [auto with go|].
  destruct (b <? a); [auto with go|].
  apply keeps_bind; [apply _|auto with go|intros fs]. apply keeps_bind; [apply _|auto with go|intros columns].
  apply keeps_bind; [apply _|apply set_headers_quiet|intros _; apply IH].
Qed.

Lemma prevFilterHeaders_quiet height : keeps cu_quiet (prevFilterHeaders baseDir entries headersPerFile height).
Proof.
  unfold prevFilterHeaders. destruct (height =? 0); [auto with go|].
  apply keeps_bind; [apply _|auto with go|intros c].
  destruct (cu_filterHeaders c !! _); [auto with go|]. unfold resumeFilterHeaders.
  apply keeps_bind; [apply _| |intros prev].
  - destruct (0 <? _); [|auto with go]. apply keeps_bind; [apply _|auto with go|intros fs; auto with go].
  - destruct (_ =? height); [auto with go|]. apply rebuildLoop_quiet.
Qed.

(** [ingest] is quiet steps, then one store of everything at its height. *)
Lemma cu_ingest_inv height s r s' :
  cu_ingest baseDir restURL entries headersPerFile height s = (r, s') ->
  (exists e, r = Err e /\ cu_quiet s s') \/
  (exists hash l s1, r = Ok tt /\ cu_quiet s s1 /\
     s' = (s1.1, mkCU (cu_blockFetcher s1.2) (<[height := map fst l]> (cu_filters s1.2))
            (<[height := map snd l]> (cu_filterHeaders s1.2)) (<[height := hash]> (cu_heightToHash s1.2)))).
Proof.
  unfold cu_ingest, bind, inData, modify.
  destruct (wrapE _ (inEnv (getBlockHash height)) s) as [r1 s1] eqn:E1.
  assert (Q1 : cu_quiet s s1).
  { revert E1. apply keeps_wrapE. eapply keeps_sub; [apply fetched_cu_quiet|apply fetched_getBlockHash]. }
  destruct r1 as [hash|e]; [|intros [= <- <-]; left; by exists e].
  destruct (wrapE _ _ s1) as [r2 s2] eqn:E2.
  assert (Q2 : cu_quiet s s2).
  { etransitivity; [exact Q1|]. revert E2. apply keeps_wrapE, prevFilterHeaders_quiet. }
  destruct r2 as [prev|e]; [|intros [= <- <-]; left; by exists e].
  destruct (wrapE _ _ s2) as [r3 s3] eqn:E3.
  assert (Q3 : cu_quiet s s3).
  { etransitivity; [exact Q2|]. revert E3. apply keeps_wrapE, onCuPrefetcher_quiet, prefetch_frame. }
  destruct r3 as [block|e]; [|intros [= <- <-]; left; by exists e].
  destruct (wrapE _ _ s3) as [r4 s4] eqn:E4.
  assert (s4 = s3) as -> by (unfold wrapE, liftR in E4; by injection E4 as _ <-).
  destruct r4 as [fs|e]; [|intros [= <- <-]; left; by exists e]. unfold liftR.
  destruct (serializeAll fs prev) as [l|e]; [|intros [= <- <-]; left; by exists e].
  intros [= <- <-]. right. by exists hash, l, s3.
Qed.

(** ** The laws of the hooks *)

Definition cu_sealPath (e : Z) (p : str) : Prop :=
  exists a c, 0 <= a < 10000000 /\ c ∈ customFilterConfigs /\ (p = cuFilterFile baseDir c a e \/ p = cuHeaderFile baseDir c a e).

(** Only files of [Q] change, and the recorded hashes stay. *)
Record cu_wrote (Q : str -> Prop) s0 s : Prop := {
  cw_hashes : cu_heightToHash s.2 = cu_heightToHash s0.2;
  cw_h2h : h2h_ok (e_h2h s0.1) -> h2h_ok (e_h2h s.1);
  cw_faults : fs_faults (e_fs s.1) = fs_faults (e_fs s0.1);
  cw_files p : ~ Q p -> fs_files (e_fs s.1) !! p = fs_files (e_fs s0.1) !! p
}.

#[export] Instance cu_wrote_preorder Q : PreOrder (cu_wrote Q).
Proof.
  split; [by split|]. intros s1 s2 s3 [A1 A2 A3 A4] [B1 B2 B3 B4].
  split; [congruence|auto|congruence|]. intros p Hp. rewrite B4, A4; done.
Qed.

Lemma wrote_cu_wrote Q s s' : wrote Q s s' -> cu_wrote Q s s'.
Proof. intros [A B D E]. split; [by rewrite A|done..]. Qed.

Hypothesis Hpos : 0 < headersPerFile.

(** The header files sealed together with the file ending at [b]. *)
Lemma header_start b :
  0 <= b < 10000000 -> Z.rem (i32 (b + 1)) headersPerFile = 0 ->
  i32 (i32 (b + 1) - headersPerFile) = b + 1 - headersPerFile /\ 0 <= b + 1 - headersPerFile <= b.
Proof using Hpos.
  intros Hb E. rewrite i32_id in E by (unfold int32, min_int32, max_int32; lia).
  assert (headersPerFile <= b + 1).
  { destruct (Z.le_gt_cases headersPerFile (b + 1)); [done|]. rewrite Z.rem_small in E; lia. }
  rewrite (i32_id (b + 1)) by (unfold int32, min_int32, max_int32; lia).
  rewrite i32_id by (unfold int32, min_int32, max_int32; lia). lia.
Qed.

Lemma indexed_config ic : ic ∈ indexedConfigs -> ic.2 ∈ customFilterConfigs.
Proof. destruct ic as [i c]. intros (j & y & E & Hc)%elem_of_lookup_imap. injection E as <- <-. by eapply list_elem_of_lookup_2. Qed.

Lemma cu_writeSealedFile_wrote a b :
  0 <= a <= b -> b < 10000000 ->
  keeps (cu_wrote (cu_sealPath b)) (cu_writeSealedFile baseDir headersPerFile a b).
Proof using Hpos.
  intros Ha Hb. unfold cu_writeSealedFile.
  apply keeps_bind; [apply _| |intros _; apply keeps_bind; [apply _|auto with go|intros c]].
  - destruct (Z.eqb_spec (Z.rem (i32 (b + 1)) headersPerFile) 0) as [E|]; [|auto with go].
    apply header_start in E as [E1 E2]; [|lia].
    unfold writeFilterHeaderFiles. apply keeps_bind; [apply _|auto with go|intros c].
    apply keeps_bind; [apply _| |intros _; intros s r s' [= _ <-]; by split].
    apply keeps_forM_in; [apply _|intros ic Hic]. eapply keeps_sub; [apply wrote_cu_wrote|].
    rewrite E1. apply wrote_create_write_close. exists (b + 1 - headersPerFile), ic.2.
    split; [lia|split; [by apply indexed_config|by right]].
  - apply keeps_forM_in; [apply _|intros ic Hic]. eapply keeps_sub; [apply wrote_cu_wrote|].
    apply wrote_create_write_close. exists a, ic.2. rewrite list_elem_of_In, <- in_rev, <- list_elem_of_In in Hic. split; [lia|split; [by apply indexed_config|by left]].
Qed.

#[export] Instance cu_laws : HookLaws (cuHooks (W := W) baseDir restURL entries headersPerFile).
Proof using Hpos.
  refine {| sealPath := cu_sealPath |}.
  - intros e e' p He He' (a & c & Ha & _ & Hp) (a' & c' & Ha' & _ & Hp').
    destruct Hp as [-> | ->], Hp' as [E|E]; by apply block_file_inj_full in E as (_ & _ & -> & _).
  - intros h s r s' [(e & -> & [[E1 E2] _])|(hash & l & s1 & -> & [[E1 E2] _] & ->)]%cu_ingest_inv;
      cbn; split; auto.
  - intros h s s' [(e & [=] & _)|(hash & l & s1 & _ & [_ Eh] & ->)]%cu_ingest_inv.
    cbn. unfold cu_cachedHash. cbn. rewrite Eh. split; [rewrite lookup_insert_eq; by eexists|].
    intros h' Hne. by rewrite lookup_insert_ne.
  - intros a b s r s' Ha Hb E. apply cu_writeSealedFile_wrote in E as [_ ? ? ?]; done.
  - intros a b s r s' h Ha Hb E. apply cu_writeSealedFile_wrote in E as [E _ _ _]; [|done..].
    cbn. unfold cu_cachedHash. by rewrite E.
  - intros a b d h. cbn. unfold cu_cachedHash, cu_pruneLocked. cbn.
    rewrite lookup_delete_range. by case_decide.
  - done.
Defined.
End Laws.

(** ** Rebuilding the header chains *)

Section Resume.
Context `{WireLaws} `{T : !Tx} `{J : !Json} {W : Type} `{C : !Chain W}.
Context (baseDir : str) (entries headersPerFile : Z).
Abbreviation S := (Env W * customFilterFiles)%type.
Implicit Types (s : S).

(** The filters of the chain: [F i j] is the filter of configuration [i] at
    height [j]; and the BIP157 header of that filter. *)
Context (F : nat -> Z -> bytes).
Definition header_at (i : nat) (j : Z) : Hash := foldl filter_step zero_hash (map (F i) (range 0 j)).
Definition headers_at (j : Z) : list Hash := map (fun i => header_at i j) [0; 1; 2; 3]%nat.

(** The files of all whole ranges below [height] are on disk. *)
Record sealed_disk (fs : FS) (height : Z) : Prop := {
  sd_filters i c k : customFilterConfigs !! i = Some c -> 0 <= k -> (k + 1) * entries <= height ->
    readable fs (cuFilterFile baseDir c (k * entries) ((k + 1) * entries - 1))
    = Ok (filters_bytes (map (F i) (range (k * entries) ((k + 1) * entries - 1))), true);
  sd_headers i c k : customFilterConfigs !! i = Some c -> 0 <= k -> (k + 1) * headersPerFile <= height ->
    readable fs (cuHeaderFile baseDir c (k * headersPerFile) ((k + 1) * headersPerFile - 1))
    = Ok (concat (map (header_at i) (range (k * headersPerFile) ((k + 1) * headersPerFile - 1))), true)
}.

Hypothesis Hsize : forall i j, Z.of_nat (length (F i j)) <= MaxMessagePayload.
Hypothesis Hentries : 0 < entries.
Hypothesis Hmultiple : exists p, 0 < p /\ headersPerFile = p * entries.

Lemma length_filters_bytes fs : (length fs <= length (filters_bytes fs))%nat.
Proof.
  induction fs as [|f fs IH]; [done|]. unfold filters_bytes in *. cbn. rewrite length_app.
  assert (0 < length (WriteVarBytes f))%nat; [|lia]. rewrite WriteVarBytes_eq, length_app.
  destruct (length f) as [|n]; [|lia]. pose proof (WriteVarInt_nonempty 0 ltac:(unfold uint64; lia)). change (Z.of_nat 0) with 0. lia.
Qed.

Lemma readEntries_bytes fuel fs :
  (length fs < fuel)%nat -> Forall (fun f => Z.of_nat (length f) <= MaxMessagePayload) fs ->
  readEntries fuel (filters_bytes fs) true = Ok fs.
Proof.
  pose proof MaxPayload_bound as [_ Hm].
  revert fuel. induction fs as [|f fs IH]; intros [|fuel] Hf Hl; cbn in Hf; try lia; cbn [readEntries].
  - unfold filters_bytes. cbn. by rewrite ReadVarBytes_nil.
  - apply Forall_cons in Hl as [H1 H2]. unfold filters_bytes in *. cbn [map concat].
    rewrite ReadVarBytes_WriteVarBytes by lia. rewrite IH by (done || lia). done.
Qed.

Lemma readEntries_fuel fuel rest eof : (length rest < fuel)%nat -> readEntries fuel rest eof <> Err OutOfFuel.
Proof.
  revert rest. induction fuel as [|fuel IH]; intros rest Hf; [lia|]. cbn [readEntries].
  destruct (ReadVarBytes _ rest) as [[f rest']|e] eqn:E.
  - apply ReadVarBytes_shrinks in E. specialize (IH rest' ltac:(lia)). by destruct (readEntries fuel rest' eof).
  - by destruct (eof && _).
Qed.

Lemma read_filter_file fs name l :
  readable fs name = Ok (filters_bytes l, true) ->
  Forall (fun f => Z.of_nat (length f) <= MaxMessagePayload) l -> cu_readFilterFile fs name = Ok l.
Proof.
  intros Hr Hl. unfold cu_readFilterFile. rewrite Hr. cbn [res_wrap res_bind].
  apply readEntries_bytes; [|done]. pose proof (length_filters_bytes l). lia.
Qed.

(** *** The chain of headers *)

Lemma header_at_step i a : 0 <= a -> header_at i a = filter_step (header_at i (a - 1)) (F i a).
Proof. intros Ha. unfold header_at. rewrite (range_snoc 0 a) by lia. by rewrite map_app, foldl_app. Qed.

Lemma length_header_at i j : length (header_at i j) = 32%nat.
Proof.
  unfold header_at. destruct (Z.lt_ge_cases j 0) as [Hj|Hj].
  - rewrite range_nil by lia. apply length_replicate.
  - rewrite range_snoc, map_app, foldl_app by lia. apply length_filter_step.
Qed.

Lemma header_chain_range i n a :
  0 <= a -> header_chain (header_at i (a - 1)) (map (F i) (range a (a + Z.of_nat n - 1)))
            = map (header_at i) (range a (a + Z.of_nat n - 1)).
Proof.
  revert a. induction n as [|n IH]; intros a Ha.
  - by rewrite range_nil by lia.
  - rewrite range_cons by lia. cbn [map header_chain]. change filterHeaderFromBytes with (fun f p => filter_step p f).
    cbv beta. rewrite <- header_at_step by lia. f_equal.
    replace (header_at i a) with (header_at i (a + 1 - 1)) by (f_equal; lia).
    replace (a + Z.of_nat (Datatypes.S n) - 1) with (a + 1 + Z.of_nat n - 1) by lia. apply IH. lia.
Qed.

Lemma res_map_Ok {A B} (f : A -> result B) l ys :
  Forall2 (fun x y => f x = Ok y) l ys -> res_map f l = Ok ys.
Proof. induction 1 as [|x y l ys Hx _ IH]; cbn; [done|]. by rewrite Hx, IH. Qed.

(** The columns of one file. *)
Definition columns_at (a : Z) : list (list Hash) :=
  map (fun i => map (header_at i) (range a (a + entries - 1))) [0; 1; 2; 3]%nat.

Lemma res_map_Err {A B} (f : A -> result B) l e : res_map f l = Err e -> exists x, f x = Err e.
Proof.
  induction l as [|x l IH]; cbn; [done|]. destruct (f x) eqn:E; cbn; [|intros [= ->]; eauto].
  destruct (res_map f l); cbn; [done|exact IH].
Qed.

Lemma rebuild_columns fs height k :
  sealed_disk fs height -> 0 <= k -> (k + 1) * entries <= height ->
  res_map (rebuildColumn baseDir entries fs (k * entries) ((k + 1) * entries - 1))
    (zip customFilterConfigs (headers_at (k * entries - 1))) = Ok (columns_at (k * entries)).
Proof.
  intros [Hf _] Hk Hle. apply res_map_Ok.
  assert (Hcol : forall i c, customFilterConfigs !! i = Some c ->
    rebuildColumn baseDir entries fs (k * entries) ((k + 1) * entries - 1) (c, header_at i (k * entries - 1))
    = Ok (map (header_at i) (range (k * entries) (k * entries + entries - 1)))).
  { intros i c Hi. unfold rebuildColumn. cbn [fst snd].
    erewrite read_filter_file; [|by apply Hf|by apply Forall_map, Forall_true].
    cbn [res_wrap res_bind]. rewrite length_map, length_range.
    rewrite (proj2 (Z.eqb_eq _ _)) by lia. cbn [negb]. f_equal.
    replace ((k + 1) * entries - 1) with (k * entries + Z.of_nat (Z.to_nat entries) - 1) by lia.
    rewrite header_chain_range by lia. do 2 f_equal. lia. }
  repeat constructor; by apply Hcol.
Qed.

(** *** Storing the rows *)

Lemma lookup_rows a columns (m : gmap Z (list Hash)) n j :
  int32 a -> int32 (a + Z.of_nat n) ->
  foldl (fun m r => <[i32 (a + Z.of_nat r) := row columns r]> m) m (seq 0 n) !! j
  = if decide (a <= j < a + Z.of_nat n) then Some (row columns (Z.to_nat (j - a))) else m !! j.
Proof.
  intros Ha. induction n as [|n IH]; intros Hn.
  - cbn. by rewrite decide_False by lia.
  - rewrite seq_S, foldl_app. cbn [foldl]. unfold int32 in *.
    rewrite i32_id by (unfold int32; lia).
    destruct (decide (j = a + Z.of_nat n)) as [->|Hne].
    + cbn [Nat.add]. rewrite lookup_insert_eq, decide_True by lia. do 2 f_equal. lia.
    + cbn [Nat.add]. rewrite lookup_insert_ne, IH by lia.
      destruct (decide (a <= j < a + Z.of_nat n)), (decide (a <= j < a + Z.of_nat (Datatypes.S n))); done || lia.
Qed.

Lemma row_columns_at a r :
  Z.of_nat r < entries -> row (columns_at a) r = headers_at (a + Z.of_nat r).
Proof.
  intros Hr. unfold row, columns_at, headers_at. rewrite map_map. apply map_ext. intros i.
  assert (E : range a (a + entries - 1) !! r = Some (a + Z.of_nat r)).
  { unfold range. apply lookup_seqZ. lia. }
  by rewrite list_lookup_fmap, E.
Qed.

(** *** The loop over the files *)

(** The state after the headers of [[a, b]] were stored. *)
Definition with_headers (a b : Z) s s' : Prop :=
  s'.1 = s.1 /\ cu_filters s'.2 = cu_filters s.2 /\ cu_heightToHash s'.2 = cu_heightToHash s.2 /\
  forall j, cu_filterHeaders s'.2 !! j
    = if decide (a <= j <= b) then Some (headers_at j) else cu_filterHeaders s.2 !! j.

Lemma last_columns a prev :
  length prev = 4%nat -> zip_with (fun p column => default p (last column)) prev (columns_at a)
  = headers_at (a + entries - 1).
Proof.
  intros Hp. unfold columns_at, headers_at. rewrite (range_snoc a) by lia.
  destruct prev as [|p0 [|p1 [|p2 [|p3 [|]]]]]; try discriminate Hp. cbn [map zip_with].
  rewrite !map_app. cbn [map]. by rewrite !last_snoc.
Qed.

(** The fuel of [rebuildFilterHeaders] is enough, whatever is on disk. *)
Lemma rebuildLoop_fuel fuel prev fileStart end_ s :
  0 <= fileStart -> end_ <= 10000000 -> entries <= 10000000 -> Z.max 0 (end_ - fileStart + 1) < Z.of_nat fuel ->
  (rebuildLoop baseDir entries fuel prev fileStart end_ s).1 <> Err OutOfFuel.
Proof.
  intros Hs He Hn. revert prev fileStart Hs s. induction fuel as [|fuel IH]; intros prev fileStart Hs s Hf; [lia|].
  cbn [rebuildLoop]. destruct (Z.ltb_spec end_ fileStart); [done|].
  unfold bind at 1, gets, bind at 1, liftR.
  destruct (res_map _ _) as [columns|e] eqn:E.
  - unfold bind at 1, set_headers, inData, modify. cbv beta iota zeta.
    rewrite (i32_id (fileStart + entries)) by (unfold int32, min_int32, max_int32; lia). apply IH; lia.
  - apply res_map_Err in E as ([cfg p] & E). intros [= ->]. revert E. unfold rebuildColumn.
    destruct (cu_readFilterFile _ _); cbn; [|done]. by destruct (negb _).
Qed.

Lemma rebuildLoop_spec q fuel k height s :
  sealed_disk (e_fs s.1) height -> 0 <= k -> height = (k + Z.of_nat q) * entries -> height <= 10000000 ->
  (q < fuel)%nat ->
  exists s', rebuildLoop baseDir entries fuel (headers_at (k * entries - 1)) (k * entries) (height - 1) s
             = (Ok (headers_at (height - 1)), s') /\ with_headers (k * entries) (height - 1) s s'.
Proof.
  revert fuel k s. induction q as [|q IH]; intros [|fuel] k s Hd Hk Hh Hb Hfu; try lia; cbn [rebuildLoop].
  - rewrite (proj2 (Z.ltb_lt _ _)) by lia. exists s. split.
    + unfold ret. do 2 f_equal. f_equal. lia.
    + split_and!; [done..|]. intros j. by rewrite decide_False by lia.
  - assert (Hle : (k + 1) * entries <= height) by nia. assert (0 <= k * entries) by nia.
    rewrite (proj2 (Z.ltb_ge _ _)) by nia.
    rewrite (i32_id (k * entries + entries)) by (unfold int32, min_int32, max_int32; nia).
    rewrite i32_id by (unfold int32, min_int32, max_int32; nia).
    unfold bind at 1, gets, bind at 1, liftR.
    replace (k * entries + entries - 1) with ((k + 1) * entries - 1) by lia.
    rewrite (rebuild_columns _ height) by (done || lia).
    unfold bind at 1, set_headers, inData, modify. rewrite last_columns by done.
    replace (k * entries + entries - 1) with ((k + 1) * entries - 1) by lia.
    replace (k * entries + entries) with ((k + 1) * entries) by lia.
    match goal with |- exists s', rebuildLoop _ _ _ _ _ _ ?s1 = _ /\ _ => set (s1' := s1) end.
    destruct (IH fuel (k + 1) s1') as (s' & E & E1 & E2 & E3 & E4); [done|lia|nia|done|lia|].
    exists s'. split; [exact E|]. split_and!; [done..|]. intros j. rewrite E4. subst s1'. cbn [cu_filterHeaders snd].
    unfold storeRows. rewrite lookup_rows by (unfold int32, min_int32, max_int32; nia).
    rewrite Z2Nat.id by lia.
    destruct (decide ((k + 1) * entries <= j <= height - 1)); [by rewrite decide_True by lia|].
    destruct (decide (k * entries <= j < k * entries + entries)).
    + rewrite decide_True by lia. rewrite row_columns_at by lia. do 2 f_equal. lia.
    + by rewrite decide_False by lia.
Qed.

(** *** The anchor *)

Lemma read_anchors fs height k :
  sealed_disk fs height -> 0 <= k -> (k + 1) * headersPerFile <= height -> height <= 10000000 ->
  readHeaderFileAnchor baseDir headersPerFile fs ((k + 1) * headersPerFile - 1)
  = Ok (headers_at ((k + 1) * headersPerFile - 1)).
Proof.
  intros [_ Hh] Hk Hle Hb. destruct Hmultiple as (p & Hp & Hpe).
  assert (Hhp : 0 < headersPerFile) by nia. assert (0 <= k * headersPerFile) by nia.
  apply res_map_Ok.
  assert (Hcol : forall i c, customFilterConfigs !! i = Some c ->
    readAnchor baseDir headersPerFile fs ((k + 1) * headersPerFile - 1) c
    = Ok (header_at i ((k + 1) * headersPerFile - 1))).
  { intros i c Hi. unfold readAnchor.
    rewrite (i32_id (_ + 1)) by (unfold int32, min_int32, max_int32; lia).
    rewrite i32_id by (unfold int32, min_int32, max_int32; lia).
    replace ((k + 1) * headersPerFile - 1 + 1 - headersPerFile) with (k * headersPerFile) by lia.
    unfold os_ReadFile. rewrite (Hh i c k) by (done || lia). cbn [res_wrap res_bind].
    assert (HL : Forall (fun h => length h = 32%nat)
      (map (header_at i) (range (k * headersPerFile) ((k + 1) * headersPerFile - 1)))).
    { apply Forall_map, Forall_true. intros j. apply length_header_at. }
    rewrite (length_concat_const _ _ HL), length_map, length_range. unfold HashSize.
    rewrite (proj2 (Z.eqb_eq _ _)) by lia. cbn [negb]. f_equal.
    rewrite (range_snoc (k * headersPerFile)) by lia. rewrite map_app, concat_app. cbn [map concat].
    rewrite app_nil_r. apply drop_app_length'.
    rewrite (length_concat_const _ 32), length_map, length_range.
    - lia.
    - apply Forall_map, Forall_true. intros j. apply length_header_at. }
  repeat constructor; by apply Hcol.
Qed.

End Resume.

(** ** The order of the writes *)

Section Sealing.
Context `{Wi : Wire} `{T : !Tx} {W : Type}.
Context (baseDir : str) (headersPerFile : Z).
Abbreviation S := (Env W * customFilterFiles)%type.
Implicit Types (s : S) (c : customFilterFiles).

(** The contents of the files of configuration [i]. *)
Definition cu_filter_entry c (i : nat) (j : Z) : option bytes :=
  cu_filters c !! j ≫= fun fs => WriteVarBytes <$> fs !! i.
Definition cu_header_entry c (i : nat) (j : Z) : option bytes :=
  cu_filterHeaders c !! j ≫= fun hs => hs !! i.
Definition cu_file c i a b : option bytes := collect_all (cu_filter_entry c i) (range a b).
Definition cu_hfile c i a b : option bytes := collect_all (cu_header_entry c i) (range a b).

Lemma writes_index {A} (l : list A) i (k : A -> M Writer unit) :
  l !! i = None -> writes (let! x := index l i in k x) [] (Some go_panic).
Proof. intros E. unfold index. rewrite E. apply (writes_fail go_panic). Qed.

Lemma cu_serializeFilters_writes c i a b :
  exists e, writes (cu_serializeFilters c i a b) (collect (cu_filter_entry c i) (range a b)).1 e /\
    (e = None -> (collect (cu_filter_entry c i) (range a b)).2 = true).
Proof.
  destruct (writes_range (cu_filter_entry c i) (range a b)
    (fun j => match cu_filters c !! j with
              | None => fail (Errorf "missing custom filter at height %d")
              | Some filters => let! f := index filters i in
                  wrapE "error writing filters: %w" (w_Write (WriteVarBytes f))
              end)
    (fun j => match cu_filters c !! j with
              | None => Errorf "missing custom filter at height %d" | Some _ => go_panic end)) as (e & We & He).
  - intros j bs. unfold cu_filter_entry. destruct (cu_filters c !! j) as [fs|]; [|done]. cbn.
    unfold index. destruct (fs !! i); [|done]. intros [= <-].
    apply (writes_wrapE _ _ _ None), writes_Write.
  - intros j. unfold cu_filter_entry. destruct (cu_filters c !! j) as [fs|]; [|intros _; apply writes_fail].
    cbn. intros Hj. apply writes_index. by destruct (fs !! i).
  - exists e. split; [exact We|by apply He].
Qed.

Lemma cu_serializeFilterHeaders_writes c i a b :
  exists e, writes (cu_serializeFilterHeaders c i a b) (collect (cu_header_entry c i) (range a b)).1 e /\
    (e = None -> (collect (cu_header_entry c i) (range a b)).2 = true).
Proof.
  destruct (writes_range (cu_header_entry c i) (range a b)
    (fun j => match cu_filterHeaders c !! j with
              | None => fail (Errorf "missing custom filter header at height %d")
              | Some headers => let! h := index headers i in
                  wrapE "error writing filter headers: %w" (w_Write h)
              end)
    (fun j => match cu_filterHeaders c !! j with
              | None => Errorf "missing custom filter header at height %d" | Some _ => go_panic end)) as (e & We & He).
  - intros j bs. unfold cu_header_entry. destruct (cu_filterHeaders c !! j) as [fs|]; [|done]. cbn.
    unfold index. destruct (fs !! i); [|done]. intros [= <-].
    apply (writes_wrapE _ _ _ None), writes_Write.
  - intros j. unfold cu_header_entry. destruct (cu_filterHeaders c !! j) as [fs|]; [|intros _; apply writes_fail].
    cbn. intros Hj. by apply writes_index.
  - exists e. split; [exact We|by apply He].
Qed.

(** *** Names *)

Lemma cfg_dirs dir cfg :
  dir = customFilterDir \/ dir = customHeaderDir -> cfg ∈ customFilterConfigs ->
  normal_path (dir (cfg_name cfg)) = true.
Proof. intros H. revert cfg. apply Forall_forall. destruct H as [->| ->]; repeat constructor; vm_compute; done. Qed.

Lemma cfg_dirs_inj dir cfg cfg' :
  dir = customFilterDir \/ dir = customHeaderDir -> cfg ∈ customFilterConfigs -> cfg' ∈ customFilterConfigs ->
  filepath_Join baseDir (dir (cfg_name cfg)) = filepath_Join baseDir (dir (cfg_name cfg')) -> cfg = cfg'.
Proof.
  intros Hd H H' E. apply filepath_Join_inj in E; [|by apply cfg_dirs..]. revert E.
  assert (F : Forall (fun cfg => Forall (fun cfg' => dir (cfg_name cfg) = dir (cfg_name cfg') -> cfg = cfg')
                        customFilterConfigs) customFilterConfigs).
  { destruct Hd as [->| ->]; repeat constructor; vm_compute; intros; done. }
  rewrite Forall_forall in F. specialize (F cfg H). rewrite Forall_forall in F. by apply F.
Qed.

Lemma cuFilterFile_inj cfg cfg' a b :
  cfg ∈ customFilterConfigs -> cfg' ∈ customFilterConfigs -> 0 <= a < 10000000 -> 0 <= b < 10000000 ->
  cuFilterFile baseDir cfg a b = cuFilterFile baseDir cfg' a b -> cfg = cfg'.
Proof.
  intros H H' Ha Hb E. apply block_file_inj_full in E as (E & _); try done.
  apply cfg_dirs_inj in E; auto.
Qed.

Lemma cuHeaderFile_inj cfg cfg' a b :
  cfg ∈ customFilterConfigs -> cfg' ∈ customFilterConfigs -> 0 <= a < 10000000 -> 0 <= b < 10000000 ->
  cuHeaderFile baseDir cfg a b = cuHeaderFile baseDir cfg' a b -> cfg = cfg'.
Proof.
  intros H H' Ha Hb E. apply block_file_inj_full in E as (E & _); try done.
  apply cfg_dirs_inj in E; auto.
Qed.

Lemma header_not_filter cfg cfg' a b a' b' :
  0 <= a < 10000000 -> 0 <= b < 10000000 -> 0 <= a' < 10000000 -> 0 <= b' < 10000000 ->
  cuHeaderFile baseDir cfg a b <> cuFilterFile baseDir cfg' a' b'.
Proof. intros ? ? ? ? E. by apply block_file_inj_full in E as (_ & _ & _ & E). Qed.

Lemma elem_of_indexed ic : ic ∈ indexedConfigs <-> customFilterConfigs !! ic.1 = Some ic.2.
Proof. destruct ic as [i cfg]. apply elem_of_imap_pair. Qed.

Lemma indexed_in ic : ic ∈ indexedConfigs -> ic.2 ∈ customFilterConfigs.
Proof. intros H%elem_of_indexed. by eapply list_elem_of_lookup_2. Qed.

(** Configurations with different names have different indices. *)
Lemma NoDup_names (name : customFilterConfig -> str) l :
  (forall cfg cfg', cfg ∈ customFilterConfigs -> cfg' ∈ customFilterConfigs -> name cfg = name cfg' -> cfg = cfg') ->
  l = indexedConfigs \/ l = rev indexedConfigs -> NoDup (map (fun ic => name ic.2) l).
Proof.
  intros Hinj Hl.
  assert (Hin : forall ic, ic ∈ l -> ic.2 ∈ customFilterConfigs).
  { intros ic Hic. apply indexed_in. destruct Hl as [-> | ->]; [done|].
    by apply list_elem_of_In, in_rev, list_elem_of_In. }
  rewrite <- (map_map snd name). apply NoDup_fmap_2_strong.
  - intros x y (x' & -> & Hx)%list_elem_of_fmap (y' & -> & Hy)%list_elem_of_fmap. apply Hinj; by apply Hin.
  - assert (G : NoDup (map snd indexedConfigs)).
    { change (map snd indexedConfigs) with customFilterConfigs. apply (NoDup_fmap_1 cfg_name).
      apply (bool_decide_unpack _). vm_compute. exact I. }
    destruct Hl as [-> | ->]; [exact G|]. rewrite map_rev, <- Permutation_rev. exact G.
Qed.

(** *** The two parts of a seal *)

(** The header files of the span ending at [b] are complete. *)
Definition headers_done c (fs' : FS) (b : Z) : Prop := forall i cfg,
  customFilterConfigs !! i = Some cfg -> exists out,
    cu_hfile c i (b + 1 - headersPerFile) b = Some out /\
    fs_files fs' !! cuHeaderFile baseDir cfg (b + 1 - headersPerFile) b = Some out.

(** The filter file of configuration [i] is complete. *)
Definition filter_done c (fs' : FS) (a b : Z) (i : nat) (cfg : customFilterConfig) : Prop := exists out,
  cu_file c i a b = Some out /\ fs_files fs' !! cuFilterFile baseDir cfg a b = Some out.

Lemma header_files_spec b s r s' :
  0 < headersPerFile -> 0 <= b < 10000000 -> Z.rem (i32 (b + 1)) headersPerFile = 0 ->
  writeFilterHeaderFiles baseDir headersPerFile b s = (r, s') ->
  (forall p, (forall cfg, p <> cuHeaderFile baseDir cfg (b + 1 - headersPerFile) b) ->
     fs_files (e_fs s'.1) !! p = fs_files (e_fs s.1) !! p) /\
  cu_filters s'.2 = cu_filters s.2 /\ (r = Ok tt -> headers_done s.2 (e_fs s'.1) b).
Proof.
  intros Hpos Hb Hrem. apply (header_start headersPerFile Hpos) in Hrem as [E0 Hr]; [|done].
  unfold writeFilterHeaderFiles. rewrite E0. unfold bind at 1, gets. unfold bind.
  rewrite forM_onFS. destruct (inEnv _ s) as [r1 s1] eqn:E1.
  apply inEnv_onFS_inv in E1 as (E1 & _ & _ & D1).
  apply (write_sequence (fun ic => cuHeaderFile baseDir ic.2 (b + 1 - headersPerFile) b)
           (fun ic => (collect (cu_header_entry s.2 ic.1) (range (b + 1 - headersPerFile) b)).1)
           (fun ic => (collect (cu_header_entry s.2 ic.1) (range (b + 1 - headersPerFile) b)).2 = true))
    in E1 as (pre & rest & [Hsplit Hdone Hall _ _ Hother]).
  - assert (Ho : forall p, (forall cfg, p <> cuHeaderFile baseDir cfg (b + 1 - headersPerFile) b) ->
      fs_files (e_fs s1.1) !! p = fs_files (e_fs s.1) !! p).
    { intros p Hp. apply Hother. intros (ic & -> & _)%list_elem_of_fmap. by eapply Hp. }
    destruct r1 as [[]|e]; [|intros [= <- <-]; split_and!; [done|by rewrite D1|done]].
    intros [= <- <-]. split_and!; [done|cbn; by rewrite D1|].
    intros _ i cfg Hi. destruct (Hdone (i, cfg)) as [Hc Hf].
    { rewrite <- (app_nil_r pre), <- (Hall eq_refl), <- Hsplit. by apply elem_of_indexed. }
    cbn [fst snd] in *. eexists. split; [|exact Hf]. unfold cu_hfile, collect_all.
    destruct (collect _ _) as [o ok]. cbn in *. by rewrite Hc.
  - intros ic _. apply cu_serializeFilterHeaders_writes.
  - apply (NoDup_names (fun cfg => cuHeaderFile baseDir cfg (b + 1 - headersPerFile) b)); [|by left]. intros cfg cfg' H H'. apply cuHeaderFile_inj; lia || done.
Qed.

Lemma filter_files_spec a b s r s' :
  0 <= a <= b -> b < 10000000 ->
  forM (rev indexedConfigs) (fun ic =>
    inEnv (onFS (createAndWrite (cuFilterFile baseDir ic.2 a b) (cu_serializeFilters s.2 ic.1 a b)))) s = (r, s') ->
  let resume := cuFilterFile baseDir (mkCustom "segwit" 7) a b in
  s'.2 = s.2 /\
  (forall p, (forall cfg, p <> cuFilterFile baseDir cfg a b) ->
     fs_files (e_fs s'.1) !! p = fs_files (e_fs s.1) !! p) /\
  (fs_files (e_fs s'.1) !! resume = fs_files (e_fs s.1) !! resume \/
   forall i cfg, i <> 0%nat -> customFilterConfigs !! i = Some cfg -> filter_done s.2 (e_fs s'.1) a b i cfg) /\
  (r = Ok tt -> forall i cfg, customFilterConfigs !! i = Some cfg -> filter_done s.2 (e_fs s'.1) a b i cfg).
Proof.
  intros Ha Hb E resume. rewrite forM_onFS in E. apply inEnv_onFS_inv in E as (E & _ & _ & D).
  apply (write_sequence (fun ic => cuFilterFile baseDir ic.2 a b)
           (fun ic => (collect (cu_filter_entry s.2 ic.1) (range a b)).1)
           (fun ic => (collect (cu_filter_entry s.2 ic.1) (range a b)).2 = true)) in E as (pre & rest & Hw).
  - assert (Hin : forall i cfg, customFilterConfigs !! i = Some cfg -> (i, cfg) ∈ rev indexedConfigs).
    { intros i cfg Hi. apply list_elem_of_In. rewrite <- in_rev. apply list_elem_of_In. by apply elem_of_indexed. }
    assert (Hfin : forall i cfg, (collect (cu_filter_entry s.2 i) (range a b)).2 = true /\
      fs_files (e_fs s'.1) !! cuFilterFile baseDir cfg a b
      = Some (collect (cu_filter_entry s.2 i) (range a b)).1 -> filter_done s.2 (e_fs s'.1) a b i cfg).
    { intros i cfg [Hc Hf]. eexists. split; [|exact Hf]. unfold cu_file, collect_all.
      destruct (collect _ _) as [o ok]. cbn in *. by rewrite Hc. }
    pose proof Hw as [Hsplit Hdone Hall _ _ Hother]. split_and!; [done| | |].
    + intros p Hp. apply Hother. intros (ic & -> & _)%list_elem_of_fmap. by eapply Hp.
    + change (rev indexedConfigs) with (rev (tail indexedConfigs) ++ [(0%nat, mkCustom "segwit" 7)]) in Hw, Hin.
      apply last_written_last in Hw as Hlast. destruct Hlast as [Hl|Hl]; [by left|right].
      intros i cfg H0 Hi. apply Hfin. apply (Hl (i, cfg)).
      specialize (Hin i cfg Hi). apply elem_of_app in Hin as [|Hin]; [done|].
      apply list_elem_of_singleton in Hin. congruence.
    + intros ->%Hall i cfg Hi. apply Hfin. apply (Hdone (i, cfg)).
      rewrite <- (app_nil_r pre), <- Hsplit. by apply Hin.
  - intros ic _. apply cu_serializeFilters_writes.
  - apply (NoDup_names (fun cfg => cuFilterFile baseDir cfg a b)); [|by right]. intros cfg cfg' H H'. apply cuFilterFile_inj; lia || done.
Qed.

(** C17: the crash-safety of a seal: the file in the resume directory is touched
    only when the filter files of all other configurations, and the filter
    header files of a span that ends with the range, are completely written; a
    successful seal writes all of them. *)
Theorem cu_seal_resume_last a b s r s' :
  0 < headersPerFile -> 0 <= a <= b -> b < 10000000 ->
  cu_writeSealedFile baseDir headersPerFile a b s = (r, s') ->
  let resume := cuFilterFile baseDir (mkCustom "segwit" 7) a b in
  let boundary := Z.rem (i32 (b + 1)) headersPerFile = 0 in
  (fs_files (e_fs s'.1) !! resume = fs_files (e_fs s.1) !! resume \/
   (boundary -> headers_done s.2 (e_fs s'.1) b) /\
   forall i cfg, i <> 0%nat -> customFilterConfigs !! i = Some cfg -> filter_done s.2 (e_fs s'.1) a b i cfg) /\
  (r = Ok tt -> (boundary -> headers_done s.2 (e_fs s'.1) b) /\
     forall i cfg, customFilterConfigs !! i = Some cfg -> filter_done s.2 (e_fs s'.1) a b i cfg).
Proof.
  intros Hpos Ha Hb E resume boundary. unfold cu_writeSealedFile, bind at 1 in E.
  destruct ((if Z.rem (i32 (b + 1)) headersPerFile =? 0 then writeFilterHeaderFiles baseDir headersPerFile b
             else ret tt) s) as [r1 s1] eqn:E1.
  assert (H1 : (forall p, (forall cfg, p <> cuHeaderFile baseDir cfg (b + 1 - headersPerFile) b) ->
      fs_files (e_fs s1.1) !! p = fs_files (e_fs s.1) !! p) /\ cu_filters s1.2 = cu_filters s.2 /\
    (r1 = Ok tt -> Z.rem (i32 (b + 1)) headersPerFile = 0 -> headers_done s.2 (e_fs s1.1) b)).
  { destruct (Z.eqb_spec (Z.rem (i32 (b + 1)) headersPerFile) 0).
    - apply header_files_spec in E1 as (A & B & D); [|lia..|done]. by split_and!; auto.
    - injection E1 as <- <-. done. }
  destruct H1 as (A1 & B1 & D1).
  assert (Hres : fs_files (e_fs s1.1) !! resume = fs_files (e_fs s.1) !! resume).
  { destruct (Z.eqb_spec (Z.rem (i32 (b + 1)) headersPerFile) 0) as [Hbd|].
    - apply (header_start headersPerFile Hpos) in Hbd as [_ Hr]; [|lia]. apply A1. intros cfg Eq. symmetry in Eq. revert Eq.
      apply header_not_filter; lia.
    - by injection E1 as _ <-. }
  destruct r1 as [[]|e]; [|injection E as <- <-; by split; [left|]].
  unfold bind, gets in E. apply filter_files_spec in E as (_ & A2 & B2 & D2); [|done..].
  assert (Hd : forall i cfg, filter_done s1.2 (e_fs s'.1) a b i cfg -> filter_done s.2 (e_fs s'.1) a b i cfg).
  { intros i cfg (out & E2 & E3). exists out. split; [|done]. revert E2.
    unfold cu_file, cu_filter_entry. by rewrite B1. }
  assert (Hh : boundary -> headers_done s.2 (e_fs s'.1) b).
  { intros Hbd. pose proof (D1 eq_refl Hbd) as Hdone.
    apply (header_start headersPerFile Hpos) in Hbd as [_ Hr]; [|lia].
    intros i cfg Hi. destruct (Hdone i cfg Hi) as (out & E2 & E3). exists out. split; [done|].
    rewrite A2; [done|]. intros cfg'. apply header_not_filter; lia. }
  split.
  - destruct B2 as [B2|B2]; [left; by rewrite <- Hres|right]. split; [done|]. intros i cfg H0 Hi. by apply Hd, B2.
  - intros Hr. split; [done|]. intros i cfg Hi. by apply Hd, D2.
Qed.
End Sealing.

(** *** Witnesses *)

(** A filter that is the list of its elements. *)
#[export] Instance toy_gcs : Gcs := {|
  Filter := list bytes;
  Build := fun _ l => Ok l;
  NBytes := fun l => Ok (concat l)
|}.

Definition cu_empty (fs : FS) : Env toy_world * customFilterFiles :=
  (mkEnv (toy_env 12) fs newH2HCache, mkCU (newBlockPrefetcher (mkFetcher false false)) ∅ ∅ ∅).

(** Two entries per filter file, four per header file, four blocks ingested. *)
Definition cu_example : Env toy_world * customFilterFiles :=
  (forM (range 0 3) (cu_ingest "/b" "" 2 4) (cu_empty (mkFS ∅ ∅ no_faults))).2.

Lemma cu_seal_resume_last_witness :
  headers_done "/b" 4 cu_example.2 (e_fs (cu_writeSealedFile "/b" 4 2 3 cu_example).2.1) 3.
Proof.
  assert (E : is_Ok (cu_writeSealedFile "/b" 4 2 3 cu_example).1 = true) by (vm_compute; reflexivity).
  destruct (cu_writeSealedFile "/b" 4 2 3 cu_example) as [r s'] eqn:Es. cbn [fst] in E.
  destruct r as [[]|]; [|discriminate E].
  destruct (cu_seal_resume_last "/b" 4 2 3 cu_example _ _ ltac:(lia) ltac:(lia) ltac:(lia) Es) as [_ H].
  destruct (H eq_refl) as [Hh _]. apply Hh. reflexivity.
Defined.

(** Filters of one byte, and the disk that holds them up to height 6. *)
Definition cu_F (i : nat) (j : Z) : bytes := [byte_of_Z (16 * Z.of_nat i + j)].
Definition cu_disk : FS :=
  mkFS (list_to_map (concat (map (fun ic =>
      (cuHeaderFile "/b" ic.2 0 3, concat (map (header_at cu_F ic.1) (range 0 3)))
      :: map (fun k => (cuFilterFile "/b" ic.2 (2 * k) (2 * k + 1),
                        filters_bytes (map (cu_F ic.1) (range (2 * k) (2 * k + 1))))) [0; 1; 2])
    indexedConfigs))) ∅ no_faults.

Lemma cu_disk_sealed : sealed_disk "/b" 2 4 cu_F cu_disk 6.
Proof.
  assert (Hi : forall i c, customFilterConfigs !! i = Some c -> (i, c) ∈ indexedConfigs) by (intros; by apply elem_of_imap_pair).
  split; intros i c k Hc Hk Hle; apply Hi in Hc; unfold indexedConfigs in Hc; cbn in Hc.
  - assert (k = 0 \/ k = 1 \/ k = 2) as [-> | [-> | ->]] by lia;
      repeat (apply elem_of_cons in Hc as [[= -> ->]|Hc]; [vm_compute; reflexivity|]);
      by apply elem_of_nil in Hc.
  - assert (k = 0) as -> by lia.
    repeat (apply elem_of_cons in Hc as [[= -> ->]|Hc]; [vm_compute; reflexivity|]).
    by apply elem_of_nil in Hc.
Qed.

