(* ===== verification/HttpServer.v ===== *)
(** * Answering requests

    The [http.ResponseWriter] of [net/http], [http.ServeContent] for requests
    without conditions, and the helpers of [handlers.go] that write an answer. *)

From Stdlib Require Import ZArith Lia.
From stdpp Require Import base numbers list strings gmap.
From S2P Require Import Prelude GoInt Bytes GoStr GoIO Iface Files.

Local Open Scope Z_scope.

(** ** The response

    [rw_sent] is the status and the header fields on the wire, [None] before
    [WriteHeader]. The body is a writer: its capacity is what the connection
    accepts, and after [WriteHeader] also what the announced [Content-Length]
    and the status allow. How much of the write that exceeds it still gets
    through differs from [net/http] and is not relied on. For a [HEAD] request
    [net/http] drops the body. *)
Abbreviation Header := (gmap str (list str)).

Record ResponseWriter := mkRW {
  rw_header : Header;
  rw_sent : option (Z * Header);
  rw_body : Writer
}.

Definition newResponse (cap : option nat) : ResponseWriter := mkRW ∅ None (new_writer cap).

(** [w.Header().Set], [Add] and [Get] *)
Definition hdr_set (k v : str) (h : Header) : Header := <[k := [v]]> h.
Definition hdr_add (k v : str) (h : Header) : Header := <[k := default [] (h !! k) ++ [v]]> h.
Definition hdr_get (k : str) (h : Header) : str :=
  match h !! k with Some (v :: _) => v | _ => "" end.

Definition onHeader (f : Header -> Header) : M ResponseWriter unit :=
  modify (fun w => mkRW (f (rw_header w)) (rw_sent w) (rw_body w)).

(** The length a header field announces, if it is a number. *)
Definition content_length (h : Header) : option nat :=
  match ParseInt 64 (hdr_get "Content-Length" h) with
  | Ok n => if n <? 0 then None else Some (Z.to_nat n)
  | Err _ => None
  end.

(** [bodyAllowedForStatus] *)
Definition bodyAllowed (status : Z) : bool :=
  negb (((100 <=? status) && (status <=? 199)) || (status =? 204) || (status =? 304)).

Definition cap_min (a b : option nat) : option nat :=
  match a, b with
  | Some x, Some y => Some (x `min` y)%nat
  | Some x, None => Some x
  | None, b => b
  end.

(** [w.WriteHeader(status)]: a second call is ignored. *)
Definition WriteHeader (status : Z) : M ResponseWriter unit :=
  modify (fun w =>
    match rw_sent w with
    | Some _ => w
    | None =>
        let limit := if bodyAllowed status then content_length (rw_header w) else Some O in
        mkRW (rw_header w) (Some (status, rw_header w))
          (mkWriter (w_buf (rw_body w)) (cap_min (w_cap (rw_body w)) limit))
    end).

(** The first write sends the header with status 200. *)
Definition http_write (m : M Writer unit) : M ResponseWriter unit :=
  WriteHeader 200 ;;;
  zoom rw_body (fun b w => mkRW (rw_header w) (rw_sent w) b) m.

Arguments http_write : simpl never.

(** ** Helpers of the handlers *)

(** Durations, in nanoseconds. *)
Definition Second : Z := 1000000000.
Definition maxAgeTemporary : Z := Second.
Definition maxAgeMemory : Z := 60 * Second.
Definition maxAgeDisk : Z := 3600 * Second * 24 * 365.

(** [int64(d.Seconds())] for a duration that is not negative. *)
Definition seconds (d : Z) : Z := Z.quot d Second.

Definition HeaderCache : str := "Cache-Control".
Definition HeaderCORS : str := "Access-Control-Allow-Origin".
Definition HeaderCORSMethods : str := "Access-Control-Allow-Methods".
Definition contentTypeBinary : str := "application/octet-stream".
Definition status400 : Z := 400.
Definition status500 : Z := 500.
Definition status503 : Z := 503.

(** [addCacheHeaders] *)
Definition cacheControl (maxAge : Z) : str :=
  if maxAge =? 0 then "no-cache"
  else if maxAgeDisk <=? maxAge
  then ("public, max-age=" ++ fmt_d (seconds maxAge) ++ ", stale-while-revalidate=86400")%string
  else ("public, max-age=" ++ fmt_d (seconds maxAge))%string.
Definition addCacheHeaders (maxAge : Z) : M ResponseWriter unit :=
  onHeader (hdr_set HeaderCache (cacheControl maxAge)).

(** [addCorsHeaders] *)
Definition addCorsHeaders : M ResponseWriter unit :=
  onHeader (hdr_add HeaderCORS "*") ;;; onHeader (hdr_add HeaderCORSMethods "GET, POST, OPTIONS").

(** The text of an error. The arguments that were formatted into it are not
    part of the model's errors, so it is a parameter. *)
Class ErrorText := err_Error : error -> bytes.

(** The bytes of a string. *)
Definition string_bytes (s : str) : bytes :=
  map (fun a => byte_of_Z (Z.of_nat (Ascii.nat_of_ascii a))) (String.list_ascii_of_string s).

Section Answers.
Context `{!ErrorText}.

(** The answers log a failed write and return: an error of the body stays
    here. *)
Definition logged (m : M ResponseWriter unit) : M ResponseWriter unit :=
  let! _ := catch m in ret tt.

(** [sendError] *)
Definition errorCache (status : Z) : Z :=
  if (400 <=? status) && (status <? 500) then maxAgeMemory else 0.
Definition sendError (status : Z) (err : error) : M ResponseWriter unit :=
  addCacheHeaders (errorCache status) ;;;
  addCorsHeaders ;;;
  WriteHeader status ;;;
  logged (http_write (w_Write (err_Error err))).

(** [sendRawBytes] *)
Definition sendRawBytes (payload : bytes) (maxAge : Z) : M ResponseWriter unit :=
  addCacheHeaders maxAge ;;;
  addCorsHeaders ;;;
  onHeader (hdr_set "Content-Length" (fmt_d (Z.of_nat (length payload)))) ;;;
  WriteHeader 200 ;;;
  logged (http_write (w_Write payload)).

(** [sendBinary], with what [Serialize] writes. *)
Definition sendBinary (v : bytes) (maxAge : Z) : M ResponseWriter unit :=
  addCacheHeaders maxAge ;;;
  addCorsHeaders ;;;
  WriteHeader 200 ;;;
  logged (http_write (w_Write v)).

(** [sendJSON], with the encoding of the value, which [Encode] ends with a
    line feed. *)
Definition sendJSON (v : str) (maxAge : Z) : M ResponseWriter unit :=
  addCacheHeaders maxAge ;;;
  addCorsHeaders ;;;
  onHeader (hdr_set "Content-Type" "application/json") ;;;
  WriteHeader 200 ;;;
  logged (http_write (w_Write (string_bytes v ++ [byte_of_Z 10]))).

(** [sendJsonCopy], with what reading the body gives. *)
Definition sendJsonCopy (body : result bytes) (maxAge : Z) : M ResponseWriter unit :=
  addCacheHeaders maxAge ;;;
  addCorsHeaders ;;;
  onHeader (hdr_set "Content-Type" "application/json") ;;;
  WriteHeader 200 ;;;
  logged (let! bs := liftR body in http_write (w_Write bs)).

(** [streamFile] *)
Definition streamFile (fs : FS) (fileName : str) : M ResponseWriter unit :=
  let! r := liftR (readable fs fileName) in
  http_write (w_Write r.1) ;;;
  if r.2 : bool then ret tt else fail (External "read").

(** ** Files

    The [Range] field of a request: absent, or one range [first-last],
    [first-] or [-suffix]. Requests with several ranges or with conditions are
    not modelled, and neither is the [Last-Modified] field. *)
Inductive RangeReq :=
  | NoRange
  | FromTo (first last : Z)
  | From (first : Z)
  | Suffix (n : Z).

(** What [parseRange] finds: everything, the start and the length of a part, or
    one of its two errors. *)
Inductive parsedRange := Whole | Part (start len : Z) | NoOverlap | InvalidRange.

Definition parseRange (r : RangeReq) (size : Z) : parsedRange :=
  match r with
  | NoRange => Whole
  | FromTo first last =>
      if size <=? first then NoOverlap
      else if last <? first then InvalidRange
      else Part first (Z.min last (size - 1) - first + 1)
  | From first => if size <=? first then NoOverlap else Part first (size - first)
  | Suffix n => Part (size - Z.min n size) (Z.min n size)
  end.

(** [httpRange.contentRange] *)
Definition contentRange (start len size : Z) : str :=
  ("bytes " ++ fmt_d start ++ "-" ++ fmt_d (start + len - 1) ++ "/" ++ fmt_d size)%string.

(** [serveError] of [net/http]: an answer with the text of the error. *)
Definition serveError (status : Z) (text : str) : M ResponseWriter unit :=
  onHeader (fun h => hdr_set "Content-Type" "text/plain; charset=utf-8"
    (hdr_set "X-Content-Type-Options" "nosniff"
      (delete "Cache-Control" (delete "Content-Encoding" (delete "Etag" (delete "Last-Modified"
        (delete "Content-Length" h))))))) ;;;
  WriteHeader status ;;;
  logged (http_write (w_Write (string_bytes text ++ [byte_of_Z 10]))).

(** [http.ServeContent] on an open file: [data] are the bytes a reader gets
    before the end of the file or an error, [size] is the length of the file. *)
Definition ServeContent (r : RangeReq) (data : bytes) (size : Z) : M ResponseWriter unit :=
  let whole :=
    onHeader (hdr_set "Accept-Ranges" "bytes") ;;;
    onHeader (hdr_set "Content-Length" (fmt_d size)) ;;;
    WriteHeader 200 ;;;
    logged (http_write (w_Write data)) in
  match parseRange r size with
  | Whole => whole
  | NoOverlap =>
      if size =? 0 then whole
      else
        onHeader (hdr_set "Content-Range" ("bytes */" ++ fmt_d size)%string) ;;;
        serveError 416 "invalid range: failed to overlap"
  | InvalidRange => serveError 416 "invalid range"
  | Part start len =>
      onHeader (hdr_set "Content-Range" (contentRange start len size)) ;;;
      onHeader (hdr_set "Accept-Ranges" "bytes") ;;;
      onHeader (hdr_set "Content-Length" (fmt_d len)) ;;;
      WriteHeader 206 ;;;
      logged (http_write (w_Write (take (Z.to_nat len) (drop (Z.to_nat start) data))))
  end.

(** [serveFile]; [Stat] of an open file does not fail. *)
Definition serveFile (fs : FS) (r : RangeReq) (fileName : str) : M ResponseWriter unit :=
  match readable fs fileName with
  | Err _ => sendError status500 (Errorf "error reading file")
  | Ok (data, _) =>
      let size := Z.of_nat (length (default [] (fs_files fs !! fileName))) in
      onHeader (hdr_set "Content-Type" contentTypeBinary) ;;;
      ServeContent r data size
  end.
End Answers.
