(* ===== verification/HttpLaws.v ===== *)
(** * What the answers contain

    Status lines, announced lengths and bodies of the responses of
    [HttpServer]. *)

From Stdlib Require Import ZArith Lia.
From stdpp Require Import base numbers list strings gmap.
From S2P Require Import Prelude GoInt Bytes GoStr GoIO Iface Files HttpServer.

Local Open Scope Z_scope.

(** ** Sending a response *)

Section Sends.
Context `{Et : !ErrorText}.

(** [m] never fails and leaves a status line on the wire. *)
Definition sends (m : M ResponseWriter unit) : Prop :=
  forall w, exists w', m w = (Ok tt, w') /\ is_Some (rw_sent w').

(** [m] never fails and keeps what was sent. *)
Definition quiet (m : M ResponseWriter unit) : Prop :=
  forall w, exists w', m w = (Ok tt, w') /\ (is_Some (rw_sent w) -> rw_sent w' = rw_sent w).

Lemma onHeader_quiet f : quiet (onHeader f).
Proof. intros w. eexists. split; [reflexivity|intros _; reflexivity]. Qed.
Lemma WriteHeader_quiet status : quiet (WriteHeader status).
Proof. intros w. eexists. split; [reflexivity|]. by destruct (rw_sent w) eqn:E; [|intros []]. Qed.
Lemma quiet_bind m1 m2 : quiet m1 -> quiet m2 -> quiet (m1 ;;; m2).
Proof.
  intros H1 H2 w. destruct (H1 w) as (w1 & E1 & K1), (H2 w1) as (w2 & E2 & K2).
  exists w2. rewrite (bind_Ok _ _ _ _ _ E1). split; [done|]. intros Hs. rewrite K2, K1; done || by rewrite K1.
Qed.
Lemma http_write_sent m w : is_Some (rw_sent (http_write m w).2) /\
  (is_Some (rw_sent w) -> rw_sent (http_write m w).2 = rw_sent w).
Proof.
  unfold http_write, bind, WriteHeader, modify, zoom. cbn.
  destruct (rw_sent w) eqn:E; destruct (m _); cbn; split; try done; try congruence; by intros [? ?].
Qed.
Lemma logged_write_quiet m : quiet (logged (http_write m)).
Proof.
  intros w. exists (http_write m w).2. unfold logged, bind, catch.
  destruct (http_write m w) as [r w1] eqn:E. cbn. split; [done|].
  pose proof (http_write_sent m w) as [_ K]. by rewrite E in K.
Qed.
Lemma quiet_ret : quiet (ret tt).
Proof. intros w. eexists. split; [reflexivity|intros _; reflexivity]. Qed.

Lemma sends_after m1 m2 : quiet m1 -> sends m2 -> sends (m1 ;;; m2).
Proof.
  intros H1 H2 w. destruct (H1 w) as (w1 & E1 & _). rewrite (bind_Ok _ _ _ _ _ E1). apply H2.
Qed.
Lemma sends_WriteHeader status : sends (WriteHeader status).
Proof. intros w. eexists. split; [reflexivity|]. destruct (rw_sent w) eqn:E; [by rewrite E|done]. Qed.
Lemma sends_before m1 m2 : sends m1 -> quiet m2 -> sends (m1 ;;; m2).
Proof.
  intros H1 H2 w. destruct (H1 w) as (w1 & E1 & K1), (H2 w1) as (w2 & E2 & K2).
  exists w2. rewrite (bind_Ok _ _ _ _ _ E1). split; [done|]. by rewrite K2.
Qed.
End Sends.

Create HintDb http discriminated.
#[export] Hint Resolve onHeader_quiet WriteHeader_quiet quiet_bind logged_write_quiet quiet_ret sends_WriteHeader : http.
#[export] Hint Extern 5 (sends (_ ;;; _)) => first [apply sends_before; [solve [auto with http]|] | apply sends_after; [solve [auto with http]|]] : http.

Section Answers.
Context `{Et : !ErrorText}.

Lemma addCacheHeaders_quiet maxAge : quiet (addCacheHeaders maxAge).
Proof. apply onHeader_quiet. Qed.
Lemma addCorsHeaders_quiet : quiet addCorsHeaders.
Proof. unfold addCorsHeaders. auto with http. Qed.
Hint Resolve addCacheHeaders_quiet addCorsHeaders_quiet : http.

Lemma sends_sendError status err : sends (sendError status err).
Proof. unfold sendError. auto 10 with http. Qed.
Lemma sends_sendRawBytes payload maxAge : sends (sendRawBytes payload maxAge).
Proof. unfold sendRawBytes. auto 10 with http. Qed.
Lemma sends_sendBinary v maxAge : sends (sendBinary v maxAge).
Proof. unfold sendBinary. auto 10 with http. Qed.
Lemma sends_sendJSON v maxAge : sends (sendJSON v maxAge).
Proof. unfold sendJSON. auto 10 with http. Qed.

Lemma sends_sendJsonCopy body maxAge : sends (sendJsonCopy body maxAge).
Proof.
  unfold sendJsonCopy. destruct body as [bs|e].
  - change (logged (let! bs := liftR (Ok bs) in http_write (w_Write bs))) with (logged (http_write (w_Write bs))).
    auto 10 with http.
  - change (logged (let! bs := liftR (Err e) in http_write (w_Write bs))) with (ret (S := ResponseWriter) tt).
    auto 10 with http.
Qed.

Lemma sends_serveError status text : sends (serveError status text).
Proof. unfold serveError. auto 10 with http. Qed.
Hint Resolve sends_sendError sends_serveError : http.

Lemma sends_ServeContent r data size : sends (ServeContent r data size).
Proof.
  unfold ServeContent. destruct (parseRange r size); [auto 10 with http..| |auto with http].
  destruct (size =? 0); auto 10 with http.
Qed.
Lemma sends_serveFile fs r fileName : sends (serveFile fs r fileName).
Proof.
  unfold serveFile. destruct (readable fs fileName) as [[data eof]|]; [|auto with http].
  apply sends_after; [auto with http|apply sends_ServeContent].
Qed.
End Answers.
#[export] Hint Resolve addCacheHeaders_quiet addCorsHeaders_quiet sends_sendError sends_sendRawBytes sends_sendBinary
  sends_sendJSON sends_sendJsonCopy sends_serveFile : http.

(** ** Header fields *)

Lemma hdr_get_set k v h : hdr_get k (hdr_set k v h) = v.
Proof. unfold hdr_get, hdr_set. by rewrite lookup_insert_eq. Qed.
Lemma hdr_get_set_ne k k' v h : k' <> k -> hdr_get k (hdr_set k' v h) = hdr_get k h.
Proof. intros. unfold hdr_get, hdr_set. by rewrite lookup_insert_ne. Qed.
Lemma hdr_get_add_ne k k' v h : k' <> k -> hdr_get k (hdr_add k' v h) = hdr_get k h.
Proof. intros. unfold hdr_get, hdr_add. by rewrite lookup_insert_ne. Qed.
Lemma hdr_get_empty k : hdr_get k ∅ = "".
Proof. done. Qed.

(** [hdr]: read a field of a header built by the handlers. *)
Ltac hdr := repeat first [rewrite hdr_get_set | rewrite hdr_get_set_ne by done | rewrite hdr_get_add_ne by done | rewrite hdr_get_empty].

Lemma content_length_set n h :
  0 <= n <= max_int64 -> content_length (hdr_set "Content-Length" (fmt_d n) h) = Some (Z.to_nat n).
Proof.
  unfold max_int64. intros Hn. unfold content_length. rewrite hdr_get_set, ParseInt_fmt_d by lia.
  by rewrite (proj2 (Z.ltb_ge _ _)) by lia.
Qed.

Lemma content_length_none h : hdr_get "Content-Length" h = "" -> content_length h = None.
Proof. unfold content_length. by intros ->. Qed.

(** ** Bodies *)

(** A write after the header. *)
Lemma http_write_run m w x :
  rw_sent w = Some x ->
  http_write m w = let '(r, b) := m (rw_body w) in (r, mkRW (rw_header w) (rw_sent w) b).
Proof. intros E. unfold http_write, bind, WriteHeader, modify, zoom. cbn. rewrite E. cbn. by rewrite E. Qed.

Lemma logged_write_run m w x :
  rw_sent w = Some x ->
  logged (http_write m) w = (Ok tt, mkRW (rw_header w) (rw_sent w) (m (rw_body w)).2).
Proof.
  intros E. unfold logged, bind, catch. rewrite (http_write_run _ _ _ E). by destruct (m (rw_body w)).
Qed.

(** The header with its status. *)
Definition started (w : ResponseWriter) (status : Z) : ResponseWriter :=
  mkRW (rw_header w) (Some (status, rw_header w))
    (mkWriter (w_buf (rw_body w))
       (cap_min (w_cap (rw_body w))
          (if bodyAllowed status then content_length (rw_header w) else Some O))).

Lemma WriteHeader_run status w : rw_sent w = None -> WriteHeader status w = (Ok tt, started w status).
Proof. intros E. unfold WriteHeader, modify, started. by rewrite E. Qed.

(** What fits of a write. *)
Definition fits (cap : option nat) (bs : bytes) : bytes :=
  match cap with None => bs | Some n => take n bs end.

Lemma w_Write_empty bs cap : w_buf (w_Write bs (mkWriter [] cap)).2 = fits cap bs.
Proof.
  unfold w_Write, room, fits. cbn. destruct cap as [n|]; [|done].
  case_bool_decide; cbn; [by rewrite take_ge by lia|by rewrite Nat.sub_0_r].
Qed.

(** ** Errors *)

Section Errors.
Context `{Et : !ErrorText}.

Definition errorHeader (status : Z) (h : Header) : Header :=
  hdr_add HeaderCORSMethods "GET, POST, OPTIONS"
    (hdr_add HeaderCORS "*" (hdr_set HeaderCache (cacheControl (errorCache status)) h)).

Lemma sendError_run status err w :
  rw_sent w = None ->
  sendError status err w
  = (Ok tt, let w1 := started (mkRW (errorHeader status (rw_header w)) None (rw_body w)) status in
            mkRW (rw_header w1) (rw_sent w1) (w_Write (err_Error err) (rw_body w1)).2).
Proof.
  intros E. unfold sendError, addCacheHeaders, addCorsHeaders, onHeader, modify, bind.
  rewrite E. cbv beta iota. rewrite WriteHeader_run by done. cbv beta iota. by erewrite logged_write_run.
Qed.

(** After the header is sent an error is only more body. *)
Lemma sendError_late status err w x :
  rw_sent w = Some x ->
  sendError status err w
  = (Ok tt, mkRW (errorHeader status (rw_header w)) (Some x) (w_Write (err_Error err) (rw_body w)).2).
Proof.
  intros E. unfold sendError, addCacheHeaders, addCorsHeaders, onHeader, modify, bind.
  rewrite E. cbv beta iota. unfold WriteHeader, modify. cbn [rw_sent]. by erewrite logged_write_run.
Qed.

Lemma sendError_status status err w :
  rw_sent w = None -> exists h, rw_sent (sendError status err w).2 = Some (status, h).
Proof. intros E. rewrite sendError_run by done. by eexists. Qed.
End Errors.

(** ** Files *)

Section Files.
Context `{Et : !ErrorText}.

(** An answer with the header [hdr] of what fits of [bs] on a connection that
    accepts [cap] bytes. *)
Definition answer_is (w : ResponseWriter) (status : Z) (hdr : Header) (cap : option nat) (bs : bytes) : Prop :=
  rw_sent w = Some (status, hdr) /\ w_buf (rw_body w) = fits cap bs /\ content_length hdr = Some (length bs).

Lemma fits_exact cap bs : fits (cap_min cap (Some (length bs))) bs = fits cap bs.
Proof.
  destruct cap as [n|]; cbn; [|by rewrite take_ge by lia].
  destruct (decide (n <= length bs)%nat); [by rewrite Nat.min_l|].
  rewrite Nat.min_r by lia. by rewrite !take_ge by lia.
Qed.

(** The end of [ServeContent]: the length, the status, the bytes. *)
Lemma send_bytes status n bs w cap :
  rw_sent w = None -> rw_body w = new_writer cap -> bodyAllowed status = true ->
  n = Z.of_nat (length bs) -> n <= max_int64 ->
  exists w', (onHeader (hdr_set "Content-Length" (fmt_d n)) ;;; WriteHeader status ;;;
              logged (http_write (w_Write bs))) w = (Ok tt, w') /\
    answer_is w' status (hdr_set "Content-Length" (fmt_d n) (rw_header w)) cap bs.
Proof.
  intros Hs Hb Ha -> Hmax. unfold bind, onHeader, modify.
  rewrite WriteHeader_run by done. cbv beta iota. erewrite logged_write_run by done.
  eexists. split; [done|]. unfold started. cbn [rw_sent rw_body rw_header]. rewrite Ha, Hb.
  split; [done|]. rewrite content_length_set by lia. rewrite Nat2Z.id. split; [|done].
  rewrite <- fits_exact. apply w_Write_empty.
Qed.

(** A sealed file is served whole, or the part that was asked for. *)
Lemma serveFile_run fs r p bs w cap :
  fs_files fs !! p = Some bs -> fs_faults fs = no_faults -> Z.of_nat (length bs) <= max_int64 ->
  rw_sent w = None -> rw_body w = new_writer cap ->
  exists w', serveFile fs r p w = (Ok tt, w') /\
    match parseRange r (Z.of_nat (length bs)) with
    | Whole => exists hdr, answer_is w' 200 hdr cap bs /\ hdr_get HeaderCache hdr = hdr_get HeaderCache (rw_header w)
    | Part start len =>
        0 <= start -> 0 <= len -> start + len <= Z.of_nat (length bs) ->
        exists hdr, answer_is w' 206 hdr cap (take (Z.to_nat len) (drop (Z.to_nat start) bs)) /\
          hdr_get HeaderCache hdr = hdr_get HeaderCache (rw_header w) /\
          hdr_get "Content-Range" hdr = contentRange start len (Z.of_nat (length bs))
    | _ => True
    end.
Proof.
  intros Hf Hno Hmax Hs Hb. destruct (sends_serveFile fs r p w) as (w' & E & _). exists w'. split; [exact E|].
  unfold serveFile, readable in E. rewrite Hf, Hno in E. cbn [fault_open fault_read no_faults] in E.
  unfold default in E. cbn [from_option] in E.
  set (w1 := mkRW (hdr_set "Content-Type" contentTypeBinary (rw_header w)) None (rw_body w)).
  change (ServeContent r bs (Z.of_nat (length bs)) (mkRW (hdr_set "Content-Type" contentTypeBinary (rw_header w))
    (rw_sent w) (rw_body w)) = (Ok tt, w')) in E.
  rewrite Hs in E. fold w1 in E. unfold ServeContent in E.
  destruct (parseRange _ _) as [|start len| |]; [|intros H1 H2 H3|done|done].
  - set (w2 := mkRW (hdr_set "Accept-Ranges" "bytes" (rw_header w1)) None (rw_body w)).
    destruct (send_bytes 200 (Z.of_nat (length bs)) bs w2 cap) as (w'' & E' & Ha); [done..|].
    assert (Eq : (Ok tt, w'') = (Ok tt, w')) by (rewrite <- E'; exact E). injection Eq as ->.
    eexists. split; [exact Ha|]. unfold w2, w1. cbn [rw_header]. by hdr.
  - set (w2 := mkRW (hdr_set "Accept-Ranges" "bytes"
      (hdr_set "Content-Range" (contentRange start len (Z.of_nat (length bs))) (rw_header w1))) None (rw_body w)).
    destruct (send_bytes 206 len (take (Z.to_nat len) (drop (Z.to_nat start) bs)) w2 cap) as (w'' & E' & Ha); [done..| |lia|].
    { rewrite length_take, length_drop. lia. }
    assert (Eq : (Ok tt, w'') = (Ok tt, w')) by (rewrite <- E'; exact E). injection Eq as ->.
    eexists. split; [exact Ha|]. unfold w2, w1. cbn [rw_header]. split; by hdr.
Qed.
End Files.
