(* ===== verification/Handlers.v ===== *)
(** * The request handlers

    [handlers.go]. A handler runs concurrently with the producers and the other
    requests: before every access to something they share, the function [tick]
    makes an arbitrary step of theirs. *)

From Stdlib Require Import ZArith Lia SpecFloat.
From stdpp Require Import base numbers list strings gmap.
From S2P Require Import Prelude GoInt Bytes GoStr GoIO Iface Backend Files H2H Producer HeaderFiles CFilterFiles PrevOuts SPTweaks CustomFilters HttpServer.

Local Open Scope Z_scope.

(** ** Errors *)

Definition errUnavailableInLightMode : error := Sentinel "endpoint not available in light mode".
Definition errUnavailableSPTweakDataTurnedOff : error := Sentinel "SP tweak data indexing is turned off".
Definition errUnavailableCustomFiltersTurnedOff : error := Sentinel "custom filter indexing is turned off".
Definition errStillStartingUp : error := Sentinel "server still starting up, please try again later".
Definition errInvalidSyncStatus : error := Sentinel "invalid sync status".
Definition errInvalidHashLength : error := Sentinel "invalid hash length".
Definition errFeeEsimatesUnavailable : error := Sentinel "fee rate estimates unavailable".

(** A request that waits for a lock for ever. *)
Definition go_deadlock : error := Sentinel "blocked for ever".

(** ** Requests

    The variables of the route, the query, and the [Range] field. *)
Record Request := mkRequest {
  rq_vars : gmap str str;
  rq_query : gmap str str;
  rq_Range : RangeReq
}.

(** [parseRequestParamInt64] *)
Definition parseRequestParamInt64 (r : Request) (name : str) : result Z :=
  let paramStr := default "" (rq_vars r !! name) in
  if bool_decide (String.length paramStr = 0%nat) then Err (Errorf "invalid value for parameter %s")
  else match ParseInt 64 paramStr with
       | Ok paramValue => Ok paramValue
       | Err _ => Err (Errorf "invalid value for parameter %s")
       end.

(** [parseRequestParamChainHash] *)
Definition parseRequestParamChainHash `{Wire} (r : Request) (name : str) : result Hash :=
  let blockHash := default "" (rq_vars r !! name) in
  if negb (bool_decide (Z.of_nat (String.length blockHash) = HashSize * 2)) then Err errInvalidHashLength
  else NewHashFromStr blockHash.

(** [r.URL.Query().Get] *)
Definition query_Get (r : Request) (name : str) : str := default "" (rq_query r !! name).

(** ** The rest of the backend

    Blocks and transactions as their serialization; a merkle proof with the
    hash of its header and its encoding; the height of a verbose header; fee
    rates in BTC per kilo virtual byte, and their conversions in [chainfee]. *)
Record FeeResult := mkFeeResult { fe_Errors : list str; fe_FeeRate : option spec_float }.

Class Node (W : Type) := {
  GetBlock : Hash -> M W bytes;
  GetRawTransaction : Hash -> M W bytes;
  MerkleBlock : Type;
  GetTxOutProof : list str -> M W MerkleBlock;
  merkle_BlockHash : MerkleBlock -> Hash;
  merkle_BtcEncode : MerkleBlock -> result bytes;
  GetBlockHeaderVerbose : Hash -> M W Z;
  EstimateSmartFee : Z -> M W FeeResult;
  FeePerKWeight : Z -> Z;
  FeePerVByte : Z -> Z
}.

(** ** JSON answers *)

(** [Status] and [FeeRate] *)
Record Status := mkStatus {
  Version : str; Commit : str; ChainGenesisHash : str; ChainName : str;
  BestBlockHeight : Z; BestBlockHash : str; BestFilterHeader : str; BestFilterHeight : Z;
  BestSPTweakHeight : Z; CustomFiltersAvailable : bool; BestCustomFilterHeight : Z;
  AllFilesSynced : bool; EntriesPerHeaderFile : Z; EntriesPerFilterFile : Z; EntriesPerSPTweakFile : Z
}.
Record FeeRate := mkFeeRate { FeeSatPerKVByte : Z; FeeSatPerKWeight : Z; FeeSatPerVByte : Z }.

(** Objects of the values already encoded. *)
Definition json_field (f : str * str) : str := (json_string f.1 ++ ":" ++ f.2)%string.
Fixpoint json_fields (l : list (str * str)) : str :=
  match l with
  | [] => ""
  | [f] => json_field f
  | f :: l' => (json_field f ++ "," ++ json_fields l')%string
  end.
Definition json_object (l : list (str * str)) : str := ("{" ++ json_fields l ++ "}")%string.
Definition json_bool (b : bool) : str := if b then "true" else "false".

Definition json_Status (s : Status) : str :=
  json_object
    [ ("version", json_string (Version s)); ("commit", json_string (Commit s));
      ("chain_genesis_hash", json_string (ChainGenesisHash s)); ("chain_name", json_string (ChainName s));
      ("best_block_height", fmt_d (BestBlockHeight s)); ("best_block_hash", json_string (BestBlockHash s));
      ("best_filter_header", json_string (BestFilterHeader s));
      ("best_filter_height", fmt_d (BestFilterHeight s));
      ("best_sptweak_height", fmt_d (BestSPTweakHeight s));
      ("custom_filters_available", json_bool (CustomFiltersAvailable s));
      ("best_custom_filter_height", fmt_d (BestCustomFilterHeight s));
      ("all_files_synced", json_bool (AllFilesSynced s));
      ("entries_per_header_file", fmt_d (EntriesPerHeaderFile s));
      ("entries_per_filter_file", fmt_d (EntriesPerFilterFile s));
      ("entries_per_sptweak_file", fmt_d (EntriesPerSPTweakFile s)) ].
Definition json_FeeRate (r : FeeRate) : str :=
  json_object
    [ ("fee_sat_per_kvbyte", fmt_d (FeeSatPerKVByte r)); ("fee_sat_per_kweight", fmt_d (FeeSatPerKWeight r));
      ("fee_sat_per_vbyte", fmt_d (FeeSatPerVByte r)) ].

(** ** Float arithmetic of the fee rates *)

(** [btcutil.SatoshiPerBitcoin], a float constant: 100000000. *)
Definition SatoshiPerBitcoin : spec_float := S754_finite false 6710886400000000 (-26).

(** [int64(f)]: towards zero. For a value outside of the type Go leaves the
    result to the implementation; the model has the one of amd64. *)
Definition float_to_int64 (f : spec_float) : Z :=
  let min := - 9223372036854775808 in
  match f with
  | S754_zero _ => 0
  | S754_finite s m e =>
      let n := Z.shiftl (Zpos m) e in
      if n <=? max_int64 then (if s then - n else n) else min
  | _ => min
  end.

(** The conversion of [estimateFeeRequestHandler]. *)
Definition feeKVB (rate : spec_float) : Z := float_to_int64 (SFmul 53 1024 rate SatoshiPerBitcoin).

(** ** The server *)

(** [blockProcessor] *)
Record blockProcessor := mkProcessor {
  isStartupComplete : bool;
  getCurrentHeight : Z;
  getLastSealedHeight : Z
}.
Definition processor_of {D} (p : producerView D) : blockProcessor :=
  mkProcessor (pv_startup p) (pv_current p) (pv_sealed p).

Section Handlers.
Context `{Wi : Wire} `{T : !Tx} `{J : !Json} {W : Type} `{C : !Chain W} `{Hn : !Http W} `{R : !Rpc W} `{Sc : !Scheduler W}.
Context `{N : !Node W} `{Et : !ErrorText}.

(** The constants of a [server]. *)
Record serverCfg := mkServerCfg {
  lightMode : bool;
  sv_baseDir : str;
  headersPerFile : Z;
  filtersPerFile : Z;
  spTweaksPerFile : Z;
  sv_reOrgSafeDepth : Z;
  Net : Z;
  GenesisHash : str;
  NetName : str;
  version : str;
  commit : str;
  indexHTML : bytes;
  rest_url : str
}.

(** The shared state: the environment, whether a goroutine waits for the write
    lock of the cache, and the producers, two of which may be turned off. *)
Record server := mkServer {
  sv_env : Env W;
  sv_writerWaiting : bool;
  headerFiles_ : producerView headerFiles;
  cFilterFiles_ : producerView cFilterFiles;
  spTweakFiles_ : option (producerView spTweakFiles);
  customFilterFiles_ : option (producerView customFilterFiles)
}.

Context (c : serverCfg) (tick : server -> server).

Abbreviation H := (M (server * ResponseWriter)).

Definition reply {A} (m : M ResponseWriter A) : H A := zoom snd (fun w s => (s.1, w)) m.
Definition background : H unit := modify (fun s => (tick s.1, s.2)).
(** Read the shared state, and call the backend. *)
Definition read {A} (f : server -> A) : H A := background ;;; gets (fun s => f s.1).
Definition set_sv_env (e : Env W) (s : server) : server :=
  mkServer e (sv_writerWaiting s) (headerFiles_ s) (cFilterFiles_ s) (spTweakFiles_ s) (customFilterFiles_ s).
Definition onShared {A} (m : M (Env W) A) : H A :=
  background ;;; zoom (fun s => sv_env s.1) (fun e s => (set_sv_env e s.1, s.2)) m.
Definition call {A} (m : M W A) : H (result A) := catch (onShared (onWorld m)).
Definition the_fs (s : server) : FS := e_fs (sv_env s).

(** [getBlockHash] while the request holds the read lock of the cache: it
    blocks for ever when a writer waits, and when it has to store the answer of
    the backend itself ([H2HLock]). *)
Definition getBlockHash_locked (h : Z) : H (result Hash) :=
  let! waiting := read sv_writerWaiting in
  if waiting then fail go_deadlock
  else
    let! cached := read (fun s => heightToHash (e_h2h (sv_env s)) !! h) in
    match cached with
    | Some hash => ret (Ok hash)
    | None =>
        let! r := call (GetBlockHash h) in
        match r with
        | Ok _ => fail go_deadlock
        | Err e => ret (Err (Wrapf "error fetching block hash for height %d from backend: %w" e))
        end
    end.

(** *** Heights *)

(** [checkStartHeight], [checkEndHeight] *)
Definition checkStartHeight (processor : server -> blockProcessor) (height entriesPerFile : Z) : H (result unit) :=
  let! current := read (fun s => getCurrentHeight (processor s)) in
  ret (if current <? i32 height then Err (Errorf "start height %d is greater than current height %d")
       else if negb (height =? 0) && negb (Z.rem height entriesPerFile =? 0)
       then Err (Errorf "invalid start height %d, must be zero or a multiple of %d")
       else Ok tt).
Definition checkEndHeight (processor : server -> blockProcessor) (height entriesPerFile : Z) : H (result unit) :=
  let! current := read (fun s => getCurrentHeight (processor s)) in
  ret (if i32 (current + 1) <? i32 height then Err (Errorf "end height %d is greater than current height %d")
       else if height =? 0 then Err (Errorf "invalid end height %d, must be a multiple of %d")
       else Ok tt).

(** *** The files from a height on *)

(** Announce the size of the answer where it is known. *)
Definition announce (sizeCb : option (server -> Z -> Z -> option Z)) (start endHeight : Z) : H unit :=
  match sizeCb with
  | None => ret tt
  | Some sizeCb =>
      let! size := read (fun s => sizeCb s start endHeight) in
      match size with
      | Some size => reply (onHeader (hdr_set "Content-Length" (fmt_d size)))
      | None => ret tt
      end
  end.

(** The memory path of [heightBasedRequestHandler]. *)
Definition serveMemory (startHeight : Z) (serializeCb : server -> Z -> Z -> M Writer unit)
    (sizeCb : option (server -> Z -> Z -> option Z)) (processor : server -> blockProcessor) : H unit :=
  let! hash := getBlockHash_locked (i32 startHeight) in
  match hash with
  | Err _ => reply (sendError status400 (Errorf "invalid height"))
  | Ok _ =>
      let! endHeight := read (fun s => getCurrentHeight (processor s)) in
      reply (addCorsHeaders ;;; addCacheHeaders maxAgeMemory ;;;
             onHeader (hdr_set "Content-Type" contentTypeBinary)) ;;;
      announce sizeCb (i32 startHeight) endHeight ;;;
      reply (WriteHeader 200) ;;;
      let! serialize := read (fun s => serializeCb s (i32 startHeight) endHeight) in
      reply (logged (http_write serialize))
  end.

(** [heightBasedRequestHandler] *)
Definition heightBasedRequestHandler (r : Request) (subDir fileSuffix : str) (entriesPerFile : Z)
    (serializeCb : server -> Z -> Z -> M Writer unit) (sizeCb : option (server -> Z -> Z -> option Z))
    (processor : server -> blockProcessor) : H unit :=
  if lightMode c then reply (sendError status503 errUnavailableInLightMode)
  else
    let! started := read (fun s => isStartupComplete (processor s)) in
    if negb started then reply (sendError status503 errStillStartingUp)
    else
      match parseRequestParamInt64 r "height" with
      | Err err => reply (sendError status400 err)
      | Ok startHeight =>
          let! check := checkStartHeight processor startHeight (i32 entriesPerFile) in
          match check with
          | Err err => reply (sendError status400 err)
          | Ok _ =>
              let fileName := block_file fileSuffix (filepath_Join (sv_baseDir c) subDir)
                                startHeight (i64 (startHeight + entriesPerFile - 1)) in
              let! fs := read the_fs in
              if fileExists fs fileName then
                reply (addCorsHeaders ;;; addCacheHeaders maxAgeDisk) ;;;
                let! fs := read the_fs in
                reply (serveFile fs (rq_Range r) fileName)
              else serveMemory startHeight serializeCb sizeCb processor
          end
      end.

(** *** Import files *)

Definition headerImportVersion : Z := 0.
Definition typeBlockHeader : Z := 0.
Definition typeFilterHeader : Z := 1.

(** The metadata, starting at height zero. *)
Definition importMetadata (fileType : Z) : bytes :=
  put_le 4 (u32 (Net c)) ++ [byte_of_Z headerImportVersion; byte_of_Z fileType] ++ put_le 4 0.

(** [checkImportPreconditions] *)
Definition checkImportPreconditions : H bool :=
  if lightMode c then reply (sendError status503 errUnavailableInLightMode) ;;; ret false
  else
    let! started := read (fun s => pv_startup (headerFiles_ s)) in
    if negb started then reply (sendError status503 errStillStartingUp) ;;; ret false
    else ret true.

(** The loop of [serveHeightBasedImport] over the files: [None] when the
    request is finished, and the height it stopped at otherwise. *)
Fixpoint importLoop (fuel : nat) (dir fileSuffix : str) (entriesPerFile endHeight lastHeight : Z) : H (option Z) :=
  match fuel with
  | O => fail OutOfFuel
  | Datatypes.S fuel' =>
      if endHeight <? lastHeight then ret (Some lastHeight)
      else if lastHeight =? endHeight then ret None
      else
        let fileName := block_file fileSuffix dir lastHeight (i64 (lastHeight + entriesPerFile - 1)) in
        let! fs := read the_fs in
        if negb (fileExists fs fileName) then ret (Some lastHeight)
        else
          let! fs := read the_fs in
          let! r := catch (reply (streamFile fs fileName)) in
          match r with
          | Err _ => ret None
          | Ok _ => importLoop fuel' dir fileSuffix entriesPerFile endHeight (i64 (lastHeight + entriesPerFile))
          end
  end.

(** What [serveHeightBasedImport] writes after the header. One round per
    height is enough fuel for the loop. *)
Definition importBody (subDir fileSuffix : str) (entriesPerFile : Z)
    (serializeCb : server -> Z -> Z -> M Writer unit) (fileType endHeight : Z) : H unit :=
  let! r := catch (reply (http_write (w_Write (importMetadata fileType)))) in
  match r with
  | Err _ => ret tt
  | Ok _ =>
      let! stopped := importLoop (Datatypes.S (Datatypes.S (Z.to_nat endHeight)))
                        (filepath_Join (sv_baseDir c) subDir) fileSuffix entriesPerFile endHeight 0 in
      match stopped with
      | None => ret tt
      | Some lastHeight =>
          let! hash := getBlockHash_locked (i32 lastHeight) in
          match hash with
          | Err _ => reply (sendError status400 (Errorf "invalid height"))
          | Ok _ =>
              let! serialize := read (fun s => serializeCb s (i32 lastHeight) (i32 (i32 endHeight - 1))) in
              reply (logged (http_write serialize))
          end
      end
  end.

(** [serveHeightBasedImport] *)
Definition serveHeightBasedImport (subDir fileSuffix : str) (entriesPerFile : Z)
    (serializeCb : server -> Z -> Z -> M Writer unit) (fileType endHeight : Z) : H unit :=
  let! sealed := read (fun s => pv_sealed (headerFiles_ s)) in
  let filesOnly := endHeight <=? i32 (sealed + 1) in
  if filesOnly && negb (Z.rem endHeight entriesPerFile =? 0)
  then reply (sendError status400 (Errorf "invalid end height %d, must be a multiple of %d"))
  else
    reply (addCorsHeaders ;;; addCacheHeaders (if filesOnly then maxAgeDisk else maxAgeMemory) ;;;
           WriteHeader 200) ;;;
    importBody subDir fileSuffix entriesPerFile serializeCb fileType endHeight.

(** [heightBasedImportRequestHandler], [heightBasedImportLatestHandler] *)
Definition heightBasedImportRequestHandler (r : Request) (subDir fileSuffix : str) (entriesPerFile : Z)
    (serializeCb : server -> Z -> Z -> M Writer unit) (fileType : Z) : H unit :=
  let! ready := checkImportPreconditions in
  if negb ready then ret tt
  else
    match parseRequestParamInt64 r "height" with
    | Err err => reply (sendError status400 err)
    | Ok endHeight =>
        let! check := checkEndHeight (fun s => processor_of (headerFiles_ s)) endHeight entriesPerFile in
        match check with
        | Err err => reply (sendError status400 err)
        | Ok _ => serveHeightBasedImport subDir fileSuffix entriesPerFile serializeCb fileType endHeight
        end
    end.
Definition heightBasedImportLatestHandler (subDir fileSuffix : str) (entriesPerFile : Z)
    (serializeCb : server -> Z -> Z -> M Writer unit) (fileType : Z) : H unit :=
  let! ready := checkImportPreconditions in
  if negb ready then ret tt
  else
    let! current := read (fun s => pv_current (headerFiles_ s)) in
    serveHeightBasedImport subDir fileSuffix entriesPerFile serializeCb fileType (i64 (current + 1)).

(** *** The routes of the basic files *)

Definition serializeHeadersCb (s : server) : Z -> Z -> M Writer unit := serializeHeaders (pv_data (headerFiles_ s)).
Definition serializeFilterHeadersCb (s : server) : Z -> Z -> M Writer unit :=
  serializeFilterHeaders (pv_data (headerFiles_ s)).

Definition headersRequestHandler (r : Request) : H unit :=
  heightBasedRequestHandler r HeaderFileDir HeaderFileSuffix (headersPerFile c) serializeHeadersCb
    (Some (fun _ => headersSize)) (fun s => processor_of (headerFiles_ s)).
Definition headersImportRequestHandler (r : Request) : H unit :=
  heightBasedImportRequestHandler r HeaderFileDir HeaderFileSuffix (headersPerFile c) serializeHeadersCb typeBlockHeader.
Definition headersImportLatestRequestHandler (r : Request) : H unit :=
  heightBasedImportLatestHandler HeaderFileDir HeaderFileSuffix (headersPerFile c) serializeHeadersCb typeBlockHeader.
Definition filterHeadersRequestHandler (r : Request) : H unit :=
  heightBasedRequestHandler r HeaderFileDir FilterHeaderFileSuffix (headersPerFile c) serializeFilterHeadersCb
    (Some (fun _ => filterHeadersSize)) (fun s => processor_of (headerFiles_ s)).
Definition filterHeadersImportRequestHandler (r : Request) : H unit :=
  heightBasedImportRequestHandler r HeaderFileDir FilterHeaderFileSuffix (headersPerFile c) serializeFilterHeadersCb
    typeFilterHeader.
Definition filterHeadersImportLatestRequestHandler (r : Request) : H unit :=
  heightBasedImportLatestHandler HeaderFileDir FilterHeaderFileSuffix (headersPerFile c) serializeFilterHeadersCb
    typeFilterHeader.
Definition filtersRequestHandler (r : Request) : H unit :=
  heightBasedRequestHandler r FilterFileDir FilterFileSuffix (filtersPerFile c)
    (fun s => serializeFilters (pv_data (cFilterFiles_ s)))
    (Some (fun s => filtersSize (pv_data (cFilterFiles_ s)))) (fun s => processor_of (cFilterFiles_ s)).

(** *** Custom filters and silent payment tweaks *)

(** The producers that may be turned off, once a handler has found them; they
    are never unset, so the default stands for nothing. *)
Definition the_custom (s : server) : producerView customFilterFiles :=
  default (mkView false 0 (-1) (mkCU (newBlockPrefetcher (mkFetcher false false)) ∅ ∅ ∅)) (customFilterFiles_ s).
Definition the_sp (s : server) : producerView spTweakFiles :=
  default (mkView false 0 (-1) (mkSP ∅ ∅ (newBlockPrefetcher (mkFetcher false false)))) (spTweakFiles_ s).

(** [customFilterConfig] *)
Definition customFilterConfig_ (r : Request) : H (option (str * nat)) :=
  let! custom := read customFilterFiles_ in
  match custom with
  | None => reply (sendError status503 errUnavailableCustomFiltersTurnedOff) ;;; ret None
  | Some _ =>
      let filterType := default "" (rq_vars r !! "filterType") in
      match customFilterConfigIndex filterType with
      | None => reply (sendError status400 (Errorf "unknown custom filter type: %s")) ;;; ret None
      | Some cfgIndex => ret (Some (filterType, cfgIndex))
      end
  end.

Definition customFiltersRequestHandler (r : Request) : H unit :=
  let! found := customFilterConfig_ r in
  match found with
  | None => ret tt
  | Some (filterType, cfgIndex) =>
      heightBasedRequestHandler r (customFilterDir filterType) FilterFileSuffix (filtersPerFile c)
        (fun s => cu_serializeFilters (pv_data (the_custom s)) cfgIndex)
        (Some (fun s => cu_filtersSize (pv_data (the_custom s)) cfgIndex)) (fun s => processor_of (the_custom s))
  end.
Definition customFilterHeadersRequestHandler (r : Request) : H unit :=
  let! found := customFilterConfig_ r in
  match found with
  | None => ret tt
  | Some (filterType, cfgIndex) =>
      heightBasedRequestHandler r (customHeaderDir filterType) FilterHeaderFileSuffix (headersPerFile c)
        (fun s => cu_serializeFilterHeaders (pv_data (the_custom s)) cfgIndex)
        (Some (fun _ => cu_filterHeadersSize)) (fun s => processor_of (the_custom s))
  end.

Definition spTweaksRequestHandler (r : Request) : H unit :=
  let! sp := read spTweakFiles_ in
  match sp with
  | None => reply (sendError status503 errUnavailableSPTweakDataTurnedOff)
  | Some _ =>
      match parseRequestParamInt64 r "dust" with
      | Err err => reply (sendError status400 err)
      | Ok dust =>
          let dustLimit := u64 dust in
          if negb (isValidSPTweakDustLimit dustLimit)
          then reply (sendError status400 (Errorf "unknown dust limit: %d, supported values: %v"))
          else
            heightBasedRequestHandler r (spTweakDustDir dustLimit) SPTweakFileSuffix (spTweaksPerFile c)
              (fun s => serializeSPTweaks (Net c) (pv_data (the_sp s)) dustLimit)
              (Some (fun s => spTweaksSize (pv_data (the_sp s)) dustLimit)) (fun s => processor_of (the_sp s))
      end
  end.

(** *** One filter *)

(** The filter from the backend. *)
Definition filterFromBackend (height : Z) : H unit :=
  let! hash := catch (onShared (getBlockHash (i32 height))) in
  match hash with
  | Err _ => reply (sendError status400 (Errorf "invalid height"))
  | Ok hash =>
      let! filter := call (GetBlockFilter hash) in
      match filter with
      | Err err => reply (sendError status500 err)
      | Ok filter =>
          match hex_DecodeString (fr_Filter filter) with
          | Err err => reply (sendError status500 err)
          | Ok filterBytes =>
              let! sealed := read (fun s => pv_sealed (cFilterFiles_ s)) in
              reply (sendRawBytes filterBytes
                (if negb (lightMode c) && (height <=? sealed) then maxAgeDisk else maxAgeMemory))
          end
      end
  end.

Definition filterSingleRequestHandler (r : Request) : H unit :=
  match parseRequestParamInt64 r "height" with
  | Err err => reply (sendError status400 err)
  | Ok height =>
      let! useMemory := (if lightMode c then ret false else read (fun s => pv_startup (cFilterFiles_ s))) in
      if negb useMemory then filterFromBackend height
      else
        let! current := read (fun s => pv_current (cFilterFiles_ s)) in
        if current <? height
        then reply (sendError status400 (Errorf "start height %d is greater than current height %d"))
        else
          let! filter := read (fun s => filterAtHeight (pv_data (cFilterFiles_ s)) (i32 height)) in
          match filter with
          | Some filter => reply (sendRawBytes filter maxAgeMemory)
          | None => filterFromBackend height
          end
  end.

(** *** Status, fees and the answers of the backend *)

Definition indexRequestHandler (r : Request) : H unit :=
  reply (addCorsHeaders ;;; onHeader (hdr_set "Content-Type" "text/html") ;;; WriteHeader 200 ;;;
         logged (http_write (w_Write (indexHTML c)))).

(** [currentStatus]: an error stands for every error, which the handler
    replaces. *)
Definition currentStatus : H (result Status) :=
  let! bestHeight := read (fun s => pv_current (headerFiles_ s)) in
  let! bestBlock := getBlockHash_locked bestHeight in
  match bestBlock with
  | Err e => ret (Err e)
  | Ok bestBlock =>
      let! bestFilter := read (fun s => filterHeaderAtHeight (pv_data (headerFiles_ s)) bestHeight) in
      match bestFilter with
      | None => ret (Err (Errorf "no filter header at height %d"))
      | Some bestFilter =>
          let! filterHeight := read (fun s => pv_current (cFilterFiles_ s)) in
          let! spHeight := read (fun s => pv_current <$> spTweakFiles_ s) in
          let! customHeight := read (fun s => pv_current <$> customFilterFiles_ s) in
          ret (Ok (mkStatus (version c) (commit c) (GenesisHash c) (NetName c)
                     bestHeight (Hash_String bestBlock) (Hash_String bestFilter) filterHeight
                     (default 0 spHeight) (bool_decide (is_Some customHeight)) (default 0 customHeight)
                     (bool_decide (bestHeight = filterHeight)
                      && bool_decide (bestHeight = default bestHeight spHeight)
                      && bool_decide (bestHeight = default bestHeight customHeight))
                     (headersPerFile c) (filtersPerFile c) (spTweaksPerFile c)))
      end
  end.

Definition statusRequestHandler (r : Request) : H unit :=
  let! status := currentStatus in
  match status with
  | Err _ => reply (sendError status500 errInvalidSyncStatus)
  | Ok status => reply (sendJSON (json_Status status) maxAgeMemory)
  end.

Definition estimateFeeRequestHandler (r : Request) : H unit :=
  match parseRequestParamInt64 r "blocks" with
  | Err _ => reply (sendError status500 errFeeEsimatesUnavailable)
  | Ok confTarget =>
      let! feeRateResult := call (EstimateSmartFee confTarget) in
      match feeRateResult with
      | Ok (mkFeeResult [] (Some rate)) =>
          let feeKWU := FeePerKWeight (feeKVB rate) in
          reply (sendJSON (json_FeeRate (mkFeeRate (feeKVB rate) feeKWU (FeePerVByte feeKWU))) maxAgeMemory)
      | _ => reply (sendError status500 errFeeEsimatesUnavailable)
      end
  end.

(** The handlers that send what one call returns. *)
Definition passOn (r : Request) (name what : str) (get : Hash -> M W bytes) : H unit :=
  match parseRequestParamChainHash r name with
  | Err err => reply (sendError status400 (Wrapf what err))
  | Ok hash =>
      let! v := call (get hash) in
      match v with
      | Err err => reply (sendError status500 err)
      | Ok v => reply (sendBinary v maxAgeDisk)
      end
  end.
Definition blockRequestHandler (r : Request) : H unit := passOn r "hash" "invalid block hash: %w" GetBlock.
Definition headerRequestHandler (r : Request) : H unit :=
  passOn r "hash" "invalid block hash: %w" (fun hash => let! h := GetBlockHeader hash in ret (hdr_Serialize h)).
Definition rawTxRequestHandler (r : Request) : H unit :=
  passOn r "txid" "invalid transaction hash: %w" GetRawTransaction.

Definition txOutProofRequestHandler (r : Request) : H unit :=
  match parseRequestParamChainHash r "txid" with
  | Err err => reply (sendError status400 (Wrapf "invalid transaction hash: %w" err))
  | Ok txHash =>
      let! proof := call (GetTxOutProof [Hash_String txHash]) in
      match proof with
      | Err err => reply (sendError status500 err)
      | Ok merkleBlock =>
          let! height := call (GetBlockHeaderVerbose (merkle_BlockHash merkleBlock)) in
          match height with
          | Err err => reply (sendError status500 err)
          | Ok height =>
              match merkle_BtcEncode merkleBlock with
              | Err err => reply (sendError status500 err)
              | Ok buf =>
                  let! current := read (fun s => pv_current (headerFiles_ s)) in
                  let safeHeight := i32 (current - i32 (sv_reOrgSafeDepth c)) in
                  reply (sendRawBytes buf (if safeHeight <? height then maxAgeTemporary else maxAgeDisk))
              end
          end
      end
  end.

(** The end of the two handlers that forward an answer of the REST server. A
    request that cannot be built fails like one that cannot be sent. *)
Definition forward (url : str) (maxAge : Z) : H unit :=
  let! resp := call (http_Get url) in
  match resp with
  | Err err => reply (sendError status500 err)
  | Ok resp =>
      if negb (StatusCode resp =? 200)
      then reply (sendError (StatusCode resp) (Errorf "upstream error: code %d"))
      else reply (sendJsonCopy (Body resp) maxAge)
  end.

(** The format of the query. *)
Definition queryFormat (r : Request) : str :=
  let f := query_Get r "format" in
  if (f =? "bin")%string || (f =? "hex")%string then f else "json".

Definition blockSpentTxOutsRequestHandler (r : Request) : H unit :=
  match parseRequestParamChainHash r "hash" with
  | Err err => reply (sendError status400 (Wrapf "invalid block hash: %w" err))
  | Ok blockHash =>
      forward (rest_url c ++ "/rest/spenttxouts/" ++ Hash_String blockHash ++ "." ++ queryFormat r)%string maxAgeDisk
  end.
Definition utxoRequestHandler (r : Request) : H unit :=
  match parseRequestParamChainHash r "txid" with
  | Err err => reply (sendError status400 (Wrapf "invalid block hash: %w" err))
  | Ok txHash =>
      match parseRequestParamInt64 r "vout" with
      | Err err => reply (sendError status400 (Wrapf "invalid output index: %w" err))
      | Ok vOut =>
          let mempool := if (query_Get r "mempool" =? "true")%string then "checkmempool/" else "" in
          forward (rest_url c ++ "/rest/getutxos/" ++ mempool ++ Hash_String txHash ++ "-" ++ fmt_d vOut
                   ++ "." ++ queryFormat r)%string maxAgeMemory
      end
  end.

(** *** The router *)

(** [createRouter]: the routes in the order of their registration. *)
Definition createRouter : list (str * (Request -> H unit)) :=
  [ ("/", indexRequestHandler);
    ("/index.html", indexRequestHandler);
    ("/status", statusRequestHandler);
    ("/block/{hash:[0-9a-f]+}", blockRequestHandler);
    ("/block/{hash:[0-9a-f]+}/spenttxouts", blockSpentTxOutsRequestHandler);
    ("/header/{hash:[0-9a-f]+}", headerRequestHandler);
    ("/headers/{height:[0-9]+}", headersRequestHandler);
    ("/headers/import/latest", headersImportLatestRequestHandler);
    ("/headers/import/{height:[0-9]+}", headersImportRequestHandler);
    ("/fees/estimate/{blocks:[0-9]+}", estimateFeeRequestHandler);
    ("/filter-headers/{height:[0-9]+}", filterHeadersRequestHandler);
    ("/filter-headers/import/latest", filterHeadersImportLatestRequestHandler);
    ("/filter-headers/import/{height:[0-9]+}", filterHeadersImportRequestHandler);
    ("/filter-headers/type/{filterType}/{height:[0-9]+}", customFilterHeadersRequestHandler);
    ("/filters/{height:[0-9]+}", filtersRequestHandler);
    ("/filters/single/{height:[0-9]+}", filterSingleRequestHandler);
    ("/filters/type/{filterType}/{height:[0-9]+}", customFiltersRequestHandler);
    ("/sp/tweaks/{dust:[0-9]+}/{height:[0-9]+}", spTweaksRequestHandler);
    ("/tx/out-proof/{txid:[0-9a-f]+}", txOutProofRequestHandler);
    ("/tx/raw/{txid:[0-9a-f]+}", rawTxRequestHandler);
    ("/utxo/{txid:[0-9a-f]+}-{vout:[0-9]+}", utxoRequestHandler) ].
End Handlers.
