(* ===== verification/ToyServer.v ===== *)
(** * A concrete server for the examples

    Instances of the interfaces of [Handlers], and a server whose header
    producer has sealed two files. Nothing here models code of the
    repository. *)

From Stdlib Require Import ZArith Lia SpecFloat.
From stdpp Require Import base numbers list strings gmap.
From S2P Require Import Prelude GoInt Bytes GoStr GoIO Iface Backend Toy Files H2H Producer HeaderFiles LifeCycle CFilterFiles PrevOuts ToyNet SPTweaks CustomFilters HttpServer Handlers.

Local Open Scope Z_scope.

#[export] Instance toy_error_text : ErrorText := fun _ => string_bytes "error".

#[export] Instance toy_node : Node toy_world := {|
  GetBlock := fun h w => (match toy_find w h with Some (n, _) => Ok (put_le 4 (Z.of_nat n)) | None => Err (External "block") end, w);
  GetRawTransaction := fun _ w => (Err (External "transaction"), w);
  MerkleBlock := Hash;
  GetTxOutProof := fun _ w => (Err (External "proof"), w);
  merkle_BlockHash := fun h => h;
  merkle_BtcEncode := fun h => Ok h;
  GetBlockHeaderVerbose := fun h w => (match toy_find w h with Some (n, _) => Ok (Z.of_nat n) | None => Err (External "block") end, w);
  EstimateSmartFee := fun _ w => (Ok (mkFeeResult [] (Some (S754_finite false 5902958103587057 (-59)))), w);
  FeePerKWeight := fun f => f / 4;
  FeePerVByte := fun f => f * 4 / 1000
|}.

Definition toy_cfg : serverCfg :=
  mkServerCfg false "/b" 2 2 2 2 118034699 "genesis" "regtest" "v1" "abc" (string_bytes "<html>") "http://host".

(** Two header files on disk, two headers in memory, all filters in memory. *)
Definition toy_server : server (W := toy_world) :=
  mkServer (ps_env lc_sealed) false (view_of lc_sealed) (mkView true 3 (-1) cf_example.2) None None.

(** The same before the first seal: all headers are in memory. *)
Definition toy_unsealed_server : server (W := toy_world) :=
  mkServer (ps_env lc_unsealed) false (view_of lc_unsealed) (mkView true 3 (-1) cf_example.2) None None.

(** Nothing happens; the heights of the headers have seven digits. *)
Definition toy_tick (s : server (W := toy_world)) : server (W := toy_world) :=
  let h := headerFiles_ s in
  mkServer (sv_env s) (sv_writerWaiting s)
    (mkView (pv_startup h) (Z.max (-1) (Z.min (pv_current h) 9999999)) (pv_sealed h) (pv_data h))
    (cFilterFiles_ s) (spTweakFiles_ s) (customFilterFiles_ s).

Lemma toy_tick_bound s : -1 <= pv_current (headerFiles_ (toy_tick s)) < 10000000.
Proof. cbn. lia. Qed.

(** A request for a height. *)
Definition toy_request (height : str) (r : RangeReq) : Request := mkRequest {[ "height" := height ]} ∅ r.

(** Evaluate a closed goal about the example server. *)
Ltac server_compute :=
  unfold toy_server, toy_unsealed_server; rewrite ?lc_unsealed_eq, ?lc_sealed_eq; vm_compute; reflexivity.
