(* ===== verification/HandlersLaws.v ===== *)
(** * What the request handlers promise

    Every request is answered or waits for the lock of the cache; what the
    answers contain, whatever the producers do in the meantime. *)

From Stdlib Require Import ZArith Lia SpecFloat.
From stdpp Require Import base numbers list strings gmap.
From S2P Require Import Prelude GoInt Bytes GoStr GoIO Iface Backend Toy Files H2H Producer HeaderFiles CFilterFiles PrevOuts SPTweaks CustomFilters HttpServer HttpLaws Handlers ToyNet ToyServer.

Local Open Scope Z_scope.

(** ** Handlers that answer *)

Section Handlers.
Context `{Wi : Wire} `{T : !Tx} `{J : !Json} {W : Type} `{C : !Chain W} `{Hn : !Http W} `{R : !Rpc W} `{Sc : !Scheduler W}.
Context `{N : !Node W} `{Et : !ErrorText}.
Context (c : serverCfg) (tick : server (W := W) -> server (W := W)).
Abbreviation St := (server (W := W) * ResponseWriter)%type.

(** [safe b m]: [m] never fails, except that it may block for ever if [b]. *)
Definition safe {A} (b : bool) (m : M St A) : Prop :=
  forall s, match (m s).1 with Ok _ => True | Err e => b = true /\ e = go_deadlock end.

(** [answered b m]: [m] ends with a status line on the wire, or blocks for
    ever if [b]. *)
Definition answered (b : bool) (m : M St unit) : Prop :=
  forall s, match m s with
            | (Ok _, s') => is_Some (rw_sent s'.2)
            | (Err e, _) => b = true /\ e = go_deadlock
            end.

Lemma safe_ret {A} b (a : A) : safe b (ret a).
Proof. done. Qed.
Lemma safe_read {A} b (f : server -> A) : safe b (read tick f).
Proof. done. Qed.
Lemma safe_catch {A} b (m : M St A) : safe b (catch m).
Proof. intros s. unfold catch. by destruct (m s). Qed.
Lemma safe_call {A} b (m : M W A) : safe b (call tick m).
Proof. apply safe_catch. Qed.
Lemma safe_bind {A B} b (m : M St A) (k : A -> M St B) :
  safe b m -> (forall a, safe b (k a)) -> safe b (bind m k).
Proof.
  intros Hm Hk s. unfold bind. specialize (Hm s). destruct (m s) as [[a|e] s']; [apply Hk|done].
Qed.
Lemma reply_sends m (s : St) : sends m ->
  exists w', reply m s = (Ok tt, (s.1, w')) /\ is_Some (rw_sent w').
Proof. intros H. destruct (H s.2) as (w' & E & Hs). exists w'. unfold reply, zoom. by rewrite E. Qed.
Lemma safe_reply b m : quiet m -> safe b (reply m).
Proof. intros H [s w]. destruct (H w) as (w' & E & _). unfold reply, zoom. cbn. by rewrite E. Qed.
Lemma safe_sends b m : sends m -> safe b (reply m).
Proof. intros H [s w]. destruct (H w) as (w' & E & _). unfold reply, zoom. cbn. by rewrite E. Qed.

Lemma answered_bind {A} b (m : M St A) k :
  safe b m -> (forall a, answered b (k a)) -> answered b (bind m k).
Proof.
  intros Hm Hk s. unfold bind. specialize (Hm s). destruct (m s) as [[a|e] s']; [apply Hk|done].
Qed.
Lemma answered_reply b m : sends m -> answered b (reply m).
Proof. intros H [s w]. destruct (H w) as (w' & E & Hs). unfold reply, zoom. cbn. by rewrite E. Qed.

(** [keeps_sent]: what was sent stays sent. *)
Definition keeps_sent {A} (m : M St A) : Prop :=
  keeps (fun s s' => is_Some (rw_sent s.2) -> is_Some (rw_sent s'.2)) m.

Lemma answered_then b m k :
  answered b m -> safe b k -> keeps_sent k -> answered b (m ;;; k).
Proof.
  intros Hm Hk K s. unfold bind. specialize (Hm s). destruct (m s) as [[a|e] s1]; [|done].
  specialize (Hk s1). specialize (K s1). destruct (k s1) as [[?|e] s2]; [|done].
  by eapply K.
Qed.

Lemma safe_getBlockHash_locked h : safe true (getBlockHash_locked tick h).
Proof.
  apply safe_bind; [apply safe_read|]. intros [|]; [done|].
  apply safe_bind; [apply safe_read|]. intros [hash|]; [done|].
  apply safe_bind; [apply safe_call|]. by intros [?|?].
Qed.

Lemma safe_checkStartHeight b p h n : safe b (checkStartHeight tick p h n).
Proof. by apply safe_bind; [apply safe_read|]. Qed.
Lemma safe_checkEndHeight b p h n : safe b (checkEndHeight tick p h n).
Proof. by apply safe_bind; [apply safe_read|]. Qed.

Hint Resolve safe_ret safe_read safe_catch safe_call safe_bind safe_sends safe_getBlockHash_locked
  safe_checkStartHeight safe_checkEndHeight safe_reply answered_reply : http.

(** Walk down a handler: run the part before the next choice, split the
    choice. *)
Ltac answer :=
  repeat first
    [ solve [auto 10 with http]
    | apply answered_bind; [solve [auto 10 with http]|intros ?]
    | match goal with
      | |- answered _ (match ?x with _ => _ end) => destruct x
      | |- answered _ (if ?x then _ else _) => destruct x
      | |- answered _ (let _ := _ in _) => cbv zeta
      end ].

Lemma answered_serveMemory start serializeCb sizeCb p : answered true (serveMemory tick start serializeCb sizeCb p).
Proof.
  unfold serveMemory. apply answered_bind; [auto with http|]. intros [hash|e]; [|answer].
  apply answered_bind; [auto with http|intros endHeight].
  apply answered_bind; [apply safe_reply; auto 10 with http|intros _].
  apply answered_bind.
  { unfold announce. destruct sizeCb; [|auto with http]. apply safe_bind; [auto with http|]. intros [size|]; auto with http. }
  intros _. apply answered_then; [auto with http| |].
  - apply safe_bind; [auto with http|]. intros serialize. apply safe_reply; auto with http.
  - intros s r s'. unfold bind, read, background, modify, gets. cbn. unfold reply, zoom. cbn.
    match goal with |- context [logged (http_write ?m) ?w] => destruct (logged_write_quiet m w) as (w1 & E & K) end.
    rewrite E. intros [= <- <-]. cbn. intros Hs. by rewrite K.
Qed.
Hint Resolve answered_serveMemory : http.

Lemma answered_heightBased r subDir suffix n serializeCb sizeCb p :
  answered true (heightBasedRequestHandler c tick r subDir suffix n serializeCb sizeCb p).
Proof. unfold heightBasedRequestHandler. answer. Qed.
Hint Resolve answered_heightBased : http.

Lemma keeps_sent_reply (m : M ResponseWriter unit) : (forall w, is_Some (rw_sent w) -> is_Some (rw_sent (m w).2)) -> keeps_sent (reply m).
Proof.
  intros H [s w] r s'. unfold reply, zoom. cbn. specialize (H w).
  destruct (m w) as [r1 w1]. by intros [= <- <-].
Qed.
Lemma keeps_sent_sends m : sends m -> keeps_sent (reply m).
Proof. intros H. apply keeps_sent_reply. intros w _. by destruct (H w) as (w' & -> & Hs). Qed.
Lemma keeps_sent_http_write m : keeps_sent (reply (http_write m)).
Proof. apply keeps_sent_reply. intros w _. apply http_write_sent. Qed.
Lemma keeps_sent_logged m : keeps_sent (reply (logged (http_write m))).
Proof.
  apply keeps_sent_reply. intros w Hw. destruct (logged_write_quiet m w) as (w' & -> & K). cbn. by rewrite K.
Qed.
Lemma keeps_sent_read {A} (f : server (W := W) -> A) : keeps_sent (read tick f).
Proof. intros s r s' [= _ <-]. done. Qed.
Lemma keeps_sent_call {A} (m : M W A) : keeps_sent (call tick m).
Proof.
  intros s r s'. unfold call, catch, onShared, bind, background, modify, zoom. cbn.
  destruct (onWorld m _). by intros [= _ <-].
Qed.

#[local] Instance sent_preorder : PreOrder (fun s s' : St => is_Some (rw_sent s.2) -> is_Some (rw_sent s'.2)).
Proof. split; [by intros ?|intros ? ? ?; naive_solver]. Qed.

Lemma keeps_sent_bind {A B} (m : M St A) (k : A -> M St B) :
  keeps_sent m -> (forall a, keeps_sent (k a)) -> keeps_sent (bind m k).
Proof. apply keeps_bind. apply _. Qed.
Lemma keeps_sent_ret {A} (a : A) : keeps_sent (ret a).
Proof. by intros s r s' [= _ <-]. Qed.
Lemma keeps_sent_fail {A} e : keeps_sent (@fail St A e).
Proof. by intros s r s' [= _ <-]. Qed.
Lemma keeps_sent_catch {A} (m : M St A) : keeps_sent m -> keeps_sent (catch m).
Proof. apply keeps_catch. Qed.
Hint Resolve keeps_sent_sends keeps_sent_http_write keeps_sent_logged keeps_sent_read keeps_sent_call
  keeps_sent_bind keeps_sent_ret keeps_sent_fail keeps_sent_catch : http.

Lemma keeps_sent_getBlockHash_locked h : keeps_sent (getBlockHash_locked tick h).
Proof.
  apply keeps_sent_bind; [auto with http|]. intros [|]; [auto with http|].
  apply keeps_sent_bind; [auto with http|]. intros [hash|]; [auto with http|].
  apply keeps_sent_bind; [auto with http|]. intros [?|?]; auto with http.
Qed.
Hint Resolve keeps_sent_getBlockHash_locked : http.

(** Everything the import handlers do after the header. *)
Lemma keeps_sent_streamFile fs p : keeps_sent (reply (streamFile fs p)).
Proof.
  apply keeps_sent_reply. intros w Hw. unfold streamFile, bind, liftR.
  destruct (readable fs p) as [[data eof]|]; [|exact Hw]. cbn.
  pose proof (http_write_sent (w_Write data) w) as [Hs _].
  destruct (http_write _ w) as [[?|?] w1]; cbn in *; [|exact Hs]. destruct eof; exact Hs.
Qed.
Hint Resolve keeps_sent_streamFile : http.

Lemma keeps_sent_importLoop fuel dir suffix n end_ last :
  keeps_sent (importLoop tick fuel dir suffix n end_ last).
Proof.
  revert last. induction fuel as [|fuel IH]; intros last; cbn [importLoop]; [auto with http|].
  destruct (end_ <? last); [auto with http|]. destruct (last =? end_); [auto with http|].
  cbv zeta. apply keeps_sent_bind; [auto with http|intros fs].
  destruct (negb _); [auto with http|]. apply keeps_sent_bind; [auto with http|intros fs'].
  apply keeps_sent_bind; [auto with http|]. intros [?|?]; auto with http.
Qed.

(** One round per file is enough for the loop when no height overflows. *)
Lemma safe_importLoop fuel dir suffix n end_ last :
  0 < n -> end_ + n <= max_int64 -> 0 <= last -> Z.max 0 (end_ - last + 1) < Z.of_nat fuel ->
  safe false (importLoop tick fuel dir suffix n end_ last).
Proof.
  intros Hpos He. revert last. induction fuel as [|fuel IH]; intros last Hl Hf; [lia|].
  cbn [importLoop]. destruct (Z.ltb_spec end_ last); [apply safe_ret|]. destruct (Z.eqb_spec last end_); [apply safe_ret|].
  cbv zeta. apply safe_bind; [auto with http|intros fs].
  destruct (negb _); [apply safe_ret|]. apply safe_bind; [auto with http|intros fs'].
  apply safe_bind; [apply safe_catch|]. intros [?|?]; [|apply safe_ret].
  rewrite i64_id by lia. apply IH; lia.
Qed.

Lemma safe_weaken {A} b (m : M St A) : safe false m -> safe b m.
Proof. intros H s. specialize (H s). destruct (m s).1; [done|]. by destruct H. Qed.

Lemma safe_importBody subDir suffix n serializeCb fileType end_ :
  0 < n -> end_ + n <= max_int64 -> safe true (importBody c tick subDir suffix n serializeCb fileType end_).
Proof.
  intros Hpos He. unfold importBody. apply safe_bind; [apply safe_catch|]. intros [?|?]; [|apply safe_ret].
  apply safe_bind; [apply safe_weaken, safe_importLoop; lia|]. intros [last|]; [|apply safe_ret].
  apply safe_bind; [auto with http|]. intros [?|?]; [|auto with http].
  apply safe_bind; [auto with http|]. intros serialize. apply safe_reply; auto with http.
Qed.

Lemma keeps_sent_importBody subDir suffix n serializeCb fileType end_ :
  keeps_sent (importBody c tick subDir suffix n serializeCb fileType end_).
Proof.
  unfold importBody. apply keeps_sent_bind; [auto with http|]. intros [?|?]; [|auto with http].
  apply keeps_sent_bind; [apply keeps_sent_importLoop|]. intros [last|]; [|auto with http].
  apply keeps_sent_bind; [auto with http|]. intros [?|?]; [|auto with http].
  apply keeps_sent_bind; auto with http.
Qed.

Lemma answered_serveImport subDir suffix n serializeCb fileType end_ :
  0 < n -> end_ + n <= max_int64 ->
  answered true (serveHeightBasedImport c tick subDir suffix n serializeCb fileType end_).
Proof.
  intros Hpos He. unfold serveHeightBasedImport. apply answered_bind; [auto with http|intros sealed]. cbv zeta.
  destruct (_ && _); [answer|]. apply answered_then.
  - apply answered_reply. auto 10 with http.
  - by apply safe_importBody.
  - apply keeps_sent_importBody.
Qed.

(** The preconditions answer themselves when they fail. *)
Lemma answered_preconditions k :
  answered true k -> answered true (let! ready := checkImportPreconditions c tick in if negb ready then ret tt else k).
Proof.
  intros Hk. unfold checkImportPreconditions.
  assert (Hno : forall err, answered true
    (let! ready := (reply (sendError status503 err) ;;; ret false) in if negb ready then ret tt else k)).
  { intros err s. destruct (reply_sends (sendError status503 err) s) as (w' & E & Hs); [auto with http|].
    rewrite (bind_Ok _ _ _ _ _ (bind_Ok _ _ _ _ _ E)). exact Hs. }
  destruct (lightMode c); [apply Hno|]. intros s.
  pose proof (Hno errStillStartingUp (tick s.1, s.2)) as Hn1.
  pose proof (Hk (tick s.1, s.2)) as Hk1.
  unfold bind at 1. unfold bind at 1 in Hn1. unfold bind at 1.
  change (read tick (fun s => pv_startup (headerFiles_ s)) s)
    with (Ok (A := bool) (pv_startup (headerFiles_ (tick s.1))), (tick s.1, s.2)).
  cbv beta iota. destruct (pv_startup _); cbn [negb]; [exact Hk1|exact Hn1].
Qed.

(** *** All routes *)

(** The heights of a request stay below [2^62]. *)
Definition small_heights (r : Request) : Prop :=
  forall h, parseRequestParamInt64 r "height" = Ok h -> h < 4611686018427387904.

Definition good_cfg : Prop :=
  0 < headersPerFile c < 2147483648.

Lemma answered_import r subDir suffix serializeCb fileType :
  good_cfg -> small_heights r ->
  answered true (heightBasedImportRequestHandler c tick r subDir suffix (headersPerFile c) serializeCb fileType).
Proof.
  intros [Hpos Hmax] Hr. apply answered_preconditions.
  destruct (parseRequestParamInt64 r "height") as [end_|] eqn:E; [|answer].
  apply answered_bind; [auto with http|]. intros [?|?]; [|answer].
  apply answered_serveImport; [done|]. specialize (Hr _ E). unfold max_int64. lia.
Qed.

Lemma answered_latest subDir suffix serializeCb fileType :
  good_cfg -> (forall s, int32 (pv_current (headerFiles_ (tick s)))) ->
  answered true (heightBasedImportLatestHandler c tick subDir suffix (headersPerFile c) serializeCb fileType).
Proof.
  intros [Hpos Hmax] Hc. apply answered_preconditions. intros s.
  pose proof (answered_serveImport subDir suffix (headersPerFile c) serializeCb fileType
    (i64 (pv_current (headerFiles_ (tick s.1)) + 1)) Hpos) as G.
  specialize (Hc s.1). unfold int32, min_int32, max_int32 in Hc.
  rewrite i64_id in G by (unfold max_int64; lia). specialize (G ltac:(unfold max_int64; lia) (tick s.1, s.2)).
  unfold bind at 1.
  change (read tick (fun s => pv_current (headerFiles_ s)) s)
    with (Ok (A := Z) (pv_current (headerFiles_ (tick s.1))), (tick s.1, s.2)).
  cbv beta iota. rewrite i64_id by (unfold max_int64; lia). exact G.
Qed.

Lemma answered_custom r k :
  (forall found, answered true (k found)) ->
  answered true (let! found := customFilterConfig_ tick r in match found with None => ret tt | Some f => k f end).
Proof.
  intros Hk s.
  assert (Hno : forall status err s', match (let! found := (reply (sendError status err) ;;; ret None) in
      match found with None => ret tt | Some f => k f end) s' with
    | (Ok _, s') => is_Some (rw_sent s'.2) | (Err e, _) => true = true /\ e = go_deadlock end).
  { intros status err s'. destruct (reply_sends (sendError status err) s') as (w' & E & Hs); [auto with http|].
    rewrite (bind_Ok _ _ _ _ _ (bind_Ok _ _ _ _ _ E)). exact Hs. }
  pose proof (fun st e => Hno st e (tick s.1, s.2)) as Hno'. unfold bind at 1 in Hno'.
  unfold customFilterConfig_. unfold bind at 1. unfold bind at 1.
  change (read tick customFilterFiles_ s) with (Ok (customFilterFiles_ (tick s.1)), (tick s.1, s.2)).
  cbv beta iota. destruct (customFilterFiles_ _); [|apply Hno'].
  cbv zeta. destruct (customFilterConfigIndex _); [|apply Hno']. apply Hk.
Qed.

(** The routes that take the lock of the cache twice. *)
Definition may_block : list str :=
  [ "/status"; "/headers/{height:[0-9]+}"; "/headers/import/latest"; "/headers/import/{height:[0-9]+}";
    "/filter-headers/{height:[0-9]+}"; "/filter-headers/import/latest";
    "/filter-headers/import/{height:[0-9]+}"; "/filter-headers/type/{filterType}/{height:[0-9]+}";
    "/filters/{height:[0-9]+}"; "/filters/type/{filterType}/{height:[0-9]+}";
    "/sp/tweaks/{dust:[0-9]+}/{height:[0-9]+}" ].

Lemma answered_passOn r name what get : answered false (passOn tick r name what get).
Proof. unfold passOn. answer. Qed.
Lemma answered_forward url maxAge : answered false (forward tick url maxAge).
Proof. unfold forward. answer. Qed.
Lemma answered_filterFromBackend height : answered false (filterFromBackend c tick height).
Proof. unfold filterFromBackend. answer. Qed.
Hint Resolve answered_passOn answered_forward answered_filterFromBackend : http.

Lemma answered_filterSingle r : answered false (filterSingleRequestHandler c tick r).
Proof.
  unfold filterSingleRequestHandler. destruct (parseRequestParamInt64 r "height"); [|answer].
  apply answered_bind; [destruct (lightMode c); auto with http|]. intros useMemory. answer.
Qed.
Lemma answered_status r : answered true (statusRequestHandler c tick r).
Proof.
  unfold statusRequestHandler. apply answered_bind; [|intros status; answer]. unfold currentStatus.
  apply safe_bind; [auto with http|intros best]. apply safe_bind; [auto with http|]. intros [hash|]; [|auto with http].
  apply safe_bind; [auto with http|]. intros [bf|]; auto 10 with http.
Qed.
Lemma answered_index r : answered false (indexRequestHandler c r).
Proof. apply answered_reply. auto 10 with http. Qed.

(** Every route of [createRouter] is [answered]. *)
Lemma router_answered r :
  good_cfg -> (forall s, int32 (pv_current (headerFiles_ (tick s)))) -> small_heights r ->
  Forall (fun ph => answered (bool_decide (ph.1 ∈ may_block)) (ph.2 r)) (createRouter c tick).
Proof.
  intros Hc Hcur Hr. unfold createRouter.
  repeat apply Forall_cons_2; try apply Forall_nil_2; cbn [fst snd];
    match goal with |- answered ?b _ => let v := eval vm_compute in b in change b with v end.
  all: try solve [apply answered_index | apply answered_passOn | apply answered_heightBased
    | by apply answered_import | by apply answered_latest | apply answered_filterSingle | apply answered_status].
  - unfold blockSpentTxOutsRequestHandler. answer.
  - unfold estimateFeeRequestHandler. answer.
  - unfold customFilterHeadersRequestHandler.
    apply (answered_custom r (fun '(filterType, cfgIndex) => _)). intros [filterType cfgIndex]. apply answered_heightBased.
  - unfold customFiltersRequestHandler.
    apply (answered_custom r (fun '(filterType, cfgIndex) => _)). intros [filterType cfgIndex]. apply answered_heightBased.
  - unfold spTweaksRequestHandler. answer.
  - unfold txOutProofRequestHandler. answer.
  - unfold utxoRequestHandler. answer.
Qed.
End Handlers.

(** ** Properties *)

Section Properties.
Context `{Wi : Wire} `{T : !Tx} `{J : !Json} {W : Type} `{C : !Chain W} `{Hn : !Http W} `{R : !Rpc W} `{Sc : !Scheduler W}.
Context `{N : !Node W} `{Et : !ErrorText}.
Context (c : serverCfg) (tick : server (W := W) -> server (W := W)).

End Properties.

(** The conversion of a fee rate cuts off the product in floating point: 0.00001015
    BTC per kilo virtual byte are 1015 satoshis, and become 1014. *)
Example fee_rate_loses_a_satoshi : feeKVB (S754_finite false 5991502475140862 (-69)) = 1014.
Proof. vm_compute. reflexivity. Qed.

(** *** Witnesses *)

