(* ===== verification/HandlersContent.v ===== *)
(** * What the handlers serve

    The bytes of the answers made from memory, from the sealed files and from
    both. *)

From Stdlib Require Import ZArith Lia.
From stdpp Require Import base numbers list strings gmap.
From S2P Require Import Prelude GoInt Bytes GoStr GoIO Iface Backend Toy Files H2H Producer HeaderFiles CFilterFiles PrevOuts SPTweaks CustomFilters HttpServer HttpLaws Handlers LifeCycle ToyNet ToyServer.

Local Open Scope Z_scope.

Section Content.
Context `{Wi : Wire} `{T : !Tx} `{J : !Json} {W : Type} `{C : !Chain W} `{Hn : !Http W} `{R : !Rpc W} `{Sc : !Scheduler W}.
Context `{N : !Node W} `{Et : !ErrorText}.
Context (c : serverCfg) (tick : server (W := W) -> server (W := W)).
Abbreviation Srv := (server (W := W)).
Abbreviation St := (Srv * ResponseWriter)%type.

(** ** Running a handler *)

Lemma read_run {A} (f : Srv -> A) s : read tick f s = (Ok (f (tick s.1)), (tick s.1, s.2)).
Proof. done. Qed.
Lemma reply_run {A} (m : M ResponseWriter A) (s : St) : reply m s = ((m s.2).1, (s.1, (m s.2).2)).
Proof. unfold reply, zoom. by destruct (m s.2). Qed.
Lemma bind_read {A B} (f : Srv -> A) (k : A -> M St B) s :
  bind (read tick f) k s = k (f (tick s.1)) (tick s.1, s.2).
Proof. done. Qed.
Lemma bind_reply {A} (m : M ResponseWriter unit) (k : M St A) (s : St) w' :
  m s.2 = (Ok tt, w') -> (reply m ;;; k) s = k (s.1, w').
Proof. intros E. unfold bind. rewrite reply_run, E. done. Qed.

(** A lookup of the cache does not touch the response. *)
Lemma getBlockHash_locked_frame h s r s' : getBlockHash_locked tick h s = (r, s') -> s'.2 = s.2.
Proof.
  unfold getBlockHash_locked. rewrite bind_read. destruct (sv_writerWaiting _); [by intros [= _ <-]|].
  rewrite bind_read. cbn [fst snd]. destruct (_ !! h); [by intros [= _ <-]|].
  unfold bind, call, catch, onShared, background, modify, zoom, bind. cbn.
  destruct (onWorld _ _) as [[?|?] e1]; by intros [= _ <-].
Qed.

(** The header of an answer from memory. *)
Definition memoryHeader (size : option Z) (h : Header) : Header :=
  let h' := hdr_set "Content-Type" contentTypeBinary
              (hdr_set HeaderCache (cacheControl maxAgeMemory)
                 (hdr_add HeaderCORSMethods "GET, POST, OPTIONS" (hdr_add HeaderCORS "*" h))) in
  match size with Some n => hdr_set "Content-Length" (fmt_d n) h' | None => h' end.

Lemma announce_run sizeCb a b s :
  announce tick (Some sizeCb) a b s
  = (Ok tt, (tick s.1, mkRW (match sizeCb (tick s.1) a b with
                             | Some n => hdr_set "Content-Length" (fmt_d n) (rw_header s.2)
                             | None => rw_header s.2
                             end) (rw_sent s.2) (rw_body s.2))).
Proof.
  unfold announce. rewrite bind_read. destruct (sizeCb _ _ _); [done|]. by destruct s as [? []].
Qed.

(** The answer once the height is known to the cache. *)
Definition memoryAnswer (s : Srv) (cap : option nat) (start : Z) (serializeCb : Srv -> Z -> Z -> M Writer unit)
    (sizeCb : Srv -> Z -> Z -> option Z) (p : Srv -> blockProcessor) : Srv * ResponseWriter :=
  let b := getCurrentHeight (p (tick s)) in
  let hdr := memoryHeader (sizeCb (tick (tick s)) (i32 start) b) ∅ in
  let s' := tick (tick (tick s)) in
  (s', mkRW hdr (Some (200, hdr))
         (serializeCb s' (i32 start) b (mkWriter [] (cap_min cap (content_length hdr)))).2).

Lemma serveMemory_run start serializeCb sizeCb p s cap r s0 :
  getBlockHash_locked tick (i32 start) (s, newResponse cap) = (r, s0) ->
  serveMemory tick start serializeCb (Some sizeCb) p (s, newResponse cap)
  = match r with
    | Ok (Ok _) => (Ok tt, memoryAnswer s0.1 cap start serializeCb sizeCb p)
    | Ok (Err _) => (Ok tt, (s0.1, (sendError status400 (Errorf "invalid height") (newResponse cap)).2))
    | Err e => (Err e, s0)
    end.
Proof.
  intros E. pose proof (getBlockHash_locked_frame _ _ _ _ E) as Ef. cbn in Ef.
  unfold serveMemory. destruct r as [[hash|e]|e]; [|rewrite (bind_Ok _ _ _ _ _ E)|by rewrite (bind_Err _ _ _ _ _ E)].
  2:{ by rewrite reply_run, Ef, sendError_run. }
  rewrite (bind_Ok _ _ _ _ _ E), bind_read. destruct s0 as [s0 w0]. cbn in Ef. subst w0.
  erewrite bind_reply by reflexivity. rewrite (bind_Ok _ _ _ _ _ (announce_run _ _ _ _)).
  cbn [fst snd rw_header rw_sent rw_body].
  erewrite bind_reply by (apply WriteHeader_run; done). cbn [fst snd].
  rewrite bind_read. cbn [fst snd]. rewrite reply_run. cbn [fst snd]. erewrite logged_write_run by done.
  cbn [fst snd]. unfold memoryAnswer, memoryHeader. cbv zeta.
  by destruct (sizeCb _ _ _).
Qed.

(** ** Announced lengths *)

Lemma memoryHeader_length size :
  (forall n, size = Some n -> 0 <= n <= max_int64) ->
  content_length (memoryHeader size ∅) = Z.to_nat <$> size.
Proof.
  intros Hs. unfold memoryHeader. destruct size as [n|]; cbn [fmap option_fmap option_map].
  - by rewrite content_length_set by (by apply Hs).
  - apply content_length_none. by hdr.
Qed.

(** Entries of a fixed size: an answer with as many bytes as announced has
    every entry. *)
Lemma memory_fixed (entry : Srv -> Z -> option bytes) serializeCb (size : Z -> Z -> option Z) sz p s cap start :
  let answer := memoryAnswer s cap start serializeCb (fun _ => size) p in
  let b := getCurrentHeight (p (tick s)) in
  let body := w_buf (rw_body answer.2) in
  (0 < sz)%nat -> 0 <= start <= max_int32 ->
  (forall s' a b, exists e, writes (serializeCb s' a b) (collect (entry s') (range a b)).1 e) ->
  (forall j bs, entry answer.1 j = Some bs -> length bs = sz) ->
  (start <= b -> size start b = Some ((b - start + 1) * Z.of_nat sz) /\ (b - start + 1) * Z.of_nat sz <= max_int64) ->
  (b < start -> size start b = None) ->
  forall n, (exists hdr, rw_sent answer.2 = Some (200, hdr) /\ content_length hdr = Some n) ->
  Z.of_nat n = (b - start + 1) * Z.of_nat sz /\ (length body <= n)%nat /\
  (length body = n -> collect_all (entry answer.1) (range start b) = Some body).
Proof.
  intros answer b body Hsz Hst Hw Hfix Hsize Hnone n (hdr & Hsent & Hn').
  subst answer body. unfold memoryAnswer in *. cbv zeta in *. cbn [fst snd rw_sent rw_body] in *. fold b in Hsent |- *.
  injection Hsent as <-. rewrite i32_id in * by (unfold int32, min_int32, max_int32 in *; lia).
  destruct (Z.leb_spec start b) as [Hb|Hb]; [specialize (Hsize Hb) as [Hsz' Hmax]|specialize (Hnone Hb)].
  2:{ rewrite Hnone, memoryHeader_length in Hn' by done. done. }
  rewrite Hsz' in Hn' |- *.
  pose proof (memoryHeader_length (Some ((b - start + 1) * Z.of_nat sz))) as EL.
  assert (Hpos : 0 <= (b - start + 1) * Z.of_nat sz) by (apply Z.mul_nonneg_nonneg; lia).
  rewrite EL in Hn' |- * by (intros ? [= <-]; lia). cbn in Hn' |- *. injection Hn' as <-.
  split; [lia|]. set (n := Z.to_nat _). set (st := tick (tick (tick s))) in *.
  destruct (collect_fixed (entry st) (range start b) sz Hsz Hfix) as [HL Hfull]. rewrite length_range in HL, Hfull.
  destruct (Hw st start b) as (e & Hwr). specialize (Hwr (mkWriter [] (cap_min cap (Some n)))).
  destruct Hwr as [Hroom Hshort]; [apply room_true; intros ? _; cbn; lia|].
  destruct (room _ _) eqn:Er.
  - rewrite Hroom by done. cbn. split; [lia|]. intros Hlen. unfold collect_all.
    destruct (collect _ _) as [out ok]. cbn in *. by rewrite Hfull by lia.
  - destruct (Hshort eq_refl) as (err & k & Hk & ->). cbn. rewrite length_take. split; lia.
Qed.

(** Entries of any size, when the size was computed from the data that is
    served. *)
Lemma memory_variable serializeCb sizeCb p s cap start out :
  let answer := memoryAnswer s cap start serializeCb sizeCb p in
  let b := getCurrentHeight (p (tick s)) in
  let body := w_buf (rw_body answer.2) in
  writes (serializeCb answer.1 (i32 start) b) out None -> Z.of_nat (length out) <= max_int64 ->
  sizeCb (tick (tick s)) (i32 start) b = Some (Z.of_nat (length out)) ->
  exists hdr, rw_sent answer.2 = Some (200, hdr) /\ content_length hdr = Some (length out) /\
    (length body <= length out)%nat /\ (length body = length out -> body = out) /\ (cap = None -> body = out).
Proof.
  intros answer b body Hw Hmax Hsize. subst answer body. unfold memoryAnswer in *. cbv zeta in *.
  cbn [fst snd rw_sent rw_body] in *. fold b in Hw |- *. rewrite Hsize. eexists. split; [done|].
  rewrite memoryHeader_length by (intros ? [= <-]; lia). cbn. rewrite Nat2Z.id. split; [done|].
  destruct (Hw (mkWriter [] (cap_min cap (Some (length out))))) as [Hroom Hshort];
    [apply room_true; intros ? _; cbn; lia|].
  destruct (room _ _) eqn:Er.
  - rewrite Hroom by done. cbn. by split_and!.
  - destruct (Hshort eq_refl) as (err & k & Hk & ->). cbn. rewrite length_take. split_and!; [lia|lia|].
    intros ->. apply room_false in Er as (n & [= <-] & Hlt). cbn in Hlt. lia.
Qed.

(** ** The path to a sealed file *)

(** The name of the file that starts at a height. *)
Definition sealedName (subDir fileSuffix : str) (entriesPerFile start : Z) : str :=
  block_file fileSuffix (filepath_Join (sv_baseDir c) subDir) start (i64 (start + entriesPerFile - 1)).

(** An answer is an error, the sealed file, or made from memory. *)
Lemma heightBased_cases r subDir suffix n serializeCb sizeCb p s cap s' w :
  heightBasedRequestHandler c tick r subDir suffix n serializeCb (Some sizeCb) p (s, newResponse cap) = (Ok tt, (s', w)) ->
  (exists status err, 400 <= status /\ w = (sendError status err (newResponse cap)).2) \/
  exists start, parseRequestParamInt64 r "height" = Ok start /\
    ((exists s0, s' = tick s0 /\
        w = (serveFile (the_fs s') (rq_Range r) (sealedName subDir suffix n start)
               (mkRW (hdr_set HeaderCache (cacheControl maxAgeDisk)
                  (hdr_add HeaderCORSMethods "GET, POST, OPTIONS" (hdr_add HeaderCORS "*" ∅))) None (new_writer cap))).2) \/
     (exists s0, fileExists (the_fs (tick s0)) (sealedName subDir suffix n start) = false) /\
     exists s0, (s', w) = memoryAnswer s0 cap start serializeCb sizeCb p).
Proof.
  assert (Herr : forall st err s0, 400 <= st -> reply (sendError st err) (s0, newResponse cap) = (Ok tt, (s', w)) ->
    exists status err, 400 <= status /\ w = (sendError status err (newResponse cap)).2).
  { intros st err s0 Hst. rewrite reply_run. cbn [fst snd]. intros [= _ <- <-]. by exists st, err. }
  unfold heightBasedRequestHandler. destruct (lightMode c); [intros E; left; by eapply (Herr status503)|].
  rewrite bind_read. cbn [fst snd]. destruct (negb _); [intros E; left; by eapply (Herr status503)|].
  destruct (parseRequestParamInt64 r "height") as [start|e] eqn:Ep; [|intros E; left; by eapply (Herr status400)].
  unfold checkStartHeight. intros E. apply bind_Ok_inv in E as (chk & [s0 w0] & [= Echk <- <-] & E).
  destruct chk as [u|e]; [|left; by eapply (Herr status400)]. cbv zeta in E. fold (sealedName subDir suffix n start) in E.
  rewrite bind_read in E. cbn [fst snd] in E. destruct (fileExists _ _) eqn:Ex.
  - erewrite bind_reply in E by reflexivity. rewrite bind_read in E. cbn [fst snd] in E.
    rewrite reply_run in E. cbn [fst snd] in E. injection E as _ <- <-. right. exists start. split; [done|].
    left. eexists. split; [reflexivity|]. reflexivity.
  - destruct (getBlockHash_locked tick (i32 start) (tick (tick (tick s)), newResponse cap)) as [rh s1] eqn:Eh.
    rewrite (serveMemory_run _ _ _ _ _ _ _ _ Eh) in E. destruct rh as [[hash|e]|e]; [| |done].
    + right. exists start. split; [done|]. right. split; [by eexists|]. exists s1.1. exact (eq_sym (f_equal snd E)).
    + left. injection E as _ <-. by exists status400, (Errorf "invalid height").
Qed.

End Content.

(** ** Properties *)

Section Properties.
Context `{Wi : Wire} `{WL : !WireLaws} `{T : !Tx} `{J : !Json} {W : Type} `{C : !Chain W} `{Hn : !Http W} `{R : !Rpc W} `{Sc : !Scheduler W}.
Context `{N : !Node W} `{Et : !ErrorText}.
Context (c : serverCfg) (tick : server (W := W) -> server (W := W)).

(** The answer of the memory path, if its status is 200. *)
Lemma serveMemory_200 start serializeCb sizeCb p s cap s' w hdr :
  serveMemory tick start serializeCb (Some sizeCb) p (s, newResponse cap) = (Ok tt, (s', w)) ->
  rw_sent w = Some (200, hdr) ->
  exists s0, (s', w) = memoryAnswer tick s0 cap start serializeCb sizeCb p.
Proof.
  destruct (getBlockHash_locked tick (i32 start) (s, newResponse cap)) as [r s0] eqn:E.
  rewrite (serveMemory_run _ _ _ _ _ _ _ _ _ E). destruct r as [[hash|e]|e]; [|intros [= <- <-]|done].
  - intros Em _. exists s0.1. exact (eq_sym (f_equal snd Em)).
  - destruct (sendError_status status400 (Errorf "invalid height") (newResponse cap)) as (h & ->); done.
Qed.

(** C34: the length announced for headers from memory detects truncation: for
    every interleaving with the producers and every failure of the connection
    the body is no longer than announced, and a body as long as announced is
    all headers of the range in order, as they were at the time of the write. *)
Theorem memory_headers_complete start s cap s' w hdr n :
  (forall s, -1 <= pv_current (headerFiles_ (tick s)) < max_int32) -> 0 <= start <= max_int32 ->
  serveMemory tick start serializeHeadersCb (Some (fun _ => headersSize))
    (fun s => processor_of (headerFiles_ s)) (s, newResponse cap) = (Ok tt, (s', w)) ->
  rw_sent w = Some (200, hdr) -> content_length hdr = Some n ->
  (length (w_buf (rw_body w)) <= n)%nat /\
  (length (w_buf (rw_body w)) = n -> exists b hs, Z.of_nat n = (b - start + 1) * 80 /\
     mapM (fun j => headers (pv_data (headerFiles_ s')) !! j) (range start b) = Some hs /\
     w_buf (rw_body w) = headers_bytes hs).
Proof.
  intros Hcur Hst E Hsent Hlen. destruct (serveMemory_200 _ _ _ _ _ _ _ _ _ E Hsent) as (s0 & Ea).
  pose proof (memory_fixed tick (fun s j => hdr_Serialize <$> headers (pv_data (headerFiles_ s)) !! j)
    serializeHeadersCb headersSize 80 (fun s => processor_of (headerFiles_ s)) s0 cap start) as G.
  cbv zeta in G. rewrite <- Ea in G. cbn [fst snd] in G. specialize (Hcur s0).
  destruct (G ltac:(lia) Hst) with (n := n) as (G1 & G2 & G3).
  - intros s1 a b. destruct (serializeHeaders_writes (pv_data (headerFiles_ s1)) a b) as (e & He & _). by exists e.
  - intros j bs (h & _ & ->)%fmap_Some. apply length_hdr_Serialize.
  - cbn. unfold headersSize, MaxBlockHeaderPayload, max_int32, max_int64 in *. intros Hb.
    rewrite (proj2 (Z.ltb_ge _ _)) by lia. i32norm. rewrite i64_id by (unfold max_int64; lia). split; [f_equal|]; lia.
  - cbn. unfold headersSize. intros Hb. by rewrite (proj2 (Z.ltb_lt _ _)) by lia.
  - by exists hdr.
  - split; [done|]. intros Hfull. apply G3, headers_collected in Hfull as (hs & H1 & H2).
    eexists _, hs. split; [exact G1|done].
Qed.

(** Compact filters from memory: while no block is added to or dropped from
    the memory of the producer, the announced length is the length of the
    filters served, and a body of that length is all of them, each with its
    var-int length. *)
Lemma memory_filters_complete start s cap s' w hdr n :
  (forall s, cFilterFiles_ (tick s) = cFilterFiles_ s) ->
  serveMemory tick start (fun s => serializeFilters (pv_data (cFilterFiles_ s)))
    (Some (fun s => filtersSize (pv_data (cFilterFiles_ s)))) (fun s => processor_of (cFilterFiles_ s))
    (s, newResponse cap) = (Ok tt, (s', w)) ->
  rw_sent w = Some (200, hdr) -> content_length hdr = Some n ->
  let d := pv_data (cFilterFiles_ s') in let b := pv_current (cFilterFiles_ s') in
  (forall fs, mapM (fun j => filters d !! j) (range (i32 start) b) = Some fs ->
     Z.of_nat (length (filters_bytes fs)) <= max_int64) ->
  exists fs, mapM (fun j => filters d !! j) (range (i32 start) b) = Some fs /\ n = length (filters_bytes fs) /\
    (length (w_buf (rw_body w)) <= n)%nat /\
    (length (w_buf (rw_body w)) = n -> w_buf (rw_body w) = filters_bytes fs).
Proof.
  intros Hcalm E Hsent Hlen d b Hmax. destruct (serveMemory_200 _ _ _ _ _ _ _ _ _ E Hsent) as (s0 & Ea).
  pose proof (memory_variable tick (fun s => serializeFilters (pv_data (cFilterFiles_ s)))
    (fun s => filtersSize (pv_data (cFilterFiles_ s))) (fun s => processor_of (cFilterFiles_ s)) s0 cap start) as G.
  assert (Hd : cFilterFiles_ s' = cFilterFiles_ s0) by (injection Ea as -> _; by rewrite !Hcalm).
  assert (Hhdr : hdr = memoryHeader (filtersSize d (i32 start) b) ∅).
  { injection Ea as _ ->. cbn in Hsent. injection Hsent as <-. subst d b. by rewrite Hd, !Hcalm. }
  assert (exists k, filtersSize d (i32 start) b = Some k) as [k Hk].
  { destruct (filtersSize d (i32 start) b); [by eexists|]. subst hdr. by rewrite memoryHeader_length in Hlen. }
  destruct (filtersSize_exact d (i32 start) b) as [Hex1 Hex2]. destruct (Hex2 k Hk) as [wr Hser].
  destruct (serializeFilters_writes d (i32 start) b) as (e & Hw & He).
  pose proof (writes_unlimited _ _ _ _ _ Hw He Hser) as Hall.
  assert (Hnone : e = None).
  { destruct (Hw (new_writer None)) as [A _]; [done|]. rewrite A in Hser by done. by destruct e. }
  apply collect_all_Some in Hall as HS. destruct HS as (ch & Hch & Ho).
  apply mapM_fmap_Some in Hch as (fs & Hfs & ->). specialize (Hmax fs Hfs). fold (filters_bytes fs) in Ho.
  rewrite <- Ho in Hmax. specialize (Hex1 wr Hser Hmax).
  cbv zeta in G. rewrite <- Ea in G. cbn [fst snd processor_of getCurrentHeight] in G. rewrite !Hcalm, <- Hd in G.
  pose proof (collect_end _ _ _ He Hnone) as Hc. rewrite Hall in Hc. injection Hc as Hc.
  rewrite <- Hc, Hnone in Hw.
  destruct (G (w_buf wr) Hw Hmax Hex1) as (hdr' & Hs & Hn' & G1 & G2 & _).
  rewrite Hsent in Hs. injection Hs as <-. rewrite Hlen in Hn'. injection Hn' as ->.
  exists fs. rewrite Ho in *. by split_and!.
Qed.
End Properties.

(** *** Witnesses *)

(** The memory path from height four: two headers. *)
Definition toy_memory (cap : option nat) : result unit * (server (W := toy_world) * ResponseWriter) :=
  serveMemory toy_tick 4 serializeHeadersCb (Some (fun _ => headersSize))
    (fun s => processor_of (headerFiles_ s)) (toy_server, newResponse cap).

Lemma memory_headers_complete_witness :
  exists b hs, 160 = (b - 4 + 1) * 80 /\
    mapM (fun j => headers (pv_data (headerFiles_ (toy_memory None).2.1)) !! j) (range 4 b) = Some hs /\
    w_buf (rw_body (toy_memory None).2.2) = headers_bytes hs.
Proof.
  assert (exists hdr, rw_sent (toy_memory None).2.2 = Some (200, hdr) /\ content_length hdr = Some 160%nat) as (hdr & H1 & H2).
  { eexists. split; [unfold toy_memory; server_compute|vm_compute; reflexivity]. }
  destruct (memory_headers_complete toy_tick 4 toy_server None (toy_memory None).2.1 (toy_memory None).2.2 hdr 160) as [_ H].
  - intros s. pose proof (toy_tick_bound s). unfold max_int32. lia.
  - unfold max_int32. lia.
  - assert ((toy_memory None).1 = Ok tt) as E by (unfold toy_memory; server_compute).
    rewrite <- E. unfold toy_memory. destruct (serveMemory _ _ _ _ _ _) as [? [? ?]]. reflexivity.
  - exact H1.
  - exact H2.
  - apply H. unfold toy_memory. server_compute.
Defined.

(** The first file, of two headers. *)
Definition toy_file : bytes := headers_bytes (Wi := toy_wire) (toy_headers 2).
