(* ===== verification/HandlersImport.v ===== *)
(** * Import files, and handlers while the producers rest

    The answers of the import handlers; and two answers of the height based
    handlers that are not what they should be. *)

From Stdlib Require Import ZArith Lia.
From stdpp Require Import base numbers list strings gmap.
From S2P Require Import Prelude GoInt Bytes GoStr GoIO Iface Backend Toy Files H2H Producer HeaderFiles CFilterFiles PrevOuts SPTweaks CustomFilters HttpServer HttpLaws Handlers LifeCycle ToyNet ToyServer HandlersContent.

Local Open Scope Z_scope.

Section ImportFiles.
Context `{Wi : Wire} `{WL : !WireLaws} `{T : !Tx} `{J : !Json} {W : Type} `{C : !Chain W} `{Hn : !Http W} `{R : !Rpc W} `{Sc : !Scheduler W}.
Context `{N : !Node W} `{Et : !ErrorText}.
Context (c : serverCfg) (tick : server (W := W) -> server (W := W)).
Abbreviation Srv := (server (W := W)).

(** Two states that a request for headers cannot tell apart: the producers of
    the filters and the backend may have moved on. *)
Record like (s s' : Srv) : Prop := {
  like_fs : the_fs s' = the_fs s;
  like_h2h : e_h2h (sv_env s') = e_h2h (sv_env s);
  like_waiting : sv_writerWaiting s' = sv_writerWaiting s;
  like_headers : headerFiles_ s' = headerFiles_ s
}.

#[global] Instance like_preorder : PreOrder like.
Proof.
  split; [by intros s|]. intros s1 s2 s3 [A1 B1 C1 D1] [A2 B2 C2 D2].
  split; [by rewrite A2|by rewrite B2|by rewrite C2|by rewrite D2].
Qed.

(** Nothing that concerns the headers happens during the request. *)
Definition calm : Prop := forall s, like s (tick s).
Hypothesis Hcalm : calm.

Lemma like_ticks s : like s (tick s) /\ like s (tick (tick s)) /\ like s (tick (tick (tick s))).
Proof.
  pose proof (Hcalm s). pose proof (Hcalm (tick s)). pose proof (Hcalm (tick (tick s))).
  split_and!; [done|by etransitivity|]. etransitivity; [done|]. by etransitivity.
Qed.

Lemma locked_hit h s w hash :
  sv_writerWaiting s = false -> heightToHash (e_h2h (sv_env s)) !! h = Some hash ->
  getBlockHash_locked tick h (s, w) = (Ok (Ok hash), (tick (tick s), w)).
Proof.
  intros Hw Hh. destruct (like_ticks s) as ([_ _ L1 _] & [_ L2 _ _] & _).
  unfold getBlockHash_locked. rewrite bind_read. cbn [fst snd]. rewrite L1, Hw.
  rewrite bind_read. cbn [fst snd]. by rewrite L2, Hh.
Qed.

Lemma locked_error h s w :
  sv_writerWaiting s = false -> heightToHash (e_h2h (sv_env s)) !! h = None ->
  (forall u : W, exists e, (GetBlockHash h u).1 = Err e) ->
  exists e s', getBlockHash_locked tick h (s, w) = (Ok (Err e), (s', w)) /\ like s s'.
Proof.
  intros Hw Hh Hb. destruct (like_ticks s) as ([_ _ L1 _] & [_ L2 _ _] & L3).
  unfold getBlockHash_locked. rewrite bind_read. cbn [fst snd]. rewrite L1, Hw.
  rewrite bind_read. cbn [fst snd]. rewrite L2, Hh.
  unfold bind, call, catch, onShared, background, modify, onWorld, zoom, bind. cbn.
  set (s3 := tick (tick (tick s))) in *. destruct (Hb (e_world (sv_env s3))) as [e He].
  destruct (GetBlockHash h (e_world (sv_env s3))) as [r u]. cbn in He. subst r.
  eexists _, _. split; [reflexivity|]. destruct L3. by split.
Qed.

(** ** A request in a quiet state *)

Section Quiet.
Variable s : Srv.
Hypothesis (Hmode : lightMode c = false) (Hstarted : pv_startup (headerFiles_ s) = true).
Hypothesis Hfree : sv_writerWaiting s = false.

(** The handlers of the headers and their heights. *)
Lemma heightBased_calm r subDir suffix n serializeCb sizeCb start cap :
  parseRequestParamInt64 r "height" = Ok start ->
  i32 start <= pv_current (headerFiles_ s) -> start = 0 \/ Z.rem start (i32 n) = 0 ->
  exists s', like s s' /\
  heightBasedRequestHandler c tick r subDir suffix n serializeCb (Some sizeCb)
    (fun s => processor_of (headerFiles_ s)) (s, newResponse cap)
  = if fileExists (the_fs s) (sealedName c subDir suffix n start)
    then (Ok tt, (s', (serveFile (the_fs s) (rq_Range r) (sealedName c subDir suffix n start)
               (mkRW (hdr_set HeaderCache (cacheControl maxAgeDisk)
                  (hdr_add HeaderCORSMethods "GET, POST, OPTIONS" (hdr_add HeaderCORS "*" ∅))) None (new_writer cap))).2))
    else serveMemory tick start serializeCb (Some sizeCb) (fun s => processor_of (headerFiles_ s)) (s', newResponse cap).
Proof.
  intros Hp Hcur Hmul. destruct (like_ticks s) as (L1 & L2 & L3).
  unfold heightBasedRequestHandler. rewrite Hmode. rewrite bind_read. cbn [fst snd processor_of isStartupComplete].
  rewrite (like_headers _ _ L1), Hstarted. cbn [negb]. rewrite Hp.
  unfold checkStartHeight. unfold bind at 1. rewrite bind_read. cbn [fst snd processor_of getCurrentHeight].
  rewrite (like_headers _ _ L2). unfold ret. rewrite (proj2 (Z.ltb_ge _ _)) by done.
  assert (negb (start =? 0) && negb (Z.rem start (i32 n) =? 0) = false) as ->.
  { destruct Hmul as [-> | ->]; [done|]. by rewrite andb_false_r. }
  cbv zeta. rewrite bind_read. cbn [fst snd]. fold (sealedName c subDir suffix n start).
  rewrite (like_fs _ _ L3). destruct (fileExists _ _).
  - erewrite bind_reply by reflexivity. rewrite bind_read. cbn [fst snd]. rewrite reply_run. cbn [fst snd].
    set (s4 := tick (tick (tick (tick s)))). assert (L4 : like s s4) by (etransitivity; [exact L3|apply Hcalm]).
    exists s4. split; [done|]. rewrite (like_fs _ _ L4).
    match goal with |- (?X.1, _) = _ => assert (E : X.1 = Ok tt); [|rewrite E; reflexivity] end.
    edestruct sends_serveFile as (w' & E & _). by rewrite E.
  - exists (tick (tick (tick s))). split; [exact L3|reflexivity].
Qed.
End Quiet.

(** ** The chain of headers, on disk and in memory *)

(** Everything below file [k] is on disk, the rest is in memory. *)
Record chain_state (n k : Z) (chain : list BlockHeader) (s : Srv) : Prop := {
  cs_started : pv_startup (headerFiles_ s) = true;
  cs_free : sv_writerWaiting s = false;
  cs_current : pv_current (headerFiles_ s) = Z.of_nat (length chain) - 1;
  cs_bound : 0 < Z.of_nat (length chain) <= 10000000;
  cs_sealed : pv_sealed (headerFiles_ s) = k * n - 1;
  cs_k : 0 <= k /\ k * n <= Z.of_nat (length chain);
  cs_files i : 0 <= i < k -> let name := sealedName c HeaderFileDir HeaderFileSuffix n (i * n) in
    fileExists (the_fs s) name = true /\
    readable (the_fs s) name = Ok (headers_bytes (take (Z.to_nat n) (drop (Z.to_nat (i * n)) chain)), true);
  cs_stop : fileExists (the_fs s) (sealedName c HeaderFileDir HeaderFileSuffix n (k * n)) = false;
  cs_memory j : k * n <= j < Z.of_nat (length chain) ->
    headers (pv_data (headerFiles_ s)) !! j = chain !! Z.to_nat j
}.

Lemma chain_state_like n k chain s s' : like s s' -> chain_state n k chain s -> chain_state n k chain s'.
Proof. intros [L1 L2 L3 L4] []. split; rewrite ?L1, ?L2, ?L3, ?L4; done. Qed.

(** The response after the bytes [bs] on a connection without a limit. *)
Definition sent_body (w : ResponseWriter) (x : Z * Header) (bs : bytes) : Prop :=
  rw_sent w = Some x /\ rw_body w = mkWriter bs None.

Lemma write_more w x bs more :
  sent_body w x bs -> exists w', http_write (w_Write more) w = (Ok tt, w') /\ sent_body w' x (bs ++ more).
Proof.
  intros [S B]. rewrite (http_write_run _ _ _ S), B. cbn. eexists. split; [done|]. by split.
Qed.

Lemma headers_bytes_take n i (chain : list BlockHeader) :
  headers_bytes (take (n * i) chain) ++ headers_bytes (take n (drop (n * i) chain)) = headers_bytes (take (n * i + n) chain).
Proof. unfold headers_bytes. by rewrite <- concat_app, <- map_app, take_take_drop. Qed.

(** The loop streams the files, up to the end or to the first missing one. *)
Lemma importLoop_run n k chain meta x e fuel i s w :
  0 < n -> chain_state n k chain s -> sent_body w x (meta ++ headers_bytes (take (Z.to_nat (i * n)) chain)) ->
  0 <= i <= k -> i * n <= e <= Z.of_nat (length chain) -> (e <= k * n -> Z.rem e n = 0) ->
  e - i * n + 1 < Z.of_nat fuel ->
  exists s' w', like s s' /\
    importLoop tick fuel (filepath_Join (sv_baseDir c) HeaderFileDir) HeaderFileSuffix n e (i * n) (s, w)
    = (Ok (if e <=? k * n then None else Some (k * n)), (s', w')) /\
    sent_body w' x (meta ++ headers_bytes (take (Z.to_nat (Z.min e (k * n))) chain)).
Proof.
  intros Hpos. revert i s w. induction fuel as [|fuel IH]; intros i s w Hc Hw Hi He Hmul Hf; [lia|].
  cbn [importLoop]. rewrite (proj2 (Z.ltb_ge _ _)) by lia.
  destruct (Z.eqb_spec (i * n) e) as [Ei|Hne].
  - rewrite (proj2 (Z.leb_le _ _)) by nia. exists s, w. rewrite Z.min_l, <- Ei by nia. by split_and!.
  - pose proof (cs_bound _ _ _ _ Hc). pose proof (cs_k _ _ _ _ Hc).
    destruct (like_ticks s) as (L1 & L2 & _). pose proof (chain_state_like _ _ _ _ _ L1 Hc) as Hc1.
    cbv zeta. rewrite bind_read. cbn [fst snd]. fold (sealedName c HeaderFileDir HeaderFileSuffix n (i * n)).
    destruct (decide (i = k)) as [->|Hik].
    + rewrite (cs_stop _ _ _ _ Hc1). cbn [negb]. rewrite (proj2 (Z.leb_gt _ _)) by lia.
      exists (tick s), w. rewrite Z.min_r by lia. by split_and!.
    + destruct (cs_files _ _ _ _ Hc1 i) as [-> _]; [lia|]. cbn [negb]. rewrite bind_read. cbn [fst snd].
      pose proof (chain_state_like _ _ _ _ _ L2 Hc) as Hc2. destruct (cs_files _ _ _ _ Hc2 i) as [_ Hr]; [lia|].
      destruct (write_more _ _ _ (headers_bytes (take (Z.to_nat n) (drop (Z.to_nat (i * n)) chain))) Hw) as (w' & E & Hw').
      rewrite <- app_assoc in Hw'. replace (Z.to_nat (i * n)) with (Z.to_nat n * Z.to_nat i)%nat in Hw' by lia.
      rewrite headers_bytes_take in Hw'.
      replace (Z.to_nat n * Z.to_nat i + Z.to_nat n)%nat with (Z.to_nat ((i + 1) * n)) in Hw' by lia.
      assert (Es : catch (reply (streamFile (the_fs (tick (tick s))) (sealedName c HeaderFileDir HeaderFileSuffix n (i * n))))
                     (tick (tick s), w) = (Ok (Ok tt), (tick (tick s), w'))).
      { unfold catch. rewrite reply_run. unfold streamFile, bind, liftR. cbn [fst snd].
        rewrite Hr. cbn [fst snd]. by rewrite E. }
      rewrite (bind_Ok _ _ _ _ _ Es). rewrite i64_id by (unfold max_int64; nia).
      replace (i * n + n) with ((i + 1) * n) by lia.
      assert (Hnext : (i + 1) * n <= e).
      { destruct (decide (e <= k * n)) as [Hle|]; [|nia]. specialize (Hmul Hle).
        apply Z.rem_divide in Hmul as [q ->]; [|lia]. assert (i < q) by nia. nia. }
      destruct (IH (i + 1) (tick (tick s)) w') as (s' & w'' & L & E' & B); [done|done|lia|lia|done|lia|].
      exists s', w''. split; [by etransitivity|done].
Qed.

(** The header of an import answer. *)
Definition importHeader (maxAge : Z) : Header :=
  hdr_set HeaderCache (cacheControl maxAge)
    (hdr_add HeaderCORSMethods "GET, POST, OPTIONS" (hdr_add HeaderCORS "*" ∅)).

(** The checks and the header. *)
Lemma import_start n k chain s r fileType e :
  lightMode c = false -> 0 < n -> chain_state n k chain s -> parseRequestParamInt64 r "height" = Ok e ->
  0 < e <= Z.of_nat (length chain) -> (e <= k * n -> Z.rem e n = 0) ->
  exists s1 w1, like s s1 /\
    heightBasedImportRequestHandler c tick r HeaderFileDir HeaderFileSuffix n serializeHeadersCb fileType
      (s, newResponse None)
    = importBody c tick HeaderFileDir HeaderFileSuffix n serializeHeadersCb fileType e (s1, w1) /\
    sent_body w1 (200, importHeader (if e <=? k * n then maxAgeDisk else maxAgeMemory)) [].
Proof.
  intros Hmode Hpos Hc Hp He Hmul. destruct (like_ticks s) as (L1 & L2 & L3).
  pose proof (cs_bound _ _ _ _ Hc). pose proof (cs_k _ _ _ _ Hc).
  unfold heightBasedImportRequestHandler, checkImportPreconditions. rewrite Hmode.
  cbv iota. unfold bind at 1. rewrite bind_read. cbn [fst snd]. rewrite (like_headers _ _ L1), (cs_started _ _ _ _ Hc).
  cbn [negb]. unfold ret at 1. cbv beta iota. cbn [negb]. rewrite Hp. unfold checkEndHeight. unfold bind at 1. rewrite bind_read.
  cbn [fst snd processor_of getCurrentHeight]. rewrite (like_headers _ _ L2), (cs_current _ _ _ _ Hc).
  unfold ret at 1. cbv beta iota. i32norm. rewrite (proj2 (Z.ltb_ge _ _)) by lia. rewrite (proj2 (Z.eqb_neq e 0)) by lia.
  unfold serveHeightBasedImport. rewrite bind_read. cbn [fst snd]. rewrite (like_headers _ _ L3), (cs_sealed _ _ _ _ Hc).
  cbv zeta. i32norm. replace (k * n - 1 + 1) with (k * n) by lia.
  assert ((e <=? k * n) && negb (Z.rem e n =? 0) = false) as ->.
  { destruct (Z.leb_spec e (k * n)); [|done]. by rewrite Hmul. }
  erewrite bind_reply by reflexivity. eexists _, _. split; [exact L3|]. split; [reflexivity|].
  destruct (e <=? k * n); by split.
Qed.

(** The metadata and the files. *)
Lemma import_files n k chain x s w fileType e :
  0 < n -> chain_state n k chain s -> sent_body w x [] ->
  0 < e <= Z.of_nat (length chain) -> (e <= k * n -> Z.rem e n = 0) ->
  exists s' w', like s s' /\
    sent_body w' x (importMetadata c fileType ++ headers_bytes (take (Z.to_nat (Z.min e (k * n))) chain)) /\
    importBody c tick HeaderFileDir HeaderFileSuffix n serializeHeadersCb fileType e (s, w)
    = if e <=? k * n then (Ok tt, (s', w'))
      else (let! hash := getBlockHash_locked tick (i32 (k * n)) in
            match hash with
            | Err _ => reply (sendError status400 (Errorf "invalid height"))
            | Ok _ =>
                let! serialize := read tick (fun s => serializeHeadersCb s (i32 (k * n)) (i32 (i32 e - 1))) in
                reply (logged (http_write serialize))
            end) (s', w').
Proof.
  intros Hpos Hc Hw He Hmul. pose proof (cs_k _ _ _ _ Hc).
  unfold importBody. destruct (write_more _ _ _ (importMetadata c fileType) Hw) as (w1 & E1 & Hw1). cbn [app] in Hw1.
  assert (Em : catch (reply (http_write (w_Write (importMetadata c fileType)))) (s, w) = (Ok (Ok tt), (s, w1))).
  { unfold catch. rewrite reply_run. cbn [fst snd]. by rewrite E1. }
  rewrite (bind_Ok _ _ _ _ _ Em).
  destruct (importLoop_run n k chain (importMetadata c fileType) x e (Datatypes.S (Datatypes.S (Z.to_nat e))) 0 s w1)
    as (s2 & w2 & L & E2 & Hw2); [done|done| |lia|lia|done|lia|].
  { change (Z.to_nat (0 * n)) with 0%nat. rewrite take_0. change (headers_bytes []) with ([] : bytes). by rewrite app_nil_r. }
  change (0 * n) with 0 in E2. exists s2, w2. split; [done|]. split; [done|].
  rewrite (bind_Ok _ _ _ _ _ E2). by destruct (e <=? k * n).
Qed.

(** Headers that are all in memory are all written. *)
Lemma serializeHeaders_all d a b hs w x bs :
  mapM (fun j => headers d !! j) (range a b) = Some hs -> sent_body w x bs ->
  exists w', logged (http_write (serializeHeaders d a b)) w = (Ok tt, w') /\ sent_body w' x (bs ++ headers_bytes hs).
Proof.
  intros Hhs [S B]. destruct (serializeHeaders_writes d a b) as (e & Hw & He).
  assert (Hall : collect_all (fun j => hdr_Serialize <$> headers d !! j) (range a b) = Some (headers_bytes hs)).
  { apply collect_all_Some. exists (map hdr_Serialize hs). split; [|done].
    apply mapM_fmap_Some. by exists hs. }
  unfold collect_all in Hall. destruct (collect _ _) as [out ok]. destruct ok; [|done]. injection Hall as ->.
  cbn [fst snd] in Hw, He. destruct (Hw (mkWriter bs None)) as [A _]; [done|]. specialize (A eq_refl).
  rewrite (logged_write_run _ _ _ S), B, A. cbn. eexists. split; [done|]. by split.
Qed.

(** The part of the chain that is in memory. *)
Lemma memory_part n k chain s e :
  chain_state n k chain s -> 0 <= k * n <= e -> e <= Z.of_nat (length chain) ->
  mapM (fun j => headers (pv_data (headerFiles_ s)) !! j) (range (k * n) (e - 1))
  = Some (take (Z.to_nat (e - k * n)) (drop (Z.to_nat (k * n)) chain)).
Proof.
  intros Hc Hk He. apply mapM_Some, Forall2_same_length_lookup. split.
  - rewrite length_range, length_take, length_drop. lia.
  - intros i j h Hj Hh. unfold range in Hj. apply lookup_seqZ in Hj as [-> Hi].
    rewrite lookup_take in Hh. case_decide; [|done]. rewrite lookup_drop in Hh.
    rewrite (cs_memory _ _ _ _ Hc) by lia. rewrite <- Hh. f_equal. lia.
Qed.
End ImportFiles.

(** ** Properties *)

Section Properties.
Context `{Wi : Wire} `{WL : !WireLaws} `{T : !Tx} `{J : !Json} {W : Type} `{C : !Chain W} `{Hn : !Http W} `{R : !Rpc W} `{Sc : !Scheduler W}.
Context `{N : !Node W} `{Et : !ErrorText}.
Context (c : serverCfg) (tick : server (W := W) -> server (W := W)).

(** C9: an import file is the chain: while the headers are at rest, the answer
    to an end height up to the tip is the metadata followed by the headers of
    all heights below it, in order, from the files and from memory; it may be
    cached for a year only if all of it comes from sealed files. *)
Theorem import_is_the_chain r e k chain s :
  calm tick -> lightMode c = false -> 0 < headersPerFile c ->
  chain_state c (headersPerFile c) k chain s -> parseRequestParamInt64 r "height" = Ok e ->
  0 < e <= Z.of_nat (length chain) -> (e <= k * headersPerFile c -> Z.rem e (headersPerFile c) = 0) ->
  is_Some (heightToHash (e_h2h (sv_env s)) !! (k * headersPerFile c)) ->
  exists s' w hdr, headersImportRequestHandler c tick r (s, newResponse None) = (Ok tt, (s', w)) /\
    rw_sent w = Some (200, hdr) /\
    hdr_get HeaderCache hdr = cacheControl (if e <=? k * headersPerFile c then maxAgeDisk else maxAgeMemory) /\
    w_buf (rw_body w) = importMetadata c typeBlockHeader ++ headers_bytes (take (Z.to_nat e) chain).
Proof.
  intros Hcalm Hmode Hpos Hc Hp He Hmul [hash Hhash]. set (n := headersPerFile c) in *.
  destruct (import_start c tick Hcalm n k chain s r typeBlockHeader e) as (s1 & w1 & L1 & E1 & B1); [done..|].
  pose proof (chain_state_like c n k chain _ _ L1 Hc) as Hc1.
  destruct (import_files c tick Hcalm n k chain _ s1 w1 typeBlockHeader e Hpos Hc1 B1 He Hmul) as (s2 & w2 & L2 & [S2 B2] & E2).
  pose proof (cs_k _ _ _ _ _ Hc). pose proof (cs_bound _ _ _ _ _ Hc).
  unfold headersImportRequestHandler. fold n. rewrite E1, E2. destruct (Z.leb_spec e (k * n)) as [Hle|Hgt].
  - exists s2, w2. eexists. split; [done|]. split; [exact S2|]. split; [by hdr|]. rewrite B2. cbn [w_buf]. by rewrite Z.min_l by lia.
  - assert (L12 : like s s2) by (by etransitivity). pose proof (chain_state_like c n k chain _ _ L12 Hc) as Hc2.
    assert (Hk32 : i32 (k * n) = k * n) by (apply i32_id; unfold int32, min_int32, max_int32; lia).
    rewrite Hk32. rewrite (bind_Ok _ _ _ (Ok hash) (tick (tick s2), w2)).
    2:{ apply locked_hit; [done|apply Hc2|]. by rewrite (like_h2h _ _ L12). }
    rewrite bind_read. cbn [fst snd]. i32norm. destruct (like_ticks tick Hcalm s2) as (_ & _ & L3).
    pose proof (chain_state_like c n k chain _ _ L3 Hc2) as Hc3.
    destruct (serializeHeaders_all (pv_data (headerFiles_ (tick (tick (tick s2))))) (k * n) (e - 1) _ w2 _ _
      (memory_part c n k chain _ e Hc3 ltac:(lia) ltac:(lia)) (conj S2 B2)) as (w3 & E3 & S3 & B3).
    rewrite reply_run. cbn [fst snd]. unfold serializeHeadersCb. rewrite E3. cbn [fst snd].
    eexists _, _, _. split; [reflexivity|]. split; [exact S3|]. split; [by hdr|]. rewrite B3. cbn [w_buf].
    rewrite Z.min_r, <- app_assoc by lia. f_equal. unfold headers_bytes. rewrite <- concat_app, <- map_app. do 2 f_equal.
    rewrite take_take_drop. f_equal. lia.
Qed.

(** C35: the status of an import answer cannot be taken back: when the height
    after the files cannot be looked up, the client gets status 200 and a body
    in which the text of the error follows the headers. *)
Theorem import_error_in_the_body r e k chain s :
  calm tick -> lightMode c = false -> 0 < headersPerFile c ->
  chain_state c (headersPerFile c) k chain s -> parseRequestParamInt64 r "height" = Ok e ->
  k * headersPerFile c < e <= Z.of_nat (length chain) ->
  heightToHash (e_h2h (sv_env s)) !! (k * headersPerFile c) = None ->
  (forall u : W, exists e, (GetBlockHash (k * headersPerFile c) u).1 = Err e) ->
  exists s' w hdr, headersImportRequestHandler c tick r (s, newResponse None) = (Ok tt, (s', w)) /\
    rw_sent w = Some (200, hdr) /\
    w_buf (rw_body w) = importMetadata c typeBlockHeader
      ++ headers_bytes (take (Z.to_nat (k * headersPerFile c)) chain) ++ err_Error (Errorf "invalid height").
Proof.
  intros Hcalm Hmode Hpos Hc Hp He Hnone Hback. set (n := headersPerFile c) in *.
  pose proof (cs_k _ _ _ _ _ Hc). pose proof (cs_bound _ _ _ _ _ Hc).
  destruct (import_start c tick Hcalm n k chain s r typeBlockHeader e) as (s1 & w1 & L1 & E1 & B1); [done..|nia|lia|].
  pose proof (chain_state_like c n k chain _ _ L1 Hc) as Hc1.
  destruct (import_files c tick Hcalm n k chain _ s1 w1 typeBlockHeader e Hpos Hc1 B1) as (s2 & w2 & L2 & [S2 B2] & E2); [nia|lia|].
  unfold headersImportRequestHandler. fold n. rewrite E1, E2. rewrite (proj2 (Z.leb_gt _ _)) by lia.
  assert (L12 : like s s2) by (by etransitivity). pose proof (chain_state_like c n k chain _ _ L12 Hc) as Hc2.
  assert (Hk32 : i32 (k * n) = k * n) by (apply i32_id; unfold int32, min_int32, max_int32; lia).
  rewrite Hk32.
  destruct (locked_error tick Hcalm (k * n) s2 w2) as (err & s3 & E3 & _); [apply Hc2|by rewrite (like_h2h _ _ L12)|done|].
  rewrite (bind_Ok _ _ _ _ _ E3). rewrite reply_run. cbn [fst snd]. rewrite (sendError_late _ _ _ _ S2).
  cbn [fst snd]. eexists _, _, _. split; [reflexivity|]. split; [reflexivity|]. rewrite B2. cbn [rw_body].
  assert (Hw : forall bs more, (w_Write more (mkWriter bs None)).2 = mkWriter (bs ++ more) None) by done.
  rewrite Hw, Z.min_r by lia. cbn [w_buf]. by rewrite <- app_assoc.
Qed.

(** C36: a start height is compared after its conversion to 32 bits: a multiple
    of the file size that becomes zero is accepted far above the tip, and when
    the first headers are sealed the answer is status 200 with the length of
    all headers announced and an empty body. *)
Theorem huge_start_height_accepted r start s hash :
  calm tick -> lightMode c = false -> pv_startup (headerFiles_ s) = true -> sv_writerWaiting s = false ->
  parseRequestParamInt64 r "height" = Ok start -> i32 start = 0 -> Z.rem start (i32 (headersPerFile c)) = 0 ->
  0 <= pv_current (headerFiles_ s) < max_int32 ->
  fileExists (the_fs s) (sealedName c HeaderFileDir HeaderFileSuffix (headersPerFile c) start) = false ->
  heightToHash (e_h2h (sv_env s)) !! 0 = Some hash ->
  headers (pv_data (headerFiles_ s)) !! 0 = None ->
  exists s' w hdr, headersRequestHandler c tick r (s, newResponse None) = (Ok tt, (s', w)) /\
    rw_sent w = Some (200, hdr) /\
    content_length hdr = Some (Z.to_nat ((pv_current (headerFiles_ s) + 1) * 80)) /\ w_buf (rw_body w) = [].
Proof.
  intros Hcalm Hmode Hst Hfree Hp H0 Hrem Hcur Hfile Hhash Hmiss.
  destruct (heightBased_calm c tick Hcalm s Hmode Hst r HeaderFileDir HeaderFileSuffix (headersPerFile c)
    serializeHeadersCb (fun _ => headersSize) start None) as (s1 & L1 & E1); [done|lia|by right|].
  unfold headersRequestHandler. rewrite E1, Hfile.
  erewrite serveMemory_run.
  2:{ rewrite H0. apply (locked_hit tick Hcalm 0 s1 _ hash).
      - by rewrite (like_waiting _ _ L1).
      - by rewrite (like_h2h _ _ L1). }
  cbv beta iota. cbn [fst]. unfold memoryAnswer. cbv zeta. cbn [processor_of getCurrentHeight].
  set (s2 := tick (tick s1)). destruct (like_ticks tick Hcalm s1) as (_ & L2 & _). fold s2 in L2.
  destruct (like_ticks tick Hcalm s2) as (M1 & M2 & M3).
  assert (L : like s s2) by (by etransitivity).
  rewrite (like_headers _ _ M1), (like_headers _ _ L), H0.
  set (cur := pv_current (headerFiles_ s)) in *.
  assert (Hsize : headersSize 0 cur = Some ((cur + 1) * 80)).
  { unfold headersSize, MaxBlockHeaderPayload, max_int32 in *. rewrite (proj2 (Z.ltb_ge _ _)) by lia. i32norm.
    rewrite i64_id by (unfold max_int64; lia). f_equal. lia. }
  rewrite Hsize. eexists _, _, _. split; [reflexivity|]. split; [reflexivity|].
  rewrite memoryHeader_length by (intros ? [= <-]; unfold max_int32, max_int64 in *; lia). split; [done|].
  cbn [rw_body]. unfold serializeHeadersCb, serializeHeaders. rewrite range_cons by lia. cbn [forM].
  rewrite (like_headers _ _ M3), (like_headers _ _ L), Hmiss. done.
Qed.

(** C37: whether a range is sealed is asked of the file system: a file that a
    seal has only begun to write is served as it is, with status 200, its
    length so far, and a year of caching, whatever the sealed height. *)
Theorem unfinished_file_is_served r start s bs :
  calm tick -> lightMode c = false -> pv_startup (headerFiles_ s) = true ->
  parseRequestParamInt64 r "height" = Ok start -> rq_Range r = NoRange ->
  i32 start <= pv_current (headerFiles_ s) -> start = 0 \/ Z.rem start (i32 (headersPerFile c)) = 0 ->
  fs_files (the_fs s) !! sealedName c HeaderFileDir HeaderFileSuffix (headersPerFile c) start = Some bs ->
  fs_faults (the_fs s) = no_faults -> Z.of_nat (length bs) <= max_int64 ->
  exists s' w hdr, headersRequestHandler c tick r (s, newResponse None) = (Ok tt, (s', w)) /\
    rw_sent w = Some (200, hdr) /\ w_buf (rw_body w) = bs /\ content_length hdr = Some (length bs) /\
    hdr_get HeaderCache hdr = cacheControl maxAgeDisk.
Proof.
  intros Hcalm Hmode Hst Hp Hr Hcur Hmul Hf Hno Hmax.
  destruct (heightBased_calm c tick Hcalm s Hmode Hst r HeaderFileDir HeaderFileSuffix (headersPerFile c)
    serializeHeadersCb (fun _ => headersSize) start None) as (s1 & L1 & E1); [done..|].
  unfold headersRequestHandler. rewrite E1.
  assert (fileExists (the_fs s) (sealedName c HeaderFileDir HeaderFileSuffix (headersPerFile c) start) = true) as ->.
  { unfold fileExists, os_Stat. rewrite Hno. cbn [fault_stat no_faults].
    rewrite bool_decide_eq_true_2; [done|]. left. rewrite Hf. by eexists. }
  set (w0 := mkRW _ None (new_writer None)).
  destruct (serveFile_run (the_fs s) (rq_Range r) _ bs w0 None Hf Hno Hmax) as (w & Ew & G); [done..|].
  rewrite Ew. cbn [snd]. rewrite Hr in G. cbn [parseRange] in G. destruct G as (hdr & (S1 & B1 & L) & Hcache).
  exists s1, w, hdr. split_and!; [done..|]. rewrite Hcache. unfold w0. cbn [rw_header]. by hdr.
Qed.
End Properties.

(** *** Witnesses *)

Definition idle (s : server (W := toy_world)) : server (W := toy_world) := s.
Lemma idle_calm : calm idle.
Proof. intros s. split; reflexivity. Qed.

Definition toy_chain6 : list (BlockHeader (Wire := toy_wire)) := toy_headers 6.

Lemma toy_chain_state : chain_state toy_cfg 2 2 toy_chain6 toy_server.
Proof.
  split.
  - server_compute.
  - reflexivity.
  - server_compute.
  - split; [reflexivity|discriminate].
  - server_compute.
  - split; [lia|discriminate].
  - intros i Hi. assert (i = 0 \/ i = 1) as [-> | ->] by lia; split; server_compute.
  - server_compute.
  - intros j Hj. change (4 <= j < 6) in Hj. assert (j = 4 \/ j = 5) as [-> | ->] by lia; server_compute.
Qed.

(** An import up to height five: two files, one header from memory. *)
Lemma import_is_the_chain_witness :
  exists s' w hdr, headersImportRequestHandler toy_cfg idle (toy_request "5" NoRange) (toy_server, newResponse None)
    = (Ok tt, (s', w)) /\ rw_sent w = Some (200, hdr) /\
    hdr_get HeaderCache hdr = "public, max-age=60" /\
    w_buf (rw_body w) = importMetadata toy_cfg typeBlockHeader ++ headers_bytes (take 5 toy_chain6).
Proof.
  destruct (import_is_the_chain toy_cfg idle (toy_request "5" NoRange) 5 2 toy_chain6 toy_server)
    as (s' & w & hdr & H1 & H2 & H3 & H4).
  - exact idle_calm.
  - reflexivity.
  - reflexivity.
  - exact toy_chain_state.
  - vm_compute. reflexivity.
  - split; [reflexivity|discriminate].
  - intros Hle. exfalso. apply Hle. reflexivity.
  - assert (heightToHash (e_h2h (sv_env toy_server)) !! 4 = Some (BlockHash (Wire := toy_wire) (default (tb_header (toy_mk [] 0)) (toy_chain6 !! 4%nat)))) as E
      by server_compute.
    exists (BlockHash (Wire := toy_wire) (default (tb_header (toy_mk [] 0)) (toy_chain6 !! 4%nat))). exact E.
  - exists s', w, hdr. split; [exact H1|]. split; [exact H2|]. split; [rewrite H3; vm_compute; reflexivity|exact H4].
Defined.

(** The same with an empty cache and a backend that does not answer. *)
Definition toy_uncached : server (W := toy_world) := set_sv_env (mkEnv (toy_env 6) (the_fs toy_server) newH2HCache) toy_server.
Definition dead_chain : Chain (Wi := toy_wire) toy_world := {|
  GetBlockHash := fun _ w => (Err (External "dead"), w);
  GetBlockHeader := fun _ w => (Err (External "dead"), w);
  GetBlockFilter := fun _ w => (Err (External "dead"), w);
  GetBlockCount := fun w => (Err (External "dead"), w);
  quitClosed := fun w => (false, w)
|}.

Lemma import_error_in_the_body_witness :
  exists s' w hdr, headersImportRequestHandler (C := dead_chain) toy_cfg idle (toy_request "5" NoRange)
      (toy_uncached, newResponse None) = (Ok tt, (s', w)) /\
    rw_sent w = Some (200, hdr) /\
    w_buf (rw_body w) = importMetadata toy_cfg typeBlockHeader ++ headers_bytes (take 4 toy_chain6) ++ string_bytes "error".
Proof.
  destruct (import_error_in_the_body (C := dead_chain) toy_cfg idle (toy_request "5" NoRange) 5 2 toy_chain6 toy_uncached)
    as (s' & w & hdr & H1 & H2 & H3).
  - exact idle_calm.
  - reflexivity.
  - reflexivity.
  - destruct toy_chain_state. split; assumption.
  - vm_compute. reflexivity.
  - split; [reflexivity|discriminate].
  - reflexivity.
  - intros u. eexists. reflexivity.
  - exists s', w, hdr. split; [exact H1|]. split; [exact H2|exact H3].
Defined.

(** Height 4294967296, with files of two headers. *)
Lemma huge_start_height_accepted_witness :
  exists s' w hdr, headersRequestHandler toy_cfg idle (toy_request "4294967296" NoRange) (toy_server, newResponse None)
    = (Ok tt, (s', w)) /\ rw_sent w = Some (200, hdr) /\
    content_length hdr = Some 480%nat /\ w_buf (rw_body w) = [].
Proof.
  assert (pv_current (headerFiles_ toy_server) = 5) as Hcur by server_compute.
  destruct (huge_start_height_accepted toy_cfg idle (toy_request "4294967296" NoRange) 4294967296 toy_server
    (BlockHash (Wire := toy_wire) (default (tb_header (toy_mk [] 0)) (toy_chain6 !! 0%nat))))
    as (s' & w & hdr & H1 & H2 & H3 & H4).
  - exact idle_calm.
  - reflexivity.
  - server_compute.
  - reflexivity.
  - vm_compute. reflexivity.
  - reflexivity.
  - reflexivity.
  - rewrite Hcur. unfold max_int32. lia.
  - server_compute.
  - server_compute.
  - server_compute.
  - exists s', w, hdr. rewrite Hcur in H3. split; [exact H1|]. split; [exact H2|]. split; [exact H3|exact H4].
Defined.

(** The first seal has written half a header; nothing is sealed yet. *)
Definition toy_sealing_server : server (W := toy_world) :=
  set_sv_env (mkEnv (toy_env 6)
    (mkFS {[ sealedName toy_cfg HeaderFileDir HeaderFileSuffix 2 0 := take 40 toy_file ]} ∅ no_faults)
    (e_h2h (sv_env toy_unsealed_server))) toy_unsealed_server.

Lemma unfinished_file_is_served_witness :
  pv_sealed (headerFiles_ toy_sealing_server) = -1 /\
  exists s' w hdr, headersRequestHandler toy_cfg idle (toy_request "0" NoRange) (toy_sealing_server, newResponse None)
    = (Ok tt, (s', w)) /\ rw_sent w = Some (200, hdr) /\ w_buf (rw_body w) = take 40 toy_file /\
    hdr_get HeaderCache hdr = "public, max-age=31536000, stale-while-revalidate=86400".
Proof.
  assert (pv_current (headerFiles_ toy_sealing_server) = 5) as Hcur by (unfold toy_sealing_server; server_compute).
  split; [unfold toy_sealing_server; server_compute|].
  destruct (unfinished_file_is_served toy_cfg idle (toy_request "0" NoRange) 0 toy_sealing_server (take 40 toy_file))
    as (s' & w & hdr & H1 & H2 & H3 & _ & H4).
  - exact idle_calm.
  - reflexivity.
  - unfold toy_sealing_server. server_compute.
  - vm_compute. reflexivity.
  - reflexivity.
  - rewrite Hcur. discriminate.
  - left. reflexivity.
  - vm_compute. reflexivity.
  - reflexivity.
  - vm_compute. discriminate.
  - exists s', w, hdr. split; [exact H1|]. split; [exact H2|]. split; [exact H3|]. rewrite H4. vm_compute. reflexivity.
Defined.
