(* ===== verification/Server.v ===== *)
(** * The server

    [server.go], and the choice of the network in [main.go]: what is checked
    before anything runs, which goroutines are started, the threads they are
    in [System], and how errors reach the end of the process. *)

From Stdlib Require Import ZArith Lia.
From stdpp Require Import base numbers list strings gmap.
From S2P Require Import Prelude GoInt Bytes GoStr GoIO Iface Backend Files H2H Producer Threads System HeaderFiles CFilterFiles PrevOuts SPTweaks CustomFilters HttpServer Handlers.

Local Open Scope Z_scope.

(** ** The network *)

Inductive Network := MainNetParams | TestNet3Params | TestNet4Params | SigNetParams | RegressionNetParams.

(** The flags of [mainCommand] that select it. *)
Record networkFlags := mkFlags { testnet : bool; testnet4 : bool; signet : bool; regtest : bool }.

Definition DefaultHeadersPerFile : Z := 100000.
Definition DefaultFiltersPerFile : Z := 2000.
Definition DefaultSPTweaksPerFile : Z := 2000.
Definition DefaultRegtestHeadersPerFile : Z := 2000.
Definition DefaultRegtestFiltersPerFile : Z := 2000.
Definition DefaultRegtestSPTweaksPerFile : Z := 2000.
Definition defaultMainnetReOrgSafeDepth : Z := 6.
Definition defaultTestnetReOrgSafeDepth : Z := 100.

(** [resolveNetwork]: the network, the entries per file, and the safe depth it
    leaves in the command. *)
Definition resolveNetwork (fl : networkFlags) (reOrgSafeDepth : Z) : Network * (Z * Z * Z) * Z :=
  let sizes := (DefaultHeadersPerFile, DefaultFiltersPerFile, DefaultSPTweaksPerFile) in
  let testDepth := if reOrgSafeDepth =? defaultMainnetReOrgSafeDepth then defaultTestnetReOrgSafeDepth
                   else reOrgSafeDepth in
  if testnet fl then (TestNet3Params, sizes, testDepth)
  else if testnet4 fl then (TestNet4Params, sizes, testDepth)
  else if signet fl then (SigNetParams, sizes, reOrgSafeDepth)
  else if regtest fl then
    (RegressionNetParams,
     (DefaultRegtestHeadersPerFile, DefaultRegtestFiltersPerFile, DefaultRegtestSPTweaksPerFile), reOrgSafeDepth)
  else (MainNetParams, sizes, reOrgSafeDepth).

(** ** Creating the server *)

Definition defaultReadTimeout : Z := 5 * Second.
Definition defaultWriteTimeout : Z := 5 * 60 * Second.

(** The constants of a [server]; those the handlers read are a [serverCfg]. *)
Record serverOptions := mkOptions {
  so_cfg : serverCfg;
  indexSPTweakData : bool;
  indexCustomFilters : bool;
  listenAddr : str;
  readTimeout : Z;
  writeTimeout : Z
}.

(** [newServer]; the constants that are not fields, and the REST address, come
    with the configuration. *)
Definition newServer (cfg : serverCfg) (indexSPTweakData indexCustomFilters : bool) (listenAddr : str)
    (readTimeout writeTimeout : Z) : serverOptions :=
  mkOptions cfg indexSPTweakData indexCustomFilters listenAddr
    (if readTimeout <=? 0 then defaultReadTimeout else readTimeout)
    (if writeTimeout <=? 0 then defaultWriteTimeout else writeTimeout).

(** The producers, and the goroutines [start] starts. *)
Inductive producer := Headers | Filters | SPTweakData | CustomFilterSets.
#[export] Instance producer_eq_dec : EqDecision producer.
Proof. solve_decision. Defined.

Inductive goroutine := WebServer | UpdateFiles (p : producer) (numBlocks : Z).

(** The rest of the RPC client: connecting, the version of the backend, and
    its number of blocks. *)
Class Admin (W : Type) := {
  rpcclient_New : M W unit;
  GetNetworkInfo : M W Z;
  GetBlockChainInfo : M W Z
}.

Section Server.
Context `{Wi : Wire} `{T : !Tx} `{J : !Json} `{G : !Gcs} {W : Type} `{C : !Chain W} `{Hn : !Http W} `{R : !Rpc W} `{Sc : !Scheduler W}.
Context `{SP : !SilentPayments} `{NW : !Networks} `{Ad : !Admin W}.
Context (o : serverOptions).

Abbreviation cfg := (so_cfg o).
(** [start] fills the environment and the block fetcher. *)
Abbreviation S := (Env W * blockPrevOutFetcher)%type.

Definition env {A} (m : M (Env W) A) : M S A := zoom fst (fun e s => (e, s.2)) m.
Definition net {A} (m : M (W * blockPrevOutFetcher) A) : M S A :=
  zoom (fun s => (e_world s.1, s.2)) (fun wf s => (mkEnv wf.1 (e_fs s.1) (e_h2h s.1), wf.2)) m.

(** [checkPrevOutBackend] *)
Definition checkPrevOutBackend : M (W * blockPrevOutFetcher) unit :=
  let! version := wrapE "error querying backend version: %w" (onNet GetNetworkInfo) in
  liftR (verifyPrevOutBackendVersion version) ;;;
  requireREST (rest_url cfg).

(** The comparison of the best cached block with the backend's. *)
Definition checkBestBlock (cacheBestHeight : Z) : M S unit :=
  let! cacheBestBlock := wrapE "error getting best block from cache: %w" (env (getBlockHash cacheBestHeight)) in
  let! backendBlock := wrapE "error getting best block from backend: %w"
                         (env (onWorld (GetBlockHash cacheBestHeight))) in
  if bool_decide (backendBlock = cacheBestBlock) then ret tt
  else fail (Errorf "header mismatch at height %d: cache has %s, backend has %s").

(** The goroutines, in the order they are started. *)
Definition goroutines (numBlocks : Z) : list goroutine :=
  WebServer ::
  (if lightMode cfg then []
   else UpdateFiles Headers numBlocks :: UpdateFiles Filters numBlocks ::
        (if indexSPTweakData o then [UpdateFiles SPTweakData numBlocks] else []) ++
        (if indexCustomFilters o then [UpdateFiles CustomFilterSets numBlocks] else [])).

(** [start]: the goroutines it leaves running. *)
Definition start : M S (list goroutine) :=
  wrapE "error connecting to bitcoind: %w" (env (onWorld rpcclient_New)) ;;;
  modify (fun s => (s.1, mkFetcher false false)) ;;;
  (if (indexSPTweakData o || indexCustomFilters o) && negb (lightMode cfg)
   then net checkPrevOutBackend else ret tt) ;;;
  env (modify (fun e => mkEnv (e_world e) (e_fs e) newH2HCache)) ;;;
  let! cacheBestHeight := wrapE "error loading headers into cache: %w"
                            (env (loadFromHeaders (filepath_Join (sv_baseDir cfg) HeaderFileDir))) in
  (if 0 <=? cacheBestHeight then checkBestBlock cacheBestHeight else ret tt) ;;;
  let! blocks := wrapE "error getting block chain info: %w" (env (onWorld GetBlockChainInfo)) in
  ret (goroutines blocks).

(** What the goroutine of a producer reports to the process. *)
Definition reported (r : result unit) : option error :=
  match r with
  | Ok _ => None
  | Err err => if errors_Is err errServerShutdown then None else Some err
  end.

(** [stop], from the result of the shutdown of the web server and the error
    that waits in the queue. *)
Definition stop (shutdown : result unit) (queued : option error) : result unit :=
  match queued with
  | Some err => Err (Wrapf "error shutting down: %w" err)
  | None => res_wrap "error shutting down web server: %w" shutdown
  end.

(** ** The producers as threads of one system *)

Definition producer_data (p : producer) : Type :=
  match p with
  | Headers => headerFiles
  | Filters => cFilterFiles
  | SPTweakData => spTweakFiles
  | CustomFilterSets => customFilterFiles
  end.

Definition depth : Z := i32 (sv_reOrgSafeDepth cfg).

Definition producer_hooks (p : producer) : producerHooks W (producer_data p) :=
  match p with
  | Headers => headerHooks (sv_baseDir cfg)
  | Filters => filterHooks (sv_baseDir cfg)
  | SPTweakData => spHooks (Net cfg) (sv_baseDir cfg) (rest_url cfg)
  | CustomFilterSets => cuHooks (sv_baseDir cfg) (rest_url cfg) (filtersPerFile cfg) (headersPerFile cfg)
  end.

Definition producer_cfg (p : producer) : producerCfg :=
  match p with
  | Headers => headerCfg (headersPerFile cfg) depth (sv_baseDir cfg)
  | Filters => filterCfg (filtersPerFile cfg) depth (sv_baseDir cfg)
  | SPTweakData => spCfg (sv_baseDir cfg) (spTweaksPerFile cfg) depth
  | CustomFilterSets => cuCfg (sv_baseDir cfg) (filtersPerFile cfg) depth
  end.

(** Create the directories of a producer. *)
Definition makeDirs {D} (dirs : list str) : M (PState W D) unit :=
  forM dirs (fun dir => wrapE "error creating directory %s: %w" (onEnv (onFS (os_MkdirAll (filepath_Join (sv_baseDir cfg) dir))))).

(** What [updateFiles] of the concrete producers does before the shared part. *)
Definition producer_prepare (p : producer) : M (PState W (producer_data p)) unit :=
  match p with
  | Headers | Filters => ret tt
  | SPTweakData =>
      if negb (taprootSupported (Net cfg)) then modify (set_startup true) ;;; fail errServerShutdown
      else makeDirs (map spTweakDustDir spTweakDustLimits)
  | CustomFilterSets =>
      if (headersPerFile cfg <=? 0) || negb (Z.rem (headersPerFile cfg) (filtersPerFile cfg) =? 0)
      then fail (Errorf "custom filter headers per file (%d) must be a positive multiple of the filters per file (%d)")
      else makeDirs (customFilterConfigs ≫= fun c => [customFilterDir (cfg_name c); customHeaderDir (cfg_name c)])
  end.

(** The [updateFiles] of each producer. *)
Definition producer_updateFiles (p : producer) (polls : nat) (numBlocks : Z) : M (PState W (producer_data p)) unit :=
  match p with
  | Headers => updateFiles (headerHooks (sv_baseDir cfg)) (headerCfg (headersPerFile cfg) depth (sv_baseDir cfg)) polls numBlocks
  | Filters => updateFiles (filterHooks (sv_baseDir cfg)) (filterCfg (filtersPerFile cfg) depth (sv_baseDir cfg)) polls numBlocks
  | SPTweakData => sp_updateFiles (Net cfg) (sv_baseDir cfg) (rest_url cfg) (spTweaksPerFile cfg) depth polls numBlocks
  | CustomFilterSets =>
      cu_updateFiles (sv_baseDir cfg) (rest_url cfg) (filtersPerFile cfg) (headersPerFile cfg) depth polls numBlocks
  end.

(** The new producers; the two block fetchers are one, which does not change
    any more after [checkPrevOutBackend] ([checkPrevOutBackend_settles] in [ServerLaws]). *)
Definition producer_view (s : S) (p : producer) : producerView (producer_data p) :=
  match p with
  | Headers => view_of (newHeaderFiles s.1)
  | Filters => view_of (newCFilterFiles s.1)
  | SPTweakData => view_of (newSPTweakFiles s.1 s.2)
  | CustomFilterSets => view_of (newCustomFilterFiles s.1 s.2)
  end.

Fixpoint find_thread (p : producer) (gs : list goroutine) : pc :=
  match gs with
  | [] => NotStarted
  | UpdateFiles q n :: gs' => if decide (p = q) then Starting n else find_thread p gs'
  | WebServer :: gs' => find_thread p gs'
  end.

(** The system [start] leaves. *)
Definition launch (gs : list goroutine) (s : S) : system (D := producer_data) :=
  mkSystem s.1 (fun p => (find_thread p gs, producer_view s p)).

Definition server_run : list (event (I := producer)) -> system -> system :=
  run producer_hooks producer_cfg producer_prepare.

(** What the handlers see of it. *)
Definition server_view (waiting : bool) (σ : system (D := producer_data)) : server (W := W) :=
  let view p := (sy_threads σ p).2 in
  let started p := match (sy_threads σ p).1 with NotStarted => false | _ => true end in
  mkServer (sy_env σ) waiting (view Headers) (view Filters)
    (if started SPTweakData then Some (view SPTweakData) else None)
    (if started CustomFilterSets then Some (view CustomFilterSets) else None).
End Server.
