(* ===== verification/ServerLaws.v ===== *)
(** * Properties of the server

    The producers of one server do not interfere, in any interleaving; what
    [start] guarantees about the headers on disk; light mode. *)

From Stdlib Require Import ZArith Lia.
From stdpp Require Import base numbers list strings gmap.
From S2P Require Import Prelude GoInt Bytes GoStr Paths GoIO Iface Backend Toy Files H2H Producer ProducerLaws ProducerSeal ProducerReorg Threads System HeaderFiles LifeCycle CFilterFiles PrevOuts ToyNet SPTweaks SPTweaksLaws CustomFilters CustomFiltersLaws HttpServer HttpLaws Handlers ToyServer HandlersContent Server.

Local Open Scope Z_scope.

(** ** Directories *)

(** The directory below the base directory a block file of a producer is in. *)
Definition producer_dirs (p : producer) : list str :=
  match p with
  | Headers => [HeaderFileDir]
  | Filters => [FilterFileDir]
  | SPTweakData => map spTweakDustDir spTweakDustLimits
  | CustomFilterSets => map (fun c => customFilterDir (cfg_name c)) customFilterConfigs
                        ++ map (fun c => customHeaderDir (cfg_name c)) customFilterConfigs
  end.

Lemma producer_dirs_normal p d : d ∈ producer_dirs p -> normal_path d = true.
Proof.
  intros Hd. assert (H : forallb normal_path (producer_dirs p) = true) by (by destruct p; vm_compute).
  rewrite forallb_forall in H. by apply H, list_elem_of_In.
Qed.

Lemma producer_dirs_apart p q d : d ∈ producer_dirs p -> d ∈ producer_dirs q -> p = q.
Proof.
  intros Hp Hq. destruct (decide (p = q)) as [|Hne]; [done|]. exfalso.
  assert (Hb : forallb (fun d => negb (bool_decide (d ∈ producer_dirs q))) (producer_dirs p) = true)
    by (destruct p, q; done || by vm_compute).
  rewrite forallb_forall in Hb. rewrite list_elem_of_In in Hp.
  specialize (Hb d Hp). by rewrite bool_decide_true in Hb.
Qed.

Lemma block_file_other_dir suffix s dir dir' a b :
  no_slash s = true -> 0 <= a < 10000000 -> 0 <= b < 10000000 -> dir <> dir' ->
  is_entry dir suffix (block_file s dir' a b) = false.
Proof.
  intros Hs Ha Hb Hne. apply not_true_iff_false. unfold is_entry.
  destruct (strip_prefix _ _) as [name|] eqn:E; [|done]. intros [Hn _]%andb_true_iff.
  apply strip_prefix_Some in E. unfold block_file in E. rewrite !fmt_07d_fixed in E by done.
  rewrite str_app_assoc in E.
  apply (app_slash_inj dir' dir ("block-" ++ fixed 7 a ++ "-" ++ fixed 7 b ++ s) name) in E as [-> _]; [done| |done].
  rewrite !no_slash_app, !no_slash_fixed. done.
Qed.

(** A nested loop is a loop over the flattened list. *)
Lemma forM_mbind {S A B} (f : A -> list B) (body : B -> M S unit) l s :
  forM (l ≫= f) body s = forM l (fun x => forM (f x) body) s.
Proof.
  revert s. induction l as [|x l IH]; intros s; [done|]. cbn.
  rewrite forM_app. unfold bind. destruct (forM (f x) body s) as [[[]|e] s1]; [apply IH|done].
Qed.

Section Server.
Context `{Wi : Wire} `{T : !Tx} `{J : !Json} `{G : !Gcs} {W : Type} `{C : !Chain W} `{Hn : !Http W} `{R : !Rpc W} `{Sc : !Scheduler W}.
Context `{SP : !SilentPayments} `{NW : !Networks} `{Ad : !Admin W}.
Context (o : serverOptions) (Hpos : 0 < headersPerFile (so_cfg o)).

Abbreviation cfg := (so_cfg o).
Abbreviation base := (sv_baseDir (so_cfg o)).

#[export] Instance producer_laws p : HookLaws (producer_hooks (W := W) o p) :=
  match p return HookLaws (producer_hooks o p) with
  | Headers => header_laws base
  | Filters => filter_laws base
  | SPTweakData => sp_laws (Net cfg) base (rest_url cfg)
  | CustomFilterSets => cu_laws base (rest_url cfg) (filtersPerFile cfg) (headersPerFile cfg) Hpos
  end.

(** A sealed file is a block file in a directory of its producer. *)
Lemma producer_sealPath p h q :
  sealPath (hooks := producer_hooks o p) h q ->
  exists d s a, d ∈ producer_dirs p /\ no_slash s = true /\ 0 <= a < 10000000 /\
    q = block_file s (filepath_Join base d) a h.
Proof.
  destruct p.
  - intros (a & s & Ha & Hs & ->). exists HeaderFileDir, s, a. split_and!; [left|by destruct Hs as [-> | ->]|lia..|done].
  - intros (a & Ha & ->). exists FilterFileDir, FilterFileSuffix, a. split_and!; [left|done|lia..|done].
  - intros (a & d & Ha & Hd & ->). exists (spTweakDustDir d), SPTweakFileSuffix, a.
    split_and!; [|done|lia..|done].
    apply list_elem_of_In, in_map. by apply list_elem_of_In.
  - intros (a & c & Ha & Hc & Hq).
    destruct Hq as [-> | ->]; [exists (customFilterDir (cfg_name c)), FilterFileSuffix, a
                              |exists (customHeaderDir (cfg_name c)), FilterHeaderFileSuffix, a];
      (split_and!; [|done|lia..|done]); apply elem_of_app; [left|right];
      apply list_elem_of_In; apply (in_map (fun c => _ (cfg_name c))); by apply list_elem_of_In.
Qed.

Lemma producer_fileDir p : exists d, d ∈ producer_dirs p /\ fileDir (producer_cfg o p) = filepath_Join base d.
Proof. destruct p; eexists; (split; [|reflexivity]); by left. Qed.

#[export] Instance producers_apart :
  Apart (D := producer_data) (producer_hooks (W := W) o) (producer_cfg o).
Proof.
  split.
  - intros i j h h' q Hh Hh' (d & s & a & Hd & Hs & Ha & ->)%producer_sealPath
      (d' & s' & a' & Hd' & Hs' & Ha' & E)%producer_sealPath.
    unfold max_height in *. apply block_file_inj_full in E as (E & _); try done.
    apply filepath_Join_inj in E as ->; [|by eapply producer_dirs_normal..].
    by eapply producer_dirs_apart.
  - intros i j h q Hne Hh (d & s & a & Hd & Hs & Ha & ->)%producer_sealPath.
    destruct (producer_fileDir i) as (d' & Hd' & ->).
    apply block_file_other_dir; [done..|]. intros E.
    apply filepath_Join_inj in E as ->; [|by eapply producer_dirs_normal..].
    apply Hne. by eapply producer_dirs_apart.
Qed.

(** *** Preparation *)

Definition dirs_only {D} (s s' : PState W D) : Prop :=
  files_of s' = files_of s /\ e_h2h (ps_env s') = e_h2h (ps_env s) /\ s' = set_env (ps_env s') s.

#[local] Instance dirs_only_preorder {D} : PreOrder (@dirs_only D).
Proof.
  split; [by intros []|]. intros s1 s2 s3 (A1 & A2 & A3) (B1 & B2 & B3).
  split_and!; [congruence|congruence|]. rewrite B3, A3. by destruct s3.
Qed.

Lemma makeDirs_dirs_only {D} dirs : keeps (@dirs_only D) (makeDirs o dirs).
Proof.
  apply keeps_forM; [apply _|intros d]. apply keeps_wrapE. intros s r s'.
  unfold onEnv, onFS, zoom, os_MkdirAll.
  destruct (fault_mkdir _ _); intros [= <- <-]; by destruct s as [[] ? ? ? ?].
Qed.

Lemma producer_prepares p : prepares (producer_prepare (W := W) o p).
Proof.
  intros e d r s'. destruct p; cbn [producer_prepare].
  - by intros [= <- <-].
  - by intros [= <- <-].
  - destruct (negb _); [by intros [= <- <-]|].
    intros (A & B & E)%makeDirs_dirs_only. rewrite E. done.
  - destruct (_ || _); [by intros [= <- <-]|].
    intros (A & B & E)%makeDirs_dirs_only. rewrite E. done.
Qed.

(** The concrete [updateFiles] are a preparation and the shared one. *)
Lemma sp_updateFiles_prepare polls n s :
  sp_updateFiles (Net cfg) base (rest_url cfg) (spTweaksPerFile cfg) (depth o) polls n s
  = (producer_prepare (W := W) o SPTweakData ;;;
     updateFiles (producer_hooks o SPTweakData) (producer_cfg o SPTweakData) polls n) s.
Proof.
  unfold sp_updateFiles. cbn [producer_prepare]. destruct (negb _); [done|].
  unfold bind, makeDirs. cbn [map forM]. reflexivity.
Qed.

Lemma cu_updateFiles_prepare polls n s :
  cu_updateFiles base (rest_url cfg) (filtersPerFile cfg) (headersPerFile cfg) (depth o) polls n s
  = (producer_prepare (W := W) o CustomFilterSets ;;;
     updateFiles (producer_hooks o CustomFilterSets) (producer_cfg o CustomFilterSets) polls n) s.
Proof.
  unfold cu_updateFiles. cbn [producer_prepare]. destruct (_ || _); [done|].
  unfold bind, makeDirs. by rewrite forM_mbind.
Qed.

(** *** Starting *)

Lemma env_fs {A} (m : M W A) (s : Env W * blockPrevOutFetcher) r s' :
  env (onWorld m) s = (r, s') -> e_fs s'.1 = e_fs s.1 /\ e_h2h s'.1 = e_h2h s.1 /\ s'.2 = s.2.
Proof.
  unfold env, zoom. destruct (onWorld m s.1) as [r1 e1] eqn:E. apply onWorld_frame in E as [E1 E2].
  intros [= <- <-]. by cbn.
Qed.

Lemma net_fs {A} (m : M (W * blockPrevOutFetcher) A) s r s' :
  net m s = (r, s') -> e_fs s'.1 = e_fs s.1 /\ e_h2h s'.1 = e_h2h s.1.
Proof. unfold net, zoom. destruct (m _) as [r1 [w f]]. by intros [= <- <-]. Qed.

(** The probe of the REST API settles the fetcher. *)
Lemma checkPrevOutBackend_settles w s' :
  checkPrevOutBackend o (w, mkFetcher false false) = (Ok tt, s') -> s'.2 = mkFetcher true true.
Proof.
  unfold checkPrevOutBackend. intros (v & s1 & E1 & E)%bind_Ok_inv. apply wrapE_Ok_inv in E1.
  assert (s1.2 = mkFetcher false false) as F1.
  { revert E1. unfold onNet, zoom. destruct (GetNetworkInfo _). by intros [= _ <-]. }
  apply bind_Ok_inv in E as ([] & s2 & E2 & E). unfold liftR in E2. injection E2 as _ <-.
  unfold requireREST in E. apply bind_Ok_inv in E as ([] & s3 & E3 & E).
  unfold bind, get in E. destruct (useREST s3.2) eqn:U; [|done]. injection E as <-.
  unfold probeOnce, bind, get in E3. rewrite F1 in E3. cbn in E3. unfold probeREST in E3.
  apply bind_Ok_inv in E3 as (r & s4 & E4 & E3).
  assert (s4.2 = mkFetcher true false) as F4.
  { revert E4. unfold catch, onNet, zoom. cbn. destruct (http_Get _ _). intros [= _ <-]. cbn. by rewrite F1. }
  destruct r as [resp|]; [|unfold ret in E3; injection E3 as <-; rewrite F4 in U; discriminate U].
  revert E3. unfold modify, ret. intros E3.
  repeat case_match; simplify_eq/=; rewrite ?F4 in *; cbn in *; done.
Qed.

Lemma checkBestBlock_inv best s s' :
  checkBestBlock best s = (Ok tt, s') ->
  exists s1 hash w, env (getBlockHash best) s = (Ok hash, s1) /\
    GetBlockHash best w = (Ok hash, e_world s'.1) /\
    e_fs s'.1 = e_fs s.1 /\ e_h2h s'.1 = e_h2h s1.1 /\ s'.2 = s.2.
Proof.
  unfold checkBestBlock. intros (hash & s1 & E1%wrapE_Ok_inv & E)%bind_Ok_inv.
  apply bind_Ok_inv in E as (hash' & s2 & E2%wrapE_Ok_inv & E).
  case_bool_decide; [|done]. injection E as <-. subst hash'.
  pose proof E2 as (F1 & F2 & F3)%env_fs. exists s1, hash, (e_world s1.1).
  split_and!; [done| |..].
  - revert E2. unfold env, onWorld, zoom. destruct (GetBlockHash _ _). by intros [= -> <-].
  - rewrite F1. revert E1. unfold env, zoom. destruct (getBlockHash best s.1) as [r e] eqn:E.
    intros [= -> <-]. by apply getBlockHash_fs in E.
  - done.
  - rewrite F3. revert E1. unfold env, zoom. destruct (getBlockHash best s.1). by intros [= -> <-].
Qed.

(** The steps of a successful start. *)
Lemma start_inv e f gs s' :
  start o (e, f) = (Ok gs, s') ->
  exists best e1 f1 s1 blocks,
    e_fs e1 = e_fs e /\ e_h2h e1 = newH2HCache /\
    env (loadFromHeaders (filepath_Join base HeaderFileDir)) (e1, f1) = (Ok best, s1) /\
    ((best < 0 /\ e_h2h s'.1 = e_h2h s1.1 /\ e_fs s'.1 = e_fs s1.1) \/
     (0 <= best /\ exists s2, checkBestBlock best s1 = (Ok tt, s2) /\
        e_h2h s'.1 = e_h2h s2.1 /\ e_fs s'.1 = e_fs s2.1)) /\
    (indexSPTweakData o || indexCustomFilters o = true -> lightMode cfg = false -> s'.2 = mkFetcher true true) /\
    gs = goroutines o blocks.
Proof.
  unfold start. intros ([] & sa & Ea%wrapE_Ok_inv & E)%bind_Ok_inv. apply env_fs in Ea as (Fa & _ & _).
  apply bind_Ok_inv in E as ([] & sb & Eb & E). unfold modify in Eb. injection Eb as <-.
  apply bind_Ok_inv in E as ([] & sc & Ec & E).
  assert (e_fs sc.1 = e_fs e /\ (indexSPTweakData o || indexCustomFilters o = true -> lightMode cfg = false ->
            sc.2 = mkFetcher true true)) as [Fc Hc].
  { destruct ((_ || _) && _) eqn:Hneed.
    - split; [apply net_fs in Ec as [-> _]; exact Fa|]. intros _ _.
      revert Ec. unfold net, zoom. cbn. destruct (checkPrevOutBackend o _) as [r wf] eqn:Ep.
      intros [= -> <-]. exact (checkPrevOutBackend_settles _ _ Ep).
    - injection Ec as <-. split; [exact Fa|]. intros H1 H2. by rewrite H1, H2 in Hneed. }
  apply bind_Ok_inv in E as ([] & sd & Ed & E). unfold env, modify, zoom in Ed. cbn in Ed. injection Ed as <-.
  apply bind_Ok_inv in E as (best & s1 & E1%wrapE_Ok_inv & E).
  assert (s1.2 = sc.2) as H12.
  { revert E1. unfold env, zoom. destruct (loadFromHeaders _ _). by intros [= _ <-]. }
  apply bind_Ok_inv in E as ([] & s2 & E2 & E).
  apply bind_Ok_inv in E as (blocks & s3 & E3%wrapE_Ok_inv & E). injection E as <- <-.
  apply env_fs in E3 as (F3 & H3 & G3).
  exists best, (mkEnv (e_world sc.1) (e_fs sc.1) newH2HCache), sc.2, s1, blocks.
  split_and!; [exact Fc|done|exact E1| | |done].
  - destruct (Z.leb_spec 0 best).
    + right. split; [done|]. by exists s2.
    + left. injection E2 as <-. split_and!; [lia|done|done].
  - intros Hi Hl. rewrite G3. destruct (0 <=? best); [apply checkBestBlock_inv in E2 as (? & ? & ? & _ & _ & _ & _ & ->)|injection E2 as <-];
      rewrite H12; auto.
Qed.

(** The cache and the files a successful start leaves, when the header files
    hold the headers [hss]. *)
Lemma start_loads `{!WireLaws (Wi := Wi)} e f gs s' hss :
  files_hold (e_fs e) (listFiles (e_fs e) (filepath_Join base HeaderFileDir) ".header") hss ->
  Z.of_nat (length (concat hss)) <= max_int32 ->
  start o (e, f) = (Ok gs, s') ->
  e_fs s'.1 = e_fs e /\
  (forall j, heightToHash (e_h2h s'.1) !! j
     = if decide (0 <= j < Z.of_nat (length (concat hss))) then BlockHash <$> concat hss !! Z.to_nat j else None) /\
  h2h_ok (e_h2h s'.1) /\
  (forall x, last (concat hss) = Some x ->
     exists w w', GetBlockHash (Z.of_nat (length (concat hss)) - 1) w = (Ok (BlockHash x), w')).
Proof.
  intros Hf Hb E. destruct (start_inv _ _ _ _ E) as (best & e1 & f1 & s1 & blocks & F1 & H1 & E1 & Hcase & _ & _).
  destruct (loadFromHeaders_loads (W := W) e1 (filepath_Join base HeaderFileDir) hss) as (e2 & L & _ & Lf & Lb & Lm);
    [by rewrite F1|done|].
  unfold env, zoom in E1. cbn [fst] in E1. rewrite L in E1. injection E1 as <- <-.
  set (n := Z.of_nat (length (concat hss))) in *.
  assert (Hm : forall j, heightToHash (e_h2h e2) !! j
    = if decide (0 <= j < n) then BlockHash <$> concat hss !! Z.to_nat j else None).
  { intros j. rewrite Lm, H1. cbn. by rewrite lookup_empty. }
  assert (Hok : h2h_ok (e_h2h e2)).
  { intros j. rewrite Hm, Lb. case_decide; [lia|by intros []]. }
  destruct Hcase as [(Hneg & Eh & Ef)|(Hge & s2 & Ec & Eh & Ef)].
  - rewrite Ef, Eh. cbn. rewrite Lf, F1. split_and!; [done|done|done|].
    intros x Hx. destruct (concat hss) as [|y l]; [done|]. cbn in n. unfold n in *. lia.
  - apply checkBestBlock_inv in Ec as (s3 & hash & w & Eg & Ew & Fs & Hs & _).
    destruct (lookup_lt_is_Some_2 (concat hss) (Z.to_nat (n - 1))) as [y Hy]; [unfold n; lia|].
    assert (Hit : heightToHash (e_h2h e2) !! (n - 1) = Some (BlockHash y)).
    { rewrite Hm, decide_True by lia. by rewrite Hy. }
    unfold env, zoom in Eg. cbn [fst] in Eg. rewrite (getBlockHash_hit _ _ _ Hit) in Eg. injection Eg as <- <-.
    rewrite Ef, Eh, Fs, Hs. cbn. rewrite Lf, F1. split_and!; [done|done|done|].
    intros x Hx. rewrite last_lookup in Hx.
    replace (Init.Nat.pred (length (concat hss))) with (Z.to_nat (n - 1)) in Hx by (unfold n; lia).
    rewrite Hy in Hx. injection Hx as ->. eauto.
Qed.

(** The system after a start is in order: every producer is about to resume
    from whole files, or is not started. *)
Lemma launch_ok (e : Env W) gs s' :
  e_fs s'.1 = e_fs e -> h2h_ok (e_h2h s'.1) ->
  (forall p, disk_ok (producer_cfg o p) e) -> (forall p n, UpdateFiles p n ∈ gs -> 0 <= n < max_height) ->
  sys_ok (producer_hooks (W := W) o) (producer_cfg o) (launch gs s').
Proof.
  intros Hf Hh Hd Hgs. split; [done|]. intros p. cbn.
  assert (tinv (producer_hooks o p) (producer_cfg o p) (find_thread p gs) (of_view s'.1 (producer_view s' p))) as Ht;
    [|exact Ht].
  assert (find_thread p gs = NotStarted \/ exists n, find_thread p gs = Starting n /\ UpdateFiles p n ∈ gs)
    as [-> |(n & -> & Hin)]; [|done|].
  { clear. induction gs as [|[|q n] gs IH]; cbn; [by left| |].
    - destruct IH as [?|(n & ? & ?)]; [by left|right; exists n; split; [done|by right]].
    - destruct (decide (p = q)) as [->|]; [right; exists n; split; [done|left]|].
      destruct IH as [?|(n' & ? & ?)]; [by left|right; exists n'; split; [done|by right]]. }
  cbn. split_and!; [by destruct p| | |by eapply Hgs..].
  - intros h. destruct p; exact (lookup_empty h).
  - intros l. unfold resume_last. rewrite (lastFile_ext (e_fs e)) by (by rewrite <- Hf; destruct p). apply Hd.
Qed.

(** C5: [start] does not run on the headers of another chain: if it succeeds
    although there are header files, the backend has reported the hash of the
    last header in them at its height; the cache then holds exactly the hashes
    of the headers on disk, no file was touched, and a producer that needs
    previous outputs has a backend that serves them. *)
Theorem start_checks_the_headers `{!WireLaws (Wi := Wi)} e f gs s' hss x :
  files_hold (e_fs e) (listFiles (e_fs e) (filepath_Join base HeaderFileDir) ".header") hss ->
  Z.of_nat (length (concat hss)) <= max_int32 -> last (concat hss) = Some x ->
  start o (e, f) = (Ok gs, s') ->
  (exists w w', GetBlockHash (Z.of_nat (length (concat hss)) - 1) w = (Ok (BlockHash x), w')) /\
  (forall j, heightToHash (e_h2h s'.1) !! j
     = if decide (0 <= j < Z.of_nat (length (concat hss))) then BlockHash <$> concat hss !! Z.to_nat j else None) /\
  e_fs s'.1 = e_fs e /\
  (forall p n, (p = SPTweakData \/ p = CustomFilterSets) -> UpdateFiles p n ∈ gs -> s'.2 = mkFetcher true true).
Proof.
  intros Hf Hb Hx E. destruct (start_loads _ _ _ _ _ Hf Hb E) as (F & Hm & _ & Hl).
  split_and!; [by apply Hl|done|done|]. intros p n Hp Hin.
  destruct (start_inv _ _ _ _ E) as (_ & _ & _ & _ & blocks & _ & _ & _ & _ & Hneed & ->).
  unfold goroutines in Hin. destruct (lightMode cfg); [set_solver|].
  apply Hneed; [|done]. destruct (indexSPTweakData o), (indexCustomFilters o); try done.
  destruct Hp as [-> | ->]; set_solver.
Qed.


(** A successful [start] from the environment [e] and the fetcher [f], on
    directories of whole files: the header files hold the headers [hss]. *)
Record clean_start e f gs s' hss : Prop := {
  cs_cfg p : valid_cfg (producer_cfg o p);
  cs_disk p : disk_ok (producer_cfg o p) e;
  cs_files : files_hold (e_fs e) (listFiles (e_fs e) (filepath_Join base HeaderFileDir) ".header") hss;
  cs_length : Z.of_nat (length (concat hss)) <= max_int32;
  cs_start : start o (e, f) = (Ok gs, s');
  cs_blocks p n : UpdateFiles p n ∈ gs -> 0 <= n < max_height
}.

(** The invariant of the system, however far it has run since. *)
Lemma server_run_ok `{!WireLaws (Wi := Wi)} `{BC : !BoundedChain} e f gs s' hss l :
  clean_start e f gs s' hss -> Forall harmless l ->
  sys_ok (producer_hooks o) (producer_cfg o) (server_run o l (launch gs s')).
Proof.
  intros [Hc Hd Hf Hb E Hgs] Hl. destruct (start_loads _ _ _ _ _ Hf Hb E) as (F & _ & Hh & _).
  pose proof (launch_ok e gs s' F Hh Hd Hgs) as Hok.
  by destruct (run_ok _ _ _ Hc producer_prepares l _ Hl Hok).
Qed.

(** C2: the producers of a server do not disturb each other: after a start on
    directories of whole files, in every interleaving of the steps of the
    producers with each other and with the requests, a file that a producer
    or an earlier run has sealed never changes again, and a producer in its
    poll loop is up to date in memory: it holds exactly the heights above its
    last sealed file. *)
Theorem producers_keep_sealed_files `{!WireLaws (Wi := Wi)} `{BC : !BoundedChain} e f gs s' hss l1 l2 :
  clean_start e f gs s' hss -> Forall harmless l1 -> Forall harmless l2 ->
  let σ1 := server_run o l1 (launch gs s') in
  let σ2 := server_run o l2 σ1 in
  (forall p h q, 0 <= h < max_height -> h <= sealed_at (producer_cfg o) p σ1 ->
     sealPath (hooks := producer_hooks o p) h q ->
     fs_files (e_fs (sy_env σ2)) !! q = fs_files (e_fs (sy_env σ1)) !! q) /\
  (forall p, (sy_threads σ2 p).1 = Polling ->
     settled (producer_hooks o p) (producer_cfg o p) (thread p σ2).2 /\ pv_startup (sy_threads σ2 p).2 = true).
Proof.
  intros Hs H1 H2 σ1 σ2. pose proof (server_run_ok _ _ _ _ _ _ Hs H1) as Hok1.
  destruct (run_ok _ _ _ (cs_cfg _ _ _ _ _ Hs) producer_prepares l2 _ H2 Hok1) as [[_ Ht] Hsafe].
  split.
  - intros p h q Hr Hq. by eapply (ss_files _ _ _ _ Hsafe p h).
  - intros p Hp. specialize (Ht p). cbn in Ht. change (run _ _ _ _ _) with σ2 in Ht.
    rewrite Hp in Ht. exact Ht.
Qed.
End Server.

(** ** Light mode *)

Section LightMode.
Context `{Wi : Wire} `{T : !Tx} `{J : !Json} `{G : !Gcs} {W : Type} `{C : !Chain W} `{Hn : !Http W} `{R : !Rpc W} `{Sc : !Scheduler W}.
Context `{SP : !SilentPayments} `{NW : !Networks} `{Ad : !Admin W} `{N : !Node W} `{Et : !ErrorText}.
Context (tick : server (W := W) -> server (W := W)) (Htick : forall sv, headerFiles_ (tick sv) = headerFiles_ sv).

Lemma getBlockHash_locked_idle h s r s' :
  getBlockHash_locked tick h s = (r, s') ->
  headerFiles_ s'.1 = headerFiles_ s.1 /\ s'.2 = s.2 /\ forall e, r = Err e -> e = go_deadlock.
Proof using Htick.
  unfold getBlockHash_locked. rewrite bind_read. destruct (sv_writerWaiting _); [intros [= <- <-]; cbn; split_and!; [by rewrite Htick|done|congruence]|].
  rewrite bind_read. cbn [fst snd]. destruct (_ !! h); [intros [= <- <-]; cbn; split_and!; [by rewrite !Htick|done|done]|].
  unfold bind, call, catch, onShared, background, modify, zoom, bind. cbn.
  destruct (onWorld _ _) as [[?|?] e1]; intros [= <- <-]; cbn; rewrite ?Htick; split_and!; congruence.
Qed.

Lemma currentStatus_empty s r s' :
  filterHeaders (pv_data (headerFiles_ s.1)) = ∅ ->
  forall c, currentStatus c tick s = (r, s') ->
  s'.2 = s.2 /\ (r = Err go_deadlock \/ exists e, r = Ok (Err e)).
Proof using Htick.
  intros He c. unfold currentStatus. rewrite bind_read. unfold bind at 1.
  destruct (getBlockHash_locked tick _ _) as [[[hash|e]|e] s1] eqn:E; apply getBlockHash_locked_idle in E as (H1 & H2 & H3).
  - rewrite bind_read. unfold filterHeaderAtHeight. rewrite !Htick, H1. cbn [fst]. rewrite !Htick, He, lookup_empty.
    intros [= <- <-]. cbn. eauto.
  - intros [= <- <-]. eauto.
  - intros [= <- <-]. rewrite (H3 e eq_refl). auto.
Qed.

(** In light mode [/status] cannot work: only the web server is started,
    so nothing ever changes the headers, the handler never finds a filter
    header, and the answer is an error, or none when it waits for a lock for
    ever. *)
Lemma light_mode_has_no_status o e f gs s waiting r res s' w :
  lightMode (so_cfg o) = true -> start o (e, f) = (Ok gs, s) ->
  statusRequestHandler (so_cfg o) tick r (server_view waiting (launch gs s), newResponse None) = (res, (s', w)) ->
  gs = [WebServer] /\ (res = Err go_deadlock \/ exists hdr, rw_sent w = Some (500, hdr)).
Proof using Htick.
  intros Hl (_ & _ & _ & _ & n & _ & _ & _ & _ & _ & ->)%start_inv Hr.
  unfold goroutines in *. rewrite Hl in *. split; [done|]. revert Hr. unfold statusRequestHandler, bind at 1.
  destruct (currentStatus _ _ _) as [r1 [s1 w1]] eqn:E.
  apply currentStatus_empty in E as [Hw [-> |[err ->]]]; [by intros [= <- _ _]; left| |done].
  cbn in Hw. subst w1. rewrite reply_run. cbn [fst snd]. intros [= _ _ <-]. right.
  by apply sendError_status.
Qed.
End LightMode.

(** *** Witnesses *)

#[export] Instance toy_admin : Admin toy_world := {|
  rpcclient_New := fun w => (Ok tt, w);
  GetNetworkInfo := fun w => (Ok 300000, w);
  GetBlockChainInfo := fun w => (Ok 5, w)
|}.

(** A server over the two header files of the examples, with all producers. *)
Definition toy_options (light : bool) : serverOptions :=
  newServer (mkServerCfg light "/b" 2 2 2 2 1 "genesis" "regtest" "v1" "abc" (string_bytes "<html>") "")
    true true ":8080" 0 0.
Definition toy_state : Env toy_world * blockPrevOutFetcher := (ps_env lc_sealed, mkFetcher false false).
Definition toy_hss : list (list toy_header) := [take 2 (toy_headers 4); drop 2 (toy_headers 4)].

Definition toy_started_aux (light : bool) : seal (start (toy_options light) toy_state).
Proof. by eexists. Qed.
Definition toy_started (light : bool) := (toy_started_aux light).(unseal).

Lemma toy_start light : start (toy_options light) toy_state = (Ok (goroutines (toy_options light) 5), (toy_started light).2).
Proof.
  unfold toy_started. rewrite (toy_started_aux light).(seal_eq).
  assert ((start (toy_options light) toy_state).1 = Ok (goroutines (toy_options light) 5)) as E
    by (unfold toy_state; rewrite lc_sealed_eq; destruct light; vm_compute; reflexivity).
  destruct (start _ _) as [r s]. cbn in E |- *. by rewrite E.
Qed.

Lemma toy_files_hold light :
  files_hold (e_fs (ps_env lc_sealed))
    (listFiles (e_fs (ps_env lc_sealed)) (filepath_Join (sv_baseDir (so_cfg (toy_options light))) HeaderFileDir) ".header")
    toy_hss.
Proof.
  rewrite lc_sealed_eq. vm_compute (listFiles _ _ _). repeat constructor; vm_compute; reflexivity.
Qed.

Lemma start_checks_the_headers_witness :
  exists x w w', last (concat toy_hss) = Some x /\ GetBlockHash 3 w = (Ok (BlockHash x), w').
Proof.
  destruct (last (concat toy_hss)) as [x|] eqn:Hx; [|vm_compute in Hx; discriminate Hx].
  destruct (start_checks_the_headers (toy_options false) ltac:(reflexivity) (ps_env lc_sealed) (mkFetcher false false)
    _ _ toy_hss x (toy_files_hold false) ltac:(vm_compute; discriminate) Hx (toy_start false)) as [(w & w' & E) _].
  exists x, w, w'. split; [reflexivity|exact E].
Defined.

Lemma toy_valid p : valid_cfg (producer_cfg (toy_options false) p).
Proof. by destruct p. Qed.

Lemma toy_disk p : disk_ok (producer_cfg (toy_options false) p) (ps_env lc_sealed).
Proof.
  intros l. assert (resume_last (producer_cfg (toy_options false) p) (ps_env lc_sealed)
    = Some (match p with Headers => 3 | _ => -1 end)) as ->
    by (rewrite lc_sealed_eq; destruct p; vm_compute; reflexivity).
  intros [= <-]. by destruct p.
Qed.

Lemma toy_goroutines p n : UpdateFiles p n ∈ goroutines (toy_options false) 5 -> 0 <= n < max_height.
Proof.
  change (goroutines _ _) with (WebServer :: map (fun p => UpdateFiles p 5) [Headers; Filters; SPTweakData; CustomFilterSets]).
  unfold max_height. intros [?|(? & [= _ ->] & _)%list_elem_of_fmap]%elem_of_cons; [done|lia].
Qed.

Lemma toy_clean_start :
  clean_start (toy_options false) (ps_env lc_sealed) (mkFetcher false false) (goroutines (toy_options false) 5)
    (toy_started false).2 toy_hss.
Proof.
  split; [exact toy_valid|exact toy_disk|exact (toy_files_hold false)|by vm_compute|exact (toy_start false)|exact toy_goroutines].
Qed.

(** Both kinds of files are sealed while the other producer runs. *)
Definition toy_schedule : list (event (W := toy_world) (I := producer)) :=
  [Step Filters; Step Headers; Other id; Step Filters; Step Headers; Step Filters; Step Headers; Step CustomFilterSets].

Lemma toy_harmless : Forall harmless toy_schedule.
Proof. repeat constructor; done. Qed.

Lemma producers_keep_sealed_files_witness :
  let σ1 := server_run (toy_options false) toy_schedule (launch (goroutines (toy_options false) 5) (toy_started false).2) in
  let σ2 := server_run (toy_options false) toy_schedule σ1 in
  fs_files (e_fs (sy_env σ2)) !! block_file ".header" "/b/headers" 2 3
  = fs_files (e_fs (sy_env σ1)) !! block_file ".header" "/b/headers" 2 3.
Proof.
  destruct (producers_keep_sealed_files (toy_options false) ltac:(reflexivity) (ps_env lc_sealed) (mkFetcher false false)
    _ _ toy_hss toy_schedule toy_schedule toy_clean_start toy_harmless toy_harmless) as [H _].
  apply (H Headers 3); [unfold max_height; lia| |].
  - assert ((3 <=? sealed_at (producer_cfg (toy_options false)) Headers
      (server_run (toy_options false) toy_schedule (launch (goroutines (toy_options false) 5) (toy_started false).2))) = true) as E.
    { unfold toy_started. rewrite (toy_started_aux false).(seal_eq). unfold toy_state. rewrite lc_sealed_eq.
      vm_compute. reflexivity. }
    apply Z.leb_le, E.
  - exists 2, ".header". split; [lia|]. split; [left; reflexivity|vm_compute; reflexivity].
Defined.

