(* ===== verification/Shutdown.v ===== *)
(** * The end of the producers

    [stop] of [server.go] closes the [quit] channel and waits for the
    goroutines of the producers. Every producer finds the channel closed after
    the files it can seal, and ends. *)

From Stdlib Require Import ZArith Lia.
From stdpp Require Import base numbers list strings gmap.
From S2P Require Import Prelude GoInt Bytes GoStr GoIO Iface Backend Toy Files H2H Producer ProducerLaws ProducerSeal ProducerReorg Threads System HeaderFiles LifeCycle CFilterFiles PrevOuts ToyNet SPTweaks SPTweaksLaws CustomFilters CustomFiltersLaws HttpServer Handlers ToyServer Server ServerLaws.

Local Open Scope Z_scope.

(** The channel is closed in a world of the backend. *)
Definition closed `{Chain W} (w : W) : Prop := (quitClosed w).1 = true.

Section Thread.
Context `{Wi : Wire} {W : Type} `{!Chain W} {D : Type}.
Context (hooks : producerHooks W D) (cfg : producerCfg) (prepare : M (PState W D) unit).
Implicit Types (s : PState W D).

(** How many steps a producer takes at most until it has ended: one for each
    file it can still seal, and a few around. *)
Definition steps_left (p : pc) s : nat :=
  match p with
  | NotStarted | Stopped _ => 0
  | Polling => 1
  | Ingesting _ _ _ => 2
  | Sealing _ _ _ => 3 + Z.to_nat (safeTip cfg s - lastSealedHeight s)
  | Starting _ => 3
  end.

Lemma checkQuit_closed s : closed (e_world (ps_env s)) -> exists s', checkQuit s = (Err errServerShutdown, s').
Proof.
  unfold closed, checkQuit, bind, onEnv, onWorld, zoom. destruct (quitClosed _) as [[] w]; [|done].
  by eexists.
Qed.

Lemma ingestStep_closed a s :
  closed (e_world (ps_env s)) -> exists s', ingestStep hooks a s = (Err errServerShutdown, s').
Proof. intros (s' & E)%checkQuit_closed. exists s'. unfold ingestStep. by rewrite (bind_Err _ _ _ _ _ E). Qed.

Lemma pollHead_closed s :
  closed (e_world (ps_env s)) -> exists s', pollHead hooks s = (Err errServerShutdown, s').
Proof. intros (s' & E)%checkQuit_closed. exists s'. unfold pollHead. by rewrite (bind_Err _ _ _ _ _ E). Qed.

(** The state of a producer that has ended, or was never started. *)
Definition ended (p : pc) : Prop :=
  match p with NotStarted | Stopped _ => True | _ => False end.

(** Between two blocks nothing is left to do but to notice the channel. *)
Definition between (p : pc) : Prop :=
  match p with
  | Ingesting _ _ _ | Polling => True
  | Stopped e => errors_Is e errServerShutdown = true
  | _ => False
  end.

Lemma pstep_started p s : (pstep hooks cfg prepare (p, s)).1 = NotStarted -> p = NotStarted.
Proof.
  destruct p as [|n|polling a b|polling a b| |e]; cbn [pstep]; try done; repeat case_match; done.
Qed.

Context `{HL : !HookLaws hooks} `{BC : !BoundedChain} (Hcfg : valid_cfg cfg).

Lemma pstep_closed p s :
  tinv hooks cfg p s -> closed (e_world (ps_env s)) ->
  let x := pstep hooks cfg prepare (p, s) in
  (ended p -> x.1 = p) /\ (~ ended p -> (steps_left x.1 x.2 < steps_left p s)%nat) /\ (between p -> between x.1).
Proof using Hcfg HL.
  intros Hi Hq. destruct p as [|n|polling a b|polling a b| |e]; cbn [pstep].
  - done.
  - split; [done|]. split; [intros _|done].
    destruct ((prepare ;;; resumeHeights cfg) s) as [[start|e] s']; cbn; lia.
  - split; [done|]. destruct (b <? a).
    + split; [cbn; lia|done].
    + destruct (ingestStep_closed a s Hq) as (s' & ->). split; [cbn; lia|]. intros _. by destruct polling.
  - split; [done|]. split; [intros _|done]. destruct Hi as (Hp & Hb & Hc & _).
    destruct (Z.ltb_spec (safeTip cfg s) (nextEnd cfg s)) as [|Hge]; [cbn; lia|].
    pose proof (pinv_seal_in_range hooks cfg _ s Hcfg Hp ltac:(lia)) as Hr.
    destruct (seal_in_range_next cfg s Hr) as [Hne Hst]. pose proof Hp as [P1 P2 P3 P4 P5 P6].
    assert (nextEnd cfg s = lastSealedHeight s + entriesPerFile cfg) as Hne'.
    { rewrite Hne. unfold first_start. destruct (Z.ltb_spec (lastSealedHeight s) 0); lia. }
    rewrite Hne' in *. pose proof Hcfg as [Hn Hd]. clear Hne. unfold max_height in *. i32norm.
    replace (lastSealedHeight s + entriesPerFile cfg - entriesPerFile cfg + 1) with (lastSealedHeight s + 1) by lia.
    destruct (sealFile hooks _ _ s) as [r s'] eqn:E.
    apply (sealFile_pinv hooks cfg (a + 1)) in E as (_ & Hc' & _ & _ & Hl); [|done|done|lia].
    destruct r as [[]|e]; cbn; [|lia]. unfold safeTip in *. rewrite Hc', Hl. lia.
  - destruct (pollHead_closed s Hq) as (s' & ->). split; [done|]. split; [cbn; lia|done].
  - done.
Qed.
End Thread.

(** ** The producers of a server *)

Section Server.
Context `{Wi : Wire} `{T : !Tx} `{J : !Json} `{G : !Gcs} {W : Type} `{C : !Chain W} `{Hn : !Http W} `{R : !Rpc W} `{Sc : !Scheduler W}.
Context `{SP : !SilentPayments} `{NW : !Networks} `{Ad : !Admin W}.
Context (o : serverOptions) (Hpos : 0 < headersPerFile (so_cfg o)).
Abbreviation sys := (system (W := W) (D := producer_data)).
Implicit Types (σ : sys).

#[local] Instance shutdown_laws p : HookLaws (producer_hooks (W := W) o p) := producer_laws o Hpos p.

(** The channel is closed from [σ] on, all along the schedule. *)
Definition closed_along (l : list event) σ : Prop :=
  forall l1 l2, l = l1 ++ l2 -> closed (e_world (sy_env (server_run o l1 σ))).

(** The steps of a producer in a schedule. *)
Fixpoint steps_of (p : producer) (l : list (event (W := W) (I := producer))) : nat :=
  match l with
  | [] => 0
  | Step q :: l' => if decide (p = q) then S (steps_of p l') else steps_of p l'
  | Other _ :: l' => steps_of p l'
  end.

Definition thread_pc σ p : pc := (sy_threads σ p).1.
Definition thread_left σ p : nat := steps_left (producer_cfg o p) (thread_pc σ p) (thread p σ).2.

Lemma closed_along_tail ev l σ :
  closed_along (ev :: l) σ ->
  closed (e_world (sy_env σ)) /\ closed_along l (server_run o [ev] σ).
Proof.
  intros H. split; [exact (H [] (ev :: l) eq_refl)|]. intros l1 l2 ->. exact (H (ev :: l1) l2 eq_refl).
Qed.

Lemma closed_along_take l σ :
  (forall n, (n <= length l)%nat -> closed (e_world (sy_env (server_run o (take n l) σ)))) -> closed_along l σ.
Proof.
  intros H l1 l2 ->. specialize (H (length l1)). rewrite take_app_length in H. apply H. rewrite length_app. lia.
Qed.

(** Whoever moves, a producer only comes closer to its end. *)
Lemma event_closed `{!WireLaws (Wi := Wi)} `{BC : !BoundedChain} ev p σ :
  (forall p, valid_cfg (producer_cfg o p)) ->
  sys_ok (producer_hooks o) (producer_cfg o) σ -> closed (e_world (sy_env σ)) ->
  let σ' := server_run o [ev] σ in
  (thread_left σ' p + steps_of p [ev] <= thread_left σ p \/ ended (thread_pc σ' p) /\ thread_left σ' p = 0)%nat /\
  (between (thread_pc σ p) -> between (thread_pc σ' p)) /\
  (thread_pc σ' p = NotStarted -> thread_pc σ p = NotStarted).
Proof using Hpos.
  intros Hc [_ Ht] Hq. destruct ev as [q|f]; cbn [steps_of].
  2:{ split; [left|done]. unfold thread_left, thread_pc, steps_left, safeTip. cbn. destruct (sy_threads σ p).1; cbn; lia. }
  unfold server_run. cbn [run foldl sys_event]. unfold sys_step.
  destruct (pstep _ _ _ (thread q σ)) as [p' s'] eqn:E. unfold thread_pc, thread_left, thread_pc, thread. cbn.
  destruct (decide (p = q)) as [->|Hne].
  - rewrite family_set_eq. cbn. rewrite of_view_of.
    pose proof (pstep_closed (producer_hooks o q) (producer_cfg o q) (producer_prepare o q) (Hc q)
      (thread q σ).1 (thread q σ).2 (Ht q) Hq) as (H1 & H2 & H3).
    pose proof (pstep_started (producer_hooks o q) (producer_cfg o q) (producer_prepare o q)
      (thread q σ).1 (thread q σ).2) as H4.
    rewrite <- surjective_pairing, E in H1, H2, H3, H4. cbn in H1, H2, H3, H4. split; [|done].
    destruct (sy_threads σ q).1 eqn:Epc; cbn in H1, H2 |- *; try (left; specialize (H2 ltac:(tauto)); lia);
      right; by rewrite (H1 I).
  - rewrite (family_set_ne (T := fun i => (pc * producerView (producer_data i))%type)) by congruence.
    split; [left|done]. cbn. unfold steps_left, safeTip. destruct (sy_threads σ p).1; cbn; lia.
Qed.

(** The whole schedule. *)
Lemma run_closed `{!WireLaws (Wi := Wi)} `{BC : !BoundedChain} l p σ :
  (forall p, valid_cfg (producer_cfg o p)) ->
  sys_ok (producer_hooks o) (producer_cfg o) σ -> Forall harmless l -> closed_along l σ ->
  (thread_left σ p <= steps_of p l)%nat ->
  let σ' := server_run o l σ in
  ended (thread_pc σ' p) /\ (between (thread_pc σ p) -> between (thread_pc σ' p)) /\
  (thread_pc σ' p = NotStarted -> thread_pc σ p = NotStarted).
Proof using Hpos.
  intros Hc. revert σ. induction l as [|ev l IH]; intros σ Hok Hl Hq Hle.
  - cbn in *. split; [|done]. unfold thread_left, steps_left in Hle. destruct (thread_pc σ p); cbn in *; done || lia.
  - apply Forall_cons in Hl as [Hev Hl]. apply closed_along_tail in Hq as [Hq1 Hq2].
    destruct (event_closed ev p σ Hc Hok Hq1) as (H1 & H2 & H3).
    assert (sys_ok (producer_hooks o) (producer_cfg o) (server_run o [ev] σ)) as Hok1.
    { destruct (run_ok (producer_hooks o) (producer_cfg o) (producer_prepare o) Hc (producer_prepares o) [ev] σ);
        [by constructor|done|done]. }
    change (server_run o (ev :: l) σ) with (server_run o l (server_run o [ev] σ)).
    destruct (IH _ Hok1 Hl Hq2) as (I1 & I2 & I3).
    { assert (steps_of p (ev :: l) = steps_of p [ev] + steps_of p l)%nat as E.
      { destruct ev as [q|f]; cbn; [|done]. by destruct (decide _). }
      lia. }
    split_and!; auto.
Qed.

(** C12: the server can stop: once the [quit] channel is closed, every producer
    ends after at most [thread_left] more steps of its own, whatever it is
    doing, in every interleaving with the others and the requests, so [stop]
    does not wait for ever; and a producer that was between two blocks when the
    channel was closed reports no error. *)
Theorem shutdown_ends_producers `{!WireLaws (Wi := Wi)} `{BC : !BoundedChain} e f gs s' hss l1 l2 :
  clean_start o e f gs s' hss -> Forall harmless l1 -> Forall harmless l2 ->
  let σ1 := server_run o l1 (launch gs s') in
  let σ2 := server_run o l2 σ1 in
  closed_along l2 σ1 -> (forall p, (thread_left σ1 p <= steps_of p l2)%nat) ->
  forall p,
    match thread_pc σ2 p with
    | NotStarted => thread_pc σ1 p = NotStarted
    | Stopped err => between (thread_pc σ1 p) -> reported (Err err) = None
    | _ => False
    end.
Proof using Hpos.
  intros Hs H1 H2 σ1 σ2 Hq Hle p.
  destruct (run_closed l2 p σ1 (cs_cfg _ _ _ _ _ _ Hs) (server_run_ok o Hpos _ _ _ _ _ _ Hs H1) H2 Hq (Hle p)) as (E & B & N).
  fold σ2 in E, B, N. destruct (thread_pc σ2 p); try done; [by apply N|].
  intros Hb. cbn in *. by rewrite B.
Qed.
End Server.

(** *** Witness *)

Section Witness.
#[local] Abbreviation to := (toy_options false).

(** The producers are somewhere in their catch-up when the channel is closed;
    then each makes three steps. *)
Definition toy_close : event (W := toy_world) (I := producer) :=
  Other (fun e => mkEnv (mkToy (tw_now (e_world e)) (tw_later (e_world e)) (Some O)) (e_fs e) (e_h2h e)).
Definition toy_closing : list (event (W := toy_world) (I := producer)) := toy_schedule ++ [toy_close].
Definition toy_ending : list (event (W := toy_world) (I := producer)) :=
  concat (replicate 3 (map Step [CustomFilterSets; SPTweakData; Filters; Headers])).
Definition toy_at_close := server_run to toy_closing (launch (goroutines to 5) (toy_started false).2).

Ltac toy_system :=
  unfold toy_at_close, toy_started; rewrite (toy_started_aux false).(seal_eq); unfold toy_state;
  rewrite lc_sealed_eq; vm_compute; reflexivity.

Lemma toy_closing_harmless : Forall harmless toy_closing.
Proof. apply Forall_app. split; [exact toy_harmless|]. by repeat constructor. Qed.

Lemma toy_ending_harmless : Forall harmless toy_ending.
Proof. by repeat constructor. Qed.

Lemma toy_closed_along : closed_along to toy_ending toy_at_close.
Proof.
  apply closed_along_take. unfold closed.
  assert (map (fun n => (quitClosed (e_world (sy_env (server_run to (take n toy_ending) toy_at_close)))).1)
            (seq 0 13) = replicate 13 true) as E by toy_system.
  intros n Hn. apply (f_equal (fun l => l !! n)) in E.
  assert (seq 0 13 !! n = Some n) as Hs by (apply lookup_seq; vm_compute in Hn; lia).
  rewrite list_lookup_fmap, Hs, lookup_replicate_2 in E by (vm_compute in Hn; lia). by injection E.
Qed.

Lemma toy_steps p : (thread_left to toy_at_close p <= steps_of p toy_ending)%nat.
Proof.
  assert (forallb (fun p => thread_left to toy_at_close p <=? steps_of p toy_ending)%nat
            [CustomFilterSets; SPTweakData; Filters; Headers] = true) as E by toy_system.
  rewrite forallb_forall in E. apply Nat.leb_le, E. destruct p; cbn; tauto.
Qed.

Lemma shutdown_ends_producers_witness :
  exists err, thread_pc (server_run to toy_ending toy_at_close) Filters = Stopped err /\ reported (Err err) = None.
Proof.
  pose proof (shutdown_ends_producers to ltac:(reflexivity) (ps_env lc_sealed) (mkFetcher false false) _ _ toy_hss
    toy_closing toy_ending toy_clean_start toy_closing_harmless toy_ending_harmless toy_closed_along toy_steps Filters) as H.
  fold toy_at_close in H. destruct (thread_pc (server_run to toy_ending toy_at_close) Filters) as [| | | | |err] eqn:E;
    try contradiction.
  - exfalso. assert (match thread_pc toy_at_close Filters with NotStarted => false | _ => true end = true) as E1 by toy_system.
    rewrite H in E1. discriminate E1.
  - exists err. split; [reflexivity|]. apply H.
    assert (match thread_pc toy_at_close Filters with Ingesting _ _ _ => true | _ => false end = true) as E1 by toy_system.
    destruct (thread_pc toy_at_close Filters); try discriminate E1. exact I.
Defined.
End Witness.
