(* ===== verification/Serving.v ===== *)
(** * What a client gets of the sealed files

    The request handlers on top of the running system: once a range is sealed,
    every request for it is answered with the same bytes. *)

From Stdlib Require Import ZArith Lia.
From stdpp Require Import base numbers list strings gmap.
From S2P Require Import Prelude GoInt Bytes GoStr Paths GoIO Iface Backend Toy Files H2H Producer ProducerLaws ProducerSeal ProducerReorg Threads System HeaderFiles LifeCycle CFilterFiles PrevOuts ToyNet SPTweaks SPTweaksLaws CustomFilters CustomFiltersLaws HttpServer HttpLaws Handlers ToyServer HandlersContent Server ServerLaws.

Local Open Scope Z_scope.

(** ** One request for a file *)

(** The numbers of a [Range] field are not negative. *)
Definition range_wf (r : RangeReq) : Prop :=
  match r with NoRange => True | FromTo a _ | From a => 0 <= a | Suffix n => 0 <= n end.

Lemma parseRange_part r size start len :
  range_wf r -> 0 <= size -> parseRange r size = Part start len -> 0 <= start /\ 0 <= len /\ start + len <= size.
Proof.
  intros Hw Hs. destruct r as [|a b|a|n]; cbn in *; [done| | |]; repeat case_match; intros; simplify_eq; lia.
Qed.

(** The answer to a request for a file with the content [bs]: all of it, or the
    part that was asked for, as far as the connection takes it, to be cached
    for a year. *)
Definition file_answer (r : RangeReq) (cap : option nat) (bs : bytes) (w : ResponseWriter) : Prop :=
  exists hdr,
    hdr_get HeaderCache hdr = cacheControl maxAgeDisk /\
    match parseRange r (Z.of_nat (length bs)) with
    | Whole => answer_is w 200 hdr cap bs
    | Part start len => answer_is w 206 hdr cap (take (Z.to_nat len) (drop (Z.to_nat start) bs)) /\
        hdr_get "Content-Range" hdr = contentRange start len (Z.of_nat (length bs))
    | _ => False
    end.

Section Request.
Context `{Wi : Wire} `{T : !Tx} `{J : !Json} {W : Type} `{C : !Chain W} `{Hn : !Http W} `{R : !Rpc W} `{Sc : !Scheduler W}.
Context `{N : !Node W} `{Et : !ErrorText}.
Context (c : serverCfg) (tick : server (W := W) -> server (W := W)).

Lemma fileExists_present fs q : is_Some (fs_files fs !! q) -> fs_faults fs = no_faults -> fileExists fs q = true.
Proof.
  intros Hq Hf. unfold fileExists, os_Stat. rewrite Hf. cbn [fault_stat no_faults].
  rewrite bool_decide_eq_true_2; [done|]. by left.
Qed.

(** The height based handler, when at every moment the file is there and its
    processor has started and passed its first height. *)
Lemma heightBased_serves_file r subDir suffix n serializeCb sizeCb p start bs s cap :
  lightMode c = false -> parseRequestParamInt64 r "height" = Ok start ->
  0 <= start <= max_int32 -> 0 < n <= max_int32 -> Z.rem start n = 0 ->
  (forall s, isStartupComplete (p (tick s)) = true) ->
  (forall s, start <= getCurrentHeight (p (tick s))) ->
  (forall s, fs_files (the_fs (tick s)) !! sealedName c subDir suffix n start = Some bs) ->
  (forall s, fs_faults (the_fs (tick s)) = no_faults) ->
  Z.of_nat (length bs) <= max_int64 -> range_wf (rq_Range r) ->
  match parseRange (rq_Range r) (Z.of_nat (length bs)) with Whole | Part _ _ => True | _ => False end ->
  exists s' w, heightBasedRequestHandler c tick r subDir suffix n serializeCb (Some sizeCb) p (s, newResponse cap)
    = (Ok tt, (s', w)) /\ file_answer (rq_Range r) cap bs w.
Proof.
  intros Hl Hp Hst Hn0 Hmod Hsu Hcur Hf Hno Hmax Hw Hr. unfold heightBasedRequestHandler. rewrite Hl, bind_read, Hsu.
  cbn [negb]. rewrite Hp. unfold checkStartHeight. unfold bind at 1. rewrite bind_read. cbn [fst snd ret].
  rewrite !i32_id by (unfold int32, min_int32, max_int32 in *; lia).
  rewrite (proj2 (Z.ltb_ge _ _)) by apply Hcur. rewrite Hmod. cbn [Z.eqb negb]. rewrite andb_false_r.
  cbv zeta. fold (sealedName c subDir suffix n start). rewrite bind_read. cbn [fst snd].
  rewrite fileExists_present by (rewrite ?Hf; by eauto).
  erewrite bind_reply by reflexivity. rewrite bind_read. cbn [fst snd]. rewrite reply_run. cbn [fst snd].
  match goal with |- context [serveFile ?fs ?rr ?q ?w] =>
    destruct (serveFile_run fs rr q bs w cap (Hf _) (Hno _) Hmax eq_refl eq_refl) as (w' & E & Ha); rewrite E end.
  cbn [fst snd]. eexists _, w'. split; [reflexivity|]. unfold file_answer.
  destruct (parseRange _ _) as [|a b| |] eqn:Ep; try done.
  - destruct Ha as (hdr & Ha & Hc). exists hdr. split; [rewrite Hc; by hdr|done].
  - apply parseRange_part in Ep as (H1 & H2 & H3); [|done|lia].
    destruct (Ha H1 H2 H3) as (hdr & Hb & Hc & Hd). exists hdr. split; [rewrite Hc; by hdr|done].
Qed.
End Request.

(** ** The routes *)

Section Routes.
Context `{Wi : Wire} `{T : !Tx} `{J : !Json} `{G : !Gcs} {W : Type} `{C : !Chain W} `{Hn : !Http W} `{R : !Rpc W} `{Sc : !Scheduler W}.
Context `{SP : !SilentPayments} `{NW : !Networks} `{Ad : !Admin W} `{N : !Node W} `{Et : !ErrorText}.
Context (o : serverOptions) (Hpos : 0 < headersPerFile (so_cfg o)).
Abbreviation cfg := (so_cfg o).
Abbreviation Srv := (server (W := W)).

#[local] Instance serving_laws p : HookLaws (producer_hooks (W := W) o p) := producer_laws o Hpos p.

(** [range_route tick r start p n q h]: the handler [h] answers a request for
    the [n] entries from [start] on, which the producer [p] seals in the
    file [q]. *)
Inductive range_route (tick : Srv -> Srv) (r : Request) (start : Z) :
    producer -> Z -> str -> M (Srv * ResponseWriter) unit -> Prop :=
  | route_headers :
      range_route tick r start Headers (headersPerFile cfg)
        (sealedName cfg HeaderFileDir HeaderFileSuffix (headersPerFile cfg) start) (headersRequestHandler cfg tick r)
  | route_filter_headers :
      range_route tick r start Headers (headersPerFile cfg)
        (sealedName cfg HeaderFileDir FilterHeaderFileSuffix (headersPerFile cfg) start)
        (filterHeadersRequestHandler cfg tick r)
  | route_filters :
      range_route tick r start Filters (filtersPerFile cfg)
        (sealedName cfg FilterFileDir FilterFileSuffix (filtersPerFile cfg) start) (filtersRequestHandler cfg tick r)
  | route_tweaks d :
      parseRequestParamInt64 r "dust" = Ok d -> d ∈ spTweakDustLimits ->
      range_route tick r start SPTweakData (spTweaksPerFile cfg)
        (sealedName cfg (spTweakDustDir d) SPTweakFileSuffix (spTweaksPerFile cfg) start)
        (spTweaksRequestHandler cfg tick r)
  | route_custom_filters f :
      rq_vars r !! "filterType" = Some (cfg_name f) -> f ∈ customFilterConfigs ->
      range_route tick r start CustomFilterSets (filtersPerFile cfg)
        (sealedName cfg (customFilterDir (cfg_name f)) FilterFileSuffix (filtersPerFile cfg) start)
        (customFiltersRequestHandler cfg tick r)
  | route_custom_headers f :
      rq_vars r !! "filterType" = Some (cfg_name f) -> f ∈ customFilterConfigs ->
      range_route tick r start CustomFilterSets (headersPerFile cfg)
        (sealedName cfg (customHeaderDir (cfg_name f)) FilterHeaderFileSuffix (headersPerFile cfg) start)
        (customFilterHeadersRequestHandler cfg tick r).

(** The file of a route is one its producer seals. *)
Lemma range_route_sealPath tick r start p n q h :
  range_route tick r start p n q h -> 0 <= start -> 0 < n -> start + n <= max_height ->
  sealPath (hooks := producer_hooks o p) (start + n - 1) q.
Proof.
  unfold max_height. intros Hr Hs Hp Hb.
  destruct Hr as [| | |d _ Hd|f _ Hf|f _ Hf]; unfold sealedName;
    rewrite (i64_id (start + _ - 1)) by (unfold max_int64; lia).
  - exists start, HeaderFileSuffix. split_and!; [lia|lia|by left|done].
  - exists start, FilterHeaderFileSuffix. split_and!; [lia|lia|by right|done].
  - exists start. split; [lia|done].
  - exists start, d. split_and!; [lia|lia|done|done].
  - exists start, f. split_and!; [lia|lia|done|by left].
  - exists start, f. split_and!; [lia|lia|done|by right].
Qed.

(** What the handler of a route asks of the producer. *)
Definition route_processor (p : producer) : Srv -> blockProcessor :=
  match p with
  | Headers => fun s => processor_of (headerFiles_ s)
  | Filters => fun s => processor_of (cFilterFiles_ s)
  | SPTweakData => fun s => processor_of (the_sp s)
  | CustomFilterSets => fun s => processor_of (the_custom s)
  end.
Definition route_on (p : producer) (s : Srv) : Prop :=
  match p with
  | Headers | Filters => True
  | SPTweakData => is_Some (spTweakFiles_ s)
  | CustomFilterSets => is_Some (customFilterFiles_ s)
  end.

Lemma customFilterConfigIndex_found f :
  f ∈ customFilterConfigs -> exists i, customFilterConfigIndex (cfg_name f) = Some i.
Proof. revert f. apply Forall_forall. repeat constructor; eexists; vm_compute; reflexivity. Qed.

Lemma custom_config_run tick r f i (s : Srv * ResponseWriter) :
  (forall s, route_on CustomFilterSets (tick s)) -> rq_vars r !! "filterType" = Some (cfg_name f) ->
  customFilterConfigIndex (cfg_name f) = Some i ->
  customFilterConfig_ tick r s = (Ok (Some (cfg_name f, i)), (tick s.1, s.2)).
Proof.
  intros Hon Hv Hi. unfold customFilterConfig_. rewrite bind_read. destruct (Hon s.1) as [v ->].
  rewrite Hv. change (default "" (Some (cfg_name f))) with (cfg_name f). cbv zeta. by rewrite Hi.
Qed.

(** Every route comes down to the height based handler. *)
Lemma range_route_height_based tick r start p n q h :
  range_route tick r start p n q h -> (forall s, route_on p (tick s)) ->
  exists subDir suffix serializeCb sizeCb,
    q = sealedName cfg subDir suffix n start /\
    forall s w, exists s', h (s, w)
      = heightBasedRequestHandler cfg tick r subDir suffix n serializeCb (Some sizeCb) (route_processor p) (s', w).
Proof.
  intros Hr Hon. destruct Hr as [| | |d Hd Hin|f Hv Hin|f Hv Hin];
    try (destruct (customFilterConfigIndex_found f Hin) as [i Hi]);
    do 4 eexists; (split; [reflexivity|]); intros s w; try (exists s; reflexivity); exists (tick s).
  - unfold spTweaksRequestHandler. rewrite bind_read. cbn [fst snd]. destruct (Hon s) as [v ->]. rewrite Hd.
    assert (u64 d = d /\ isValidSPTweakDustLimit d = true) as [-> ->]; [|reflexivity].
    clear Hd. revert d Hin. apply Forall_forall. repeat constructor.
  - unfold customFiltersRequestHandler. by rewrite (bind_Ok _ _ _ _ _ (custom_config_run tick r f i (s, w) Hon Hv Hi)).
  - unfold customFilterHeadersRequestHandler. by rewrite (bind_Ok _ _ _ _ _ (custom_config_run tick r f i (s, w) Hon Hv Hi)).
Qed.

(** ** The running system *)

(** A producer that has caught up with the backend, and has not ended. *)
Definition caught_up (p : pc) : Prop :=
  match p with Ingesting polling _ _ | Sealing polling _ _ => polling = true | Polling => True | _ => False end.

(** A moment of a request while [p] serves: the server after some schedule from
    [σ1] on, with a disk that answers. *)
Definition serving (σ1 : system (W := W) (D := producer_data)) (p : producer) (s : Srv) : Prop :=
  exists waiting l, Forall harmless l /\
    let σ := server_run o l σ1 in
    s = server_view waiting σ /\ caught_up (sy_threads σ p).1 /\ fs_faults (e_fs (sy_env σ)) = no_faults.

Lemma serving_now waiting (σ : system (W := W) (D := producer_data)) p :
  caught_up (sy_threads σ p).1 -> fs_faults (e_fs (sy_env σ)) = no_faults -> serving σ p (server_view waiting σ).
Proof. intros Hu Hf. exists waiting, []. by split; [constructor|]. Qed.

Lemma caught_up_view waiting p (σ : system (W := W) (D := producer_data)) :
  sys_ok (producer_hooks o) (producer_cfg o) σ -> caught_up (sy_threads σ p).1 ->
  let s := server_view waiting σ in
  route_on p s /\ isStartupComplete (route_processor p s) = true /\
  (0 <= sealed_at (producer_cfg o) p σ -> sealed_at (producer_cfg o) p σ <= getCurrentHeight (route_processor p s)).
Proof.
  intros [_ Ht] Hu. specialize (Ht p). cbv zeta.
  assert (route_on p (server_view waiting σ) /\
    route_processor p (server_view waiting σ) = processor_of (sy_threads σ p).2) as [H1 ->].
  { clear Ht. unfold server_view, route_on, route_processor, the_sp, the_custom.
    destruct p; cbn; [done|done|revert Hu; destruct (sy_threads σ SPTweakData) as [[] v]
                               |revert Hu; destruct (sy_threads σ CustomFilterSets) as [[] v]]; cbn; try done;
      intros _; (split; [by eexists|done]). }
  split; [exact H1|]. unfold sealed_at, thread in *. cbn in Ht |- *.
  destruct (sy_threads σ p).1 as [|n|polling a b|polling a b| |e]; cbn in Hu, Ht |- *; try done.
  - destruct Ht as ([_ _ P3 _ _ _] & _ & Hc & Hs). cbn in *. split; [auto|lia].
  - destruct Ht as ([_ _ P3 _ _ _] & _ & Hc & _ & Hs). cbn in *. split; [auto|lia].
  - destruct Ht as ([_ _ P3 _ _ _] & Hs). cbn in *. split; [done|lia].
Qed.

(** C3: what a client downloads is final: after a start on directories of whole
    files, once the range of a request is sealed at some moment, every request
    for it, at any later time and whatever the producers and other requests do
    meanwhile, is answered with the bytes the file had at that moment, whole
    or the part that was asked for, and with a year of caching; on every route
    of ranges, as long as its producer runs and the disk can be read. *)
Theorem sealed_ranges_are_final `{!WireLaws (Wi := Wi)} `{BC : !BoundedChain} e f gs s' hss l1 tick r start p n q h bs s cap :
  clean_start o e f gs s' hss -> Forall harmless l1 ->
  let σ1 := server_run o l1 (launch gs s') in
  (forall s, serving σ1 p (tick s)) ->
  range_route tick r start p n q h -> lightMode cfg = false ->
  parseRequestParamInt64 r "height" = Ok start -> 0 <= start -> 0 < n -> Z.rem start n = 0 ->
  start + n - 1 <= sealed_at (producer_cfg o) p σ1 -> start + n <= max_height ->
  fs_files (e_fs (sy_env σ1)) !! q = Some bs -> Z.of_nat (length bs) <= max_int64 ->
  range_wf (rq_Range r) ->
  match parseRange (rq_Range r) (Z.of_nat (length bs)) with Whole | Part _ _ => True | _ => False end ->
  exists s2 w, h (s, newResponse cap) = (Ok tt, (s2, w)) /\ file_answer (rq_Range r) cap bs w.
Proof using Hpos.
  intros Hs Hl1 σ1 Htick Hr Hlm Hp Hst Hn0 Hmod Hse Hb Hq Hmax Hw Hpr.
  pose proof (server_run_ok o Hpos _ _ _ _ _ _ Hs Hl1 : sys_ok (producer_hooks o) (producer_cfg o) σ1) as Hok1.
  assert (Hat : forall x, exists w σ, tick x = server_view w σ /\ caught_up (sy_threads σ p).1 /\
    fs_faults (e_fs (sy_env σ)) = no_faults /\ sys_ok (producer_hooks o) (producer_cfg o) σ /\
    start + n - 1 <= sealed_at (producer_cfg o) p σ /\ fs_files (e_fs (sy_env σ)) !! q = Some bs).
  { intros x. destruct (Htick x) as (w & l & Hl & E & Hu & Hf). exists w, (server_run o l σ1).
    destruct (run_ok _ _ _ (cs_cfg _ _ _ _ _ _ Hs) (producer_prepares o) l σ1 Hl Hok1) as [Hok Hsafe].
    split_and!; [done..| |].
    - etransitivity; [exact Hse|apply (ss_mono _ _ _ _ Hsafe)].
    - rewrite <- Hq. apply (ss_files _ _ _ _ Hsafe p (start + n - 1)); [lia|done|].
      by eapply range_route_sealPath. }
  assert (Hview : forall x, route_on p (tick x) /\ isStartupComplete (route_processor p (tick x)) = true /\
    start <= getCurrentHeight (route_processor p (tick x))).
  { intros x. destruct (Hat x) as (w & σ & -> & Hu & _ & Hok & Hle & _).
    destruct (caught_up_view w p σ Hok Hu) as (A & B & D). split_and!; [done|done|]. specialize (D ltac:(lia)). lia. }
  destruct (range_route_height_based _ _ _ _ _ _ _ Hr ltac:(apply Hview)) as (subDir & suffix & ser & sz & -> & Hh).
  destruct (Hh s (newResponse cap)) as [s0 ->]. unfold max_height in Hb.
  eapply heightBased_serves_file; try done; [unfold max_int32; lia|unfold max_int32; lia|apply Hview|apply Hview|..];
    intros x; by destruct (Hat x) as (w & σ & -> & _ & Hf & _ & _ & Hfile).
Qed.
End Routes.

(** *** Witness *)

Section Witness.
#[local] Abbreviation to := (toy_options false).

(** The header producer catches up with the backend. *)
Definition toy_caught_up_schedule : list (event (W := toy_world) (I := producer)) := replicate 8 (Step Headers).
#[local] Abbreviation toy_caught_up :=
  (server_run to toy_caught_up_schedule (launch (goroutines to 5) (toy_started false).2)).
Definition toy_serving_tick (_ : server (W := toy_world)) : server (W := toy_world) := server_view false toy_caught_up.
Definition toy_second_file : bytes := headers_bytes (Wi := toy_wire) (drop 2 (toy_headers 4)).

Ltac toy_serving :=
  unfold toy_serving_tick, toy_started; rewrite (toy_started_aux false).(seal_eq); unfold toy_state;
  rewrite lc_sealed_eq; vm_compute; reflexivity.

Lemma toy_caught_up_harmless : Forall harmless toy_caught_up_schedule.
Proof. by repeat constructor. Qed.

Lemma toy_serving_headers s : serving to toy_caught_up Headers (toy_serving_tick s).
Proof.
  apply serving_now.
  - assert (match (sy_threads toy_caught_up Headers).1 with Polling => true | _ => false end = true) as E by toy_serving.
    destruct (sy_threads toy_caught_up Headers) as [[] v]; try discriminate E. exact I.
  - toy_serving.
Qed.

(** The second file, from its tenth byte on, over a connection that breaks. *)
Lemma sealed_ranges_are_final_witness :
  exists s2 w, headersRequestHandler (so_cfg to) toy_serving_tick (toy_request "2" (From 10))
      (server_view false toy_caught_up, newResponse (Some 50%nat)) = (Ok tt, (s2, w)) /\
    file_answer (From 10) (Some 50%nat) toy_second_file w.
Proof.
  apply (sealed_ranges_are_final to ltac:(reflexivity) (ps_env lc_sealed) (mkFetcher false false) _ _ toy_hss
    toy_caught_up_schedule toy_serving_tick (toy_request "2" (From 10)) 2 Headers 2
    (sealedName (so_cfg to) HeaderFileDir HeaderFileSuffix 2 2) _ toy_second_file _ (Some 50%nat)
    toy_clean_start toy_caught_up_harmless toy_serving_headers (route_headers to toy_serving_tick _ 2));
    [reflexivity|reflexivity|lia|lia|reflexivity| |unfold max_height; lia| |vm_compute; discriminate|cbn; lia|exact I].
  - assert ((2 + 2 - 1 <=? sealed_at (producer_cfg to) Headers toy_caught_up) = true) as E by toy_serving.
    apply Z.leb_le, E.
  - assert (fs_files (e_fs (sy_env toy_caught_up)) !! sealedName (so_cfg to) HeaderFileDir HeaderFileSuffix 2 2
            = Some toy_second_file) as E by toy_serving.
    exact E.
Defined.
End Witness.
