(* ===== verification/Flags.v ===== *)
(** * The flags of the program

    The command line of [main.go]: the record the flags are bound to, the calls
    that register them, and what a command line makes of it. The texts of the
    arguments are parsed by the packages cobra and pflag. *)

From Stdlib Require Import ZArith Lia.
From stdpp Require Import base numbers list sets strings option.
From S2P Require Import Prelude GoInt Bytes GoStr Iface Backend HttpServer Server.

Local Open Scope Z_scope.

(** [rpcclient.ConnConfig]: the fields the program sets. *)
Record ConnConfig := mkConn {
  Host : str;
  User : str;
  Pass : str;
  DisableTLS : bool;
  HTTPPostMode : bool
}.

(** The values of the flags of the program. *)
Record mainCommand := mkMain {
  network : networkFlags;
  mc_lightMode : bool;
  mc_indexSPTweakData : bool;
  mc_indexCustomFilters : bool;
  prevOutCacheSizeMiB : Z;
  mc_baseDir : str;
  logDir : str;
  logLevel : str;
  indexPage : str;
  mc_listenAddr : str;
  mc_reOrgSafeDepth : Z;
  mc_readTimeout : Z;
  mc_writeTimeout : Z;
  bitcoindConfig : ConnConfig
}.

Definition defaultListenPort : Z := 8080.
Definition version : str := "1.4.3".

(** The command [main] starts from: the other fields are at their zero values. *)
Definition newMainCommand : mainCommand :=
  mkMain (mkFlags false false false false) false false false 0 "" "" "" ""
    ("localhost:" ++ fmt_d defaultListenPort)%string 0 0 0 (mkConn "" "" "" true true).

(** A pointer to a field of the command: how to read and how to store it. *)
Record field (A : Type) := mkField { load : mainCommand -> A; store : A -> mainCommand -> mainCommand }.
Arguments mkField {A} _ _.
Arguments load {A} _ _.
Arguments store {A} _ _ _.

(** *** The fields [main] takes the address of *)

Definition set_network (n : networkFlags) (c : mainCommand) : mainCommand :=
  mkMain n (mc_lightMode c) (mc_indexSPTweakData c) (mc_indexCustomFilters c) (prevOutCacheSizeMiB c) (mc_baseDir c)
    (logDir c) (logLevel c) (indexPage c) (mc_listenAddr c) (mc_reOrgSafeDepth c) (mc_readTimeout c) (mc_writeTimeout c)
    (bitcoindConfig c).
Definition set_indexing (light sp custom : bool) (cacheSize : Z) (c : mainCommand) : mainCommand :=
  mkMain (network c) light sp custom cacheSize (mc_baseDir c) (logDir c) (logLevel c) (indexPage c) (mc_listenAddr c)
    (mc_reOrgSafeDepth c) (mc_readTimeout c) (mc_writeTimeout c) (bitcoindConfig c).
Definition set_paths (base dir level page listen : str) (c : mainCommand) : mainCommand :=
  mkMain (network c) (mc_lightMode c) (mc_indexSPTweakData c) (mc_indexCustomFilters c) (prevOutCacheSizeMiB c) base dir
    level page listen (mc_reOrgSafeDepth c) (mc_readTimeout c) (mc_writeTimeout c) (bitcoindConfig c).
Definition set_limits (depth rd wr : Z) (c : mainCommand) : mainCommand :=
  mkMain (network c) (mc_lightMode c) (mc_indexSPTweakData c) (mc_indexCustomFilters c) (prevOutCacheSizeMiB c)
    (mc_baseDir c) (logDir c) (logLevel c) (indexPage c) (mc_listenAddr c) depth rd wr (bitcoindConfig c).
Definition set_bitcoind (b : ConnConfig) (c : mainCommand) : mainCommand :=
  mkMain (network c) (mc_lightMode c) (mc_indexSPTweakData c) (mc_indexCustomFilters c) (prevOutCacheSizeMiB c)
    (mc_baseDir c) (logDir c) (logLevel c) (indexPage c) (mc_listenAddr c) (mc_reOrgSafeDepth c) (mc_readTimeout c)
    (mc_writeTimeout c) b.

Definition at_testnet : field bool :=
  mkField (fun c => testnet (network c))
    (fun v c => set_network (mkFlags v (testnet4 (network c)) (signet (network c)) (regtest (network c))) c).
Definition at_testnet4 : field bool :=
  mkField (fun c => testnet4 (network c))
    (fun v c => set_network (mkFlags (testnet (network c)) v (signet (network c)) (regtest (network c))) c).
Definition at_regtest : field bool :=
  mkField (fun c => regtest (network c))
    (fun v c => set_network (mkFlags (testnet (network c)) (testnet4 (network c)) (signet (network c)) v) c).
Definition at_signet : field bool :=
  mkField (fun c => signet (network c))
    (fun v c => set_network (mkFlags (testnet (network c)) (testnet4 (network c)) v (regtest (network c))) c).
Definition at_lightMode : field bool :=
  mkField (fun c => mc_lightMode c)
    (fun v c => set_indexing v (mc_indexSPTweakData c) (mc_indexCustomFilters c) (prevOutCacheSizeMiB c) c).
Definition at_indexSPTweakData : field bool :=
  mkField (fun c => mc_indexSPTweakData c)
    (fun v c => set_indexing (mc_lightMode c) v (mc_indexCustomFilters c) (prevOutCacheSizeMiB c) c).
Definition at_indexCustomFilters : field bool :=
  mkField (fun c => mc_indexCustomFilters c)
    (fun v c => set_indexing (mc_lightMode c) (mc_indexSPTweakData c) v (prevOutCacheSizeMiB c) c).
Definition at_prevOutCacheSizeMiB : field Z :=
  mkField (fun c => prevOutCacheSizeMiB c)
    (fun v c => set_indexing (mc_lightMode c) (mc_indexSPTweakData c) (mc_indexCustomFilters c) v c).
Definition at_baseDir : field str :=
  mkField (fun c => mc_baseDir c) (fun v c => set_paths v (logDir c) (logLevel c) (indexPage c) (mc_listenAddr c) c).
Definition at_logDir : field str :=
  mkField (fun c => logDir c) (fun v c => set_paths (mc_baseDir c) v (logLevel c) (indexPage c) (mc_listenAddr c) c).
Definition at_logLevel : field str :=
  mkField (fun c => logLevel c) (fun v c => set_paths (mc_baseDir c) (logDir c) v (indexPage c) (mc_listenAddr c) c).
Definition at_indexPage : field str :=
  mkField (fun c => indexPage c) (fun v c => set_paths (mc_baseDir c) (logDir c) (logLevel c) v (mc_listenAddr c) c).
Definition at_listenAddr : field str :=
  mkField (fun c => mc_listenAddr c) (fun v c => set_paths (mc_baseDir c) (logDir c) (logLevel c) (indexPage c) v c).
Definition at_reOrgSafeDepth : field Z :=
  mkField (fun c => mc_reOrgSafeDepth c) (fun v c => set_limits v (mc_readTimeout c) (mc_writeTimeout c) c).
Definition at_readTimeout : field Z :=
  mkField (fun c => mc_readTimeout c) (fun v c => set_limits (mc_reOrgSafeDepth c) v (mc_writeTimeout c) c).
Definition at_writeTimeout : field Z :=
  mkField (fun c => mc_writeTimeout c) (fun v c => set_limits (mc_reOrgSafeDepth c) (mc_readTimeout c) v c).
Definition at_Host : field str :=
  mkField (fun c => Host (bitcoindConfig c))
    (fun v c => let b := bitcoindConfig c in set_bitcoind (mkConn v (User b) (Pass b) (DisableTLS b) (HTTPPostMode b)) c).
Definition at_User : field str :=
  mkField (fun c => User (bitcoindConfig c))
    (fun v c => let b := bitcoindConfig c in set_bitcoind (mkConn (Host b) v (Pass b) (DisableTLS b) (HTTPPostMode b)) c).
Definition at_Pass : field str :=
  mkField (fun c => Pass (bitcoindConfig c))
    (fun v c => let b := bitcoindConfig c in set_bitcoind (mkConn (Host b) (User b) v (DisableTLS b) (HTTPPostMode b)) c).

(** *** The flags *)

(** A call that registers a flag: the field it sets, and its default. *)
Inductive flag :=
  | BoolVar (p : field bool) (value : bool)
  | StringVar (p : field str) (value : str)
  | UintVar (width : Z) (p : field Z) (value : Z)
  | DurationVar (p : field Z) (value : Z).

(** Registering a flag stores its default. *)
Definition register (f : flag) (c : mainCommand) : mainCommand :=
  match f with
  | BoolVar p value => store p value c
  | StringVar p value => store p value c
  | UintVar _ p value => store p value c
  | DurationVar p value => store p value c
  end.

(** The calls of [main], in their order. [workDir] is the working directory,
    [c] the command they are made on. *)
Definition persistentFlags (workDir : str) (c : mainCommand) : list (str * flag) := [
  ("testnet", BoolVar at_testnet false);
  ("testnet4", BoolVar at_testnet4 false);
  ("regtest", BoolVar at_regtest false);
  ("signet", BoolVar at_signet false);
  ("light-mode", BoolVar at_lightMode false);
  ("index-sp-tweak-data", BoolVar at_indexSPTweakData false);
  ("index-custom-filters", BoolVar at_indexCustomFilters false);
  ("prev-out-cache-size-mib", UintVar 16 at_prevOutCacheSizeMiB 1024);
  ("base-dir", StringVar at_baseDir "");
  ("log-dir", StringVar at_logDir workDir);
  ("log-level", StringVar at_logLevel "info");
  ("index-page", StringVar at_indexPage "");
  ("listen-addr", StringVar at_listenAddr (mc_listenAddr c));
  ("bitcoind-host", StringVar at_Host "localhost:8332");
  ("bitcoind-user", StringVar at_User "");
  ("bitcoind-pass", StringVar at_Pass "");
  ("reorg-safe-depth", UintVar 32 at_reOrgSafeDepth defaultMainnetReOrgSafeDepth);
  ("read-timeout", DurationVar at_readTimeout defaultReadTimeout);
  ("write-timeout", DurationVar at_writeTimeout defaultWriteTimeout)
]%string.

(** The command when no flag is given. *)
Definition defaultCommand (workDir : str) : mainCommand :=
  foldl (fun c nf => register nf.2 c) newMainCommand (persistentFlags workDir newMainCommand).

(** *** The command line *)

(** How the package reads the text of an argument. *)
Class FlagTexts := {
  ParseBool : str -> option bool;
  ParseUint : Z -> str -> option Z;
  ParseDuration : str -> option Z
}.
Class FlagTextsLaws `{FlagTexts} :=
  ParseUint_bound : forall width text n, ParseUint width text = Some n -> 0 <= n < 2 ^ width.

(** The value of a flag. *)
Inductive flagValue := VBool (b : bool) | VString (s : str) | VInt (n : Z).

Section CommandLine.
Context `{FT : FlagTexts}.

Definition read_value (f : flag) (text : str) : option flagValue :=
  match f with
  | BoolVar _ _ => VBool <$> ParseBool text
  | StringVar _ _ => Some (VString text)
  | UintVar w _ _ => VInt <$> ParseUint w text
  | DurationVar _ _ => VInt <$> ParseDuration text
  end.

(** Store the value of an argument. *)
Definition assign (f : flag) (text : str) : option (mainCommand -> mainCommand) :=
  match f with
  | BoolVar p _ => store p <$> ParseBool text
  | StringVar p _ => Some (store p text)
  | UintVar w p _ => store p <$> ParseUint w text
  | DurationVar p _ => store p <$> ParseDuration text
  end.

Fixpoint lookup_flag (name : str) (flags : list (str * flag)) : option flag :=
  match flags with
  | [] => None
  | (n, f) :: flags' => if (n =? name)%string then Some f else lookup_flag name flags'
  end.

(** The flags of a command line, one after the other. *)
Definition parseFlags (workDir : str) (given : list (str * str)) : option mainCommand :=
  foldl (fun oc nv =>
      c ← oc; f ← lookup_flag nv.1 (persistentFlags workDir newMainCommand); g ← assign f nv.2; Some (g c))
    (Some (defaultCommand workDir)) given.

(** ** What the flags are bound to *)

(** No name is registered twice, which the package would panic about, and the
    [fix] of the verify command is not hidden by a flag of the root. *)
Lemma flag_names_distinct workDir c : NoDup ("fix"%string :: (persistentFlags workDir c).*1).
Proof. apply (bool_decide_unpack _). by vm_compute. Qed.

Lemma lookup_flag_in name flags f : lookup_flag name flags = Some f -> (name, f) ∈ flags.
Proof.
  induction flags as [|[n g] flags IH]; cbn; [done|]. destruct (String.eqb_spec n name) as [->|]; [|set_solver].
  intros [= ->]. set_solver.
Qed.

(** What a flag has stored. *)
Definition stored (f : flag) (c : mainCommand) : flagValue :=
  match f with
  | BoolVar p _ => VBool (load p c)
  | StringVar p _ => VString (load p c)
  | UintVar _ p _ | DurationVar p _ => VInt (load p c)
  end.

(** A flag stores what it reads. *)
Definition sound (f : flag) : Prop :=
  forall text g c, assign f text = Some g -> read_value f text = Some (stored f (g c)).
(** Two flags are bound to different fields: storing the second does not
    change the first. *)
Definition apart (f1 f2 : flag) : Prop :=
  forall text g c, assign f2 text = Some g -> stored f1 (g c) = stored f1 c.

(** By cases on the flags. *)
Ltac each_flag := unfold persistentFlags; repeat (apply Forall_cons_2 || apply Forall_nil_2); cbn [fst snd].
Ltac stored_value E :=
  unfold assign in E; first [injection E as <- | apply fmap_Some in E as (? & ? & ->)].

Lemma flags_sound workDir c : Forall (fun nf => sound nf.2) (persistentFlags workDir c).
Proof.
  each_flag; intros text g c' E; stored_value E; try reflexivity;
    match goal with H : _ = Some _ |- _ => unfold read_value; rewrite H; reflexivity end.
Qed.

Lemma flags_apart workDir c :
  Forall (fun nf => Forall (fun mf => mf.1 = nf.1 \/ apart nf.2 mf.2) (persistentFlags workDir c)) (persistentFlags workDir c).
Proof. each_flag; first [left; reflexivity | right; intros text g c' E; stored_value E; reflexivity]. Qed.

(** A name stands for one flag. *)
Lemma registered_once workDir c n f g :
  (n, f) ∈ persistentFlags workDir c -> (n, g) ∈ persistentFlags workDir c -> f = g.
Proof.
  pose proof (NoDup_cons_1_2 _ _ (flag_names_distinct workDir c)) as Hd. revert Hd.
  generalize (persistentFlags workDir c). intros flags Hd [i Hi]%list_elem_of_lookup [j Hj]%list_elem_of_lookup.
  assert (i = j) as ->; [|by simplify_eq].
  eapply NoDup_lookup; [done|by rewrite list_lookup_fmap, Hi|by rewrite list_lookup_fmap, Hj].
Qed.

(** One argument of the command line. *)
Lemma parseFlags_snoc workDir given n v :
  parseFlags workDir (given ++ [(n, v)]) =
  (c ← parseFlags workDir given; f ← lookup_flag n (persistentFlags workDir newMainCommand); g ← assign f v; Some (g c)).
Proof. unfold parseFlags. by rewrite foldl_app. Qed.

(** A flag has the value the command line gives it last, and its default when
    it is not given. *)
Lemma parseFlags_exact workDir given c n f :
  parseFlags workDir given = Some c -> (n, f) ∈ persistentFlags workDir newMainCommand ->
  (n ∉ given.*1 -> stored f c = stored f (defaultCommand workDir)) /\
  (forall before v after, given = before ++ (n, v) :: after -> n ∉ after.*1 -> read_value f v = Some (stored f c)).
Proof.
  intros E Hin. revert c E. induction given as [|[m v] given IH] using rev_ind; intros c E.
  { injection E as <-. split; [done|]. intros [|] ? ?; discriminate. }
  rewrite parseFlags_snoc in E. apply bind_Some in E as (c1 & E1 & (fm & Hm%lookup_flag_in & (g & Hg & [= <-])%bind_Some)%bind_Some).
  destruct (IH _ E1) as [IH1 IH2]. destruct (decide (m = n)) as [->|Hne].
  - assert (fm = f) as -> by (eapply registered_once; eauto).
    assert (read_value f v = Some (stored f (g c1))) as Hs.
    { pose proof (flags_sound workDir newMainCommand) as Hf. rewrite list.Forall_forall in Hf. exact (Hf _ Hm _ _ _ Hg). }
    clear Hin Hm. split; [rewrite fmap_app; set_solver|]. intros before v' after Hg' Ha.
    destruct after as [|x after _] using rev_ind; [by apply app_inj_tail in Hg' as [_ [= <-]]|].
    rewrite app_comm_cons, app_assoc in Hg'. apply app_inj_tail in Hg' as [_ <-]. rewrite fmap_app in Ha. set_solver.
  - assert (stored f (g c1) = stored f c1) as Hs.
    { pose proof (flags_apart workDir newMainCommand) as Hf. rewrite list.Forall_forall in Hf. specialize (Hf _ Hin).
      rewrite list.Forall_forall in Hf. destruct (Hf _ Hm) as [?|Ha]; [by cbn in *|]. exact (Ha _ _ _ Hg). }
    rewrite Hs. clear Hin Hm. split; [rewrite fmap_app; set_solver|]. intros before v' after Hg' Ha.
    destruct after as [|x after _] using rev_ind.
    { apply app_inj_tail in Hg' as [_ [= -> _]]. done. }
    rewrite app_comm_cons, app_assoc in Hg'. apply app_inj_tail in Hg' as [-> <-]. rewrite fmap_app in Ha.
    eapply IH2; [done|set_solver].
Qed.

(** A safe depth the program is given fits its type. *)
Lemma flags_depth `{!FlagTextsLaws} workDir c :
  Forall (fun nf => forall text g c', assign nf.2 text = Some g ->
            0 <= mc_reOrgSafeDepth c' < 2 ^ 32 -> 0 <= mc_reOrgSafeDepth (g c') < 2 ^ 32)
    (persistentFlags workDir c).
Proof.
  each_flag; intros text g c' E; stored_value E; try exact (fun H => H).
  intros _. by apply (ParseUint_bound 32 text).
Qed.

Lemma parseFlags_depth `{!FlagTextsLaws} workDir given c :
  parseFlags workDir given = Some c -> 0 <= mc_reOrgSafeDepth c < 2 ^ 32.
Proof.
  revert c. induction given as [|[n v] given IH] using rev_ind; intros c E.
  { injection E as <-. split; [discriminate|reflexivity]. }
  rewrite parseFlags_snoc in E. apply bind_Some in E as (c1 & E1 & (f & Hf%lookup_flag_in & (g & Hg & [= <-])%bind_Some)%bind_Some).
  pose proof (flags_depth workDir newMainCommand) as Hd. rewrite list.Forall_forall in Hd. exact (Hd _ Hf _ _ _ Hg (IH _ E1)).
Qed.
End CommandLine.

(** Decimal numbers and whole seconds, for the examples. *)
#[export] Instance toy_texts : FlagTexts := {|
  ParseBool s := if (s =? "true")%string then Some true else if (s =? "false")%string then Some false else None;
  ParseUint w s := n ← parse_uint s; if (0 <=? n) && (n <? 2 ^ w) then Some n else None;
  ParseDuration s := n ← parse_uint s; Some (n * Second)
|}.
#[export] Instance toy_texts_laws : FlagTextsLaws.
Proof.
  intros w s n. cbn. intros (m & _ & E)%bind_Some.
  destruct ((0 <=? m) && (m <? 2 ^ w)) eqn:Hb; [|done]. injection E as <-.
  apply andb_prop in Hb as [H1%Z.leb_le H2%Z.ltb_lt]. lia.
Qed.
