(* ===== verification/Main.v ===== *)
(** * The commands

    [main.go] and the command of [verify.go]: what the program makes of its
    flags ([Flags]) before the server or the verification takes over. *)

From Stdlib Require Import ZArith Lia.
From stdpp Require Import base numbers list strings gmap.
From S2P Require Import Prelude GoInt Bytes GoStr Address GoIO Iface Backend Toy Files H2H Producer ProducerLaws HeaderFiles LifeCycle CFilterFiles Verify VerifyLaws PrevOuts ToyNet SPTweaks CustomFilters HttpServer Handlers ToyServer Server ServerLaws Flags.

Local Open Scope Z_scope.

(** The package [chaincfg]: what the program reads of a network. *)
Class ChainParams `{Wi : Wire} := {
  params_Net : Network -> Z;
  params_GenesisHash : Network -> Hash;
  params_Name : Network -> str
}.

Section Commands.
Context `{Wi : Wire} `{T : !Tx} `{J : !Json} `{G : !Gcs} {W : Type} `{C : !Chain W} `{Hn : !Http W} `{R : !Rpc W} `{Sc : !Scheduler W}.
Context `{SP : !SilentPayments} `{NW : !Networks} `{Ad : !Admin W} `{CP : !ChainParams}.
(** The commit and the page the program was built with. *)
Context (Commit : str) (embeddedPage : bytes).
Implicit Types (cc : mainCommand).

(** The call of [newServer]. *)
Definition serverFor cc (page : bytes) : serverOptions :=
  let '(params, (headersPerFile, filtersPerFile, spTweaksPerFile), depth) :=
    resolveNetwork (network cc) (mc_reOrgSafeDepth cc) in
  newServer
    (mkServerCfg (mc_lightMode cc) (mc_baseDir cc) headersPerFile filtersPerFile spTweaksPerFile depth
       (params_Net params) (Hash_String (params_GenesisHash params)) (params_Name params) version Commit page
       (backendRESTURL (Host (bitcoindConfig cc)) (DisableTLS (bitcoindConfig cc))))
    (mc_indexSPTweakData cc) (mc_indexCustomFilters cc) (mc_listenAddr cc) (mc_readTimeout cc) (mc_writeTimeout cc).

(** The [Run] of the root command up to its [select]: the server, and the
    goroutines that run then. An error is the one it logs before it returns.
    [intercepted] is the result of [signal.Intercept]. *)
Definition runServer cc (intercepted : result unit) : M (Env W * blockPrevOutFetcher) (serverOptions * list goroutine) :=
  (if negb (mc_lightMode cc) && (mc_baseDir cc =? "")%string
   then fail (Errorf "Base directory must be set if not running in light mode") else ret tt) ;;;
  let! page :=
    (if (indexPage cc =? "")%string then ret embeddedPage
     else wrapE "Error reading index page file '%s': %v"
            (fun s => (os_ReadFile (e_fs s.1) (indexPage cc), s))) in
  let server := serverFor cc page in
  let! gs := wrapE "Error starting server: %v" (start server) in
  wrapE "Error intercepting signals: %v" (liftR intercepted) ;;;
  ret (server, gs).

(** [runVerify] with its set-up; [temp] is the choice of [os.CreateTemp]. *)
Definition verifierFor cc (fix_ : bool) (temp : FS -> str -> str) (serverURL : str) : verifyCfg :=
  let '(params, (headersPerFile, filtersPerFile, _), depth) :=
    resolveNetwork (network cc) (mc_reOrgSafeDepth cc) in
  mkVC (params_GenesisHash params) (mc_baseDir cc) headersPerFile filtersPerFile fix_ (i32 depth) serverURL temp.

Definition verifyCommand cc (fix_ : bool) (temp : FS -> str -> str) (fuel : nat) : M (W * FS) unit :=
  (if (mc_baseDir cc =? "")%string then fail (Errorf "--base-dir must be set") else ret tt) ;;;
  let! serverURL := liftR (serverBaseURL (mc_listenAddr cc)) in
  wrapE "error connecting to bitcoind: %w" (zoom fst (fun w s => (w, s.2)) rpcclient_New) ;;;
  fun s =>
    let '(r, v) := runVerify (verifierFor cc fix_ temp serverURL) fuel (newVerifier s.1 s.2) in
    (r, (v_world v, v_fs v)).

(** ** What a started server is like *)

Lemma runServer_inv cc intercepted s o gs s' :
  runServer cc intercepted s = (Ok (o, gs), s') ->
  (mc_lightMode cc = true \/ mc_baseDir cc <> "") /\
  (exists page, o = serverFor cc page) /\ start o s = (Ok gs, s').
Proof.
  unfold runServer. intros ([] & s1 & E1 & E)%bind_Ok_inv.
  assert ((mc_lightMode cc = true \/ mc_baseDir cc <> "") /\ s1 = s) as [Hb ->].
  { revert E1. destruct (mc_lightMode cc), (String.eqb_spec (mc_baseDir cc) ""); cbn; intros [= <-]; auto. }
  apply bind_Ok_inv in E as (page & s2 & E2 & E).
  assert (s2 = s) as ->.
  { revert E2. destruct (indexPage cc =? "")%string; [by ran|]. intros E2%wrapE_Ok_inv. by injection E2 as _ <-. }
  apply bind_Ok_inv in E as (gs' & s3 & E3%wrapE_Ok_inv & E).
  apply bind_Ok_inv in E as ([] & s4 & E4%wrapE_Ok_inv & E). unfold liftR in E4. simplify_eq. injection E as <- <- <-.
  split_and!; eauto.
Qed.

(** The files per network and the safe depth fit the producers. *)
Lemma serverFor_cfg cc page :
  0 <= mc_reOrgSafeDepth cc <= 10000000 ->
  let c := so_cfg (serverFor cc page) in
  0 <= sv_reOrgSafeDepth c <= 10000000 /\ 0 < headersPerFile c <= 10000000 /\
  0 < filtersPerFile c <= 10000000 /\ 0 < spTweaksPerFile c <= 10000000 /\
  Z.rem (headersPerFile c) (filtersPerFile c) = 0.
Proof.
  intros Hd. destruct cc as [[t1 t2 sg rg] ? ? ? ? ? ? ? ? ? d ? ? ?]. cbn in Hd. unfold serverFor, resolveNetwork. cbn.
  destruct t1, t2, sg, rg, (Z.eqb_spec d defaultMainnetReOrgSafeDepth); cbn;
    unfold defaultTestnetReOrgSafeDepth; split_and!; (reflexivity || done || lia).
Qed.

(** What the server knows of the flags. *)
Definition so_flags (o : serverOptions) cc : Prop :=
  lightMode (so_cfg o) = mc_lightMode cc /\ sv_baseDir (so_cfg o) = mc_baseDir cc /\
  indexSPTweakData o = mc_indexSPTweakData cc /\ indexCustomFilters o = mc_indexCustomFilters cc.


Lemma same_snd {A B} : PreOrder (fun s s' : A * B => s'.2 = s.2).
Proof. split; [done|]. by intros x y z -> ->. Qed.

(** C39: without [--fix] the verify command never writes: whatever its flags are,
    whatever it finds and however it ends, every file is as it was. *)
Theorem verifyCommand_only_reads cc temp fuel w fs r w' fs' :
  verifyCommand cc false temp fuel (w, fs) = (r, (w', fs')) -> fs' = fs.
Proof.
  assert (keeps (fun s s' => s'.2 = s.2) (verifyCommand cc false temp fuel)) as K; [|intros E; exact (K _ _ _ E)].
  pose proof (same_snd : PreOrder (fun s s' : W * FS => s'.2 = s.2)).
  apply keeps_bind; [done|destruct (_ =? _)%string; auto with go|intros _].
  apply keeps_bind; [done|auto with go|intros url].
  apply keeps_bind; [done|apply keeps_wrapE|intros _].
  - intros s r1 s1. unfold zoom. destruct (rpcclient_New s.1). by intros [= _ <-].
  - intros s r1 s1. destruct (runVerify _ _ _) as [r2 v] eqn:E. intros [= _ <-].
    apply runVerify_only_reads in E as ->; [done|]. unfold verifierFor. by destruct (resolveNetwork _ _) as [[? [[? ?] ?]] ?].
Qed.
End Commands.

(** *** Witnesses *)

#[export] Instance toy_params : ChainParams := {|
  params_Net := fun n => match n with MainNetParams => 1 | TestNet3Params => 2 | TestNet4Params => 3 | SigNetParams => 4 | RegressionNetParams => 5 end;
  params_GenesisHash := fun _ => zero_hash;
  params_Name := fun _ => "toy"
|}.

(** The server on the regression test network, over the
    header files of the examples. *)
Definition toy_command : mainCommand :=
  mkMain (mkFlags false false false true) false false false 1024 "/b" "/" "info" "" ":8080" 6 0 0 (mkConn "host" "" "" true true).

Example toy_command_line :
  parseFlags "/" [("regtest", "true"); ("base-dir", "/b"); ("listen-addr", ":8080"); ("bitcoind-host", "host");
                  ("read-timeout", "0"); ("write-timeout", "0")]%string
  = Some toy_command.
Proof. reflexivity. Qed.


(** A corrupt file of the regression test network is reported and left. *)
Lemma verifyCommand_only_reads_witness :
  (verifyCommand toy_command false (fun _ name => (name ++ ".tmp")%string) 3 (v_world vt_corrupt, v_fs vt_corrupt)).2.2
  = v_fs vt_corrupt.
Proof.
  destruct (verifyCommand toy_command false (fun _ name => (name ++ ".tmp")%string) 3 (v_world vt_corrupt, v_fs vt_corrupt))
    as [r [w fs]] eqn:E.
  exact (verifyCommand_only_reads toy_command _ _ _ _ r w fs E).
Defined.
